(* ===== verification/_CoqProject ===== *)
-Q . S2P
Prelude.v
StdMap.v
CString.v
Utils.v
Files.v
MessageLayout.v
Message.v
MessageTyping.v
Stream.v
StreamESP32.v
Lokdef.v
Zsp.v
Zpp.v
ZppProps.v
Sound.v
SoundProps.v
SoundCard.v
Hardware.v
ParseExpr.v
Platine.v
K8055.v
USBDigispark.v
Boards.v
Putzlok.v
MonsterShield.v
RaspiPWM.v
Srcp.v
ESP32MAS.v
Player.v
ESP32PWM.v
Shields.v
ClientThread.v
ClientSafety.v
ClientProps.v
Races.v
ClientX11.v
Server.v
SketchESP32.v
Startup.v
ControlClient.v
ControlProps.v
GuiViews.v
GuiProps.v
Railway.v
Thread.v
