(* ===== verification/Prelude.v ===== *)
(** * btcontrol: a verification library for the model railway server

    btcontrol drives model locomotives.  A server (src/bluetoothserver, and the
    same sources on an ESP32 in src/esp32-server/btcontrol) keeps a table of
    locomotives, listens for clients, and turns their commands into calls of a
    hardware driver.  Phones and a handheld controller
    (src/control-esp32/src) are the clients.  Both sides exchange messages
    whose fields are described by a text file, protocol.dat.

    ** Parts and how they interact

    A connection carries bytes; [CommThread] cuts them into frames; a frame is
    decoded into a tree of fields with the layout of its message type; the
    client thread of the server executes the command on the locomotive table,
    answers with the changes since its last answer, and afterwards calls the
    driver for every locomotive it changed.  All client threads share the table
    and the driver.  The driver writes to a motor board, to pins, or to an SRCP
    daemon.  The controller applies the answers to its own copy of the table
    and produces commands from its knob.

    ** Files

    Foundations
    - Prelude: results of C++ code ([outcome]: return, exception, abort, no
      defined behaviour), the state and error monad [M] with its rules
      ([wp], [preserves], [keeps]), machine integers, bytes
    - StdMap: std::map and std::multimap as ordered association lists
    - CString: string functions of the C++ and C libraries
    - Utils: utils.cpp (trim, stoi, startsWith, endsWith) and Config; Files: its
      readFile and writeFile

    Messages
    - MessageLayout: message_layout.cpp (parser and table of protocol.dat)
    - Message: fbtctl_message.cpp (tree, accessors, encoder, decoder);
      MessageTyping: what the decoder accepts
    - Stream: ClientStream.h as a class with laws, tcpclient.cpp and myRead as
      an instance, the framing of CommThread.cpp as a client of the class
    - StreamESP32: two more instances, tcpclient.cpp of the ESP32 over the
      Arduino WiFiClient (a class with laws) and BTClient.cpp over the
      Bluetooth serial port, with its timeouts

    Server
    - Lokdef: lokdef.cpp (table, search, lokdef.csv reader)
    - Hardware: Hardware.h as the class [Hardware]; what the server relies on
      is the class [HardwareLaws]
    - ClientThread: clientthread.cpp, every command, the reply bookkeeping,
      driving, greeting, the main loop and the destructor
    - ClientSafety: all of it keeps the invariant of the tables; ClientProps:
      what the commands do
    - Races: the speed commands of clientthread.cpp load by load and store by
      store, the threads of all clients interleaved between any two accesses
    - ClientX11: clientthread_X11.cpp, the thread that presses keys instead of
      driving, compared with the one above
    - Server: server.cpp, any number of clients as a step relation
    - Startup: main.cpp and the end of server.cpp: configuration, the choice of
      the driver, signals, cancelled threads and the wait for them
    - SketchESP32: btcontrol.ino and the built-in files of utils_esp32.cpp: the
      same client threads as FreeRTOS tasks over the ESP32 driver and its player

    Sound of the Linux server
    - Zsp: zsp.cpp, unquote.hpp (project reader); Zpp: zpp2zsp.cpp (converter
      from decoder images to projects); ZppProps: the two composed
    - Sound: sound.cpp, reader.h (wav files, resampling, the engine sound loops
      turn by turn, function sounds); SoundProps: its theorems
    - SoundCard: the rest of sound.cpp: a [Sound] object over ALSA from opening to
      the destructor, the boiler and electric motor loops, the master volume;
      float is IEEE binary32

    Drivers, each an instance of [Hardware] with a proof of [HardwareLaws]
    - ParseExpr: ParseExpr.cpp (expressions for output pins)
    - Platine: USBPlatine.cpp over the class [Platine] of its subclasses
    - K8055, USBDigispark, RaspiPWM: the subclasses of those names
    - Putzlok, MonsterShield: the other end of the wire, putzlok.ino with the
      driver composed with it, and monster_shield.ino; Boards: what both share
    - Srcp: srcp.cpp
    - ESP32MAS: ESP32_MAS.cpp, ESP32_MAS_Speed.cpp, the EEPROM settings of
      utils_esp32.cpp; Player: the player task, [ESP32_MAS::run], with the
      contents of the files and the bytes it writes; ESP32PWM: ESP32PWM.cpp;
      Shields: the same with the two motors of the cleaning locomotive, and with
      the DRV8871.  ESP32PWM changes the table,
      so it shares [platine_sendLoco] with Platine instead of being one

    Controller
    - ControlClient: ControlClientThread.cpp, remoteLokdef.cpp and the speed
      control of GuiView.cpp; ControlProps: its theorems
    - GuiViews: the views of GuiView.cpp as a state machine: which view is
      shown, the handlers of the buttons, the loop of every view, the WiFi scan
      of RefreshWifiThread.cpp, the turn of btcontrol.cpp; GuiProps: its theorems
    - Railway: controller, socket, server and driver in one loop

    Threads
    - Thread: Thread.cpp as a step relation of the caller, the system and the
      threads of one object

    State is explicit: a C++ object is a record, a method is a computation in
    [M] over the record of the object or of the objects it touches; [zoom] runs
    a method of a member.  An uninitialised member is [None], and reading it is
    an error with no defined behaviour, as are an index out of range, a null
    pointer and a signed overflow; they are values, so that theorems can say
    that they do not occur, or when they do.

    ** What is shown

    - Messages.  What is encoded is decoded again, to a message without fields
      where the layout has none, as for PING ([wire_roundtrip]); any bytes
      decode to a message or an exception ([decode_any_bytes]), the message has
      the fields and types of its layout ([decode_typed]) and its bytes are the
      ones the encoder writes ([decode_canonical]); what is
      read back from the text of any field list of protocol.dat, which is the
      list itself when nothing follows an array ([parse_print_layout]), and from
      a lokdef.csv within the limits of its arrays ([lokdef_roundtrip]); type
      numbers are stable ([type_id_identifies_layout]); a conversation of messages that
      have the fields of their layouts and fit into a frame arrives in
      order over every stream that satisfies the laws, which TCPClient does
      however the kernel cuts the bytes ([conversation_delivered],
      [read_independent_of_pieces]); a message too long for a frame is sent and
      refused ([long_message_lost]).
    - Server.  Whatever message arrives, the table stays in order, and no table
      is indexed out of range, with every driver that satisfies the laws
      ([process_keeps_tables]); the same for any number of clients in any order
      ([server_invariant]); when the last client has gone, everything was told
      to stop ([no_client_no_motion]); each command does what it should
      ([speed_commands], [multi_commands], [dir_command], [drive_effect]); the
      delta encoded answers keep a client informed
      ([status_reply_syncs_client]).  Access by access, one thread does what the
      command does ([undisturbed_command], [multi_undisturbed]), and of several
      with commands for one locomotive the speed is in
      range again when they are done, if nobody brakes or nobody accelerates
      ([settled_in_range]).  The thread with keys answers as the other
      one does, but for three commands ([x11_like_thread]).
    - Start and end.  Which board is driven and what is left of the table
      ([board_chosen]); the driver is deleted after the last client and the full
      stop ([shutdown_safe]); after a signal every order in which the threads leave
      ends the process ([shutdown_ends]), if no client comes afterwards
      ([late_client_stays]) and two errors did not occur ([exit_blocked]).
    - ESP32.  From power-on, with all tasks in any order, the motor is not
      reversed under power and everything is quiet when nobody is connected
      ([sketch_safe]); a lost client stops the motor ([leaving_stops]); web requests
      are answered ([web_answered]); the network is waited for ([wifi_retries]).
    - Drivers.  What each board or daemon is told for a speed, a direction, a
      function and a stop ([sendLoco_sets_outputs], [k8055_drive],
      [digispark_in_sync], [srcp_fullstop_reaches], [esp_drive]), that the motor
      boards stay inside their buffers and end up where the driver wants them,
      down to the pins ([firmware_safe], [driver_moves_motor], [shield_follows]), that the
      ESP32 never reverses a running motor ([no_abrupt_reversal],
      [cleaner_no_reversal], [drv_one_input]), that engine
      sounds follow the speed and are mixed exactly ([engine_sound_follows],
      [mixer_exact]): the bytes the player writes are the samples of the right
      files without a gap ([engine_heard]), with the horn added once
      ([horn_over_engine]), and the player ends ([player_ends]).
    - Sound.  A project made from a decoder image is read back, and its engine
      is loaded with the steps, samples and limits of the image
      ([zpp_project_read], [zpp_engine_loaded]); wav files give their samples
      ([wav_file_loaded], [resample_interpolates]); the engine sound follows the
      speed, ends, and stays inside its tables ([engine_loop_follows],
      [engine_loop_ends], [engine_sound_safe]); devices are closed once
      ([sound_released]), the motor reads inside its sound ([emotor_runs]), the
      volume is read back up to rounding ([volume_kept]).
    - Controller.  Its copy of the table follows the server
      ([controller_follows_server]).  Over all clicks, turns, scans, replies and
      exceptions the view machine keeps its invariant ([gui_invariant]); the
      highlighted network is the one connected ([selection_connects]), the list
      of locomotives is never left ([choosing_in_list]), a lost server is given
      up ([reconnect_gives_up]), switching off stops the train
      ([power_down_stops]), and the knob of the view is the one of the
      connection ([follow_knob_refines]).
    - Threads and streams of the ESP32.  One object never runs two threads if
      its caller is careful ([thread_exclusive]), cancelling ends the thread
      ([cancel_stops]); the Bluetooth stream never hangs in the first 24 days
      ([bt_read_in_time]), the WiFi stream takes complete frames and refuses
      those in pieces ([partial_frame_refused]).
    - The railway.  Knob, command, socket, server, driver and answer composed:
      the loop settles at the position of the knob, and then only PINGs go
      to and fro ([system_settles]).
    - Defects.  Where the code does something else than it means to, a theorem
      states what it does; among them [k8055_emergency_undone],
      [digispark_stop_lost], [functions_read_as_off], [few_functions_undefined],
      [loud_mix_wraps], [fields_after_array_dropped], [string_length_limit],
      [dset_name_unreadable], [full_speed_keeps_step], [restart_race],
      [power_down_leaves_handler], [connect_again_aborts], [exit_blocked],
      [empty_table_overrun], [x11_pom_unanswered], [glitch_leaves_motor_off],
      [flicker_overflows], [reconnect_mutes], [speed_runs_away],
      [racing_speed_aborts], [reversed_while_moving], [missing_horn_stops],
      [failed_setup_closes_twice], [boiler_never_ends], [volume_drifts],
      [putz_refused_standing], [proc_read_padded], [long_message_lost],
      [multi_copies_unclamped], [late_client_stays], [bt_clock_overflows],
      [bt_timeout_at_once].

    ** Fuel and bounds

    Loops that are not structural carry fuel, and a result [OutOfFuel] is
    proved not to occur: [parse_fields] gets the length of the text, as every
    round consumes a character; [myRead] gets the number of bytes wanted, as
    every read returns at least one or ends the loop; [getResult] gets the
    length of the expression, as the operands are shorter; the pin loop of
    RaspiPWM gets the number of entries; the chunk loop of the wav reader gets
    the length of the file, as every chunk has a header; the search loops of the table run over
    its elements.  The loop for files of /proc
    gets the length of the file, as every block but the last has 1024 bytes;
    the rounds of the player are an argument, and [player_ends] says after how many
    it has left its loop.  [system_settles] needs 51 rounds because a round changes the
    speed by 5 out of 255.  Requests and networks that are waited for are lists
    of what every round finds, and the theorems say for which of them the loops
    end ([web_answered], [wifi_retries]).  [digispark_in_sync] asks for three turns of the
    comm thread after a command, the number it needs for one command.

    ** What is not modelled

    - Concurrency inside one message is modelled for the speed commands of one
      locomotive (Races); everywhere else threads are interleaved between
      messages, although the code takes no lock on the table while it handles
      one.  Of the MULTI commands the race of ACC_MULTI with ACC is an example
      ([multi_copies_unclamped]); there is no invariant for them.
    - In the views, the GETIMAGE query with which drawCachedImage fills the image
      cache, and with the system composed in Railway the battery queries (POM).
    - Builds: without INCL_BT (Bluetooth); the drivers without ALSA, the sound
      files with it; RaspiPWM with wiringPi, the controller with DISABLE_FUNC_IMGNAME
      and, for the views, without HAVE_BLUETOOTH, the ESP32 with
      the settings of config-sample-playmobillok.h (Shields: two others), an access point and a
      network (without SOFTAP); the client threads of the sketch are those of
      Linux, which greet with another name and accelerate in steps of 5
      ([SPEED_STEP]) where config-sample-playmobillok.h has 10;
      main.cpp with HAVE_LIBUSB and HAVE_RASPI_WIRINGPI.
    - Logging, sockets and pthreads beyond what the state of an object shows,
      device opening, drawing, the image cache, over-the-air updates, Bluetooth
      pairing, setting up the I2S port, the pause between two
      strokes of a steam engine (sin and pow).
    - The evaluation order C++ leaves open is the order of the text; unaligned
      reads of an int are the little endian reads of the supported machines;
      double arithmetic is exact rational arithmetic, truncated where the code
      converts, with the argument why rounding cannot matter at the
      definitions, except for the floats of SoundCard; [%lf] reads decimal notation.
    - Third-party code: the K8055, wiringPi, motor shield, SPIFFS and EEPROM
      libraries and the SRCP daemon are recorded calls or parameters.
    - Left aside: the tests and experiments (soundtest,
      bluetoothtest, timertest, backemf), vendored tools (ussp-push, avetanabt,
      velleman_usb_k8055, BluetoothSerial beyond the queue reads), fonts and bitmaps. *)

From Stdlib Require Import ZArith Lia.
From Stdlib Require Strings.Byte.
From stdpp Require Export base tactics sets list strings pretty option numbers.

Open Scope Z_scope.

(** ** C++ results

    A C++ function either returns, leaves by an exception, stops the process
    ([abort()], a failed [assert]) or has no defined behaviour at all.  The
    cases are kept apart: [Throw] carries the text of the
    [std::runtime_error].  [OutOfFuel] is not a behaviour of the code: it marks
    a model that was given too little fuel, and the components prove that they
    never reach it. *)

Inductive exn : Type :=
  | Throw (what : string)
  | Abort (what : string)
  | UB (what : string)
  | OutOfFuel.

Inductive outcome (A : Type) : Type :=
  | Ok (a : A)
  | Err (e : exn).
Arguments Ok {A} a.
Arguments Err {A} e.

#[global] Instance exn_eq_dec : EqDecision exn.
Proof. solve_decision. Defined.
#[global] Instance outcome_eq_dec `{EqDecision A} : EqDecision (outcome A).
Proof. solve_decision. Defined.

#[global] Instance outcome_ret : MRet outcome := fun A a => Ok a.
#[global] Instance outcome_bind : MBind outcome := fun A B f o =>
  match o with Ok a => f a | Err e => Err e end.

Lemma outcome_bind_ok {A B} (o : outcome A) (f : A -> outcome B) b :
  o ≫= f = Ok b <-> exists a, o = Ok a /\ f a = Ok b.
Proof. destruct o; cbn; naive_solver. Qed.

(** Code that mutates objects is a state transformer; the state reached when
    an exception leaves the code is kept, as C++ does not roll back. *)
Definition M (S A : Type) : Type := S -> outcome A * S.

#[global] Instance M_ret {S} : MRet (M S) := fun A a s => (Ok a, s).
#[global] Instance M_bind {S} : MBind (M S) := fun A B f c s =>
  match c s with
  | (Ok a, s') => f a s'
  | (Err e, s') => (Err e, s')
  end.

Definition fail {S A} (e : exn) : M S A := fun s => (Err e, s).
Definition throw {S A} (what : string) : M S A := fail (Throw what).
Definition get {S} : M S S := fun s => (Ok s, s).
Definition put {S} (s : S) : M S unit := fun _ => (Ok tt, s).
Definition modify {S} (f : S -> S) : M S unit := fun s => (Ok tt, f s).
Definition gets {S A} (f : S -> A) : M S A := fun s => (Ok (f s), s).
Definition lift {S A} (o : outcome A) : M S A := fun s => (o, s).

Lemma run_bind {S A B} (c : M S A) (f : A -> M S B) s a s' :
  c s = (Ok a, s') -> (c ≫= f) s = f a s'.
Proof. unfold mbind, M_bind. by intros ->. Qed.
Lemma run_bind_err {S A B} (c : M S A) (f : A -> M S B) s e s' :
  c s = (Err e, s') -> (c ≫= f) s = (Err e, s').
Proof. unfold mbind, M_bind. by intros ->. Qed.
Lemma run_lift {S A} (o : outcome A) (a : A) (s : S) : o = Ok a -> lift o s = (Ok a, s).
Proof. by intros ->. Qed.

(** [zoom get set c] runs [c] on a component of the state: a method call on a
    member object. *)
Definition zoom {S T A} (proj : S -> T) (upd : T -> S -> S) (c : M T A) : M S A :=
  fun s => let '(o, t) := c (proj s) in (o, upd t s).

(** [for(x : l) body] with an accumulator. *)
Section folds.
Context {S A B : Type} (f : B -> A -> M S B).
Fixpoint foldM (l : list A) (acc : B) : M S B :=
  match l with
  | [] => mret acc
  | x :: l' => acc' ← f acc x; foldM l' acc'
  end.
End folds.

Section iters.
Context {S A : Type} (f : A -> M S unit).
Fixpoint iterM (l : list A) : M S unit :=
  match l with
  | [] => mret tt
  | x :: l' => f x;; iterM l'
  end.
End iters.

(** ** Weakest preconditions

    [wp c Q E s]: run from [s], [c] returns in a state satisfying [Q] or
    leaves by an exception in a state satisfying [E]. *)
Definition wp {S A} (c : M S A) (Q : A -> S -> Prop) (E : exn -> S -> Prop) (s : S) : Prop :=
  match c s with
  | (Ok a, s') => Q a s'
  | (Err e, s') => E e s'
  end.

Section wp_rules.
Context {S : Type}.
Implicit Types (s : S).

Lemma wp_ret {A} (a : A) (Q : A -> S -> Prop) E s :
  Q a s -> wp (mret a) Q E s.
Proof. done. Qed.

Lemma wp_bind {A B} (c : M S A) (f : A -> M S B) Q E s :
  wp c (fun a => wp (f a) Q E) E s -> wp (c ≫= f) Q E s.
Proof.
  unfold wp, mbind, M_bind. by destruct (c s) as [[a|e] s'].
Qed.

Lemma wp_fail {A} e (Q : A -> S -> Prop) (E : exn -> S -> Prop) s :
  E e s -> wp (fail e) Q E s.
Proof. done. Qed.

Lemma wp_gets {A} (g : S -> A) (Q : A -> S -> Prop) E s :
  Q (g s) s -> wp (gets g) Q E s.
Proof. done. Qed.

Lemma wp_modify (g : S -> S) (Q : unit -> S -> Prop) E s :
  Q tt (g s) -> wp (modify g) Q E s.
Proof. done. Qed.

Lemma wp_lift {A} (o : outcome A) (Q : A -> S -> Prop) (E : exn -> S -> Prop) s :
  (forall a, o = Ok a -> Q a s) -> (forall e, o = Err e -> E e s) -> wp (lift o) Q E s.
Proof. unfold wp, lift. destruct o; eauto. Qed.

Lemma wp_mono {A} (c : M S A) (Q Q' : A -> S -> Prop) (E E' : exn -> S -> Prop) s :
  wp c Q E s ->
  (forall a s', Q a s' -> Q' a s') -> (forall e s', E e s' -> E' e s') ->
  wp c Q' E' s.
Proof. unfold wp. destruct (c s) as [[]]; eauto. Qed.

Lemma wp_conj {A} (c : M S A) (Q Q' : A -> S -> Prop) (E E' : exn -> S -> Prop) s :
  wp c Q E s -> wp c Q' E' s ->
  wp c (fun a s' => Q a s' /\ Q' a s') (fun e s' => E e s' /\ E' e s') s.
Proof. unfold wp. destruct (c s) as [[]]; eauto. Qed.

Lemma wp_foldM {A B} (f : B -> A -> M S B) (I : B -> S -> Prop) E l acc s :
  I acc s ->
  (forall x b s', x ∈ l -> I b s' -> wp (f b x) I E s') ->
  wp (foldM f l acc) I E s.
Proof.
  revert acc s. induction l as [|x l IH]; intros acc s HI Hf; [done|].
  cbn. apply wp_bind. eapply wp_mono; [apply Hf; [set_solver|done]| |done].
  intros b s' Hb. apply IH; [done|]. intros y b' s'' Hy. apply Hf. set_solver.
Qed.

Lemma wp_iterM {A} (f : A -> M S unit) (I : S -> Prop) E l s :
  I s ->
  (forall x s', x ∈ l -> I s' -> wp (f x) (fun _ => I) E s') ->
  wp (iterM f l) (fun _ => I) E s.
Proof.
  revert s. induction l as [|x l IH]; intros s HI Hf; [done|].
  cbn. apply wp_bind. eapply wp_mono; [apply Hf; [set_solver|done]| |done].
  intros [] s' Hb. apply IH; [done|]. intros y s'' Hy. apply Hf. set_solver.
Qed.
End wp_rules.

(** [preserves I c]: [I] is an invariant of [c], on return and on every
    exception. *)
Definition preserves {S A} (I : S -> Prop) (c : M S A) : Prop :=
  forall s, I s -> I (c s).2.

Section preserves_rules.
Context {S : Type} (I : S -> Prop).

Lemma preserves_ret {A} (a : A) : preserves I (mret a).
Proof. by intros s. Qed.
Lemma preserves_fail {A} e : preserves I (fail e : M S A).
Proof. by intros s. Qed.
Lemma preserves_throw {A} e : preserves I (throw e : M S A).
Proof. by intros s. Qed.
Lemma preserves_gets {A} (g : S -> A) : preserves I (gets g).
Proof. by intros s. Qed.
Lemma preserves_lift {A} (o : outcome A) : preserves I (lift o).
Proof. by intros s. Qed.
Lemma preserves_get : preserves I get.
Proof. by intros s. Qed.
Lemma preserves_modify g : (forall s, I s -> I (g s)) -> preserves I (modify g).
Proof. intros H s Hs. cbn. auto. Qed.

Lemma preserves_bind {A B} (c : M S A) (f : A -> M S B) :
  preserves I c -> (forall a, preserves I (f a)) -> preserves I (c ≫= f).
Proof.
  intros Hc Hf s Hs. specialize (Hc s Hs). unfold mbind, M_bind.
  destruct (c s) as [[a|e] s']; cbn in *; [by apply Hf|done].
Qed.

Lemma preserves_foldM {A B} (f : B -> A -> M S B) l acc :
  (forall b x, preserves I (f b x)) -> preserves I (foldM f l acc).
Proof.
  intros Hf. revert acc. induction l as [|x l IH]; intros acc; cbn.
  - apply preserves_ret.
  - by apply preserves_bind.
Qed.

Lemma preserves_iterM {A} (f : A -> M S unit) l :
  (forall x, preserves I (f x)) -> preserves I (iterM f l).
Proof.
  intros Hf. induction l as [|x l IH]; cbn.
  - apply preserves_ret.
  - by apply preserves_bind.
Qed.

Lemma preserves_if {A} (b : bool) (c d : M S A) :
  preserves I c -> preserves I d -> preserves I (if b then c else d).
Proof. by destruct b. Qed.
End preserves_rules.

(** [keeps I E c Q]: [c] maintains the invariant [I]; what it returns
    satisfies [Q], what it throws satisfies [E]. *)
Definition keeps {S A} (I : S -> Prop) (E : exn -> Prop) (c : M S A) (Q : A -> Prop) : Prop :=
  forall s, I s ->
    match c s with
    | (Ok a, s') => I s' /\ Q a
    | (Err e, s') => I s' /\ E e
    end.

Section keeps_rules.
Context {S : Type} (I : S -> Prop) (E : exn -> Prop).

Lemma keeps_ret {A} (a : A) (Q : A -> Prop) : Q a -> keeps I E (mret a) Q.
Proof. by intros HQ s. Qed.
Lemma keeps_fail {A} e (Q : A -> Prop) : E e -> keeps I E (fail e) Q.
Proof. by intros He s. Qed.
Lemma keeps_gets {A} (g : S -> A) (Q : A -> Prop) : (forall s, I s -> Q (g s)) -> keeps I E (gets g) Q.
Proof. intros HQ s Hs. cbn. auto. Qed.
Lemma keeps_lift {A} (o : outcome A) (Q : A -> Prop) :
  (forall a, o = Ok a -> Q a) -> (forall e, o = Err e -> E e) -> keeps I E (lift o) Q.
Proof. intros HQ HE s Hs. unfold lift. destruct o; auto. Qed.
Lemma keeps_modify g (Q : unit -> Prop) : (forall s, I s -> I (g s)) -> Q tt -> keeps I E (modify g) Q.
Proof. intros Hg HQ s Hs. cbn. auto. Qed.
Lemma keeps_bind {A B} (c : M S A) (f : A -> M S B) P Q :
  keeps I E c P -> (forall a, P a -> keeps I E (f a) Q) -> keeps I E (c ≫= f) Q.
Proof.
  intros Hc Hf s Hs. specialize (Hc s Hs). unfold mbind, M_bind.
  destruct (c s) as [[a|e] s']; [|done]. destruct Hc as [Hs' HP]. by apply Hf.
Qed.
Lemma keeps_seq {A B} (c : M S A) (d : M S B) Q :
  keeps I E c (fun _ => True) -> keeps I E d Q -> keeps I E (c;; d) Q.
Proof. intros Hc Hd. eapply keeps_bind; [exact Hc|]. by intros a _. Qed.
Lemma keeps_mono {A} (c : M S A) (P Q : A -> Prop) :
  keeps I E c P -> (forall a, P a -> Q a) -> keeps I E c Q.
Proof.
  intros Hc HPQ s Hs. specialize (Hc s Hs). destruct (c s) as [[a|e] s']; naive_solver.
Qed.
Lemma keeps_iterM {A} (f : A -> M S unit) l :
  (forall x, x ∈ l -> keeps I E (f x) (fun _ => True)) -> keeps I E (iterM f l) (fun _ => True).
Proof.
  intros Hf. induction l as [|x l IH]; cbn; [by apply keeps_ret|].
  apply keeps_seq; [apply Hf; set_solver|]. apply IH. intros y Hy. apply Hf. set_solver.
Qed.
Lemma keeps_foldM {A B} (f : B -> A -> M S B) l acc :
  (forall b x, x ∈ l -> keeps I E (f b x) (fun _ => True)) -> keeps I E (foldM f l acc) (fun _ => True).
Proof.
  intros Hf. revert acc. induction l as [|x l IH]; intros acc; cbn; [by apply keeps_ret|].
  eapply keeps_bind; [apply Hf; set_solver|]. intros b _. apply IH. intros b' y Hy. apply Hf. set_solver.
Qed.
Lemma keeps_invariant {A} (c : M S A) Q s : keeps I E c Q -> I s -> I (c s).2.
Proof. intros Hc Hs. specialize (Hc s Hs). by destruct (c s) as [[a|e] s']; destruct Hc. Qed.
End keeps_rules.

Lemma iterM_app {S A} (f : A -> M S unit) l1 l2 s : iterM f (l1 ++ l2) s = (iterM f l1;; iterM f l2) s.
Proof.
  revert s. induction l1 as [|x l1 IH]; intros s; [done|]. cbn. unfold mbind, M_bind. destruct (f x s) as [[]]; [|done]. apply IH.
Qed.

Create HintDb btc discriminated.
#[export] Hint Resolve preserves_ret preserves_fail preserves_throw preserves_gets
  preserves_lift preserves_get preserves_bind preserves_foldM preserves_iterM
  preserves_if : btc.
#[export] Hint Constants Transparent : btc.

(** ** Machine integers *)

Definition wrap32 (z : Z) : Z := (z + 2^31) mod 2^32 - 2^31.
Definition int32b (z : Z) : bool := (- 2^31 <=? z) && (z <? 2^31).
Definition is_int32 (z : Z) : Prop := - 2^31 <= z < 2^31.
(** conversion to [unsigned char] *)
Definition u8 (z : Z) : Z := z mod 256.

Lemma int32b_spec z : int32b z = true <-> is_int32 z.
Proof. unfold int32b, is_int32. rewrite andb_true_iff, Z.leb_le, Z.ltb_lt. lia. Qed.

Lemma wrap32_range z : is_int32 (wrap32 z).
Proof.
  unfold is_int32, wrap32. pose proof (Z.mod_pos_bound (z + 2^31) (2^32)). lia.
Qed.

Lemma wrap32_id z : is_int32 z -> wrap32 z = z.
Proof. unfold is_int32, wrap32. intros H. rewrite Z.mod_small; lia. Qed.

Lemma u8_range z : 0 <= u8 z < 256.
Proof. unfold u8. apply Z.mod_pos_bound. lia. Qed.

Lemma u8_id z : 0 <= z < 256 -> u8 z = z.
Proof. unfold u8. apply Z.mod_small. Qed.

(** ** Bytes and their little endian encodings *)

Abbreviation byte := Corelib.Init.Byte.byte.

Definition Z_of_byte (b : byte) : Z := Z.of_N (Strings.Byte.to_N b).
Definition byte_of_Z (z : Z) : byte :=
  match Strings.Byte.of_N (Z.to_N (u8 z)) with Some b => b | None => Corelib.Init.Byte.x00 end.

#[global] Instance byte_eq_dec : EqDecision byte := Strings.Byte.byte_eq_dec.

Lemma Z_of_byte_range b : 0 <= Z_of_byte b < 256.
Proof.
  unfold Z_of_byte. pose proof (Strings.Byte.to_N_bounded b). lia.
Qed.

Lemma Z_of_byte_of_Z z : Z_of_byte (byte_of_Z z) = u8 z.
Proof.
  unfold Z_of_byte, byte_of_Z. pose proof (u8_range z) as Hr.
  destruct (Strings.Byte.of_N (Z.to_N (u8 z))) eqn:E.
  - rewrite (Strings.Byte.to_of_N _ E). lia.
  - apply Strings.Byte.of_N_None_iff in E. lia.
Qed.

Lemma byte_of_Z_of_byte b : byte_of_Z (Z_of_byte b) = b.
Proof.
  unfold byte_of_Z. rewrite u8_id by apply Z_of_byte_range.
  unfold Z_of_byte. rewrite N2Z.id. by rewrite Strings.Byte.of_to_N.
Qed.

(** the first [n] bytes of the object representation of an [int] *)
Fixpoint le_bytes (n : nat) (z : Z) : list byte :=
  match n with
  | O => []
  | S n' => byte_of_Z z :: le_bytes n' (z / 256)
  end.

Fixpoint le_value (l : list byte) : Z :=
  match l with
  | [] => 0
  | b :: l' => Z_of_byte b + 256 * le_value l'
  end.

Lemma length_le_bytes n z : length (le_bytes n z) = n.
Proof. revert z. induction n; intros; cbn; auto. Qed.

Lemma le_value_bytes n z : le_value (le_bytes n z) = z mod 256 ^ Z.of_nat n.
Proof.
  revert z. induction n as [|n IH]; intros z.
  - cbn. by rewrite Z.mod_1_r.
  - cbn [le_bytes le_value]. rewrite IH, Z_of_byte_of_Z. unfold u8.
    rewrite Nat2Z.inj_succ, Z.pow_succ_r by lia.
    rewrite Z.rem_mul_r by (try apply Z.pow_pos_nonneg; lia). lia.
Qed.

(** reading four bytes through an [int *] *)
Lemma int32_le_roundtrip z : is_int32 z -> wrap32 (le_value (le_bytes 4 z)) = z.
Proof.
  intros H. rewrite le_value_bytes. change (256 ^ Z.of_nat 4) with (2^32).
  unfold wrap32. rewrite Z.add_mod_idemp_l by lia. by apply wrap32_id.
Qed.
