(* ===== verification/StdMap.v ===== *)
(** * std::map and std::multimap keyed by std::string

    The containers the server keeps its layouts, struct fields and
    configuration in.  A map is the list of its pairs in iteration order:
    strictly ascending keys for [std::map], ascending keys with equal keys in
    insertion order for [std::multimap].  Two maps with the same entries are
    then equal ([smap_ext]). *)

From Stdlib Require Import Sorted.
From S2P Require Import Prelude.

Definition smap (V : Type) : Type := list (string * V).

(** [std::less<std::string>] *)
Definition str_lt (a b : string) : Prop := String.compare a b = Lt.

#[global] Instance str_lt_dec a b : Decision (str_lt a b).
Proof. unfold str_lt. apply _. Defined.

Section smap.
Context {V : Type}.
Implicit Types (m : smap V) (k : string) (v : V).

(** [m.find(k)] *)
Fixpoint smap_find (k : string) (m : smap V) : option V :=
  match m with
  | [] => None
  | (k', v) :: m' => if decide (k = k') then Some v else smap_find k m'
  end.

(** [m[k] = v] *)
Fixpoint smap_set (k : string) (v : V) (m : smap V) : smap V :=
  match m with
  | [] => [(k, v)]
  | (k', v') :: m' =>
      match String.compare k k' with
      | Lt => (k, v) :: m
      | Eq => (k, v) :: m'
      | Gt => (k', v') :: smap_set k v m'
      end
  end.

(** [m[k]] as an expression: value initialises a missing entry *)
Definition smap_index (dflt : V) (k : string) (m : smap V) : V * smap V :=
  match smap_find k m with
  | Some v => (v, m)
  | None => (dflt, smap_set k dflt m)
  end.

(** [mm.insert({k,v})]: at the upper bound of the equal keys *)
Fixpoint mmap_insert (k : string) (v : V) (m : smap V) : smap V :=
  match m with
  | [] => [(k, v)]
  | (k', v') :: m' =>
      match String.compare k k' with
      | Lt => (k, v) :: m
      | _ => (k', v') :: mmap_insert k v m'
      end
  end.

(** [mm.equal_range(k)] *)
Definition mmap_range (k : string) (m : smap V) : list V :=
  snd <$> filter (fun kv => kv.1 = k) m.
End smap.

Section order.
Implicit Types (a b c : string).

Lemma str_lt_irrefl a : ~ str_lt a a.
Proof.
  unfold str_lt. pose proof (String.compare_antisym a a) as H.
  by destruct (String.compare a a).
Qed.

Lemma str_compare_refl a : String.compare a a = Eq.
Proof.
  pose proof (String.compare_antisym a a) as H.
  by destruct (String.compare a a).
Qed.

Lemma str_compare_gt a b : String.compare a b = Gt -> str_lt b a.
Proof. unfold str_lt. rewrite String.compare_antisym. by destruct (String.compare b a). Qed.

Lemma str_lt_leb a b : str_lt a b -> String.le a b /\ a <> b.
Proof.
  intros H. split.
  - unfold String.le, String.leb. unfold str_lt in H. by rewrite H.
  - intros ->. by apply str_lt_irrefl in H.
Qed.

Lemma leb_str_lt a b : String.le a b -> a <> b -> str_lt a b.
Proof.
  unfold String.le, String.leb, str_lt. destruct (String.compare a b) eqn:E; try done.
  by apply String.compare_eq_iff in E.
Qed.

Lemma str_lt_trans a b c : str_lt a b -> str_lt b c -> str_lt a c.
Proof.
  intros Hab Hbc. pose proof Hab as Hab'.
  apply str_lt_leb in Hab as [H1 N1]. apply str_lt_leb in Hbc as [H2 N2].
  apply leb_str_lt; [by etrans|]. intros ->.
  apply N1. by apply (anti_symm String.le).
Qed.
End order.

#[global] Instance str_lt_Transitive : Transitive str_lt.
Proof. intros a b c. apply str_lt_trans. Qed.

(** Strictly ascending keys: the representation invariant of [std::map]. *)
Definition smap_wf {V} (m : smap V) : Prop := StronglySorted str_lt m.*1.

Section smap_theory.
Context {V : Type}.
Implicit Types (m : smap V) (k : string) (v : V).

Lemma smap_wf_nil : smap_wf (@nil (string * V)).
Proof. constructor. Qed.

Lemma smap_find_set_eq k v m : smap_find k (smap_set k v m) = Some v.
Proof.
  induction m as [|[k' v'] m IH]; cbn; [by rewrite decide_True|].
  destruct (String.compare k k') eqn:E; cbn; try by rewrite decide_True.
  rewrite decide_False; [done|].
  intros ->. by rewrite str_compare_refl in E.
Qed.

Lemma smap_find_set_ne k k' v m :
  k <> k' -> smap_find k' (smap_set k v m) = smap_find k' m.
Proof.
  intros Hne. induction m as [|[k0 v0] m IH]; cbn; [by rewrite decide_False|].
  destruct (String.compare k k0) eqn:E; cbn.
  - apply String.compare_eq_iff in E as ->. by rewrite !decide_False.
  - by rewrite (decide_False (P:=k' = k)).
  - by rewrite IH.
Qed.

Lemma smap_find_set k k' v m :
  smap_find k' (smap_set k v m) = if decide (k = k') then Some v else smap_find k' m.
Proof.
  case_decide; subst; [apply smap_find_set_eq|by apply smap_find_set_ne].
Qed.

Lemma smap_keys_set k v m x : x ∈ (smap_set k v m).*1 <-> x = k \/ x ∈ m.*1.
Proof.
  induction m as [|[k0 v0] m IH]; cbn; [set_solver|].
  destruct (String.compare k k0) eqn:E; cbn.
  - apply String.compare_eq_iff in E as ->. set_solver.
  - set_solver.
  - set_solver.
Qed.

Lemma smap_find_Some k m : is_Some (smap_find k m) <-> k ∈ m.*1.
Proof.
  induction m as [|[k0 v0] m IH]; cbn.
  - split; [by intros []|set_solver].
  - case_decide; subst; [split; [set_solver|eauto]|]. rewrite IH. set_solver.
Qed.

Lemma smap_find_elem k v m : smap_find k m = Some v -> (k, v) ∈ m.
Proof.
  induction m as [|[k0 v0] m IH]; cbn; [done|].
  case_decide; intros; simplify_eq; set_solver.
Qed.

Lemma smap_wf_set k v m : smap_wf m -> smap_wf (smap_set k v m).
Proof.
  unfold smap_wf. induction m as [|[k0 v0] m IH]; intros Hs; cbn.
  - repeat constructor.
  - inversion Hs as [|? ? Hs' Hall]; subst.
    destruct (String.compare k k0) eqn:E; cbn.
    + apply String.compare_eq_iff in E as ->. by constructor.
    + constructor; [by constructor|]. constructor; [done|].
      eapply Forall_impl; [|done]. intros x Hx. by eapply str_lt_trans.
    + constructor; [by apply IH|]. apply list.Forall_forall. intros x Hx.
      apply smap_keys_set in Hx as [->|Hx]; [by apply str_compare_gt|].
      by eapply list.Forall_forall in Hall.
Qed.

Lemma smap_wf_tail kv m : smap_wf (kv :: m) -> smap_wf m.
Proof. unfold smap_wf. cbn. intros H. by inversion H. Qed.

Lemma smap_wf_head k v m : smap_wf ((k, v) :: m) -> smap_find k m = None.
Proof.
  unfold smap_wf. cbn. intros H. inversion H as [|? ? _ Hall]; subst.
  destruct (smap_find k m) eqn:E; [|done].
  assert (k ∈ m.*1) as Hk by (apply smap_find_Some; eauto).
  exfalso. eapply list.Forall_forall in Hall; [|done]. by eapply str_lt_irrefl.
Qed.

Lemma smap_find_in k v m : smap_wf m -> (k, v) ∈ m -> smap_find k m = Some v.
Proof.
  induction m as [|[k0 v0] m IH]; intros W Hin; [set_solver|]. cbn. apply elem_of_cons in Hin as [[= <- <-]|Hin].
  - by rewrite decide_True.
  - pose proof (IH (smap_wf_tail _ _ W) Hin) as F. case_decide as D; [|done]. subst.
    by rewrite (smap_wf_head _ _ _ W) in F.
Qed.

Lemma smap_find_lt k k0 m :
  Forall (str_lt k0) m.*1 -> str_lt k k0 \/ k = k0 -> smap_find k m = None.
Proof.
  intros Hall Hlt. destruct (smap_find k m) eqn:E; [|done].
  assert (k ∈ m.*1) as Hk by (apply smap_find_Some; eauto).
  exfalso. eapply list.Forall_forall in Hall; [|done].
  destruct Hlt as [Hlt| ->]; [|by eapply str_lt_irrefl].
  eapply str_lt_irrefl. by eapply str_lt_trans.
Qed.

(** Maps with the same entries are the same map. *)
Lemma smap_ext m1 m2 :
  smap_wf m1 -> smap_wf m2 -> (forall k, smap_find k m1 = smap_find k m2) -> m1 = m2.
Proof.
  revert m2. induction m1 as [|[k1 v1] m1 IH]; intros [|[k2 v2] m2] W1 W2 E; [done|..].
  - specialize (E k2). cbn in E. by rewrite decide_True in E.
  - specialize (E k1). cbn in E. by rewrite decide_True in E.
  - inversion W1 as [|? ? W1' A1]; inversion W2 as [|? ? W2' A2]; subst.
    destruct (String.compare k1 k2) eqn:C.
    + apply String.compare_eq_iff in C as ->.
      pose proof (E k2) as E2. cbn in E2. rewrite !decide_True in E2 by done. simplify_eq.
      f_equal. apply IH; [done..|]. intros k. specialize (E k). cbn in E.
      case_decide; [|done]. subst.
      by rewrite (smap_find_lt k2 k2 m1), (smap_find_lt k2 k2 m2) by eauto.
    + specialize (E k1). cbn in E. rewrite decide_True in E by done.
      rewrite decide_False in E by (intros ->; by eapply str_lt_irrefl).
      rewrite (smap_find_lt k1 k2) in E by eauto. done.
    + apply str_compare_gt in C.
      specialize (E k2). cbn in E. rewrite (decide_True (P:=k2 = k2)) in E by done.
      rewrite decide_False in E by (intros ->; by eapply str_lt_irrefl).
      rewrite (smap_find_lt k2 k1) in E by eauto. done.
Qed.

Lemma smap_set_self k v m : smap_wf m -> smap_find k m = Some v -> smap_set k v m = m.
Proof.
  intros W H. apply smap_ext; [by apply smap_wf_set|done|].
  intros k'. rewrite smap_find_set. case_decide; by subst.
Qed.

Lemma smap_set_set k v v' m : smap_wf m -> smap_set k v (smap_set k v' m) = smap_set k v m.
Proof.
  intros W. apply smap_ext; [by repeat apply smap_wf_set..|].
  intros k'. rewrite !smap_find_set. by case_decide.
Qed.
End smap_theory.

Lemma smap_find_map {V W} (f : V -> W) k (m : smap V) :
  smap_find k (map (fun kv => (kv.1, f kv.2)) m) = f <$> smap_find k m.
Proof. induction m as [|[k' v] m IH]; [done|]. cbn. by case_match. Qed.

Lemma smap_keys_map {V W} (f : V -> W) (m : smap V) : (map (fun kv => (kv.1, f kv.2)) m).*1 = m.*1.
Proof. induction m as [|[k v] m IH]; [done|]. cbn. by rewrite IH. Qed.

(** Decision procedure for [smap_wf]: adjacent keys ascend. *)
Fixpoint smap_wfb {V} (m : smap V) : bool :=
  match m with
  | [] => true
  | (k, _) :: m' =>
      match m' with
      | [] => true
      | (k', _) :: _ => bool_decide (str_lt k k') && smap_wfb m'
      end
  end.

Lemma smap_wfb_spec {V} (m : smap V) : smap_wfb m = true <-> smap_wf m.
Proof.
  induction m as [|[k v] m IH]; [split; [constructor|done]|].
  destruct m as [|[k' v'] m]; [split; [repeat constructor|done]|].
  change (smap_wfb ((k, v) :: (k', v') :: m)) with
    (bool_decide (str_lt k k') && smap_wfb ((k', v') :: m)).
  rewrite andb_true_iff, bool_decide_eq_true, IH. unfold smap_wf. cbn.
  split.
  - intros [Hlt Hs]. constructor; [done|]. inversion Hs; subst.
    constructor; [done|]. eapply Forall_impl; [|done]. intros x Hx. by etrans.
  - intros Hs. inversion Hs as [|? ? Hs' Hall]; subst. by inversion Hall.
Qed.

#[export] Hint Resolve smap_wf_nil smap_wf_set : btc.

Lemma smap_elem_find {V} k (v : V) m : smap_wf m -> (k, v) ∈ m -> smap_find k m = Some v.
Proof.
  induction m as [|[k0 v0] m IH]; intros W He; [by apply elem_of_nil in He|].
  cbn. apply elem_of_cons in He as [He|He]; simplify_eq; [by rewrite decide_True|].
  pose proof (smap_wf_tail _ _ W) as W'. specialize (IH W' He).
  rewrite decide_False; [done|]. intros ->.
  apply smap_wf_head in W. congruence.
Qed.
