(* ===== verification/CString.v ===== *)
(** * The C and C++ string library, as far as the sources use it

    [std::string] is [string]; a NUL terminated [const char *] is the [string]
    up to the terminator, so that dereferencing a pointer at the end of the
    text reads NUL.  Pointers that walk a text are modelled by the rest of the
    text they point to. *)

From Stdlib Require Import Ascii.
From S2P Require Import Prelude.

Definition NUL : ascii := Ascii.zero.
Definition chr (c : ascii) : Z := Z.of_N (N_of_ascii c).
Definition newline : ascii := "010"%char.

(** the character [pos] points to *)
Definition deref (s : string) : ascii :=
  match s with EmptyString => NUL | String c _ => c end.

(** [pos + 1] *)
Definition advance (s : string) : string :=
  match s with EmptyString => EmptyString | String _ s' => s' end.

(** [s.c_str()]: readers stop at the first NUL. *)
Fixpoint c_str (s : string) : string :=
  match s with
  | EmptyString => EmptyString
  | String c s' => if ascii_dec c NUL then EmptyString else String c (c_str s')
  end.

(** [isspace] in the C locale *)
Definition isspace (c : ascii) : bool :=
  (chr c =? 32) || ((9 <=? chr c) && (chr c <=? 13)).

(** the loop that advances [pos] while it points to a character satisfying [p] *)
Fixpoint skip_while (p : ascii -> bool) (s : string) : string :=
  match s with
  | EmptyString => EmptyString
  | String c s' => if p c then skip_while p s' else s
  end.

(** the text skipped by [skip_while] *)
Fixpoint take_while (p : ascii -> bool) (s : string) : string :=
  match s with
  | EmptyString => EmptyString
  | String c s' => if p c then String c (take_while p s') else EmptyString
  end.

(** [s.find_first_of(c)], returned as the two sides of the hit *)
Fixpoint break_at (c : ascii) (s : string) : option (string * string) :=
  match s with
  | EmptyString => None
  | String d s' =>
      if ascii_dec d c then Some (EmptyString, s')
      else '(a, b) ← break_at c s'; Some (String d a, b)
  end.

(** the lines [while(std::getline(f, line))] visits *)
Fixpoint getlines (s : string) : list string :=
  match s with
  | EmptyString => []
  | String c s' =>
      if ascii_dec c newline then EmptyString :: getlines s'
      else match getlines s' with
           | [] => [String c EmptyString]
           | l :: ls => String c l :: ls
           end
  end.

Fixpoint string_rev_app (s acc : string) : string :=
  match s with EmptyString => acc | String c s' => string_rev_app s' (String c acc) end.
Definition string_rev (s : string) : string := string_rev_app s EmptyString.

(** ** Numbers *)

Definition digit_val (c : ascii) : Z :=
  let n := chr c in
  if (48 <=? n) && (n <=? 57) then n - 48
  else if (97 <=? n) && (n <=? 102) then n - 87
  else if (65 <=? n) && (n <=? 70) then n - 55
  else 99.

Fixpoint scan_digits (base acc : Z) (s : string) : Z * string :=
  match s with
  | EmptyString => (acc, s)
  | String c s' =>
      if digit_val c <? base then scan_digits base (acc * base + digit_val c) s' else (acc, s)
  end.

Definition starts_digit (base : Z) (s : string) : bool :=
  match s with EmptyString => false | String c _ => digit_val c <? base end.

(** optional sign in front of a number *)
Definition scan_sign (s : string) : bool * string :=
  match s with
  | String c s' =>
      if ascii_dec c "-"%char then (true, s') else if ascii_dec c "+"%char then (false, s') else (false, s)
  | EmptyString => (false, s)
  end.

(** [strtol(s, &end, base)] for base 10 and for base 0 (which honours the
    prefixes 0x and 0): the mathematical value and the rest of the text;
    [None] when there is no digit. *)
Definition scan_number (neg : bool) (base : Z) (s : string) : option (Z * string) :=
  if starts_digit base s
  then let '(v, r) := scan_digits base 0 s in Some (if neg then - v else v, r)
  else None.

Definition strtol_unsigned (neg : bool) (base : Z) (s : string) : option (Z * string) :=
  if base =? 0 then
    match s with
    | String "0" (String x r) =>
        if ((chr x =? 120) || (chr x =? 88)) && starts_digit 16 r
        then scan_number neg 16 r else scan_number neg 8 s
    | String "0" _ => scan_number neg 8 s
    | _ => scan_number neg 10 s
    end
  else scan_number neg base s.

Definition strtol (base : Z) (s : string) : option (Z * string) :=
  let '(neg, s1) := scan_sign (skip_while isspace s) in strtol_unsigned neg base s1.

Definition long_clamp (z : Z) : Z := Z.max (- 2^63) (Z.min (2^63 - 1) z).

(** [atoi]: [(int) strtol(s, NULL, 10)], 0 when there is no number *)
Definition atoi (s : string) : Z :=
  match strtol 10 s with
  | Some (v, _) => wrap32 (long_clamp v)
  | None => 0
  end.

(** [std::stoi(s, &end, base)] with [end] as the text left over *)
Definition std_stoi (base : Z) (s : string) : outcome (Z * string) :=
  match strtol base (c_str s) with
  | None => Err (Throw "stoi")
  | Some (v, r) => if int32b v then Ok (v, r) else Err (Throw "stoi")
  end.

Definition digit_chr (d : Z) : ascii :=
  if d <? 10 then ascii_of_N (Z.to_N (d + 48)) else ascii_of_N (Z.to_N (d + 87)).

Fixpoint udigits (base : Z) (fuel : nat) (n : Z) (acc : string) : string :=
  match fuel with
  | O => acc
  | S f =>
      let acc' := String (digit_chr (n mod base)) acc in
      if n / base =? 0 then acc' else udigits base f (n / base) acc'
  end.

(** An [int] has at most 32 binary digits, so the fuel never runs out. *)
Definition udec (n : Z) : string := udigits 10 64 n EmptyString.

(** [%d], [ostream << int] *)
Definition to_string (z : Z) : string :=
  if z <? 0 then String "-" (udec (- z)) else udec z.

(** [%02x] of an [unsigned char] *)
Definition hex02 (z : Z) : string :=
  String (digit_chr (u8 z / 16)) (String (digit_chr (u8 z mod 16)) EmptyString).

(** ** Lemmas *)

Lemma string_nil_app (t : string) : "" +:+ t = t.
Proof. reflexivity. Qed.
Lemma string_cons_app c (s t : string) : String c s +:+ t = String c (s +:+ t).
Proof. reflexivity. Qed.

#[export] Hint Rewrite string_nil_app string_cons_app : strs.
Ltac strsimpl := repeat progress (cbn; autorewrite with strs).

Lemma string_app_length s t : String.length (s +:+ t) = (String.length s + String.length t)%nat.
Proof. induction s; strsimpl; lia. Qed.

Lemma take_skip_while p s : take_while p s +:+ skip_while p s = s.
Proof. induction s as [|c s IH]; cbn; [done|]. destruct (p c); strsimpl; by rewrite ?IH. Qed.

Lemma skip_while_length p s : (String.length (skip_while p s) <= String.length s)%nat.
Proof. induction s as [|c s IH]; cbn; [done|]. destruct (p c); cbn; lia. Qed.

Lemma skip_while_idemp p s : skip_while p (skip_while p s) = skip_while p s.
Proof.
  induction s as [|c s IH]; cbn; [done|]. destruct (p c) eqn:E; [done|]. cbn. by rewrite E.
Qed.

Lemma skip_while_head p c s t : skip_while p s = String c t -> p c = false.
Proof.
  induction s as [|d s IH]; cbn; [done|]. destruct (p d) eqn:E; [done|]. by intros [= -> ->].
Qed.

Lemma advance_length s : (String.length (advance s) = Nat.pred (String.length s))%nat.
Proof. by destruct s. Qed.

Lemma break_at_app c s a b : break_at c s = Some (a, b) -> s = a +:+ String c b.
Proof.
  revert a b. induction s as [|d s IH]; cbn; intros a b H; [done|].
  destruct (ascii_dec d c) as [->|]; [by simplify_eq|].
  destruct (break_at c s) as [[a' b']|]; cbn in H; [|done].
  simplify_eq. strsimpl. f_equal. by apply IH.
Qed.

Lemma break_at_mid c a b :
  (forall x, break_at c a <> Some x) -> break_at c (a +:+ String c b) = Some (a, b).
Proof.
  induction a as [|d a IH]; intros Ha; strsimpl.
  - destruct (ascii_dec c c); [done|congruence].
  - cbn in Ha. destruct (ascii_dec d c) as [->|]; [by destruct (Ha (EmptyString, a))|].
    rewrite IH; [done|]. intros [x y] Hx. rewrite Hx in Ha. by eapply Ha.
Qed.

Lemma c_str_id s : c_str (c_str s) = c_str s.
Proof.
  induction s as [|c s IH]; cbn; [done|].
  destruct (ascii_dec c NUL); [done|]. cbn. destruct (ascii_dec c NUL); [done|]. by rewrite IH.
Qed.

Lemma string_rev_app_spec s acc :
  string_rev_app s acc = string_rev s +:+ acc.
Proof.
  unfold string_rev. revert acc. induction s as [|c s IH]; intros acc; cbn; [done|].
  rewrite IH, (IH (String c EmptyString)).
  generalize (string_rev_app s ""). intros t. induction t; strsimpl; [done|]. by f_equal.
Qed.

Lemma string_app_assoc (a b c : string) : a +:+ (b +:+ c) = (a +:+ b) +:+ c.
Proof. induction a; strsimpl; [done|]. by f_equal. Qed.

Lemma string_app_nil (a : string) : a +:+ "" = a.
Proof. induction a; strsimpl; [done|]. by f_equal. Qed.

Lemma string_rev_cons c s : string_rev (String c s) = string_rev s +:+ String c "".
Proof. unfold string_rev. cbn. apply string_rev_app_spec. Qed.

Lemma string_rev_app_distr a b : string_rev (a +:+ b) = string_rev b +:+ string_rev a.
Proof.
  induction a as [|c a IH].
  - by rewrite string_app_nil.
  - rewrite string_cons_app, !string_rev_cons, IH. by rewrite string_app_assoc.
Qed.

Lemma string_rev_involutive s : string_rev (string_rev s) = s.
Proof.
  induction s as [|c s IH]; [done|].
  rewrite string_rev_cons, string_rev_app_distr, IH. done.
Qed.

(** ** Printing and parsing decimal numbers *)

Lemma digit_chr_val d : 0 <= d < 16 -> digit_val (digit_chr d) = d.
Proof.
  intros H. rewrite <- (Z2Nat.id d) by lia.
  assert (Z.to_nat d < 16)%nat as Hn by lia. generalize dependent (Z.to_nat d). clear H.
  intros n Hn. do 16 (destruct n as [|n]; [reflexivity|]). lia.
Qed.

Lemma scan_udigits base fuel n :
  2 <= base <= 16 -> 0 <= n < base ^ Z.of_nat fuel ->
  exists k, 0 <= k /\ forall a acc,
    scan_digits base a (udigits base fuel n acc) = scan_digits base (a * base ^ k + n) acc.
Proof.
  intros Hb. revert n. induction fuel as [|f IH]; intros n Hn.
  - exists 0. split; [lia|]. intros a acc. cbn in *. f_equal; lia.
  - rewrite Nat2Z.inj_succ, Z.pow_succ_r in Hn by lia.
    pose proof (Z.mod_pos_bound n base) as Hm. pose proof (Z.div_mod n base) as Hdm.
    assert (forall a acc, scan_digits base a (String (digit_chr (n mod base)) acc) =
              scan_digits base (a * base + n mod base) acc) as Hstep.
    { intros a acc. cbn. rewrite digit_chr_val by lia.
      destruct (Z.ltb_spec (n mod base) base); [done|lia]. }
    cbn [udigits]. destruct (Z.eqb_spec (n / base) 0) as [Hz|Hz].
    + exists 1. split; [lia|]. intros a acc. rewrite Hstep. f_equal. lia.
    + destruct (IH (n / base)) as (k & Hk & Hs).
      { split; [apply Z.div_pos; lia|apply Z.div_lt_upper_bound; lia]. }
      exists (k + 1). split; [lia|]. intros a acc. rewrite Hs, Hstep. f_equal.
      rewrite Z.pow_add_r by lia. lia.
Qed.

Lemma udigits_head base fuel n acc :
  2 <= base <= 16 -> 0 <= n -> fuel <> O ->
  exists d s, 0 <= d < base /\ udigits base fuel n acc = String (digit_chr d) s /\
              (d = 0 -> n < base ^ Z.of_nat fuel -> n = 0 /\ s = acc).
Proof.
  intros Hb. revert n acc. induction fuel as [|f IH]; intros n acc Hn Hf; [done|].
  pose proof (Z.mod_pos_bound n base) as Hm. pose proof (Z.div_mod n base) as Hdm.
  cbn [udigits]. destruct (Z.eqb_spec (n / base) 0) as [Hz|Hz].
  - exists (n mod base), acc. split_and!; [lia|lia|done|]. intros; split; [lia|done].
  - assert (0 < n / base) by (pose proof (Z.div_pos n base); lia).
    destruct f as [|f].
    + cbn. exists (n mod base), acc. split_and!; [lia|lia|done|].
      intros Hd Hlt. rewrite Z.pow_1_r in Hlt.
      rewrite Z.div_small in Hz by lia. done.
    + destruct (IH (n / base) (String (digit_chr (n mod base)) acc)) as (d & s & Hd & Hs & Hz0);
        [lia|done|].
      exists d, s. split_and!; [lia|lia|done|]. intros -> Hlt.
      rewrite Nat2Z.inj_succ, Z.pow_succ_r in Hlt by lia.
      destruct Hz0 as [Hz0 _]; [done|apply Z.div_lt_upper_bound; lia|lia].
Qed.

Lemma isspace_digit d : 0 <= d < 16 -> isspace (digit_chr d) = false.
Proof.
  intros H. rewrite <- (Z2Nat.id d) by lia.
  assert (Z.to_nat d < 16)%nat as Hn by lia. generalize dependent (Z.to_nat d). clear H.
  intros n Hn. do 16 (destruct n as [|n]; [reflexivity|]). lia.
Qed.

(** ** Substrings *)

Lemma substring_skip a b n : String.substring (String.length a) n (a +:+ b) = String.substring 0 n b.
Proof. induction a; strsimpl; auto. Qed.

Lemma substring_prefix a b : String.substring 0 (String.length a) (a +:+ b) = a.
Proof. induction a; strsimpl; [by destruct b|]. by f_equal. Qed.

Lemma substring_length n m s :
  (String.length (String.substring n m s) <= m)%nat.
Proof. revert n m. induction s; intros [|n] [|m]; cbn; try lia; auto with lia. specialize (IHs 0%nat m). lia. Qed.

Lemma substring_length_rest n s :
  (String.length (String.substring n (String.length s - n) s) = String.length s - n)%nat.
Proof.
  revert n. induction s as [|c s IH]; intros [|n]; cbn; try lia.
  - specialize (IH 0%nat). rewrite Nat.sub_0_r in IH. lia.
  - by rewrite IH.
Qed.

Lemma string_rev_length s : String.length (string_rev s) = String.length s.
Proof.
  induction s as [|c s IH]; [done|].
  rewrite string_rev_cons, string_app_length, IH. cbn. lia.
Qed.

Lemma take_while_app_stop p a b :
  take_while p a <> a -> take_while p (a +:+ b) = take_while p a.
Proof.
  induction a as [|c a IH]; strsimpl; [done|]. destruct (p c); [|done].
  intros H. rewrite IH; [done|]. intros E. by rewrite E in H.
Qed.

Lemma take_while_snoc_stop p a c : p c = false -> take_while p (a +:+ String c "") <> a +:+ String c "".
Proof.
  intros Hc. induction a as [|d a IH]; strsimpl; [by rewrite Hc|].
  destruct (p d); [|done]. by intros [= E].
Qed.

Lemma take_while_app p a c b :
  take_while p a = a -> p c = false -> take_while p (a +:+ String c b) = a.
Proof.
  intros Ha Hc. induction a as [|d a IH]; strsimpl; [by rewrite Hc|].
  cbn in Ha. destruct (p d); [|done]. injection Ha as Ha. by rewrite IH.
Qed.

Lemma skip_while_app p a c b :
  take_while p a = a -> p c = false -> skip_while p (a +:+ String c b) = String c b.
Proof.
  intros Ha Hc. induction a as [|d a IH]; strsimpl; [by rewrite Hc|].
  cbn in Ha. destruct (p d); [|done]. injection Ha as Ha. by apply IH.
Qed.

Lemma take_while_extend p s t :
  skip_while p s <> EmptyString -> take_while p (s +:+ t) = take_while p s.
Proof. induction s as [|c s IH]; strsimpl; [done|]. destruct (p c); [|done]. intros; by rewrite IH. Qed.

Lemma skip_while_extend p s t :
  skip_while p s <> EmptyString -> skip_while p (s +:+ t) = skip_while p s +:+ t.
Proof. induction s as [|c s IH]; strsimpl; [done|]. destruct (p c); [|done]. intros; by rewrite IH. Qed.

Lemma advance_app s t : s <> EmptyString -> advance (s +:+ t) = advance s +:+ t.
Proof. by destruct s. Qed.

Lemma deref_app s t : s <> EmptyString -> deref (s +:+ t) = deref s.
Proof. by destruct s. Qed.

Lemma app_ne s t : s <> EmptyString -> s +:+ t <> EmptyString.
Proof. by destruct s. Qed.

Lemma deref_ne s c : deref s = c -> c <> NUL -> s <> EmptyString.
Proof. by destruct s; cbn; [intros <-|]. Qed.

(** ** Texts built from clean pieces *)

Fixpoint str_forall (p : ascii -> bool) (s : string) : bool :=
  match s with EmptyString => true | String c s' => p c && str_forall p s' end.

Lemma str_forall_app p s t : str_forall p (s +:+ t) = str_forall p s && str_forall p t.
Proof.
  induction s as [|c s IH]; [done|]. rewrite string_cons_app. cbn. by rewrite IH, andb_assoc.
Qed.

Lemma str_forall_mono (p q : ascii -> bool) s :
  (forall c, p c = true -> q c = true) -> str_forall p s = true -> str_forall q s = true.
Proof.
  intros H. induction s as [|c s IH]; [done|]. cbn. rewrite !andb_true_iff. naive_solver.
Qed.

Lemma skip_while_forall p s t :
  str_forall p s = true -> skip_while p (s +:+ t) = skip_while p t.
Proof.
  induction s as [|c s IH]; [done|]. rewrite string_cons_app. cbn. intros [-> H]%andb_true_iff. auto.
Qed.

Lemma udigits_app base fuel n acc : udigits base fuel n acc = udigits base fuel n "" +:+ acc.
Proof.
  revert n acc. induction fuel as [|f IH]; intros n acc; cbn [udigits]; [by rewrite string_nil_app|].
  destruct (_ =? 0); [by rewrite string_cons_app, string_nil_app|].
  rewrite IH, (IH _ (String _ "")), <- string_app_assoc. by rewrite string_cons_app, string_nil_app.
Qed.

Lemma udec_forall p n :
  (forall d, 0 <= d < 10 -> p (digit_chr d) = true) -> 0 <= n -> str_forall p (udec n) = true.
Proof.
  intros Hp Hn. unfold udec. assert (str_forall p "" = true) as Ha by done. revert n Hn Ha.
  generalize (EmptyString) as acc. generalize 64%nat as fuel.
  induction fuel as [|f IH]; intros acc n Hn Ha; cbn [udigits]; [done|].
  assert (str_forall p (String (digit_chr (n mod 10)) acc) = true) as Hc.
  { cbn. by rewrite Hp by (apply Z.mod_pos_bound; lia). }
  destruct (_ =? 0); [done|]. apply IH; [apply Z.div_pos; lia|done].
Qed.

(** [atoi] stops behind the digits *)
Lemma atoi_udec n rest :
  0 <= n < 2^31 -> starts_digit 10 rest = false -> atoi (udec n +:+ rest) = n.
Proof.
  intros Hn Hr. unfold udec. rewrite <- udigits_app. unfold atoi, strtol.
  destruct (udigits_head 10 64 n rest) as (d & s & Hd & E & _); [lia..|].
  destruct (scan_udigits 10 64 n) as (k & Hk & Hs); [lia..|]. specialize (Hs 0 rest).
  rewrite E in *. cbn [skip_while]. rewrite isspace_digit by lia. unfold scan_sign.
  destruct (ascii_dec (digit_chr d) "-") as [Hc|_]; [exfalso|destruct (ascii_dec (digit_chr d) "+") as [Hc|_]; [exfalso|]].
  1,2: pose proof (digit_chr_val d ltac:(lia)) as Hv; rewrite Hc in Hv; vm_compute in Hv; lia.
  unfold strtol_unsigned. cbn [Z.eqb]. unfold scan_number. rewrite Hs. cbn [starts_digit].
  rewrite digit_chr_val by lia. destruct (Z.ltb_spec d 10); [|lia].
  assert (scan_digits 10 (0 * 10 ^ k + n) rest = (n, rest)) as ->.
  { replace (0 * 10 ^ k + n) with n by lia. destruct rest as [|c rest]; [done|]. cbn in Hr |- *. by rewrite Hr. }
  unfold long_clamp. rewrite wrap32_id by (unfold is_int32; lia). lia.
Qed.
