(* ===== verification/Utils.v ===== *)
(** * bluetoothserver/utils.cpp: configuration file and string helpers *)

From Stdlib Require Import Ascii Sorted.
From S2P Require Import Prelude StdMap CString.

(** ** Definitions *)

Definition NOT_SET : string := "__NOT_SET".

Definition size_t (z : Z) : Z := z mod 2^64.
Definition npos : Z := size_t (-1).

(** [utils::trim]: both iterators are computed before the range is built. *)
Definition trim (s : string) : string :=
  let wsfront := String.length (take_while isspace s) in
  let wsback := (String.length s - String.length (take_while isspace (string_rev s)))%nat in
  if (wsback <=? wsfront)%nat then EmptyString
  else String.substring wsfront (wsback - wsfront) s.

(** [strtrim]: the trailing white space of a NUL terminated buffer *)
Definition strtrim (s : string) : string :=
  string_rev (skip_while isspace (string_rev s)).

(** [utils::stoi] *)
Definition stoi (s : string) : outcome Z :=
  if decide (s = NOT_SET) then Err (Throw "NOT SET")
  else
    '(ret, rest) ← std_stoi 0 s;
    if decide (rest = EmptyString) then Ok ret else Err (Throw "error converting number").

(** [str.find(with)] and [str.rfind(with)], [npos] when absent *)
Definition str_find (str sub : string) : Z :=
  match String.index 0 sub str with Some n => Z.of_nat n | None => npos end.
Fixpoint str_rfind_from (n : nat) (str sub : string) : Z :=
  if String.prefix sub (String.substring n (String.length str - n) str) then Z.of_nat n
  else match n with O => npos | S n' => str_rfind_from n' str sub end.
Definition str_rfind (str sub : string) : Z := str_rfind_from (String.length str) str sub.

(** [utils::startsWith(const std::string&, const std::string&)] *)
Definition startsWith (str sub : string) : bool := str_find str sub =? 0.

(** [utils::startsWith(const std::string&, const char* )] *)
Definition startsWith_cstr (str sub : string) : bool :=
  bool_decide (String.substring 0 (String.length sub) str = sub).

(** [utils::endsWith]: both sides of the comparison are [size_t] *)
Definition endsWith (str sub : string) : bool :=
  str_rfind str sub =? size_t (Z.of_nat (String.length str) - Z.of_nat (String.length sub)).

(** [class Config]: [std::multimap<std::string, std::string> data] *)
Definition Config : Type := smap string.

(** one iteration of the loop of [Config::init] *)
Definition Config_line (line : string) : string * string :=
  match break_at "="%char line with
  | Some (key, value) => (trim key, trim value)
  | None => (line, EmptyString)
  end.

Definition Config_init (text : string) (data : Config) : Config :=
  foldl (fun d line => let '(k, v) := Config_line line in mmap_insert k v d) data (getlines text).

Definition Config_get (key : string) (data : Config) : string :=
  match smap_find key data with
  | None => NOT_SET
  | Some v => v
  end.

Lemma npos_val : npos = 2^64 - 1.
Proof. reflexivity. Qed.

(** ** std::multimap lemmas *)

Definition mmap_wf {V} (m : smap V) : Prop := StronglySorted String.le m.*1.

Lemma str_le_of_not_lt a b : String.compare a b <> Lt -> String.le b a.
Proof.
  intros H. destruct (String.compare a b) eqn:E; [| done |].
  - apply String.compare_eq_iff in E as ->. done.
  - apply str_compare_gt in E. by apply str_lt_leb.
Qed.

Lemma mmap_keys_insert {V} k (v : V) m x : x ∈ (mmap_insert k v m).*1 <-> x = k \/ x ∈ m.*1.
Proof.
  induction m as [|[k0 v0] m IH]; cbn; [set_solver|].
  destruct (String.compare k k0); cbn; set_solver.
Qed.

Lemma mmap_wf_insert {V} k (v : V) m : mmap_wf m -> mmap_wf (mmap_insert k v m).
Proof.
  unfold mmap_wf. induction m as [|[k0 v0] m IH]; intros Hs; cbn; [repeat constructor|].
  inversion Hs as [|? ? Hs' Hall]; subst.
  assert (forall c, String.compare k k0 = c -> c <> Lt ->
            StronglySorted String.le (k0 :: (mmap_insert k v m).*1)) as Hge.
  { intros c E Hc. constructor; [by apply IH|]. apply list.Forall_forall. intros x Hx.
    apply mmap_keys_insert in Hx as [->|Hx]; [apply str_le_of_not_lt; congruence|].
    by eapply list.Forall_forall in Hall. }
  destruct (String.compare k k0) eqn:E; cbn; [by apply (Hge Eq)| |by apply (Hge Gt)].
  constructor; [by constructor|].
  assert (String.le k k0) by (by apply str_lt_leb).
  constructor; [done|]. eapply Forall_impl; [|done]. intros x Hx. by etrans.
Qed.

Lemma mmap_find_insert {V} k k' (v : V) m :
  mmap_wf m ->
  smap_find k' (mmap_insert k v m) =
    match smap_find k' m with
    | Some v0 => Some v0
    | None => if decide (k' = k) then Some v else None
    end.
Proof.
  unfold mmap_wf. induction m as [|[k0 v0] m IH]; intros Hs; cbn; [done|].
  inversion Hs as [|? ? Hs' Hall]; subst. destruct (String.compare k k0) eqn:E; cbn.
  - destruct (decide (k' = k0)); [done|]. by apply IH.
  - destruct (decide (k' = k)) as [->|Hne]; [|by destruct (decide (k' = k0)), (smap_find k' m)].
    rewrite decide_False by (intros ->; by apply str_lt_irrefl in E).
    destruct (smap_find k m) eqn:F; [|done]. exfalso.
    assert (k ∈ m.*1) as Hk by (apply smap_find_Some; eauto).
    eapply list.Forall_forall in Hall; [|done]. apply str_lt_leb in E as [Hle Hne].
    apply Hne. by apply (anti_symm String.le).
  - destruct (decide (k' = k0)); [done|]. by apply IH.
Qed.

(** ** Configuration file *)

(** The value of the first line of the file whose key is [key]. *)
Definition first_value (key : string) (lines : list string) : option string :=
  snd <$> List.find (fun kv => bool_decide (kv.1 = key)) (Config_line <$> lines).

Lemma Config_fold_spec lines data key :
  mmap_wf data ->
  let data' := foldl (fun d line => let '(k, v) := Config_line line in mmap_insert k v d) data lines in
  mmap_wf data' /\
  smap_find key data' =
    match smap_find key data with Some v => Some v | None => first_value key lines end.
Proof.
  revert data. induction lines as [|line lines IH]; intros data Hwf; cbn.
  - by destruct (smap_find key data).
  - unfold first_value in *. cbn. destruct (Config_line line) as [k v].
    destruct (IH (mmap_insert k v data)) as [W F]; [by apply mmap_wf_insert|].
    split; [done|]. rewrite F, mmap_find_insert by done.
    destruct (smap_find key data); [done|].
    case_decide as D; cbn.
    + rewrite bool_decide_true by done. done.
    + by rewrite bool_decide_false by congruence.
Qed.

(** ** Decimal round trip *)

Lemma c_str_udigits fuel n acc :
  c_str acc = acc -> 0 <= n -> c_str (udigits 10 fuel n acc) = udigits 10 fuel n acc.
Proof.
  revert n acc. induction fuel as [|f IH]; intros n acc Ha Hn; [done|].
  pose proof (Z.mod_pos_bound n 10 ltac:(lia)).
  assert (c_str (String (digit_chr (n mod 10)) acc) = String (digit_chr (n mod 10)) acc) as Hc.
  { cbn. destruct (ascii_dec (digit_chr (n mod 10)) NUL) as [E|]; [|by rewrite Ha].
    exfalso. assert (digit_val (digit_chr (n mod 10)) = n mod 10) by (apply digit_chr_val; lia).
    rewrite E in *. change (digit_val NUL) with 99 in *. lia. }
  cbn [udigits]. destruct (Z.eqb_spec (n / 10) 0); [done|].
  apply IH; [done|]. apply Z.div_pos; lia.
Qed.

Lemma udec_not_zero_prefix d s A (x : ascii -> string -> A) (y z : A) :
  0 < d < 16 ->
  match String (digit_chr d) s with
  | String "0" (String c r) => x c r
  | String "0" _ => y
  | _ => z
  end = z.
Proof.
  intros Hd. assert (digit_chr d <> "0"%char) as Hne.
  { intros Hc. pose proof (digit_chr_val d ltac:(lia)) as Hv. rewrite Hc in Hv. vm_compute in Hv. lia. }
  destruct (digit_chr d) as [[] [] [] [] [] [] [] []]; done.
Qed.

Lemma strtol_unsigned_udec neg n :
  0 <= n < 10 ^ 64 -> strtol_unsigned neg 0 (udec n) = Some (if neg then - n else n, EmptyString).
Proof.
  intros Hn. unfold udec.
  destruct (udigits_head 10 64 n EmptyString) as (d & s & Hd & E & Hz); [lia..|].
  destruct (scan_udigits 10 64 n) as (k & Hk & Hs); [lia..|].
  specialize (Hs 0 EmptyString). rewrite E in *. unfold strtol_unsigned. cbn [Z.eqb].
  destruct (Z.eqb_spec d 0) as [->|Hd0].
  - destruct Hz as [-> ->]; [done|lia|]. by destruct neg.
  - rewrite udec_not_zero_prefix by lia. unfold scan_number. rewrite Hs.
    cbn [starts_digit]. rewrite digit_chr_val by lia.
    destruct (Z.ltb_spec d 10); [|lia]. cbn [scan_digits].
    by replace (0 * 10 ^ k + n) with n by lia.
Qed.

Lemma scan_sign_udec n : 0 <= n -> scan_sign (skip_while isspace (udec n)) = (false, udec n).
Proof.
  intros Hn. unfold udec.
  destruct (udigits_head 10 64 n EmptyString) as (d & s & Hd & E & _); [lia..|].
  rewrite E. cbn [skip_while]. rewrite isspace_digit by lia. unfold scan_sign.
  destruct (ascii_dec (digit_chr d) "-") as [Hc|]; [|destruct (ascii_dec (digit_chr d) "+") as [Hc|]; [|done]].
  all: exfalso; pose proof (digit_chr_val d ltac:(lia)) as Hv; rewrite Hc in Hv; vm_compute in Hv; lia.
Qed.

Lemma std_stoi_to_string z : is_int32 z -> std_stoi 0 (to_string z) = Ok (z, EmptyString).
Proof.
  intros Hi. pose proof (proj2 (int32b_spec z) Hi) as Hb. unfold is_int32 in Hi.
  unfold std_stoi, to_string. destruct (Z.ltb_spec z 0).
  - assert (c_str (String "-" (udec (- z))) = String "-" (udec (- z))) as ->.
    { cbn -[udec]. f_equal. apply c_str_udigits; [done|lia]. }
    unfold strtol. cbn [skip_while]. change (isspace "-") with false. cbn -[strtol_unsigned udec].
    rewrite strtol_unsigned_udec by lia. by rewrite Z.opp_involutive, Hb.
  - unfold udec at 1. rewrite c_str_udigits by (done || lia). fold (udec z).
    unfold strtol. rewrite scan_sign_udec, strtol_unsigned_udec by lia. by rewrite Hb.
Qed.

(** ** Suffix test *)

Lemma prefix_length a b : String.prefix a b = true -> (String.length a <= String.length b)%nat.
Proof.
  revert b. induction a as [|c a IH]; intros [|d b]; cbn; try lia; try done.
  destruct (ascii_dec c d); [|done]. intros H. apply IH in H. lia.
Qed.

Lemma prefix_same_length a b :
  String.length a = String.length b -> String.prefix a b = true -> a = b.
Proof.
  revert b. induction a as [|c a IH]; intros [|d b]; cbn; try done.
  intros [= Hl]. destruct (ascii_dec c d) as [->|]; [|done]. intros H. f_equal. by apply IH.
Qed.

Lemma prefix_refl a : String.prefix a a = true.
Proof. induction a as [|c a IH]; cbn; [done|]. by destruct (ascii_dec c c). Qed.

Lemma rfind_skip n k str sub :
  (forall i, k <= i <= n -> String.length str < i + String.length sub)%nat -> (k <= S n)%nat -> k <> O ->
  (n <= String.length str)%nat ->
  str_rfind_from n str sub = str_rfind_from (Nat.pred k) str sub.
Proof.
  induction n as [|n IH]; intros H Hk Hk0 Hn.
  - by replace k with 1%nat by lia.
  - destruct (decide (k = S (S n))) as [->|]; [done|].
    cbn [str_rfind_from].
    destruct (String.prefix sub _) eqn:E.
    + apply prefix_length in E. rewrite substring_length_rest in E.
      specialize (H (S n)). lia.
    + rewrite IH; [done| |lia|done|lia]. intros i Hi. apply H. lia.
Qed.

Lemma rfind_from_range n str sub :
  str_rfind_from n str sub = npos \/ 0 <= str_rfind_from n str sub <= Z.of_nat n.
Proof.
  induction n as [|n IH]; cbn [str_rfind_from]; destruct (String.prefix _ _); try lia; auto.
Qed.

Lemma rfind_too_long str sub :
  (String.length str < String.length sub)%nat -> str_rfind str sub = npos.
Proof.
  intros H. unfold str_rfind.
  rewrite (rfind_skip _ 1) by lia. cbn [Nat.pred str_rfind_from].
  destruct (String.prefix sub _) eqn:E; [|done].
  apply prefix_length in E. rewrite substring_length_rest in E. lia.
Qed.

Lemma string_split_at s n :
  (n <= String.length s)%nat -> exists a b, s = a +:+ b /\ String.length a = n.
Proof.
  revert n. induction s as [|c s IH]; intros n Hn; cbn in Hn.
  - exists "", "". split; [done|cbn; lia].
  - destruct n as [|n]; [by exists "", (String c s)|].
    destruct (IH n) as (a & b & -> & <-); [lia|]. by exists (String c a), b.
Qed.

Lemma substring_all s : String.substring 0 (String.length s) s = s.
Proof. rewrite <- (string_app_nil s) at 2. apply substring_prefix. Qed.

Lemma substring_rest a b :
  String.substring (String.length a) (String.length (a +:+ b) - String.length a) (a +:+ b) = b.
Proof.
  rewrite substring_skip, string_app_length.
  replace (String.length a + String.length b - String.length a)%nat with (String.length b) by lia.
  apply substring_all.
Qed.

(** ** Trimming *)

Lemma take_while_length p s : (String.length (take_while p s) + String.length (skip_while p s) = String.length s)%nat.
Proof. rewrite <- (take_skip_while p s) at 3. by rewrite string_app_length. Qed.

(** The iterator arithmetic of [utils::trim] strips both ends. *)
Lemma trim_strip s : trim s = strtrim (skip_while isspace s).
Proof.
  unfold trim, strtrim. pose proof (take_skip_while isspace s) as Hs.
  destruct (skip_while isspace s) as [|c r] eqn:Er.
  - rewrite string_app_nil in Hs. rewrite Hs.
    destruct (Nat.leb_spec (String.length s - String.length (take_while isspace (string_rev s)))
                (String.length s)); [done|lia].
  - pose proof (skip_while_head _ _ _ _ Er) as Hc.
    set (w := take_while isspace s) in *. set (q := String c r) in *.
    assert (take_while isspace (string_rev q) <> string_rev q) as Hstop.
    { unfold q. rewrite string_rev_cons. by apply take_while_snoc_stop. }
    assert (take_while isspace (string_rev s) = take_while isspace (string_rev q)) as Ht.
    { rewrite <- Hs, string_rev_app_distr. by apply take_while_app_stop. }
    pose proof (take_while_length isspace (string_rev q)) as Hl.
    rewrite string_rev_length in Hl.
    assert (skip_while isspace (string_rev q) <> "") as Hne.
    { intros E. apply Hstop. pose proof (take_skip_while isspace (string_rev q)) as H.
      by rewrite E, string_app_nil in H. }
    assert (String.length (skip_while isspace (string_rev q)) <> O) as Hne0.
    { by destruct (skip_while isspace (string_rev q)). }
    rewrite Ht. rewrite <- Hs. rewrite string_app_length.
    destruct (Nat.leb_spec (String.length w + String.length q -
      String.length (take_while isspace (string_rev q))) (String.length w)); [lia|].
    rewrite substring_skip.
    replace (String.length w + String.length q - String.length (take_while isspace (string_rev q))
      - String.length w)%nat with (String.length (string_rev (skip_while isspace (string_rev q))))
      by (rewrite string_rev_length; lia).
    assert (q = string_rev (skip_while isspace (string_rev q)) +:+
                string_rev (take_while isspace (string_rev q))) as Hq.
    { rewrite <- string_rev_app_distr, take_skip_while. by rewrite string_rev_involutive. }
    rewrite Hq at 2. apply substring_prefix.
Qed.

(** ** Properties *)

(** Reading the configuration file: [config.get(key)] is the value of the
    first line of the file whose trimmed key is [key], and ["__NOT_SET"] when
    no line has that key. *)
Theorem Config_get_first_line text key :
  Config_get key (Config_init text []) = default NOT_SET (first_value key (getlines text)).
Proof.
  unfold Config_get, Config_init.
  destruct (Config_fold_spec (getlines text) [] key) as [_ ->]; [constructor|].
  cbn. by destruct (first_value key (getlines text)).
Qed.

(** [utils::stoi] reads back every [int] that [utils::to_string] prints. *)
Theorem stoi_to_string z : is_int32 z -> stoi (to_string z) = Ok z.
Proof.
  intros Hz. unfold stoi. rewrite std_stoi_to_string by done. cbn.
  case_decide as E; [|done]. exfalso.
  pose proof (std_stoi_to_string z Hz) as H. rewrite E in H. by vm_compute in H.
Qed.

Lemma stoi_to_string_witness : is_int32 (-2147483648) /\ stoi (to_string (-2147483648)) = Ok (-2147483648).
Proof. split; [unfold is_int32; lia|]. apply (stoi_to_string (-2147483648)). unfold is_int32; lia. Defined.

(** [utils::endsWith] decides the suffix relation as long as the string is at
    least as long as the suffix. *)
Theorem endsWith_suffix str sub :
  (String.length sub <= String.length str)%nat -> Z.of_nat (String.length str) < 2^64 - 1 ->
  endsWith str sub = true <-> exists p, str = p +:+ sub.
Proof.
  intros Hle Hbig. unfold endsWith. rewrite Z.eqb_eq.
  unfold size_t. rewrite Z.mod_small by lia.
  destruct (string_split_at str (String.length str - String.length sub)) as (a & b & -> & Ha); [lia|].
  rewrite string_app_length in *. assert (String.length b = String.length sub) as Hb by lia.
  assert (str_rfind (a +:+ b) sub = str_rfind_from (String.length a) (a +:+ b) sub) as ->.
  { unfold str_rfind. rewrite string_app_length.
    rewrite (rfind_skip _ (S (String.length a))); rewrite ?string_app_length; try lia. done. }
  assert (String.prefix sub (String.substring (String.length a)
    (String.length (a +:+ b) - String.length a) (a +:+ b)) = true <-> b = sub) as Hp.
  { rewrite substring_rest. split; [|intros ->; apply prefix_refl].
    intros H. symmetry. by apply prefix_same_length. }
  split.
  - intros E. exists a. f_equal. apply Hp. revert E.
    destruct (String.length a) as [|n] eqn:La; cbn [str_rfind_from].
    + destruct (String.prefix _ _); [done|]. rewrite npos_val. lia.
    + destruct (String.prefix _ _); [done|]. intros E.
      destruct (rfind_from_range n (a +:+ b) sub) as [R|R]; rewrite ?npos_val in *; lia.
  - intros [p Hpq]. assert (b = sub) as ->.
    { apply (f_equal string_rev) in Hpq. rewrite !string_rev_app_distr in Hpq.
      apply (f_equal (String.substring 0 (String.length sub))) in Hpq.
      rewrite <- (string_rev_length sub) in Hpq at 2. rewrite substring_prefix in Hpq.
      rewrite <- Hb, <- (string_rev_length b), substring_prefix in Hpq.
      by rewrite <- (string_rev_involutive b), Hpq, string_rev_involutive. }
    destruct Hp as [_ Hp]. specialize (Hp eq_refl).
    destruct (String.length a) as [|n] eqn:La; cbn [str_rfind_from]; rewrite Hp; lia.
Qed.

Lemma endsWith_suffix_witness :
  (String.length ".zpp" <= String.length "loks.zpp")%nat /\
  (endsWith "loks.zpp" ".zpp" = true <-> exists p, "loks.zpp" = p +:+ ".zpp").
Proof. split; [vm_compute; lia|]. apply (endsWith_suffix "loks.zpp" ".zpp"); vm_compute; [lia|done]. Defined.

(** When the string is exactly one character shorter than the suffix,
    [str.length()-strlen(with)] wraps around to [npos], which is also what
    [rfind] returns for "not found": [utils::endsWith] answers true. *)
Theorem endsWith_one_short str sub :
  String.length sub = S (String.length str) -> endsWith str sub = true.
Proof.
  intros H. unfold endsWith. rewrite rfind_too_long by lia. apply Z.eqb_eq.
  unfold npos. f_equal. lia.
Qed.

Lemma endsWith_one_short_witness :
  String.length ".zpp" = S (String.length "zsp") /\ endsWith "zsp" ".zpp" = true.
Proof. split; [reflexivity|]. apply (endsWith_one_short "zsp" ".zpp"). reflexivity. Defined.

(** [utils::trim] removes exactly the white space at both ends: the result
    neither starts nor ends with white space and the input is the result
    between two runs of white space. *)
Theorem trim_spec s :
  exists a b, s = a +:+ trim s +:+ b /\
    skip_while isspace a = "" /\ skip_while isspace b = "" /\
    skip_while isspace (trim s) = trim s /\
    skip_while isspace (string_rev (trim s)) = string_rev (trim s).
Proof.
  rewrite trim_strip. unfold strtrim. set (q := skip_while isspace s).
  assert (skip_while isspace q = q) as Hq by apply skip_while_idemp.
  exists (take_while isspace s), (string_rev (take_while isspace (string_rev q))).
  assert (forall t, skip_while isspace (take_while isspace t) = "") as Htw.
  { induction t as [|c t IH]; cbn; [done|]. destruct (isspace c) eqn:E; cbn; by rewrite ?E. }
  assert (forall t, skip_while isspace t = "" -> skip_while isspace (string_rev t) = "") as Hrev.
  { assert (forall a b, skip_while isspace (a +:+ b) = "" <-> skip_while isspace a = "" /\ skip_while isspace b = "") as Happ.
    { induction a as [|c a IHa]; intros b; strsimpl; [tauto|].
      destruct (isspace c); [apply IHa|]. split; [done|]. by intros [? _]. }
    induction t as [|c t IH]; [done|]. intros H. cbn in H. destruct (isspace c) eqn:E; [|done].
    rewrite string_rev_cons, Happ. split; [by apply IH|]. cbn. by rewrite E. }
  split_and!.
  - rewrite <- string_rev_app_distr, take_skip_while, string_rev_involutive.
    symmetry. apply take_skip_while.
  - apply Htw.
  - apply Hrev, Htw.
  - destruct q as [|c q'] eqn:Eq; [done|]. pose proof (skip_while_head _ _ _ _ Hq) as Hc.
    rewrite string_rev_cons.
    pose proof (take_while_snoc_stop isspace (string_rev q') c Hc) as Hstop.
    set (u := string_rev q' +:+ String c "") in *.
    destruct (skip_while isspace u) as [|d v] eqn:Ev.
    { exfalso. apply Hstop. pose proof (take_skip_while isspace u) as H.
      by rewrite Ev, string_app_nil in H. }
    assert (exists w, d :: nil = d :: nil /\ String d v = w +:+ String c "") as (w & _ & Hw).
    { revert Ev. unfold u. generalize (string_rev q'). clear -Hc.
      induction s as [|e s IH]; strsimpl.
      - rewrite Hc. intros [= <- <-]. by exists "".
      - destruct (isspace e) eqn:He; [apply IH|]. intros [= <- <-].
        exists (String e s). by strsimpl. }
    rewrite Hw, string_rev_app_distr. cbn [string_rev string_rev_app]. strsimpl. by rewrite Hc.
  - rewrite string_rev_involutive. apply skip_while_idemp.
Qed.
