(* ===== verification/Files.v ===== *)
(** * bluetoothserver/utils.cpp: whole files

    [readFile], which every table and picture of the Linux server comes from, and
    [writeFile].  The file system is a map of names to what [stat] and [fread]
    find; a file of /proc has a content but a size of 0. *)

From Stdlib Require Import Ascii.
From S2P Require Import Prelude StdMap CString Utils.

Record FileEntry : Type := mkFileEntry { st_size : nat; content : list ascii; readable : bool }.
Definition FileSystem : Type := string -> option FileEntry.

(** [dirname] of an absolute path: what is before its last slash *)
Fixpoint last_slash (n : nat) (s : string) : nat :=
  match n with
  | O => O
  | S n' => if decide (String.get n' s = Some "/"%char) then n' else last_slash n' s
  end.
Definition dirname (s : string) : string :=
  match last_slash (String.length s) s with O => "/" | n => String.substring 0 n s end.

(** [ret.resize(n, '\0')] and [fread] into it from [pos] *)
Definition resize_to (n : nat) (ret : list ascii) : list ascii := resize n NUL ret.
Definition read_into (pos : nat) (chunk ret : list ascii) : list ascii := take pos ret ++ chunk ++ drop (pos + length chunk) ret.

Arguments resize_to : simpl never.
Arguments read_into : simpl never.

(** the loop for /proc: 1024 bytes more until a read is short.  Afterwards the
    buffer is as long as it was made for the last read *)
Fixpoint proc_loop (fuel : nat) (filelen : nat) (rest ret : list ascii) : outcome (list ascii) :=
  match fuel with
  | O => Err OutOfFuel
  | S fuel' =>
      let ret := resize_to (filelen + 1024) ret in
      let chunk := take 1024 rest in
      let ret := read_into filelen chunk ret in
      if decide (length chunk = 1024%nat) then proc_loop fuel' (filelen + 1024) (drop 1024 rest) ret
      else Ok ret
  end.

Section files.
(** the link /proc/self/exe; [readlink] does not terminate the text, which is
    taken to be followed by a NUL *)
Context (self_exe : option string).

Definition find_file (fs : FileSystem) (filename : string) : outcome FileEntry :=
  match fs filename with
  | Some e => Ok e
  | None =>
      match self_exe with
      | None => Err (Abort "error reading /proc/self/exe")
      | Some execpath =>
          match fs (dirname execpath +:+ "/" +:+ filename) with
          | Some e => Ok e
          | None => Err (Throw "error stat file")
          end
      end
  end.

Definition readFile (fs : FileSystem) (filename : string) : outcome (list ascii) :=
  e ← find_file fs filename;
  if negb (readable e) then Err (Throw "error reading file")
  else if startsWith_cstr filename "/proc/" then proc_loop (S (length (content e))) 0 (content e) []
  else Ok (read_into 0 (take (st_size e) (content e)) (resize_to (st_size e) [])).
End files.

Definition writeFile (writable : string -> bool) (filename : string) (data : list ascii) : M FileSystem unit :=
  if negb (writable filename) then throw "error writing file"
  else modify (fun fs f => if decide (f = filename) then Some (mkFileEntry (length data) data true) else fs f).

(** ** Theorems *)

Lemma read_into_end pos chunk ret n : length ret = pos -> (length chunk <= n)%nat ->
  read_into pos chunk (resize_to (pos + n) ret) = ret ++ chunk ++ replicate (n - length chunk) NUL.
Proof.
  intros Hr Hc. unfold read_into, resize_to. rewrite resize_add_eq by done.
  rewrite take_app_length', drop_app_add' by done. by rewrite drop_replicate.
Qed.

(** the loop appends the file and fills up the last block *)
Lemma proc_loop_run fuel filelen rest ret : length ret = filelen -> (length rest < fuel)%nat ->
  exists k, proc_loop fuel filelen rest ret = Ok (ret ++ rest ++ replicate k NUL) /\
    (0 < k <= 1024)%nat /\ Nat.divide 1024 (length rest + k).
Proof.
  revert filelen rest ret. induction fuel as [|fuel IH]; intros filelen rest ret Hr Hf; [lia|].
  cbn [proc_loop]. rewrite read_into_end by (done || (rewrite length_take; lia)).
  destruct (decide (length (take 1024 rest) = 1024%nat)) as [E|E]; rewrite length_take in E.
  - rewrite length_take, (Nat.min_l 1024 (length rest)) by lia. rewrite Nat.sub_diag. cbn [replicate]. rewrite app_nil_r.
    destruct (IH (filelen + 1024)%nat (drop 1024 rest) (ret ++ take 1024 rest)) as (k & Ek & Hk & Hd).
    { rewrite length_app, length_take. lia. }
    { rewrite length_drop. lia. }
    exists k. split; [|split; [done|]].
    + rewrite Ek. f_equal. rewrite <- app_assoc. f_equal. by rewrite app_assoc, take_drop.
    + rewrite length_drop in Hd. destruct Hd as [q Hq]. exists (S q). lia.
  - exists (1024 - length rest)%nat. rewrite take_ge by lia. split; [done|]. split; [lia|]. exists 1%nat. lia.
Qed.

(** A file that is written is read back, byte for byte, and no other file
    changes; files under /proc excepted. *)
Theorem written_read self_exe writable filename data fs :
  writable filename = true -> startsWith_cstr filename "/proc/" = false ->
  exists fs', writeFile writable filename data fs = (Ok tt, fs') /\ readFile self_exe fs' filename = Ok data /\
    forall f, f <> filename -> fs' f = fs f.
Proof.
  intros Hw Hp. unfold writeFile. rewrite Hw. cbn [negb]. eexists. split; [reflexivity|]. split.
  - unfold readFile, find_file. rewrite decide_True by done. cbn. rewrite Hp. f_equal.
    rewrite take_ge by lia. change (length data) with (0 + length data)%nat at 1. rewrite read_into_end by done.
    by rewrite Nat.sub_diag, app_nil_r.
  - intros f Hf. by rewrite decide_False.
Qed.

Lemma written_read_witness : exists fs', writeFile (fun _ => true) "/tmp/gammurc" (String.list_ascii_of_string "[gammu]") (fun _ => None) = (Ok tt, fs') /\
  readFile None fs' "/tmp/gammurc" = Ok (String.list_ascii_of_string "[gammu]").
Proof.
  destruct (written_read None (fun _ => true) "/tmp/gammurc" (String.list_ascii_of_string "[gammu]") (fun _ => None)) as (fs' & H1 & H2 & _); [done|done|].
  exists fs'. split; [exact H1|exact H2].
Defined.

(** A file of /proc is read completely, but the text is filled up with NULs to a
    multiple of 1024, of which there is at least one. *)
Theorem proc_read_padded self_exe fs filename e :
  startsWith_cstr filename "/proc/" = true -> fs filename = Some e -> readable e = true ->
  exists k, readFile self_exe fs filename = Ok (content e ++ replicate k NUL) /\ (0 < k <= 1024)%nat /\ Nat.divide 1024 (length (content e) + k).
Proof.
  intros Hp He Hr. unfold readFile, find_file. rewrite He. cbn [mbind outcome_bind]. rewrite Hr, Hp. cbn [negb].
  apply (proc_loop_run _ 0 (content e) []); [done|lia].
Qed.

Lemma proc_read_padded_witness : exists k,
  readFile None (fun _ => Some (mkFileEntry 0 (String.list_ascii_of_string "snd_pcm 1") true)) "/proc/modules" =
    Ok (String.list_ascii_of_string "snd_pcm 1" ++ replicate k NUL) /\ (0 < k <= 1024)%nat.
Proof.
  destruct (proc_read_padded None (fun _ => Some (mkFileEntry 0 (String.list_ascii_of_string "snd_pcm 1") true)) "/proc/modules"
    (mkFileEntry 0 (String.list_ascii_of_string "snd_pcm 1") true)) as (k & H1 & H2 & _); [vm_compute; reflexivity|reflexivity|reflexivity|].
  exists k. split; [exact H1|exact H2].
Defined.

(** A name that is not found is looked for beside the program. *)
Theorem found_beside_program fs execpath filename : fs filename = None ->
  readFile (Some execpath) fs filename =
    match fs (dirname execpath +:+ "/" +:+ filename) with
    | None => Err (Throw "error stat file")
    | Some e =>
        if negb (readable e) then Err (Throw "error reading file")
        else if startsWith_cstr filename "/proc/" then proc_loop (S (length (content e))) 0 (content e) []
        else Ok (take (st_size e) (content e) ++ replicate (st_size e - length (content e)) NUL)
    end.
Proof.
  intros Hn. unfold readFile, find_file. rewrite Hn. destruct (fs (dirname execpath +:+ _)) as [e|]; [|done]. cbn [mbind outcome_bind].
  destruct (negb (readable e)); [done|]. destruct (startsWith_cstr filename "/proc/"); [done|]. f_equal.
  change (st_size e) with (0 + st_size e)%nat at 2. rewrite read_into_end by (done || (rewrite length_take; lia)). cbn [app].
  rewrite length_take. do 2 f_equal. lia.
Qed.

Lemma found_beside_program_witness :
  readFile (Some "/opt/btcontrol/server") (fun f => if decide (f = "/opt/btcontrol/lokdef.csv") then Some (mkFileEntry 2 (String.list_ascii_of_string "3,") true) else None) "lokdef.csv"
    = Ok (String.list_ascii_of_string "3,").
Proof. rewrite (found_beside_program _ "/opt/btcontrol/server" "lokdef.csv"); [vm_compute; reflexivity|reflexivity]. Defined.
