(* ===== verification/MessageLayout.v ===== *)
(** * bluetoothserver/message_layout.cpp: the message layouts of protocol.dat

    The grammar of the protocol file, the table of message types it defines
    and the lookups by type and by name. *)

From Stdlib Require Import Ascii.
From S2P Require Import Prelude StdMap CString.

(** ** Data *)

(** [enum MessageLayout::DataType]; message types are the numbers above
    [STRUCT]. *)
Definition UNDEF : Z := 0.
Definition INT : Z := 1.
Definition STRING : Z := 2.
Definition ARRAY : Z := 3.
Definition STRUCT : Z := 4.

(** [class MessageLayout] *)
Inductive MessageLayout : Type :=
  Layout (type : Z) (name : string) (childLayouts : list MessageLayout).

Definition l_type (l : MessageLayout) : Z := let 'Layout t _ _ := l in t.
Definition l_name (l : MessageLayout) : string := let 'Layout _ n _ := l in n.
Definition l_children (l : MessageLayout) : list MessageLayout := let 'Layout _ _ c := l in c.

(** a value initialised layout *)
Definition layout0 : MessageLayout := Layout UNDEF "" [].

(** [class MessageLayouts]: the map, the hash of the protocol file and the
    flag that it was read *)
Record MessageLayouts : Type := mkLayouts {
  layouts : smap MessageLayout;
  protocolHash : Z;
  loaded : bool;
}.

Definition MessageLayouts0 : MessageLayouts := mkLayouts [] (-1) false.

(** ** Lookups *)

Definition dquote : string := String "034" EmptyString.

(** the loop over the table in [getMessageLayout] and [messageTypeName] *)
Definition find_type (t : Z) (m : smap MessageLayout) : option (string * MessageLayout) :=
  List.find (fun kv => t =? l_type kv.2) m.

Definition getMessageLayout (ml : MessageLayouts) (t : Z) : outcome MessageLayout :=
  if negb (loaded ml) then Err (Abort "messageLayouts.isLoaded()")
  else if t <=? STRUCT then Err (Throw "invalid type")
  else match find_type t (layouts ml) with
       | Some (_, l) => Ok l
       | None => Err (Throw ("invalid struct type (" +:+ to_string t +:+ ")"))
       end.

Definition messageTypeName (ml : MessageLayouts) (t : Z) : outcome string :=
  if t =? UNDEF then Ok "(UNDEF)"
  else if t =? INT then Ok "(INT)"
  else if t =? STRING then Ok "(STRING)"
  else if t =? ARRAY then Ok "(ARRAY)"
  else if t =? STRUCT then Ok "(STRUCT)"
  else match find_type t (layouts ml) with
       | None => Err (Throw ("invalid id(" +:+ to_string t +:+ ")"))
       | Some (n, _) => Ok ("(STRUCT " +:+ n +:+ ")")
       end.

(** [messageLayouts[name].type]: [operator[]] inserts a value initialised
    layout for an unknown name *)
Definition messageTypeID (name : string) : M MessageLayouts Z := fun ml =>
  let '(l, m) := smap_index layout0 name (layouts ml) in
  let ml' := mkLayouts m (protocolHash ml) (loaded ml) in
  if l_type l =? UNDEF
  then (Err (Throw ("invalid message name: " +:+ dquote +:+ name +:+ dquote)), ml')
  else (Ok (l_type l), ml').

(** ** The parser *)

Definition not_colon (c : ascii) : bool := negb (bool_decide (c = ":"%char)).

(** [parseMessageLayout(const char *&pos)]: an empty line, or the loop over
    the fields *)
Definition parse_layout_with (fields : list MessageLayout -> string -> outcome (list MessageLayout * string))
    (pos : string) : outcome (MessageLayout * string) :=
  if decide (pos = EmptyString) then Ok (layout0, pos)
  else '(c, p) ← fields [] pos; Ok (Layout UNDEF "" c, p).

(** the [switch] on the type letter.  A field whose letter is missing is
    pushed with an uninitialised [type]; that case is [UB]. *)
Definition parse_info (parse : string -> outcome (MessageLayout * string)) (name pos : string)
    : outcome (MessageLayout * string) :=
  if decide (pos = EmptyString) then Err (UB "childLayouts.push_back: info.type not initialised")
  else if decide (deref pos = "I"%char) then Ok (Layout INT name [], advance pos)
  else if decide (deref pos = "S"%char) then Ok (Layout STRING name [], advance pos)
  else if decide (deref pos = "A"%char) then
    let pos := advance pos in
    if decide (deref pos = "{"%char) then
      '(info, pos) ← parse (advance pos);
      Ok (Layout ARRAY name (l_children info), pos)
    else Err (Throw ("A must be followed by { @" +:+ pos))
  else Err (Throw ("error parsing protocol.dat invalid type @" +:+ pos)).

(** the [while(true)] loop; [acc] is [messageLayout.childLayouts] *)
Fixpoint parse_fields (fuel : nat) (acc : list MessageLayout) (pos : string)
    : outcome (list MessageLayout * string) :=
  match fuel with
  | O => Err OutOfFuel
  | S f =>
      let name := take_while not_colon pos in
      let pos := skip_while not_colon pos in
      if decide (pos = EmptyString) then Err (Throw "error finding name")
      else
        '(info, pos) ← parse_info (parse_layout_with (parse_fields f)) name (advance pos);
        if decide (deref pos = "}"%char \/ pos = EmptyString) then Ok (acc ++ [info], pos)
        else if decide (deref pos = ","%char) then parse_fields f (acc ++ [info]) (advance pos)
        else Err (Throw ", expected")
  end.

(** Every iteration consumes a character, so the length of the text is enough
    fuel ([parse_fields_fuel]). *)
Definition parseMessageLayout (pos : string) : outcome (MessageLayout * string) :=
  parse_layout_with (parse_fields (S (String.length pos))) pos.

(** ** Reading protocol.dat *)

Fixpoint line_hash (s : string) (acc : Z) : Z :=
  match s with EmptyString => acc | String c s' => line_hash s' (acc + chr c) end.

Definition not_eq_sign (c : ascii) : bool := negb (bool_decide (c = "="%char)).

(** one iteration of the loop of [MessageLayouts::load]; the accumulator
    holds [hash] and [typeNr] *)
Definition load_line (acc : Z * Z) (line : string) : M MessageLayouts (Z * Z) :=
  let '(hash, typeNr) := acc in
  let buffer := c_str line in
  if decide (deref buffer = "#"%char) then mret (hash, typeNr)
  else
    let hash := wrap32 (hash + line_hash buffer 0) in
    let pos := skip_while isspace buffer in
    if decide (pos = EmptyString) then mret (hash, typeNr)
    else
      let name := take_while not_eq_sign pos in
      let pos := skip_while not_eq_sign pos in
      if decide (pos = EmptyString) then throw "invalid identifier"
      else
        let pos := advance pos in
        '(l, _) ← lift (parseMessageLayout pos);
        modify (fun ml => mkLayouts (smap_set name (Layout typeNr "" (l_children l)) (layouts ml))
                            (protocolHash ml) (loaded ml));;
        mret (hash, typeNr + 1).

(** [MessageLayouts::load], the text of protocol.dat given *)
Definition load (protocolDat : string) : M MessageLayouts Z :=
  ml ← get;
  if loaded ml then mret 0
  else
    modify (fun ml => mkLayouts (layouts ml) (protocolHash ml) true);;
    '(hash, _) ← foldM load_line (getlines protocolDat) (0, STRUCT + 1);
    modify (fun ml => mkLayouts (layouts ml) hash (loaded ml));;
    mret hash.

(** ** The parser terminates *)

Lemma advance_lt s : s <> EmptyString -> (String.length (advance s) < String.length s)%nat.
Proof. destruct s; cbn; [done|lia]. Qed.

Lemma advance_le s : (String.length (advance s) <= String.length s)%nat.
Proof. rewrite advance_length. lia. Qed.

Section parse_info_rules.
Context (fields : list MessageLayout -> string -> outcome (list MessageLayout * string)).

Lemma parse_layout_with_ok pos l p :
  parse_layout_with fields pos = Ok (l, p) ->
  (pos = EmptyString /\ l = layout0 /\ p = pos) \/
  (pos <> EmptyString /\ exists c, fields [] pos = Ok (c, p) /\ l = Layout UNDEF "" c).
Proof.
  unfold parse_layout_with. case_decide as D; [naive_solver|].
  intros Hb. apply outcome_bind_ok in Hb as ([c p'] & H1 & H2). naive_solver.
Qed.

(** the position only moves forward *)
Lemma parse_info_length name pos info p n :
  (forall pos' c p', (String.length pos' < n)%nat -> fields [] pos' = Ok (c, p') ->
                     (String.length p' <= String.length pos')%nat) ->
  (String.length pos <= n)%nat ->
  parse_info (parse_layout_with fields) name pos = Ok (info, p) ->
  (String.length p < String.length pos)%nat.
Proof.
  intros IH Hn. unfold parse_info. repeat case_decide; try done.
  - intros [= _ <-]. by apply advance_lt.
  - intros [= _ <-]. by apply advance_lt.
  - intros H'. apply outcome_bind_ok in H' as ([l p'] & Hl1 & Hl2). simplify_eq.
    apply parse_layout_with_ok in Hl1.
    pose proof (advance_lt pos ltac:(done)). pose proof (advance_le (advance pos)).
    destruct Hl1 as [(E & _ & ->)|(_ & c & Hl1 & _)]; [lia|].
    apply IH in Hl1; lia.
Qed.
End parse_info_rules.

Lemma parse_fields_length f acc pos c p :
  parse_fields f acc pos = Ok (c, p) -> (String.length p <= String.length pos)%nat.
Proof.
  revert acc pos c p. induction f as [|f IH]; intros acc pos c p; [done|]. cbn.
  case_decide as Hne; [done|]. pose proof (skip_while_length not_colon pos).
  pose proof (advance_lt _ Hne).
  intros H'. apply outcome_bind_ok in H' as ([info p'] & Hi1 & Hi2).
  eapply (parse_info_length _ _ _ _ _ (String.length pos)) in Hi1; [|naive_solver|lia].
  repeat case_decide; simplify_eq; [lia|].
  apply IH in Hi2. pose proof (advance_le p'). lia.
Qed.

Lemma parse_fields_fuel f acc pos :
  (String.length pos < f)%nat -> parse_fields f acc pos <> Err OutOfFuel.
Proof.
  revert acc pos. induction f as [|f IH]; intros acc pos Hf; [lia|]. cbn.
  case_decide as Hne; [done|]. pose proof (skip_while_length not_colon pos).
  pose proof (advance_lt _ Hne).
  destruct (parse_info _ _ _) as [[info p']|e] eqn:E; cbn.
  - eapply (parse_info_length _ _ _ _ _ (String.length pos)) in E; [|eauto using parse_fields_length|lia].
    repeat case_decide; try done. apply IH. pose proof (advance_le p'). lia.
  - intros [= ->]. revert E. unfold parse_info. repeat case_decide; try done.
    unfold parse_layout_with. case_decide as Hne2; [done|].
    destruct (parse_fields f [] _) as [[c p]|e] eqn:E; cbn; [done|]. intros [= ->].
    revert E. apply IH.
    match goal with H : advance (skip_while _ _) <> EmptyString |- _ => pose proof (advance_lt _ H) end.
    pose proof (advance_lt _ Hne2).
    pose proof (advance_le (advance (advance (skip_while not_colon pos)))). lia.
Qed.

Lemma parse_info_mono p1 p2 name pos r :
  (forall x y, p1 x = Ok y -> p2 x = Ok y) ->
  parse_info p1 name pos = Ok r -> parse_info p2 name pos = Ok r.
Proof.
  intros H. unfold parse_info. destruct (decide (pos = _)); [done|].
  destruct (decide (deref pos = "I"%char)); [done|]. destruct (decide (deref pos = "S"%char)); [done|].
  destruct (decide (deref pos = "A"%char)); [|done].
  destruct (decide (deref (advance pos) = "{"%char)); [|done].
  intros Hb. apply outcome_bind_ok in Hb as ([l q] & Hl & Heq). by rewrite (H _ _ Hl).
Qed.

Lemma parse_layout_with_mono f1 f2 x y :
  (forall x y, f1 [] x = Ok y -> f2 [] x = Ok y) ->
  parse_layout_with f1 x = Ok y -> parse_layout_with f2 x = Ok y.
Proof.
  intros H. unfold parse_layout_with. case_decide; [done|].
  intros Hb. apply outcome_bind_ok in Hb as ([c q] & Hc & Heq). by rewrite (H _ _ Hc).
Qed.

Lemma parse_fields_mono f f' acc s r :
  (f <= f')%nat -> parse_fields f acc s = Ok r -> parse_fields f' acc s = Ok r.
Proof.
  revert f' acc s r. induction f as [|f IH]; intros [|f'] acc s r Hf; try done; [lia|]. cbn.
  case_decide; [done|]. intros Hb. apply outcome_bind_ok in Hb as ([info q] & Hi & Hrest).
  rewrite (parse_info_mono _ _ _ _ _
    (fun x y => parse_layout_with_mono _ (parse_fields f') x y (fun x y => IH f' [] x y ltac:(lia))) Hi).
  cbn. destruct (decide (deref q = _ \/ _)); [done|].
  destruct (decide (deref q = _)); [|done]. apply IH; [lia|done].
Qed.

(** ** What follows the first closing brace is not read *)

Lemma parse_info_extend fields name pos info p t :
  (forall pos' c p', fields [] pos' = Ok (c, p') -> p' <> EmptyString ->
     fields [] (pos' +:+ t) = Ok (c, p' +:+ t)) ->
  parse_info (parse_layout_with fields) name pos = Ok (info, p) -> p <> EmptyString ->
  parse_info (parse_layout_with fields) name (pos +:+ t) = Ok (info, p +:+ t).
Proof.
  intros IH. unfold parse_info. case_decide as Hne; [done|].
  rewrite (decide_False (P:=pos +:+ t = _)) by by apply app_ne.
  rewrite deref_app, advance_app by done.
  case_decide; [by intros [= -> <-]|]. case_decide; [by intros [= -> <-]|]. case_decide; [|done].
  destruct (decide (deref (advance pos) = "{"%char)) as [D|D]; [|done].
  assert (advance pos <> EmptyString) as Hne1 by (by eapply deref_ne).
  rewrite decide_True by by rewrite deref_app.
  intros Hb Hp. apply outcome_bind_ok in Hb as ([l p'] & Hl & Heq). simplify_eq.
  rewrite advance_app by done.
  apply parse_layout_with_ok in Hl as [(? & _ & ->)|(Hne' & c & Hc & ->)]; [done|].
  unfold parse_layout_with. rewrite decide_False by by apply app_ne.
  by rewrite (IH _ _ _ Hc Hp).
Qed.

Lemma parse_fields_extend f acc s c r t :
  parse_fields f acc s = Ok (c, r) -> r <> EmptyString ->
  parse_fields f acc (s +:+ t) = Ok (c, r +:+ t).
Proof.
  revert acc s c r. induction f as [|f IH]; intros acc s c r; [done|]. cbn.
  case_decide as Hne; [done|]. rewrite take_while_extend, skip_while_extend by done.
  rewrite decide_False by by apply app_ne. rewrite advance_app by done.
  intros Hb Hr. apply outcome_bind_ok in Hb as ([info p] & Hi & Hrest).
  assert (p <> EmptyString) as Hp.
  { intros ->. repeat case_decide; naive_solver. }
  rewrite (parse_info_extend _ _ _ _ _ t (IH []) Hi Hp). cbn.
  rewrite deref_app, advance_app by done.
  pose proof (app_ne p t Hp).
  destruct (decide (deref p = _ \/ p = _)) as [[D|D]|D]; [|done|].
  - rewrite decide_True by auto. by simplify_eq.
  - rewrite decide_False by naive_solver. case_decide; [|done]. by apply IH.
Qed.

(** ** Printing layouts *)

(** the text protocol.dat holds for a field list *)
Fixpoint print_field (l : MessageLayout) : string :=
  let 'Layout t n cs := l in
  n +:+ ":" +:+
  (if t =? INT then "I" else if t =? STRING then "S"
   else "A{" +:+ String.concat "," (map print_field cs) +:+ "}").
Definition print_fields (cs : list MessageLayout) : string :=
  String.concat "," (map print_field cs).

(** What the parser makes of a field list: it stops behind the first array, at
    the brace that closes it, and so does every list around it.  The fields
    behind that array are not read. *)
Fixpoint read_back_field (l : MessageLayout) : MessageLayout :=
  let 'Layout t n cs := l in
  Layout t n ((fix go (cs : list MessageLayout) : list MessageLayout :=
    match cs with
    | [] => []
    | c :: cs' => if l_type c =? ARRAY then [read_back_field c] else read_back_field c :: go cs'
    end) cs).
Definition read_back (cs : list MessageLayout) : list MessageLayout := l_children (read_back_field (Layout UNDEF "" cs)).

(** the text it leaves, from that brace on *)
Fixpoint unread_field (l : MessageLayout) : string :=
  let 'Layout t n cs := l in
  (fix go (cs : list MessageLayout) : string :=
    match cs with
    | [] => ""
    | c :: cs' => if l_type c =? ARRAY
                  then unread_field c +:+ "}" +:+ match cs' with [] => "" | _ => "," +:+ print_fields cs' end
                  else go cs'
    end) cs.
Definition unread (cs : list MessageLayout) : string := unread_field (Layout UNDEF "" cs).

(** an array is the last field of its list, at every depth *)
Fixpoint arrays_last_in (l : MessageLayout) : bool :=
  let 'Layout t n cs := l in
  (fix go (cs : list MessageLayout) : bool :=
    match cs with
    | [] => true
    | c :: cs' => arrays_last_in c && (if l_type c =? ARRAY then match cs' with [] => true | _ => false end else go cs')
    end) cs.
Definition arrays_last (cs : list MessageLayout) : bool := arrays_last_in (Layout UNDEF "" cs).

(** The field lists of protocol.dat: fields with names without a colon, each an
    int, a string or an array of such a list. *)
Inductive field_list : list MessageLayout -> Prop :=
  | fl_scalar t n more : take_while not_colon n = n -> t = INT \/ t = STRING -> more = [] \/ field_list more ->
      field_list (Layout t n [] :: more)
  | fl_array n cs more : take_while not_colon n = n -> field_list cs -> more = [] \/ field_list more ->
      field_list (Layout ARRAY n cs :: more).

Lemma read_back_array n cs more : read_back (Layout ARRAY n cs :: more) = [Layout ARRAY n (read_back cs)].
Proof. done. Qed.
Lemma read_back_scalar t n more : t = INT \/ t = STRING -> read_back (Layout t n [] :: more) = Layout t n [] :: read_back more.
Proof. by intros [-> | ->]. Qed.
Lemma unread_array n cs more :
  unread (Layout ARRAY n cs :: more) = unread cs +:+ "}" +:+ match more with [] => "" | _ => "," +:+ print_fields more end.
Proof. done. Qed.
Lemma unread_scalar t n more : t = INT \/ t = STRING -> unread (Layout t n [] :: more) = unread more.
Proof. by intros [-> | ->]. Qed.

(** nothing is lost exactly when arrays come last *)
Lemma read_back_all cs : field_list cs -> read_back cs = cs <-> arrays_last cs = true.
Proof.
  revert cs. fix IH 2. intros cs H. destruct H as [t n more Hn Ht Hm|n cs more Hn Hcs Hm].
  - rewrite read_back_scalar by done.
    assert (arrays_last (Layout t n [] :: more) = arrays_last more) as -> by (by destruct Ht as [-> | ->]).
    destruct Hm as [->|Hm]; [done|]. rewrite <- (IH more Hm). split; [by intros [= ->]|by intros ->].
  - rewrite read_back_array.
    assert (arrays_last (Layout ARRAY n cs :: more) = arrays_last cs && match more with [] => true | _ => false end) as -> by done.
    rewrite andb_true_iff, <- (IH cs Hcs). split; [intros [= -> <-]; done|]. intros [-> ?]. by destruct more.
Qed.

Definition end_of_list (t : string) : Prop := t = EmptyString \/ deref t = "}"%char.

Lemma print_field_scalar t n :
  t = INT \/ t = STRING ->
  exists c, print_field (Layout t n []) = n +:+ String ":" (String c "") /\
    forall parse t', parse_info parse n (String c t') = Ok (Layout t n [], t').
Proof.
  intros [-> | ->]; [exists "I"%char|exists "S"%char]; split; try reflexivity; intros;
    unfold parse_info; cbn; by repeat case_decide.
Qed.

Lemma skip_name n t :
  take_while not_colon n = n ->
  take_while not_colon (n +:+ String ":" t) = n /\
  skip_while not_colon (n +:+ String ":" t) = String ":" t.
Proof. intros Hn. split; [by apply take_while_app|by apply skip_while_app]. Qed.

Lemma unread_end cs t : field_list cs -> end_of_list t -> end_of_list (unread cs +:+ t).
Proof.
  revert cs t. fix IH 3. intros cs t H Ht. destruct H as [ty n more Hn Hty Hm|n cs more Hn Hcs Hm].
  - rewrite unread_scalar by done. destruct Hm as [->|Hm]; [done|]. exact (IH more t Hm Ht).
  - rewrite unread_array, <- !string_app_assoc. set (u := match more with [] => _ | _ => _ end).
    assert (end_of_list ("}" +:+ u +:+ t)) as Hu by (by right).
    destruct (IH cs ("}" +:+ u +:+ t) Hcs Hu) as [E|E]; [by destruct (unread cs)|by right].
Qed.

Lemma parse_array_info n cs t f :
  (forall u, end_of_list u -> parse_fields f [] (print_fields cs +:+ u) =
                              Ok (read_back cs, unread cs +:+ u)) ->
  parse_info (parse_layout_with (parse_fields f)) n ("A{" +:+ print_fields cs +:+ "}" +:+ t) =
    Ok (Layout ARRAY n (read_back cs), unread cs +:+ "}" +:+ t).
Proof.
  intros IH. unfold parse_info. rewrite !string_cons_app, string_nil_app. cbn [deref advance].
  rewrite !decide_False by done. rewrite !decide_True by done.
  unfold parse_layout_with.
  rewrite decide_False by (by destruct (print_fields cs)).
  rewrite IH by (by right). done.
Qed.

Lemma print_fields_next l more : print_fields (l :: more) = print_field l +:+ match more with [] => "" | _ => "," +:+ print_fields more end.
Proof. destruct more; [|done]. unfold print_fields. cbn. by rewrite string_app_nil. Qed.

Lemma parse_print_fields cs f acc t :
  field_list cs -> end_of_list t -> (String.length (print_fields cs) < f)%nat ->
  parse_fields f acc (print_fields cs +:+ t) = Ok (acc ++ read_back cs, unread cs +:+ t).
Proof.
  intros H. revert cs H f acc t. fix IH 2. intros cs H [|f] acc t Ht Hf; [lia|].
  destruct H as [ty n more Hn Hty Hm|n cs more Hn Hcs Hm].
  - rewrite read_back_scalar, unread_scalar by done. rewrite print_fields_next in Hf |- *.
    destruct (print_field_scalar ty n Hty) as (c & Hpf & Hp). rewrite Hpf in Hf |- *. rewrite !string_app_length in Hf. cbn in Hf.
    rewrite <- !string_app_assoc, !string_cons_app, string_nil_app. set (u := _ +:+ t) at 1.
    destruct (skip_name n (String c u) Hn) as [Hn1 Hn2].
    cbn [parse_fields]. rewrite Hn1, Hn2. cbn [advance]. rewrite Hp. rewrite decide_False by done. cbn [mbind outcome_bind].
    destruct Hm as [->|Hm]; [rewrite decide_True by (destruct Ht; auto); done|].
    destruct more as [|m more]; [inversion Hm|]. unfold u. rewrite string_cons_app, string_nil_app.
    rewrite decide_False by (intros [?|?]; done). rewrite decide_True by done. cbn [advance].
    rewrite IH; [by rewrite <- app_assoc|done|done|]. rewrite string_app_length in Hf. lia.
  - rewrite read_back_array, unread_array. rewrite print_fields_next in Hf |- *.
    set (u := match more with [] => _ | _ => _ end) in *.
    assert (print_field (Layout ARRAY n cs) = n +:+ ":" +:+ "A{" +:+ print_fields cs +:+ "}") as Hpr by reflexivity.
    rewrite Hpr in Hf |- *. rewrite !string_app_length in Hf. cbn in Hf. rewrite <- !string_app_assoc.
    destruct (skip_name n ("A{" +:+ print_fields cs +:+ "}" +:+ u +:+ t) Hn) as [Hn1 Hn2].
    cbn [parse_fields]. change (":" +:+ ?x) with (String ":" x). rewrite Hn1, Hn2. cbn [advance]. rewrite decide_False by done.
    rewrite parse_array_info by (intros; apply IH; [done|done|lia]). cbn [mbind outcome_bind].
    rewrite decide_True; [done|]. left. destruct (unread_end cs ("}" +:+ u +:+ t) Hcs) as [E|E]; [by right| |done].
    by destruct (unread cs).
Qed.

(** ** The table of message types *)

(** Entries have distinct message types; names that were only asked for have
    type [UNDEF].  [n] is the next type to be given out. *)
Record table_inv (n : Z) (ml : MessageLayouts) : Prop := {
  tinv_wf : smap_wf (layouts ml);
  tinv_range : forall k l, smap_find k (layouts ml) = Some l ->
    l_type l = UNDEF \/ STRUCT < l_type l < n;
  tinv_inj : forall k1 l1 k2 l2,
    smap_find k1 (layouts ml) = Some l1 -> smap_find k2 (layouts ml) = Some l2 ->
    l_type l1 = l_type l2 -> l_type l1 <> UNDEF -> k1 = k2;
  tinv_next : STRUCT < n;
}.

Definition table_wf (ml : MessageLayouts) : Prop := exists n, table_inv n ml.

Lemma table_inv_set n name t cs ml h b :
  table_inv n ml -> (t = n \/ t = UNDEF /\ smap_find name (layouts ml) = None) ->
  table_inv (n + 1) (mkLayouts (smap_set name (Layout t "" cs) (layouts ml)) h b).
Proof.
  intros [W R J N] Ht. unfold UNDEF, STRUCT in *. split; cbn.
  - by apply smap_wf_set.
  - intros k l F. rewrite smap_find_set in F. case_decide; simplify_eq/=; unfold UNDEF, STRUCT; [lia|].
    apply R in F. lia.
  - intros k1 l1 k2 l2 F1 F2. rewrite smap_find_set in F1, F2. unfold UNDEF.
    intros E Hne. destruct (decide (name = k1)), (decide (name = k2)); simplify_eq/=; [done|..].
    + apply R in F2. lia.
    + apply R in F1. lia.
    + by eapply J.
  - unfold STRUCT. lia.
Qed.

Lemma table_inv_weaken n m ml : table_inv n ml -> n <= m -> table_inv m ml.
Proof.
  intros [W R J N] Hm. split; try done; [|lia]. intros k l H. apply R in H. lia.
Qed.

Lemma table_inv_init ml n :
  layouts ml = [] -> STRUCT < n -> table_inv n ml.
Proof. intros E Hn. split; rewrite ?E; try done; constructor. Qed.

Lemma load_line_inv acc line ml :
  table_inv acc.2 ml -> loaded ml = true ->
  wp (load_line acc line) (fun acc' ml' => table_inv acc'.2 ml' /\ loaded ml' = true)
     (fun _ ml' => table_wf ml' /\ loaded ml' = true) ml.
Proof.
  destruct acc as [h n]. intros H L. assert (table_wf ml) by (by exists n).
  unfold load_line. repeat case_decide; try done.
  apply wp_bind, wp_lift; [|by intros].
  intros [l p] _. apply wp_bind, wp_modify, wp_ret. cbn. split; [|done].
  eapply table_inv_set; [done|by left].
Qed.

Lemma load_inv text ml :
  table_wf ml -> (loaded ml = false -> layouts ml = []) ->
  wp (load text) (fun _ ml' => table_wf ml' /\ loaded ml' = true)
                 (fun _ ml' => table_wf ml' /\ loaded ml' = true) ml.
Proof.
  intros W E. unfold load. apply wp_bind. change (get ml) with (Ok ml, ml). cbn.
  destruct (loaded ml) eqn:L; [by apply wp_ret|].
  apply wp_bind, wp_modify, wp_bind.
  eapply wp_mono.
  - apply (wp_foldM _ (fun acc ml' => table_inv acc.2 ml' /\ loaded ml' = true)).
    + split; [|done]. apply table_inv_init; [by apply E|done].
    + intros line acc ml' _ [H1 H2]. by apply load_line_inv.
  - intros [h n] ml' [H1 H2]. apply wp_bind, wp_modify, wp_ret. cbn in *. split; [|done].
    exists n. by destruct H1.
  - done.
Qed.

Lemma messageTypeID_inv name ml :
  table_wf ml -> table_wf (messageTypeID name ml).2 /\ loaded (messageTypeID name ml).2 = loaded ml.
Proof.
  intros [n W]. unfold messageTypeID, smap_index.
  destruct (smap_find name (layouts ml)) eqn:F.
  - assert (mkLayouts (layouts ml) (protocolHash ml) (loaded ml) = ml) as -> by by destruct ml.
    destruct (_ =? _); (split; [by exists n|done]).
  - cbn. split; [|done]. exists (n + 1). apply table_inv_set; [done|by right].
Qed.

Lemma find_type_unique ml name l :
  table_wf ml -> smap_find name (layouts ml) = Some l -> l_type l <> UNDEF ->
  find_type (l_type l) (layouts ml) = Some (name, l).
Proof.
  intros [n [W R J N]] F Hne. unfold find_type.
  destruct (List.find _ _) as [[k l']|] eqn:E.
  - apply List.find_some in E as [Hin Heq]. apply Z.eqb_eq in Heq. cbn in Heq.
    apply list_elem_of_In in Hin. pose proof (smap_elem_find _ _ _ W Hin) as F'.
    assert (name = k) as <- by by eapply J. congruence.
  - exfalso. pose proof (List.find_none _ _ E (name, l)) as H.
    rewrite <- list_elem_of_In in H. specialize (H (smap_find_elem _ _ _ F)).
    cbn in H. by rewrite Z.eqb_refl in H.
Qed.

(** The tables the server can hold: one attempt to load, then lookups. *)
Inductive table_reach : MessageLayouts -> Prop :=
  | reach_load text : table_reach (load text MessageLayouts0).2
  | reach_reload text ml : table_reach ml -> table_reach (load text ml).2
  | reach_query name ml : table_reach ml -> table_reach (messageTypeID name ml).2.

Lemma table_reach_inv ml : table_reach ml -> table_wf ml /\ loaded ml = true.
Proof.
  assert (table_wf MessageLayouts0) as W0 by (exists 5; by apply table_inv_init).
  induction 1 as [text|text ml _ [W L]|name ml _ [W L]].
  - pose proof (load_inv text _ W0 (fun _ => eq_refl)) as H. unfold wp in H.
    by destruct (load text MessageLayouts0) as [[] ml'].
  - assert (loaded ml = false -> layouts ml = []) as E by (rewrite L; done).
    pose proof (load_inv text _ W E) as H. unfold wp in H. by destruct (load text ml) as [[] ml'].
  - destruct (messageTypeID_inv name ml W) as [H1 H2]. by rewrite H2.
Qed.

(** ** Properties *)

(** The parser never runs past its input: for every text
    [parseMessageLayout] returns a layout or an exception. *)
Theorem parseMessageLayout_total pos : parseMessageLayout pos <> Err OutOfFuel.
Proof.
  unfold parseMessageLayout, parse_layout_with. case_decide; [done|].
  destruct (parse_fields _ [] pos) as [[c p]|e] eqn:E; cbn; [done|]. intros [= ->].
  revert E. apply parse_fields_fuel. lia.
Qed.

(** C27: Print/parse round trip for every field list of the syntax of
    protocol.dat, the empty one included (fields with names without a colon,
    ints, strings and arrays of at least one field, in any order and at any
    depth): [parseMessageLayout] reads from its text the fields up to the first
    array, that array likewise up to its first array, and leaves the text from
    the first closing brace on.  So it reads back the whole list exactly when
    every array is the last field of its list; otherwise it drops the fields
    behind an array without an error. *)
Theorem parse_print_layout cs :
  cs = [] \/ field_list cs ->
  parseMessageLayout (print_fields cs) = Ok (Layout UNDEF "" (read_back cs), unread cs) /\
  (read_back cs = cs <-> arrays_last cs = true).
Proof.
  intros [->|H]; [done|]. split; [|by apply read_back_all].
  unfold parseMessageLayout, parse_layout_with. rewrite decide_False.
  - rewrite <- (string_app_nil (print_fields cs)) at 2.
    rewrite parse_print_fields; [|done|by left|lia]. cbn. by rewrite string_app_nil.
  - assert (forall n s t, (n +:+ String ":" s) +:+ t <> "") as Hne by (by intros []).
    destruct H as [t n more _ [-> | ->] _|n cs more _ _ _]; rewrite print_fields_next; apply Hne.
Qed.

Lemma parse_print_layout_witness :
  (parseMessageLayout "dir:I,list:A{addr:I}" =
     Ok (Layout UNDEF "" [Layout INT "dir" []; Layout ARRAY "list" [Layout INT "addr" []]], "}") /\ true = true) /\
  (parseMessageLayout "list:A{addr:I},dir:I" =
     Ok (Layout UNDEF "" [Layout ARRAY "list" [Layout INT "addr" []]], "},dir:I")).
Proof.
  assert (field_list [Layout INT "addr" []]) as Ha by (apply fl_scalar; [reflexivity|by left|by left]).
  split; [split; [|reflexivity]|].
  - refine (proj1 (parse_print_layout [Layout INT "dir" []; Layout ARRAY "list" [Layout INT "addr" []]] (or_intror _))).
    apply fl_scalar; [reflexivity|by left|]. right. apply fl_array; [reflexivity|exact Ha|by left].
  - refine (proj1 (parse_print_layout [Layout ARRAY "list" [Layout INT "addr" []]; Layout INT "dir" []] (or_intror _))).
    apply fl_array; [reflexivity|exact Ha|]. right. apply fl_scalar; [reflexivity|by left|by left].
Defined.

(** Nothing after the brace that closes an array is read: a field list that
    stops at a brace parses to the same layout whatever text follows, so
    fields written after an array are silently dropped. *)
Theorem fields_after_array_dropped s l r t :
  parseMessageLayout s = Ok (l, String "}" r) ->
  parseMessageLayout (s +:+ t) = Ok (l, String "}" r +:+ t).
Proof.
  unfold parseMessageLayout. intros H.
  apply parse_layout_with_ok in H as [(-> & _ & E)|(Hne & c & Hc & ->)]; [done|].
  unfold parse_layout_with. rewrite decide_False by by apply app_ne.
  assert (forall f f', (f <= f')%nat -> parse_fields f [] s = Ok (c, String "}" r) ->
            parse_fields f' [] s = Ok (c, String "}" r)) as Hmono.
  { intros. by eapply parse_fields_mono. }
  eapply Hmono with (f' := S (String.length (s +:+ t))) in Hc; [|rewrite string_app_length; lia].
  by rewrite (parse_fields_extend _ _ _ _ _ t Hc).
Qed.

Lemma fields_after_array_dropped_witness :
  parseMessageLayout "list:A{addr:I},dir:I" =
    Ok (Layout UNDEF "" [Layout ARRAY "list" [Layout INT "addr" []]], "},dir:I").
Proof. apply (fields_after_array_dropped "list:A{addr:I}" _ "" ",dir:I"). reflexivity. Defined.

(** C26: Whatever files were loaded and whatever names were looked up before: the
    number [messageTypeID] returns for a name leads [getMessageLayout] to the
    layout stored under that name, and [messageTypeName] back to the name. *)
Theorem type_id_identifies_layout ml name t :
  table_reach ml -> (messageTypeID name ml).1 = Ok t ->
  exists l, smap_find name (layouts ml) = Some l /\ l_type l = t /\ STRUCT < t /\
    getMessageLayout ml t = Ok l /\ messageTypeName ml t = Ok ("(STRUCT " +:+ name +:+ ")").
Proof.
  intros H. apply table_reach_inv in H as [W L]. unfold messageTypeID, smap_index.
  destruct (smap_find name (layouts ml)) as [l|] eqn:F; [|done].
  destruct (Z.eqb_spec (l_type l) UNDEF) as [|Hne]; [done|]. cbn. intros [= <-].
  assert (STRUCT < l_type l) as Hs.
  { destruct W as [n W]. apply (tinv_range _ _ W) in F. lia. }
  exists l. pose proof (find_type_unique ml name l W F Hne) as Hf. unfold STRUCT in Hs.
  split_and!; [done..| |].
  - unfold getMessageLayout. rewrite L, Hf. cbn. unfold STRUCT.
    destruct (Z.leb_spec (l_type l) 4); [lia|done].
  - unfold messageTypeName, UNDEF, INT, STRING, ARRAY, STRUCT. rewrite Hf.
    repeat (case_match; [lia|]). done.
Qed.

(** A name that is not in the table raises "invalid message name" on every
    request.  The request leaves an [UNDEF] entry behind, which changes no
    other lookup. *)
Theorem unknown_type_name name ml ml' r :
  smap_find name (layouts ml) = None -> messageTypeID name ml = (r, ml') ->
  r = Err (Throw ("invalid message name: " +:+ dquote +:+ name +:+ dquote)) /\
  (messageTypeID name ml').1 = r /\
  (forall name', name' <> name -> smap_find name' (layouts ml') = smap_find name' (layouts ml)) /\
  smap_find name (layouts ml') = Some layout0.
Proof.
  intros F. unfold messageTypeID, smap_index. rewrite F. cbn. intros [= <- <-]. cbn.
  rewrite smap_find_set_eq. cbn. split_and!; [done|done| |done].
  intros name' Hne. by apply smap_find_set_ne.
Qed.

Lemma unknown_type_name_witness :
  (messageTypeID "NOPE" MessageLayouts0).1 =
    Err (Throw ("invalid message name: " +:+ dquote +:+ "NOPE" +:+ dquote)).
Proof.
  apply (unknown_type_name "NOPE" MessageLayouts0 (messageTypeID "NOPE" MessageLayouts0).2);
    reflexivity.
Defined.

(** ** The shipped protocol *)

(** bluetoothserver/protocol.dat without its comments and empty lines *)
Definition protocol_lines : list string :=
  ["HELO=protohash:I,name:S,version:S" ;
   "HELO_ERR=protohash:I,doupdate:I" ;
   "PING=" ;
   "STATUS_REPLY=info:A{addr:I,speed:I,functions:I}" ;
   "ACC=addr:I" ;
   "BREAK=addr:I" ;
   "DIR=addr:I,dir:I" ;
   "STOP=addr:I" ;
   "ACC_MULTI=list:A{addr:I}" ;
   "BREAK_MULTI=list:A{addr:I}" ;
   "DIR_MULTI=dir:I,list:A{addr:I}" ;
   "STOP_MULTI=list:A{addr:I}" ;
   "SETFUNC=addr:I,funcnr:I,value:I" ;
   "POWER=value:I" ;
   "POWER_REPLY=value:I" ;
   "GETFUNCTIONS=addr:I" ;
   "GETFUNCTIONS_REPLY=info:A{name:S,value:I,imgname:S}" ;
   "GETLOCOS=" ;
   "GETLOCOS_REPLY=info:A{name:S,addr:I,imgname:S,speed:I,functions:I}" ;
   "POM=addr:I,cv:I,value:I" ;
   "POM_REPLY=value:I" ;
   "POMBIT=addr:I,cv:I,bit:I,value:I" ;
   "POMBIT_REPLY=value:I" ;
   "GETIMAGE=imgname:S" ;
   "GETIMAGE_REPLY=img:S" ;
   "BTSCAN=" ;
   "BTSCAN_REPLY=info:A{addr:S,name:S}" ;
   "BTPUSH=addr:S,type:I" ;
   "BTPUSH_REPLY=rc:I" ;
   "version=1.0:I"].
Definition protocol_dat : string :=
  String.concat (String newline "") protocol_lines +:+ String newline "".

(** the table [main] has after [messageLayouts.load()] *)
Definition protocol : MessageLayouts := (load protocol_dat MessageLayouts0).2.

(** The hash, the identifiers and two of the layouts clients rely on. *)
Example protocol_values :
  (load protocol_dat MessageLayouts0).1 = Ok 60178 /\ protocolHash protocol = 60178 /\
  (messageTypeID "HELO" protocol).1 = Ok 5 /\ (messageTypeID "PING" protocol).1 = Ok 7 /\
  messageTypeName protocol 8 = Ok "(STRUCT STATUS_REPLY)".
Proof. vm_compute. done. Qed.

Lemma protocol_reach : table_reach protocol.
Proof. apply reach_load. Qed.

Lemma type_id_identifies_layout_witness :
  exists l, smap_find "PING" (layouts protocol) = Some l /\ l_type l = 7 /\ STRUCT < 7 /\
    getMessageLayout protocol 7 = Ok l /\ messageTypeName protocol 7 = Ok ("(STRUCT " +:+ "PING" +:+ ")").
Proof. apply (type_id_identifies_layout protocol "PING" 7); [apply protocol_reach|vm_compute; reflexivity]. Defined.
