(* ===== verification/Message.v ===== *)
(** * bluetoothserver/fbtctl_message.{h,cpp}: typed messages and their wire format

    The message tree with its accessors, the decoder ([InputReader],
    [readMessage]) and the encoder ([getBinaryMessage]). *)

From Stdlib Require Import Ascii.
From Stdlib Require Strings.String.
From S2P Require Import Prelude StdMap CString MessageLayout.

(** ** Data *)

(** [class FBTCtlMessage] and the subclasses of [data_t].  The C++ object
    holds its data through a [shared_ptr]: a copy shares it.  The server never
    changes a message it has copied, so messages are values here. *)
Inductive FBTCtlMessage : Type :=
  Msg (type : Z) (data : data_t)
with data_t : Type :=
  | NULL
  | data_int_t (ival : Z)
  | data_string_t (sval : string)
  | data_array_t (arrayVal : list FBTCtlMessage)
  | data_struct_t (structVal : smap FBTCtlMessage).

Definition m_type (m : FBTCtlMessage) : Z := let 'Msg t _ := m in t.
Definition m_data (m : FBTCtlMessage) : data_t := let 'Msg _ d := m in d.

(** the constructors *)
Definition FBTCtlMessage0 : FBTCtlMessage := Msg UNDEF NULL.
Definition FBTCtlMessage_int (i : Z) : FBTCtlMessage := Msg INT (data_int_t i).
Definition FBTCtlMessage_string (s : string) : FBTCtlMessage := Msg STRING (data_string_t s).
Definition FBTCtlMessage_cstr (s : string) : FBTCtlMessage := Msg STRING (data_string_t (c_str s)).
Definition FBTCtlMessage_type (type : Z) : outcome FBTCtlMessage :=
  if type =? ARRAY then Ok (Msg type (data_array_t []))
  else if STRUCT <=? type then Ok (Msg type (data_struct_t []))
  else Err (Abort "invalid init type - use specialized constructor").
Definition clear : M FBTCtlMessage unit := put FBTCtlMessage0.

(** ** Accessors *)

Definition getIntVal : M FBTCtlMessage Z :=
  this ← get;
  if negb (m_type this =? INT) then throw "invalid type(int)"
  else match m_data this with data_int_t i => mret i | _ => fail (UB "static_cast<data_int_t>") end.

Definition getStringVal : M FBTCtlMessage string :=
  this ← get;
  if negb (m_type this =? STRING) then throw "invalid type(string)"
  else match m_data this with data_string_t s => mret s | _ => fail (UB "static_cast<data_string_t>") end.

Definition getArraySize : M FBTCtlMessage Z :=
  this ← get;
  if negb (m_type this =? ARRAY) then throw "invalid type(no array)"
  else match m_data this with
       | data_array_t l => mret (Z.of_nat (length l))
       | _ => fail (UB "static_cast<data_array_t>")
       end.

(** [operator[]] returns a reference: the client runs on the element in
    place.  The [int] version makes an undefined message an array and appends
    one [STRUCT] when the index is past the end. *)
Definition at_index {A} (i : Z) (k : M FBTCtlMessage A) : M FBTCtlMessage A := fun this =>
  let this := if m_type this =? UNDEF then Msg ARRAY (data_array_t []) else this in
  if negb (m_type this =? ARRAY)
  then (Err (Throw ("invalid type=" +:+ to_string (m_type this) +:+ "(no array)")), this)
  else match m_data this with
       | data_array_t l =>
           let l := if Z.of_nat (length l) <=? i then l ++ [Msg STRUCT (data_struct_t [])] else l in
           let this := Msg (m_type this) (data_array_t l) in
           if i <? 0 then (Err (UB "arrayVal[i]"), this)
           else match l !! Z.to_nat i with
                | None => (Err (UB "arrayVal[i]"), this)
                | Some e =>
                    let '(r, e) := k e in
                    (r, Msg (m_type this) (data_array_t (<[Z.to_nat i:=e]> l)))
                end
       | NULL => (Err (Abort "d"), this)
       | _ => (Err (UB "static_cast<data_array_t>"), this)
       end.

Definition at_field {A} (s : string) (k : M FBTCtlMessage A) : M FBTCtlMessage A := fun this =>
  if m_type this <? STRUCT
  then (Err (Throw ("invalid type=" +:+ to_string (m_type this) +:+ " (no struct)")), this)
  else
    let run m :=
      let '(e, m) := smap_index FBTCtlMessage0 s m in
      let '(r, e) := k e in
      (r, Msg (m_type this) (data_struct_t (smap_set s e m))) in
    match m_data this with
    | NULL => run []
    | data_struct_t m => run m
    | _ => (Err (UB "static_cast<data_struct_t>"), this)
    end.

(** [this[name] = v] *)
Definition assign_field (name : string) (v this : FBTCtlMessage) : outcome FBTCtlMessage :=
  match at_field name (put v) this with
  | (Ok _, this) => Ok this
  | (Err e, _) => Err e
  end.

Definition isType (ml : MessageLayouts) (name : string) (this : FBTCtlMessage) : outcome bool :=
  t ← (messageTypeID name ml).1; Ok (m_type this =? t).

(** ** Decoding *)

(** [class InputReader].  [rd_data] is the memory readable from the data
    pointer on; it may be longer than the message.  [getByte] and [getInt]
    read before they check the length, so a read past [rd_data] has no
    defined behaviour. *)
Record InputReader : Type := mkReader {
  rd_data : list byte;
  rd_len : Z;
  rd_pos : Z;
}.

Definition rd_advance (n : Z) (r : InputReader) : InputReader :=
  mkReader (rd_data r) (rd_len r) (rd_pos r + n).

(** the [n] bytes at [data[pos]] *)
Definition rd_peek (n : nat) (r : InputReader) : option (list byte) :=
  if rd_pos r <? 0 then None
  else let l := take n (drop (Z.to_nat (rd_pos r)) (rd_data r)) in
       if (length l =? n)%nat then Some l else None.

Definition getByte : M InputReader Z := fun r =>
  match rd_peek 1 r with
  | Some l =>
      let r := rd_advance 1 r in
      if rd_len r <? rd_pos r then (Err (Throw "getByte uebers ende gelesen"), r)
      else (Ok (le_value l), r)
  | None => (Err (UB "getByte: data[pos]"), r)
  end.

Definition getInt : M InputReader Z := fun r =>
  match rd_peek 4 r with
  | Some l =>
      let r := rd_advance 4 r in
      if rd_len r <? rd_pos r then (Err (Throw "getInt uebers ende gelesen"), r)
      else (Ok (wrap32 (le_value l)), r)
  | None => (Err (UB "getInt: data[pos]"), r)
  end.

(** The order of the two [getByte] calls is not specified by C++11; compilers
    evaluate them from left to right. *)
Definition getString : M InputReader string :=
  lo ← getByte;
  hi ← getByte;
  let len := Z.lor lo (Z.shiftl hi 8) in
  r ← get;
  if rd_len r <? rd_pos r + len then throw "getString length > end of message"
  else match rd_peek (Z.to_nat len) r with
       | Some l => put (rd_advance len r);; mret (String.string_of_list_byte l)
       | None => fail (UB "getString: data[pos]")
       end.

(** one iteration of the array loop: [tmp.readMessage(in,&*it); tmparray[i]=tmp] *)
Definition array_step (read : M InputReader FBTCtlMessage) (tmparray : FBTCtlMessage) (i : nat)
    : M InputReader FBTCtlMessage :=
  tmp ← read;
  lift (match at_index (Z.of_nat i) (put tmp) tmparray with
        | (Ok _, tmparray) => Ok tmparray
        | (Err e, _) => Err e
        end).

Section readMessage.
Context (ml : MessageLayouts).

(** the loop over [layout->childLayouts]; [this] is the message being filled.
    The elements of an array are read with the layout of the field itself,
    [tmp.readMessage(in, &*it)]. *)
Fixpoint read_children (layout : MessageLayout) (this : FBTCtlMessage) : M InputReader FBTCtlMessage :=
  let 'Layout _ _ children := layout in
  (fix go (cs : list MessageLayout) (this : FBTCtlMessage) : M InputReader FBTCtlMessage :=
     match cs with
     | [] => mret this
     | it :: cs' =>
         type ← getByte;
         if negb (type =? l_type it)
         then lift (messageTypeName ml (l_type it));; throw "unexpected DataType"
         else if l_type it =? INT then
           i ← getInt;
           this ← lift (assign_field (l_name it) (FBTCtlMessage_int i) this); go cs' this
         else if l_type it =? STRING then
           s ← getString;
           this ← lift (assign_field (l_name it) (FBTCtlMessage_string s) this); go cs' this
         else if l_type it =? ARRAY then
           n ← getByte;
           tmparray ← lift (FBTCtlMessage_type ARRAY);
           tmparray ← foldM (array_step (t ← getByte; read_children it (Msg t NULL)))
             (seq 0 (Z.to_nat n)) tmparray;
           this ← lift (assign_field (l_name it) tmparray this); go cs' this
         else go cs' this
     end) children this.

(** [readMessage(in, layout)] *)
Definition readMessage (layout : option MessageLayout) : M InputReader FBTCtlMessage :=
  t ← getByte;
  layout ← match layout with
           | Some l => mret (Some l)
           | None => if STRUCT <? t then l ← lift (getMessageLayout ml t); mret (Some l)
                     else mret None
           end;
  match layout with
  | None => throw "no message layout"
  | Some l => read_children l (Msg t NULL)
  end.

(** [FBTCtlMessage(const char *binMessage, int len)] *)
Definition FBTCtlMessage_bin (binMessage : list byte) (len : Z) : outcome FBTCtlMessage :=
  (readMessage None (mkReader binMessage len 0)).1.

(** ** Encoding *)

(** [getBinaryMessage(layout)] with a layout.  [fields] pairs every struct
    entry with its type and its encoder. *)
Fixpoint encode (m : FBTCtlMessage) (layout : MessageLayout) : outcome (list byte) :=
  let 'Msg t d := m in
  body ←
    (if t =? INT then
       match d with data_int_t i => Ok (le_bytes 4 i) | _ => Err (UB "static_cast<data_int_t>") end
     else if t =? STRING then
       match d with
       | data_string_t s =>
           let tmp := Z.of_nat (String.length s) in
           if 65536 <? tmp then Err (Throw "string too big")
           else Ok (le_bytes 2 tmp ++ String.list_byte_of_string s)
       | _ => Err (UB "static_cast<data_string_t>")
       end
     else if t =? ARRAY then
       match d with
       | data_array_t l =>
           elems ← (fix go (l : list FBTCtlMessage) : outcome (list byte) :=
                      match l with
                      | [] => Ok []
                      | e :: l' => b ← encode e layout; bs ← go l'; Ok (b ++ bs)
                      end) l;
           Ok (le_bytes 1 (Z.of_nat (length l)) ++ elems)
       | _ => Err (UB "static_cast<data_array_t>")
       end
     else
       match d with
       | data_struct_t m =>
           let fields := (fix go (l : smap FBTCtlMessage) :=
                            match l with
                            | [] => []
                            | (k, e) :: l' => (k, (m_type e, encode e)) :: go l'
                            end) m in
           (fix go (cs : list MessageLayout) : outcome (list byte) :=
              match cs with
              | [] => Ok []
              | it :: cs' =>
                  match smap_find (l_name it) fields with
                  | Some (et, enc) =>
                      if et =? l_type it then b ← enc it; bs ← go cs'; Ok (b ++ bs)
                      else Err (Throw "invalid type (try dump before)")
                  | None =>
                      n ← messageTypeName ml t;
                      Err (Throw ("struct " +:+ dquote +:+ n +:+ " value " +:+ dquote +:+ l_name it
                                  +:+ dquote +:+ " - field not set"))
                  end
              end) (l_children layout)
       | _ => Err (UB "static_cast<data_struct_t>")
       end);
  Ok (byte_of_Z t :: body).

Definition getBinaryMessage (m : FBTCtlMessage) : outcome (list byte) :=
  layout ← getMessageLayout ml (m_type m); encode m layout.
End readMessage.

(** ** Equations of the codec *)

(** induction over layouts, with the hypothesis for every child *)
Section layout_induction.
Context (P : MessageLayout -> Prop)
  (IH : forall t n cs, Forall P cs -> P (Layout t n cs)).
Fixpoint layout_ind' (l : MessageLayout) : P l :=
  match l with
  | Layout t n cs => IH t n cs
      ((fix go (cs : list MessageLayout) : Forall P cs :=
          match cs with
          | [] => List.Forall_nil P
          | c :: cs' => List.Forall_cons P c cs' (layout_ind' c) (go cs')
          end) cs)
  end.
End layout_induction.

Definition m_fields (m : FBTCtlMessage) : smap FBTCtlMessage :=
  match m_data m with data_struct_t s => s | _ => [] end.
Definition m_elems (m : FBTCtlMessage) : list FBTCtlMessage :=
  match m_data m with data_array_t l => l | _ => [] end.

(** a message [operator[](string)] works on *)
Definition struct_like (m : FBTCtlMessage) : Prop :=
  STRUCT <= m_type m /\ match m_data m with NULL | data_struct_t _ => True | _ => False end.

Definition set_field (name : string) (v this : FBTCtlMessage) : FBTCtlMessage :=
  Msg (m_type this) (data_struct_t (smap_set name v (m_fields this))).

Lemma smap_set_twice {V} k (v v' : V) m : smap_set k v (smap_set k v' m) = smap_set k v m.
Proof.
  induction m as [|[k0 v0] m IH]; cbn; [by rewrite str_compare_refl|].
  destruct (String.compare k k0) eqn:E; cbn; rewrite ?str_compare_refl, ?E, ?IH; done.
Qed.

Lemma smap_set_index {V} k (v d : V) m : smap_set k v (smap_index d k m).2 = smap_set k v m.
Proof. unfold smap_index. destruct (smap_find k m); cbn; [done|apply smap_set_twice]. Qed.

Lemma at_field_run {A} name (k : M FBTCtlMessage A) this :
  struct_like this ->
  at_field name k this =
    let e := default FBTCtlMessage0 (smap_find name (m_fields this)) in
    ((k e).1, set_field name (k e).2 this).
Proof.
  intros [Ht Hd]. unfold at_field, set_field, m_fields.
  destruct (Z.ltb_spec (m_type this) STRUCT); [lia|].
  pose proof (smap_set_index (V:=FBTCtlMessage) name) as Hset. unfold smap_index in *.
  destruct (m_data this) as [| | | |s] eqn:D; try done.
  - cbn. destruct (k FBTCtlMessage0) as [r e]. cbn. by rewrite str_compare_refl.
  - destruct (smap_find name s) as [e0|] eqn:F; cbn.
    + by destruct (k e0) as [r e].
    + destruct (k FBTCtlMessage0) as [r e]. cbn. by rewrite smap_set_twice.
Qed.

Lemma assign_field_ok name v this :
  struct_like this -> assign_field name v this = Ok (set_field name v this).
Proof. intros H. unfold assign_field. by rewrite at_field_run. Qed.

Lemma set_field_struct name v this : struct_like this -> struct_like (set_field name v this).
Proof. by intros [H _]. Qed.

Lemma at_index_push tmp l :
  at_index (Z.of_nat (length l)) (put tmp) (Msg ARRAY (data_array_t l)) =
    (Ok tt, Msg ARRAY (data_array_t (l ++ [tmp]))).
Proof.
  unfold at_index. cbn. rewrite Z.leb_refl.
  destruct (Z.ltb_spec (Z.of_nat (length l)) 0); [lia|]. rewrite Nat2Z.id.
  rewrite lookup_app_r, Nat.sub_diag by lia. cbn. do 3 f_equal.
  pose proof (insert_app_r l [Msg STRUCT (data_struct_t [])] 0 tmp) as Hins.
  by rewrite Nat.add_0_r in Hins.
Qed.

Section encode_eqs.
Context (ml : MessageLayouts).

Definition encode_elems (layout : MessageLayout) : list FBTCtlMessage -> outcome (list byte) :=
  fix go (l : list FBTCtlMessage) : outcome (list byte) :=
    match l with
    | [] => Ok []
    | e :: l' => b ← encode ml e layout; bs ← go l'; Ok (b ++ bs)
    end.

Fixpoint encode_fields (t : Z) (m : smap FBTCtlMessage) (cs : list MessageLayout) : outcome (list byte) :=
  match cs with
  | [] => Ok []
  | it :: cs' =>
      match smap_find (l_name it) m with
      | Some e =>
          if m_type e =? l_type it then b ← encode ml e it; bs ← encode_fields t m cs'; Ok (b ++ bs)
          else Err (Throw "invalid type (try dump before)")
      | None =>
          n ← messageTypeName ml t;
          Err (Throw ("struct " +:+ dquote +:+ n +:+ " value " +:+ dquote +:+ l_name it
                      +:+ dquote +:+ " - field not set"))
      end
  end.

Lemma encode_int i layout : encode ml (FBTCtlMessage_int i) layout = Ok (byte_of_Z INT :: le_bytes 4 i).
Proof. done. Qed.

Lemma encode_string s layout :
  Z.of_nat (String.length s) <= 65536 ->
  encode ml (FBTCtlMessage_string s) layout =
    Ok (byte_of_Z STRING :: le_bytes 2 (Z.of_nat (String.length s)) ++ String.list_byte_of_string s).
Proof.
  intros H. unfold encode. cbn -[le_bytes].
  destruct (Z.ltb_spec 65536 (Z.of_nat (String.length s))); [lia|done].
Qed.

Lemma encode_array l layout :
  encode ml (Msg ARRAY (data_array_t l)) layout =
    elems ← encode_elems layout l;
    Ok (byte_of_Z ARRAY :: le_bytes 1 (Z.of_nat (length l)) ++ elems).
Proof.
  change (encode ml (Msg ARRAY (data_array_t l)) layout) with
    (body ← (elems ← encode_elems layout l; Ok (le_bytes 1 (Z.of_nat (length l)) ++ elems));
     Ok (byte_of_Z ARRAY :: body)).
  by destruct (encode_elems layout l).
Qed.

Lemma encode_struct t m layout :
  t <> INT -> t <> STRING -> t <> ARRAY ->
  encode ml (Msg t (data_struct_t m)) layout =
    body ← encode_fields t m (l_children layout); Ok (byte_of_Z t :: body).
Proof.
  intros H1 H2 H3. cbn. rewrite !(proj2 (Z.eqb_neq _ _)) by done. f_equal.
  induction (l_children layout) as [|it cs IH]; [done|]. cbn.
  match goal with |- context [smap_find (l_name it) ?g] =>
    assert (smap_find (l_name it) g =
            (fun e => (m_type e, encode ml e)) <$> smap_find (l_name it) m) as -> end.
  { clear. induction m as [|[k e] m IH]; [done|]. cbn. by case_decide. }
  destruct (smap_find (l_name it) m) as [e|]; cbn; [|done]. by rewrite IH.
Qed.
End encode_eqs.

(** ** Reading what was written *)

(** [reads c bs a]: wherever the reader stands, if the message continues with
    [bs] then [c] returns [a] and stands behind [bs]. *)
Definition reads {A} (c : M InputReader A) (bs : list byte) (a : A) : Prop :=
  forall r rest,
    0 <= rd_pos r -> drop (Z.to_nat (rd_pos r)) (rd_data r) = bs ++ rest ->
    rd_pos r + Z.of_nat (length bs) <= rd_len r ->
    c r = (Ok a, rd_advance (Z.of_nat (length bs)) r).

Lemma rd_advance_advance n m r : rd_advance m (rd_advance n r) = rd_advance (n + m) r.
Proof. unfold rd_advance. cbn. f_equal. lia. Qed.

Lemma rd_peek_app bs rest r :
  0 <= rd_pos r -> drop (Z.to_nat (rd_pos r)) (rd_data r) = bs ++ rest ->
  rd_peek (length bs) r = Some bs.
Proof.
  intros Hp Hd. unfold rd_peek. destruct (Z.ltb_spec (rd_pos r) 0); [lia|].
  by rewrite Hd, take_app_length, Nat.eqb_refl.
Qed.

Lemma reads_ret {A} (a : A) : reads (mret a) [] a.
Proof. intros r rest _ _ _. unfold rd_advance. rewrite Z.add_0_r. by destruct r. Qed.

Lemma reads_bind {A B} (c : M InputReader A) (f : A -> M InputReader B) bs1 bs2 a b :
  reads c bs1 a -> reads (f a) bs2 b -> reads (c ≫= f) (bs1 ++ bs2) b.
Proof.
  intros Hc Hf r rest Hp Hd Hl. rewrite length_app, Nat2Z.inj_add in Hl.
  unfold mbind, M_bind. rewrite (Hc r (bs2 ++ rest)); [|done|by rewrite Hd, app_assoc|lia].
  rewrite (Hf _ rest); cbn; [|lia| |lia].
  - by rewrite rd_advance_advance, length_app, Nat2Z.inj_add.
  - rewrite Z2Nat.inj_add, Nat2Z.id, <- drop_drop, Hd, <- app_assoc, drop_app_length by lia. done.
Qed.

Lemma reads_bind_nil {A B} (c : M InputReader A) (f : A -> M InputReader B) bs a b :
  reads c [] a -> reads (f a) bs b -> reads (c ≫= f) bs b.
Proof. apply (reads_bind c f [] bs). Qed.

Lemma reads_lift {A} (a : A) : reads (lift (Ok a)) [] a.
Proof. apply (reads_ret a). Qed.

Lemma reads_getByte b : reads getByte [b] (Z_of_byte b).
Proof.
  intros r rest Hp Hd Hl. unfold getByte.
  change 1%nat with (length [b]). rewrite (rd_peek_app [b] rest r Hp Hd). cbn in *.
  destruct (Z.ltb_spec (rd_len r) (rd_pos r + 1)); [lia|].
  do 2 f_equal. lia.
Qed.

Lemma reads_getByte_Z z : 0 <= z < 256 -> reads getByte [byte_of_Z z] z.
Proof.
  intros H. pose proof (reads_getByte (byte_of_Z z)) as R.
  by rewrite Z_of_byte_of_Z, u8_id in R.
Qed.

Lemma reads_getInt i : is_int32 i -> reads getInt (le_bytes 4 i) i.
Proof.
  intros Hi r rest Hp Hd Hl. unfold getInt.
  rewrite <- (length_le_bytes 4 i) at 1. rewrite (rd_peek_app _ rest r Hp Hd).
  rewrite length_le_bytes in *. cbn -[le_bytes] in *.
  destruct (Z.ltb_spec (rd_len r) (rd_pos r + 4)); [lia|].
  by rewrite int32_le_roundtrip.
Qed.

Lemma lor_shift8 lo hi : 0 <= lo < 256 -> 0 <= hi -> Z.lor lo (Z.shiftl hi 8) = lo + 256 * hi.
Proof.
  intros Hlo Hhi. rewrite Z.shiftl_mul_pow2 by lia. change (2 ^ 8) with 256.
  rewrite (Z.mul_comm hi). assert (Z.land lo (256 * hi) = 0) as H0;
    [|by rewrite <- Z.lxor_lor, <- Z.add_nocarry_lxor].
  apply Z.bits_inj'. intros n Hn. rewrite Z.land_spec, Z.bits_0. apply andb_false_iff.
  change 256 with (2 ^ 8). rewrite (Z.mul_comm (2^8)), Z.mul_pow2_bits by lia.
  destruct (Z.lt_ge_cases n 8); [right; apply Z.testbit_neg_r; lia|left].
  destruct (Z.eq_dec lo 0) as [->|]; [apply Z.bits_0|]. apply Z.bits_above_log2; [lia|].
  apply Z.log2_lt_pow2; [lia|]. apply Z.lt_le_trans with (2 ^ 8); [lia|].
  apply Z.pow_le_mono_r; lia.
Qed.

Lemma length_list_byte s : length (String.list_byte_of_string s) = String.length s.
Proof.
  unfold String.list_byte_of_string. rewrite length_map. by induction s; cbn; f_equal.
Qed.

Lemma reads_getString s :
  Z.of_nat (String.length s) < 65536 ->
  reads getString (le_bytes 2 (Z.of_nat (String.length s)) ++ String.list_byte_of_string s) s.
Proof.
  intros Hs. set (n := Z.of_nat (String.length s)) in *. cbn [le_bytes app].
  apply (reads_bind _ _ [_] _ _ _ (reads_getByte _)).
  apply (reads_bind _ _ [_] _ _ _ (reads_getByte _)).
  intros r rest Hp Hd Hl. cbn.
  pose proof (length_list_byte s) as Hlen. rewrite Hlen in *.
  assert (Z.lor (Z_of_byte (byte_of_Z n)) (Z.shiftl (Z_of_byte (byte_of_Z (n / 256))) 8) = n) as ->.
  { rewrite lor_shift8 by (pose proof (Z_of_byte_range (byte_of_Z n));
      pose proof (Z_of_byte_range (byte_of_Z (n / 256))); lia).
    rewrite !Z_of_byte_of_Z. unfold u8. rewrite (Z.mod_small (n / 256)); [|].
    - pose proof (Z.div_mod n 256). lia.
    - split; [apply Z.div_pos; lia|apply Z.div_lt_upper_bound; lia]. }
  unfold mbind, M_bind, get, put, mret, M_ret, fail, throw.
  destruct (Z.ltb_spec (rd_len r) (rd_pos r + n)); [lia|].
  assert (Z.to_nat n = length (String.list_byte_of_string s)) as -> by lia.
  rewrite (rd_peek_app _ rest r Hp Hd). by rewrite String.string_of_list_byte_of_string.
Qed.

(** ** Round trip *)

(** the fields a layout names can be sent: they are set, have the layout's
    types and fit into the length bytes *)
Definition conforms_val (elem : FBTCtlMessage -> bool) (it : MessageLayout) (v : FBTCtlMessage) : bool :=
  (m_type v =? l_type it) &&
  match m_data v with
  | data_int_t i => (l_type it =? INT) && int32b i
  | data_string_t s => (l_type it =? STRING) && (Z.of_nat (String.length s) <? 65536)
  | data_array_t l => (l_type it =? ARRAY) && (Z.of_nat (length l) <? 256) && forallb elem l
  | _ => false
  end.

Fixpoint conforms (layout : MessageLayout) (m : FBTCtlMessage) : bool :=
  let 'Layout _ _ cs := layout in
  (STRUCT <=? m_type m) && (m_type m <? 256) &&
  match m_data m with
  | data_struct_t s =>
      forallb (fun it => match smap_find (l_name it) s with
                         | Some v => conforms_val (conforms it) it v
                         | None => false
                         end) cs
  | _ => false
  end.

(** what the layout keeps of a message: the fields it names *)
Definition project_val (elem : FBTCtlMessage -> FBTCtlMessage) (v : FBTCtlMessage) : FBTCtlMessage :=
  match m_data v with
  | data_array_t l => Msg (m_type v) (data_array_t (map elem l))
  | _ => v
  end.

Fixpoint project (layout : MessageLayout) (m : FBTCtlMessage) : FBTCtlMessage :=
  let 'Layout _ _ cs := layout in
  List.fold_left (fun this it =>
    match smap_find (l_name it) (m_fields m) with
    | Some v => set_field (l_name it) (project_val (project it) v) this
    | None => this
    end) cs (Msg (m_type m) NULL).

Section roundtrip.
Context (ml : MessageLayouts).

(** a struct with its type byte, [tmp.readMessage(in, &*it)] *)
Definition read_elem (it : MessageLayout) : M InputReader FBTCtlMessage :=
  t ← getByte; read_children ml it (Msg t NULL).

(** [it] round trips on conforming messages *)
Definition roundtrips (it : MessageLayout) : Prop :=
  forall m, conforms it m = true ->
    exists bs, encode ml m it = Ok bs /\ reads (read_elem it) bs (project it m).

Lemma reads_elems it l pre :
  roundtrips it -> forallb (conforms it) l = true ->
  exists bs, encode_elems ml it l = Ok bs /\
    reads (foldM (array_step (read_elem it))
             (seq (length pre) (length l)) (Msg ARRAY (data_array_t pre)))
          bs (Msg ARRAY (data_array_t (pre ++ map (project it) l))).
Proof.
  intros IH. revert pre. induction l as [|e l IHl]; intros pre Hc.
  - exists []. rewrite app_nil_r. split; [done|apply reads_ret].
  - cbn in Hc. apply andb_true_iff in Hc as [He Hl].
    destruct (IH e He) as (b & Eb & Rb).
    destruct (IHl (pre ++ [project it e]) Hl) as (bs & Ebs & Rbs).
    exists (b ++ bs). split; [cbn; by rewrite Eb, Ebs|]. cbn [length seq foldM map].
    eapply reads_bind.
    + rewrite <- (app_nil_r b). eapply reads_bind; [exact Rb|]. rewrite at_index_push. apply reads_lift.
    + rewrite length_app in Rbs. cbn [length] in Rbs.
      rewrite Nat.add_1_r, <- app_assoc in Rbs. exact Rbs.
Qed.

Definition read_array (it : MessageLayout) : M InputReader FBTCtlMessage :=
  n ← getByte;
  tmparray ← lift (FBTCtlMessage_type ARRAY);
  foldM (array_step (read_elem it))
    (seq 0 (Z.to_nat n)) tmparray.

(** the value of one field, by its declared type *)
Definition read_val (it : MessageLayout) : M InputReader (option FBTCtlMessage) :=
  type ← getByte;
  if negb (type =? l_type it)
  then lift (messageTypeName ml (l_type it));; throw "unexpected DataType"
  else if l_type it =? INT then i ← getInt; mret (Some (FBTCtlMessage_int i))
  else if l_type it =? STRING then s ← getString; mret (Some (FBTCtlMessage_string s))
  else if l_type it =? ARRAY then a ← read_array it; mret (Some a)
  else mret None.

Definition assign_opt (name : string) (v : option FBTCtlMessage) (this : FBTCtlMessage)
    : outcome FBTCtlMessage :=
  match v with Some v => assign_field name v this | None => Ok this end.

Lemma read_children_nil t n this r : read_children ml (Layout t n []) this r = (Ok this, r).
Proof. done. Qed.

Lemma read_children_cons t n it cs this r :
  read_children ml (Layout t n (it :: cs)) this r =
    (v ← read_val it; this ← lift (assign_opt (l_name it) v this);
     read_children ml (Layout t n cs) this) r.
Proof.
  cbn [read_children]. unfold read_val, read_array. unfold mbind, M_bind.
  destruct (getByte r) as [[ty|e] r1]; [|done].
  destruct (negb _). { unfold lift, throw, fail. by destruct (messageTypeName ml (l_type it)). }
  destruct (l_type it =? INT); [by destruct (getInt r1) as [[]]|].
  destruct (l_type it =? STRING); [by destruct (getString r1) as [[]]|].
  destruct (l_type it =? ARRAY); [|done].
  destruct (getByte r1) as [[m|e] r2]; [|done]. cbn.
  by destruct (foldM _ _ _ r2) as [[]].
Qed.
Lemma reads_ext {A} (c c' : M InputReader A) bs a :
  (forall r, c r = c' r) -> reads c' bs a -> reads c bs a.
Proof. intros E H r rest Hp Hd Hl. rewrite E. by eapply H. Qed.

Lemma reads_children_cons t n it cs this bs a :
  reads (v ← read_val it; this ← lift (assign_opt (l_name it) v this);
         read_children ml (Layout t n cs) this) bs a ->
  reads (read_children ml (Layout t n (it :: cs)) this) bs a.
Proof. apply reads_ext. intros r. apply read_children_cons. Qed.

Lemma conforms_val_roundtrip it v :
  roundtrips it -> conforms_val (conforms it) it v = true ->
  exists bs, encode ml v it = Ok bs /\ reads (read_val it) bs (Some (project_val (project it) v)).
Proof.
  destruct v as [t d]. intros IH. unfold conforms_val, read_val. cbn [m_type m_data].
  rewrite andb_true_iff, Z.eqb_eq. intros [-> Hd]. destruct d as [|i|s|l|]; try done.
  - apply andb_true_iff in Hd as [Ht Hi]. apply Z.eqb_eq in Ht as ->. apply int32b_spec in Hi.
    eexists. split; [apply encode_int|]. eapply (reads_bind _ _ [_]); [by apply reads_getByte_Z|]. cbn.
    rewrite <- (app_nil_r [_; _; _; _]). eapply reads_bind; [by apply reads_getInt|apply reads_ret].
  - apply andb_true_iff in Hd as [Ht Hs]. apply Z.eqb_eq in Ht as ->. apply Z.ltb_lt in Hs.
    eexists. split; [apply encode_string; lia|].
    eapply (reads_bind _ _ [_]); [by apply reads_getByte_Z|]. cbn -[le_bytes].
    rewrite <- (app_nil_r (le_bytes 2 _ ++ _)). eapply reads_bind; [by apply reads_getString|apply reads_ret].
  - rewrite !andb_true_iff in Hd. destruct Hd as [[Ht Hl] Hall].
    apply Z.eqb_eq in Ht as ->. apply Z.ltb_lt in Hl.
    destruct (reads_elems it l [] IH Hall) as (bs & Ebs & Rbs).
    eexists. split; [rewrite encode_array, Ebs; reflexivity|].
    eapply (reads_bind _ _ [_]); [by apply reads_getByte_Z|]. cbn -[read_array].
    rewrite <- (app_nil_r (_ :: bs)). eapply reads_bind; [|apply reads_ret].
    eapply (reads_bind _ _ [_]); [apply reads_getByte_Z; lia|].
    eapply reads_bind_nil; [apply reads_lift|]. rewrite Nat2Z.id. exact Rbs.
Qed.

Lemma read_children_roundtrip ty n t m cs this :
  struct_like this -> Forall roundtrips cs ->
  forallb (fun it => match smap_find (l_name it) m with
                     | Some v => conforms_val (conforms it) it v | None => false end) cs = true ->
  exists bs, encode_fields ml t m cs = Ok bs /\
    reads (read_children ml (Layout ty n cs) this) bs
      (List.fold_left (fun this it => match smap_find (l_name it) m with
         | Some v => set_field (l_name it) (project_val (project it) v) this | None => this end) cs this).
Proof.
  intros Hthis Hrt. revert this Hthis. induction Hrt as [|it cs Hit _ IH]; intros this Hthis Hc.
  - exists []. split; [done|]. apply reads_ret.
  - cbn [forallb encode_fields List.fold_left] in Hc |- *. destruct (smap_find (l_name it) m) as [v|]; [|done].
    apply andb_true_iff in Hc as [Hv Hc].
    destruct (conforms_val_roundtrip it v Hit Hv) as (b & Eb & Rb).
    set (this' := set_field (l_name it) (project_val (project it) v) this).
    destruct (IH this' (set_field_struct _ _ _ Hthis) Hc) as (bs & Ebs & Rbs).
    assert (m_type v =? l_type it = true) as ->.
    { unfold conforms_val in Hv. by apply andb_true_iff in Hv as [? _]. }
    exists (b ++ bs). split; [by rewrite Eb, Ebs|].
    apply reads_children_cons. eapply reads_bind; [exact Rb|]. cbn [assign_opt]. rewrite assign_field_ok by done.
    eapply reads_bind_nil; [apply reads_lift|exact Rbs].
Qed.

Lemma layout_roundtrips it : roundtrips it.
Proof.
  induction it as [ty n cs IH] using layout_ind'. intros [t d] Hc. cbn in Hc.
  rewrite !andb_true_iff, Z.leb_le, Z.ltb_lt in Hc. destruct Hc as [[Ht1 Ht2] Hc].
  destruct d as [| | | |m]; try done.
  destruct (read_children_roundtrip ty n t m cs (Msg t NULL) (conj Ht1 I) IH Hc) as (bs & E & R).
  rewrite encode_struct by (unfold STRUCT, INT, STRING, ARRAY in *; lia). cbn [l_children]. rewrite E.
  exists (byte_of_Z t :: bs). split; [done|].
  eapply (reads_bind _ _ [_]); [|exact R]. apply reads_getByte_Z. unfold STRUCT in *. lia.
Qed.
End roundtrip.

(** ** Malformed input

    Two readers that agree on the [len] bytes of the message and have at
    least four more readable bytes behind them.  [robust c Q]: on such readers
    [c] behaves the same, and its only failures are C++ exceptions. *)
Record rd_sim (r1 r2 : InputReader) : Prop := mkSim {
  sim_len : rd_len r1 = rd_len r2;
  sim_pos : rd_pos r1 = rd_pos r2;
  sim_range : 0 <= rd_pos r1 <= rd_len r1;
  sim_bytes : take (Z.to_nat (rd_len r1)) (rd_data r1) = take (Z.to_nat (rd_len r1)) (rd_data r2);
  sim_slack1 : rd_len r1 + 4 <= Z.of_nat (length (rd_data r1));
  sim_slack2 : rd_len r1 + 4 <= Z.of_nat (length (rd_data r2));
}.

Definition is_throw (e : exn) : Prop := match e with Throw _ => True | _ => False end.

Definition robust {A} (c : M InputReader A) (Q : A -> Prop) : Prop :=
  forall r1 r2, rd_sim r1 r2 ->
    match c r1, c r2 with
    | (Ok a, r1'), (Ok b, r2') => a = b /\ Q a /\ rd_sim r1' r2'
    | (Err e1, _), (Err e2, _) => e1 = e2 /\ is_throw e1
    | _, _ => False
    end.

Lemma robust_ret {A} (a : A) (Q : A -> Prop) : Q a -> robust (mret a) Q.
Proof. by intros H r1 r2 S. Qed.

Lemma robust_throw {A} w (Q : A -> Prop) : robust (throw w) Q.
Proof. by intros r1 r2 S. Qed.

Lemma robust_lift {A} (o : outcome A) (Q : A -> Prop) :
  match o with Ok a => Q a | Err e => is_throw e end -> robust (lift o) Q.
Proof. intros H r1 r2 S. unfold lift. by destruct o. Qed.

Lemma robust_bind {A B} (c : M InputReader A) (f : A -> M InputReader B) P Q :
  robust c P -> (forall a, P a -> robust (f a) Q) -> robust (c ≫= f) Q.
Proof.
  intros Hc Hf r1 r2 S. specialize (Hc r1 r2 S). unfold mbind, M_bind.
  destruct (c r1) as [[a|e1] r1'], (c r2) as [[b|e2] r2']; try done.
  destruct Hc as (<- & Pa & S'). by apply Hf.
Qed.

Lemma robust_mono {A} (c : M InputReader A) (P Q : A -> Prop) :
  robust c P -> (forall a, P a -> Q a) -> robust c Q.
Proof.
  intros Hc H r1 r2 S. specialize (Hc r1 r2 S).
  destruct (c r1) as [[a|e1] r1'], (c r2) as [[b|e2] r2']; naive_solver.
Qed.

Lemma sim_advance n r1 r2 :
  rd_sim r1 r2 -> 0 <= n -> rd_pos r1 + n <= rd_len r1 -> rd_sim (rd_advance n r1) (rd_advance n r2).
Proof. intros [] Hn Hl. split; cbn; auto; lia. Qed.

(** inside the message the same bytes are read; up to four bytes behind its
    end something is read *)
Lemma sim_peek n r1 r2 :
  rd_sim r1 r2 -> rd_pos r1 + Z.of_nat n <= rd_len r1 + 4 ->
  exists l1 l2, rd_peek n r1 = Some l1 /\ rd_peek n r2 = Some l2 /\
    (rd_pos r1 + Z.of_nat n <= rd_len r1 -> l1 = l2).
Proof.
  intros [El Ep Hr Hb H1 H2] Hn. unfold rd_peek. rewrite <- Ep.
  destruct (Z.ltb_spec (rd_pos r1) 0); [lia|]. rewrite !length_take, !length_drop.
  destruct (Nat.eqb_spec (n `min` (length (rd_data r1) - Z.to_nat (rd_pos r1))) n) as [|N]; [|lia].
  destruct (Nat.eqb_spec (n `min` (length (rd_data r2) - Z.to_nat (rd_pos r1))) n) as [|N]; [|lia].
  eexists _, _. split_and!; [done..|]. intros Hin.
  rewrite !take_drop_commute.
  assert (Z.to_nat (rd_pos r1) + n <= Z.to_nat (rd_len r1))%nat as Hle by lia.
  apply (f_equal (take (Z.to_nat (rd_pos r1) + n))) in Hb. rewrite !take_take in Hb.
  rewrite !Nat.min_l in Hb by lia. by rewrite Hb.
Qed.

Lemma robust_getByte : robust getByte (fun b => 0 <= b < 256).
Proof.
  intros r1 r2 S. destruct (sim_peek 1 r1 r2 S) as (l1 & l2 & E1 & E2 & Heq).
  { destruct S. cbn. lia. }
  unfold getByte. rewrite E1, E2. cbn [rd_advance rd_len rd_pos]. destruct S as [El Ep Hr Hb H1 H2] eqn:HS.
  rewrite <- El, <- Ep. destruct (Z.ltb_spec (rd_len r1) (rd_pos r1 + 1)); [done|].
  rewrite (Heq ltac:(cbn; lia)) in *. split; [done|]. split.
  - unfold rd_peek in E2. case_match; [done|]. case_match; [|done]. simplify_eq.
    destruct (take 1 _) as [|b []]; cbn; [lia|pose proof (Z_of_byte_range b); lia|done].
  - apply sim_advance; [done|lia|lia].
Qed.

Lemma robust_getInt : robust getInt is_int32.
Proof.
  intros r1 r2 S. destruct (sim_peek 4 r1 r2 S) as (l1 & l2 & E1 & E2 & Heq).
  { destruct S. cbn. lia. }
  unfold getInt. rewrite E1, E2. cbn [rd_advance rd_len rd_pos]. destruct S as [El Ep Hr Hb H1 H2] eqn:HS.
  rewrite <- El, <- Ep. destruct (Z.ltb_spec (rd_len r1) (rd_pos r1 + 4)); [done|].
  rewrite (Heq ltac:(cbn; lia)). split_and!; [done|apply wrap32_range|].
  apply sim_advance; [done|lia|lia].
Qed.

Lemma robust_getString : robust getString (fun s => Z.of_nat (String.length s) < 65536).
Proof.
  eapply robust_bind; [apply robust_getByte|]. intros lo Hlo.
  eapply robust_bind; [apply robust_getByte|]. intros hi Hhi.
  cbn beta in Hlo, Hhi. rewrite lor_shift8 by lia. set (len := lo + 256 * hi).
  intros r1 r2 S. unfold mbind, M_bind, get, put, mret, M_ret, throw, fail.
  rewrite <- (sim_len _ _ S), <- (sim_pos _ _ S).
  destruct (Z.ltb_spec (rd_len r1) (rd_pos r1 + len)); [done|].
  destruct (sim_peek (Z.to_nat len) r1 r2 S) as (l1 & l2 & E1 & E2 & Heq); [lia|].
  rewrite E1, E2, (Heq ltac:(lia)). split_and!; [done| |apply sim_advance; [done|lia|lia]].
  unfold rd_peek in E2. case_match; [done|]. case_match eqn:Hlen; [|done]. simplify_eq.
  apply Nat.eqb_eq in Hlen. rewrite <- length_list_byte, String.list_byte_of_string_of_list_byte, Hlen. lia.
Qed.

(** a message that is being filled: its data is missing or a struct *)
Definition fillable (m : FBTCtlMessage) : Prop :=
  match m_data m with NULL | data_struct_t _ => True | _ => False end.

Lemma assign_field_robust name v this :
  fillable this ->
  match assign_field name v this with Ok this' => fillable this' | Err e => is_throw e end.
Proof.
  intros H. destruct (Z.lt_ge_cases (m_type this) STRUCT) as [Ht|Ht].
  - unfold assign_field, at_field. destruct (Z.ltb_spec (m_type this) STRUCT); [done|lia].
  - by rewrite assign_field_ok.
Qed.

Lemma messageTypeName_throws ml t :
  match messageTypeName ml t with Ok _ => True | Err e => is_throw e end.
Proof. unfold messageTypeName. repeat case_match; simplify_eq; done. Qed.

Lemma robust_elems read Q n pre :
  robust read Q ->
  robust (foldM (array_step read) (seq (length pre) n) (Msg ARRAY (data_array_t pre)))
    (fun m => exists l, m = Msg ARRAY (data_array_t l)).
Proof.
  intros Hread. revert pre. induction n as [|n IH]; intros pre; cbn [seq foldM].
  - apply robust_ret. by exists pre.
  - eapply (robust_bind _ _ (fun m => exists tmp, m = Msg ARRAY (data_array_t (pre ++ [tmp])))).
    + eapply robust_bind; [done|]. intros tmp _. rewrite at_index_push. apply robust_lift. by exists tmp.
    + intros ? [tmp ->]. specialize (IH (pre ++ [tmp])). rewrite length_app in IH. cbn in IH.
      by rewrite Nat.add_1_r in IH.
Qed.

Section robust_read.
Context (ml : MessageLayouts).

Lemma robust_val it :
  (forall this, fillable this -> robust (read_children ml it this) fillable) ->
  robust (read_val ml it) (fun _ => True).
Proof.
  intros IH. unfold read_val. eapply robust_bind; [apply robust_getByte|]. intros ty _.
  destruct (negb _).
  { eapply (robust_bind _ _ (fun _ => True)); [|intros; apply robust_throw].
    apply robust_lift, messageTypeName_throws. }
  destruct (_ =? INT).
  { eapply robust_bind; [apply robust_getInt|]. intros; by apply robust_ret. }
  destruct (_ =? STRING).
  { eapply robust_bind; [apply robust_getString|]. intros; by apply robust_ret. }
  destruct (_ =? ARRAY); [|by apply robust_ret].
  eapply (robust_bind _ _ (fun _ => True)); [|intros; by apply robust_ret]. unfold read_array.
  eapply robust_bind; [apply robust_getByte|]. intros n _.
  eapply (robust_bind _ _ (eq (Msg ARRAY (data_array_t [])))); [by apply robust_lift|]. intros ? <-.
  eapply robust_mono; [|done]. apply (robust_elems _ fillable _ []).
  unfold read_elem. eapply robust_bind; [apply robust_getByte|]. intros t _. by apply IH.
Qed.

Lemma robust_children it this :
  fillable this -> robust (read_children ml it this) fillable.
Proof.
  revert this. induction it as [t n cs IH] using layout_ind'.
  induction IH as [|it cs Hit _ IHcs]; intros this Hthis; [by apply robust_ret|].
  intros r1 r2 S. rewrite !read_children_cons. revert r1 r2 S.
  change (robust (v ← read_val ml it; this ← lift (assign_opt (l_name it) v this);
                  read_children ml (Layout t n cs) this) fillable).
  eapply robust_bind; [by apply robust_val|]. intros v _.
  eapply (robust_bind _ _ fillable); [|done]. apply robust_lift.
  destruct v; cbn; [by apply assign_field_robust|done].
Qed.

Lemma getMessageLayout_throws t :
  loaded ml = true -> match getMessageLayout ml t with Ok _ => True | Err e => is_throw e end.
Proof. intros L. unfold getMessageLayout. rewrite L. cbn. repeat case_match; simplify_eq; done. Qed.

Lemma robust_readMessage layout :
  loaded ml = true -> robust (readMessage ml layout) fillable.
Proof.
  intros L. unfold readMessage. eapply robust_bind; [apply robust_getByte|]. intros t _.
  eapply (robust_bind _ _ (fun _ => True)).
  - destruct layout; [by apply robust_ret|]. destruct (_ <? _); [|by apply robust_ret].
    eapply (robust_bind _ _ (fun _ => True)); [|intros; by apply robust_ret].
    by apply robust_lift, getMessageLayout_throws.
  - intros [l|] _; [by apply robust_children|apply robust_throw].
Qed.
End robust_read.

(** ** How message operations fail *)

Definition message_faults : list string :=
  ["static_cast<data_int_t>"; "static_cast<data_string_t>"; "static_cast<data_array_t>";
   "static_cast<data_struct_t>"; "arrayVal[i]"].
Definition message_fault (e : exn) : Prop :=
  match e with Throw _ | Abort _ => True | UB w => w ∈ message_faults | OutOfFuel => False end.

(** [c] fails with message faults only *)
Definition faults_ok {A} (c : M FBTCtlMessage A) : Prop :=
  forall m, match (c m).1 with Ok _ => True | Err e => message_fault e end.

Ltac fault := first [exact I | apply (bool_decide_eq_true_1 (_ ∈ message_faults)); vm_compute; reflexivity].

Lemma faults_getIntVal : faults_ok getIntVal.
Proof. intros [t d]. unfold getIntVal, mbind, M_bind, get. cbn. destruct (t =? INT); [|exact I]. destruct d; cbn; fault. Qed.
Lemma faults_getStringVal : faults_ok getStringVal.
Proof. intros [t d]. unfold getStringVal, mbind, M_bind, get. cbn. destruct (t =? STRING); [|exact I]. destruct d; cbn; fault. Qed.
Lemma faults_getArraySize : faults_ok getArraySize.
Proof. intros [t d]. unfold getArraySize, mbind, M_bind, get. cbn. destruct (t =? ARRAY); [|exact I]. destruct d; cbn; fault. Qed.
Lemma faults_put m : faults_ok (put m).
Proof. by intros m'. Qed.

Lemma faults_at_field {A} s (k : M FBTCtlMessage A) : faults_ok k -> faults_ok (at_field s k).
Proof.
  intros Hk [t d]. unfold at_field. cbn [m_type m_data]. destruct (t <? STRUCT); [done|].
  assert (forall m, match (let '(e, m) := smap_index FBTCtlMessage0 s m in let '(r, e) := k e in
            (r, Msg t (data_struct_t (smap_set s e m)))).1 with Ok _ => True | Err e => message_fault e end) as Hrun.
  { intros m. destruct (smap_index _ _ _) as [e m']. specialize (Hk e). by destruct (k e). }
  destruct d; first [apply Hrun | cbn; fault].
Qed.

Lemma faults_at_index {A} i (k : M FBTCtlMessage A) : faults_ok k -> faults_ok (at_index i k).
Proof.
  intros Hk m. unfold at_index.
  destruct (if m_type m =? UNDEF then _ else m) as [t d]. cbn [m_type m_data].
  destruct (negb _); [done|]. destruct d as [| | |l|]; try (cbn; fault).
  destruct (i <? 0); [cbn; fault|]. destruct (_ !! _) as [e|]; [|cbn; fault].
  specialize (Hk e). by destruct (k e).
Qed.

Lemma faults_bind {A B} (c : M FBTCtlMessage A) (f : A -> M FBTCtlMessage B) :
  faults_ok c -> (forall a, faults_ok (f a)) -> faults_ok (c ≫= f).
Proof.
  intros Hc Hf m. specialize (Hc m). unfold mbind, M_bind. destruct (c m) as [[a|e] m']; [apply Hf|done].
Qed.

(** induction over messages, with the hypothesis for elements and fields *)
Definition all_parts (P : FBTCtlMessage -> Prop) (d : data_t) : Prop :=
  match d with
  | data_array_t l => Forall P l
  | data_struct_t m => Forall (fun kv => P kv.2) m
  | _ => True
  end.
Section message_induction.
Context (P : FBTCtlMessage -> Prop) (IH : forall t d, all_parts P d -> P (Msg t d)).
Fixpoint message_ind' (m : FBTCtlMessage) : P m :=
  match m with
  | Msg t d => IH t d
      match d as d0 return all_parts P d0 with
      | data_array_t l =>
          (fix go (l : list FBTCtlMessage) : Forall P l :=
             match l with
             | [] => List.Forall_nil P
             | e :: l' => List.Forall_cons P e l' (message_ind' e) (go l')
             end) l
      | data_struct_t s =>
          (fix go (s : list (string * FBTCtlMessage)) : Forall (fun kv => P kv.2) s :=
             match s with
             | [] => List.Forall_nil (fun kv => P kv.2)
             | (k, e) :: s' => List.Forall_cons (fun kv => P kv.2) (k, e) s' (message_ind' e) (go s')
             end) s
      | _ => I
      end
  end.
End message_induction.

Definition outcome_fault {A} (o : outcome A) : Prop :=
  match o with Ok _ => True | Err e => message_fault e end.

Lemma outcome_fault_bind {A B} (o : outcome A) (f : A -> outcome B) :
  outcome_fault o -> (forall a, outcome_fault (f a)) -> outcome_fault (o ≫= f).
Proof. destruct o; cbn; auto. Qed.

Lemma outcome_fault_throw {A} w : outcome_fault (Err (Throw w) : outcome A).
Proof. done. Qed.

Lemma typeName_fault ml t : outcome_fault (messageTypeName ml t).
Proof. pose proof (messageTypeName_throws ml t). by destruct (messageTypeName ml t) as [|[]]. Qed.

Lemma encode_fields_fault ml t m cs :
  Forall (fun kv => forall layout, outcome_fault (encode ml kv.2 layout)) m ->
  outcome_fault (encode_fields ml t m cs).
Proof.
  intros F. induction cs as [|it cs IH]; [done|]. cbn.
  destruct (smap_find (l_name it) m) as [e|] eqn:L.
  - destruct (_ =? _); [|done]. apply smap_find_elem in L. eapply list.Forall_forall in F; [|exact L].
    apply outcome_fault_bind; [done|]. intros b. by apply outcome_fault_bind.
  - by apply outcome_fault_bind; [apply typeName_fault|].
Qed.

Lemma encode_fault ml m layout : outcome_fault (encode ml m layout).
Proof.
  revert layout. induction m as [t d IH] using message_ind'. intros layout.
  destruct d as [|i|s|l|m].
  1-3: cbn -[le_bytes]; repeat case_match; simplify_eq; cbn; fault.
  - cbn [encode]. apply outcome_fault_bind; [|done].
    destruct (t =? INT); [fault|]. destruct (t =? STRING); [fault|]. destruct (t =? ARRAY); [|fault].
    apply outcome_fault_bind; [|done]. change (outcome_fault (encode_elems ml layout l)). cbn in IH.
    induction IH as [|e l He _ IHl]; [done|]. cbn.
    apply outcome_fault_bind; [done|]. intros b. by apply outcome_fault_bind.
  - destruct (decide (t = INT)) as [->|]; [cbn; fault|]. destruct (decide (t = STRING)) as [->|]; [cbn; fault|].
    destruct (decide (t = ARRAY)) as [->|]; [cbn; fault|].
    rewrite encode_struct by done. apply outcome_fault_bind; [|done]. by apply encode_fields_fault.
Qed.

Lemma getBinaryMessage_fault ml m : outcome_fault (getBinaryMessage ml m).
Proof.
  apply outcome_fault_bind; [|intros; apply encode_fault].
  unfold getMessageLayout. by repeat case_match.
Qed.

(** ** Messages that carry exactly the fields of their layout *)

(** no fields besides the layout's, at every level *)
Fixpoint exact (layout : MessageLayout) (m : FBTCtlMessage) : bool :=
  let 'Layout _ _ cs := layout in
  match m_data m with
  | data_struct_t s =>
      smap_wfb s && forallb (fun k => bool_decide (k ∈ map l_name cs)) s.*1 &&
      forallb (fun it => match smap_find (l_name it) s with
                         | Some v => forallb (exact it) (m_elems v)
                         | None => true
                         end) cs
  | _ => false
  end.

(** The constructor gives every struct an empty map; the decoder makes the
    map with the first field, so a message without fields (PING, GETLOCOS,
    BTSCAN) arrives without data.  [blank]: the message with its empty structs
    left out, at every level. *)
Fixpoint blank (m : FBTCtlMessage) : FBTCtlMessage :=
  let 'Msg t d := m in
  Msg t (match d with
         | data_array_t l => data_array_t (map blank l)
         | data_struct_t [] => NULL
         | data_struct_t s => data_struct_t (map (fun kv => (kv.1, blank kv.2)) s)
         | d => d
         end).

(** every struct of the layout has a field *)
Fixpoint has_fields (layout : MessageLayout) : bool :=
  let 'Layout _ _ cs := layout in
  match cs with
  | [] => false
  | _ => forallb (fun it => negb (l_type it =? ARRAY) || has_fields it) cs
  end.

Lemma project_fold_wf (f : MessageLayout -> option FBTCtlMessage) cs this :
  smap_wf (m_fields this) ->
  smap_wf (m_fields (List.fold_left (fun this it =>
    match f it with Some v => set_field (l_name it) v this | None => this end) cs this)).
Proof.
  revert this. induction cs as [|it cs IH]; intros this W; [done|]. cbn. apply IH.
  destruct (f it); [|done]. cbn. by apply smap_wf_set.
Qed.

Lemma project_fold_find (m : smap FBTCtlMessage) (f : MessageLayout -> option FBTCtlMessage) cs this k :
  Forall (fun it => f it = smap_find (l_name it) m) cs ->
  smap_find k (m_fields (List.fold_left (fun this it =>
    match f it with Some v => set_field (l_name it) v this | None => this end) cs this)) =
  (if decide (k ∈ map l_name cs) then
     match smap_find k m with Some v => Some v | None => smap_find k (m_fields this) end
   else smap_find k (m_fields this)).
Proof.
  intros Hf. revert this. induction Hf as [|it cs Hit _ IH]; intros this; [done|]. cbn [List.fold_left map].
  rewrite IH, Hit. destruct (decide (l_name it = k)) as [<-|Hk].
  - rewrite (decide_True (P:=_ ∈ _ :: _)) by set_solver.
    destruct (smap_find (l_name it) m) as [v|] eqn:F; [|by case_decide].
    cbn. rewrite smap_find_set_eq. by case_decide.
  - assert (smap_find k (m_fields (match smap_find (l_name it) m with
        | Some v => set_field (l_name it) v this | None => this end)) = smap_find k (m_fields this)) as E.
    { destruct (smap_find (l_name it) m); [|done]. cbn. by rewrite smap_find_set_ne. }
    rewrite E. destruct (decide (k ∈ map l_name cs)); [rewrite decide_True by set_solver|
      rewrite decide_False by set_solver]; done.
Qed.

Definition project_field (m : smap FBTCtlMessage) (it : MessageLayout) : option FBTCtlMessage :=
  project_val (project it) <$> smap_find (l_name it) m.

Lemma project_unfold ty n cs t m :
  project (Layout ty n cs) (Msg t (data_struct_t m)) =
  List.fold_left (fun this it =>
    match project_field m it with Some v => set_field (l_name it) v this | None => this end)
    cs (Msg t NULL).
Proof.
  cbn [project m_fields m_data m_type]. generalize (Msg t NULL).
  induction cs as [|it cs IH]; intros this; [done|]. cbn [List.fold_left]. rewrite IH.
  unfold project_field. by destruct (smap_find _ m).
Qed.

Lemma fold_set_struct (f : MessageLayout -> option FBTCtlMessage) cs this :
  (forall it, it ∈ cs -> is_Some (f it)) -> cs <> [] ->
  let m := List.fold_left (fun this it =>
    match f it with Some v => set_field (l_name it) v this | None => this end) cs this in
  m = Msg (m_type this) (data_struct_t (m_fields m)).
Proof.
  intros Hf Hne. cbn. revert this. induction cs as [|it cs IH]; intros this; [done|]. cbn [List.fold_left].
  destruct (Hf it ltac:(set_solver)) as [v ->]. destruct cs as [|it' cs]; [done|].
  rewrite IH; [done|set_solver|done].
Qed.

Lemma smap_find_keys {V} k (m : smap V) cs :
  forallb (fun k => bool_decide (k ∈ map l_name cs)) m.*1 = true -> k ∉ map l_name cs -> smap_find k m = None.
Proof.
  intros Hk D. destruct (smap_find k m) eqn:F; [|done]. exfalso. apply D.
  assert (k ∈ m.*1) as Hin by (apply smap_find_Some; eauto).
  rewrite forallb_forall in Hk. apply list_elem_of_In in Hin. apply Hk in Hin.
  by apply bool_decide_eq_true in Hin.
Qed.

(** the fields of a conforming struct that has exactly the layout's fields *)
Lemma exact_fields ty n cs t m it :
  conforms (Layout ty n cs) (Msg t (data_struct_t m)) = true ->
  exact (Layout ty n cs) (Msg t (data_struct_t m)) = true -> it ∈ cs ->
  exists v, smap_find (l_name it) m = Some v /\ conforms_val (conforms it) it v = true /\
    forallb (exact it) (m_elems v) = true.
Proof.
  cbn. rewrite !andb_true_iff, !forallb_forall. intros [_ Hc] [_ Hx] Hin. apply list_elem_of_In in Hin.
  specialize (Hc it Hin). specialize (Hx it Hin). destruct (smap_find (l_name it) m) as [v|]; [eauto|done].
Qed.

(** a function that agrees with [g] on the elements agrees with it on the
    values of the fields *)
Lemma conforms_elems it v (f g : FBTCtlMessage -> FBTCtlMessage) :
  conforms_val (conforms it) it v = true -> forallb (exact it) (m_elems v) = true ->
  (forall e, conforms it e = true -> exact it e = true -> f e = g e) -> map f (m_elems v) = map g (m_elems v).
Proof.
  destruct v as [t d]. unfold conforms_val, m_elems. cbn [m_data m_type]. intros Hc Hx Hfg.
  destruct d as [| | |l|]; try done. rewrite !andb_true_iff, forallb_forall in Hc.
  rewrite forallb_forall in Hx. destruct Hc as (_ & _ & Hc). apply map_ext_in. auto.
Qed.

Lemma project_blank layout m : conforms layout m = true -> exact layout m = true -> project layout m = blank m.
Proof.
  revert m. induction layout as [ty n cs IH] using layout_ind'. intros [t d] Hc Hx.
  destruct d as [| | | |m]; try done. pose proof (exact_fields ty n cs t m) as Hfield.
  assert (forall it, it ∈ cs -> project_field m it = blank <$> smap_find (l_name it) m) as Hpf.
  { intros it Hin. destruct (Hfield it Hc Hx Hin) as (v & F & Hcv & Hxv). unfold project_field. rewrite F. cbn.
    f_equal. eapply list.Forall_forall in IH; [|exact Hin].
    pose proof (conforms_elems it v (project it) blank Hcv Hxv IH) as E.
    destruct v as [vt [| | |l|]]; try done; [unfold project_val; cbn in E |- *; by rewrite E|].
    unfold conforms_val in Hcv. cbn in Hcv. by rewrite andb_false_r in Hcv. }
  assert (forall it, it ∈ cs -> is_Some (project_field m it)) as Hs.
  { intros it Hin. rewrite Hpf by done. destruct (Hfield it Hc Hx Hin) as (v & -> & _). by eexists. }
  cbn [exact m_data] in Hx. rewrite !andb_true_iff in Hx. destruct Hx as [[W Hk] _]. apply smap_wfb_spec in W.
  destruct (decide (cs = [])) as [->|Hne]; [by destruct m|].
  rewrite project_unfold, fold_set_struct by done. cbn [m_type blank].
  assert (m <> []) as Hm.
  { intros ->. destruct cs as [|it cs]; [done|]. destruct (Hs it ltac:(set_solver)) as [v Hv]. done. }
  set (m' := map (fun kv => (kv.1, blank kv.2)) m).
  replace (match m with [] => NULL | _ => data_struct_t m' end) with (data_struct_t m') by by destruct m.
  do 2 f_equal. apply smap_ext; [apply project_fold_wf; constructor|unfold smap_wf, m'; by rewrite smap_keys_map|].
  intros k. rewrite (project_fold_find m' (project_field m)).
  - case_decide as D; [by destruct (smap_find k m')|]. unfold m'.
    by rewrite smap_find_map, (smap_find_keys k m cs Hk D).
  - apply list.Forall_forall. intros it Hin. unfold m'. by rewrite smap_find_map, Hpf.
Qed.

(** a message whose layout has no fields *)
Lemma exact_empty layout m : exact layout m = true -> l_children layout = [] ->
  m = Msg (m_type m) (data_struct_t []) /\ blank m = Msg (m_type m) NULL.
Proof.
  destruct layout as [ty n cs], m as [t [| | | |s]]; cbn; try done. intros Hx ->.
  destruct s as [|[k v] s]; [done|]. rewrite andb_true_r in Hx. apply andb_true_iff in Hx as [_ Hx]. done.
Qed.

(** nothing is left out of a message all of whose structs have fields *)
Lemma blank_has_fields layout m :
  conforms layout m = true -> exact layout m = true -> has_fields layout = true -> blank m = m.
Proof.
  revert m. induction layout as [ty n cs IH] using layout_ind'. intros [t d] Hc Hx Hh.
  destruct d as [| | | |m]; try done. pose proof (exact_fields ty n cs t m) as Hfield.
  assert (forall k v, (k, v) ∈ m -> blank v = v) as Hv; cycle 1.
  { cbn. destruct m as [|kv m]; [|do 2 f_equal; rewrite <- (map_id (kv :: m)) at 2; apply map_ext_in;
      intros [k v] Hin; cbn; f_equal; eapply Hv; by apply list_elem_of_In].
    destruct cs as [|it cs]; [done|]. destruct (Hfield it Hc Hx ltac:(set_solver)) as (v & F & _). done. }
  intros k v Hin. assert (exists it, it ∈ cs /\ l_name it = k /\ smap_find k m = Some v) as (it & Hit & <- & F).
  { cbn in Hx. rewrite !andb_true_iff, forallb_forall in Hx. destruct Hx as [[W Hk] _]. apply smap_wfb_spec in W.
    assert (k ∈ m.*1) as Hin1 by (apply list_elem_of_fmap; by exists (k, v)).
    apply list_elem_of_In in Hin1. specialize (Hk k Hin1). apply bool_decide_eq_true in Hk.
    apply list_elem_of_In, in_map_iff in Hk as (it & <- & Hit). exists it. split; [by apply list_elem_of_In|].
    split; [done|]. by apply smap_find_in. }
  destruct (Hfield it Hc Hx Hit) as (v' & F' & Hcv & Hxv). assert (v' = v) as -> by congruence.
  assert (l_type it = ARRAY -> has_fields it = true) as Hf.
  { intros Ha. cbn in Hh. destruct cs; [done|]. rewrite forallb_forall in Hh. apply list_elem_of_In in Hit.
    specialize (Hh it Hit). by rewrite Ha in Hh. }
  eapply list.Forall_forall in IH; [|exact Hit]. pose proof (conforms_elems it v blank id Hcv Hxv) as E.
  unfold conforms_val in Hcv. destruct v as [vt [| | |l|]]; try done; cbn in Hcv, E |- *.
  - rewrite !andb_true_iff, !Z.eqb_eq in Hcv. destruct Hcv as (_ & [Ha _] & _). rewrite map_id in E.
    rewrite E; [done|]. intros e He1 He2. by apply IH; auto.
  - by rewrite andb_false_r in Hcv.
Qed.

Lemma project_exact layout m :
  conforms layout m = true -> exact layout m = true -> has_fields layout = true -> project layout m = m.
Proof. intros Hc Hx Hh. by rewrite project_blank, (blank_has_fields layout). Qed.

(** ** Properties *)

Lemma getMessageLayout_struct ml t l : getMessageLayout ml t = Ok l -> STRUCT < t.
Proof.
  unfold getMessageLayout. destruct (negb _); [done|]. by destruct (Z.leb_spec t STRUCT).
Qed.

Lemma decode_encoded ml layout m bs slack :
  getMessageLayout ml (m_type m) = Ok layout -> conforms layout m = true -> encode ml m layout = Ok bs ->
  FBTCtlMessage_bin ml (bs ++ slack) (Z.of_nat (length bs)) = Ok (project layout m).
Proof.
  intros L C E. pose proof (getMessageLayout_struct _ _ _ L) as Ht.
  destruct (layout_roundtrips ml layout m C) as (bs' & E' & R).
  assert (bs' = bs) as -> by congruence. clear E'.
  assert (reads (readMessage ml None) bs (project layout m)) as R'; cycle 1.
  { unfold FBTCtlMessage_bin. rewrite (R' _ slack); cbn; [done|lia|done|lia]. }
  destruct layout as [ty n cs]. cbn in C. rewrite !andb_true_iff, Z.ltb_lt in C. destruct C as [[_ Ht2] _].
  revert R. destruct m as [t d]. cbn [m_type] in *.
  intros R r rest Hp Hd Hl. specialize (R r rest Hp Hd Hl). revert R.
  assert (exists bs', bs = byte_of_Z t :: bs') as [bs' ->].
  { cbn [encode] in E. apply outcome_bind_ok in E as (b & _ & [= <-]). eauto. }
  unfold read_elem, readMessage. unfold mbind, M_bind.
  rewrite (reads_getByte_Z t ltac:(unfold STRUCT in *; lia) r (bs' ++ rest)); [|done|done|cbn in Hl |- *; lia].
  destruct (Z.ltb_spec STRUCT t); [|lia]. unfold lift. rewrite L. done.
Qed.

(** Whatever a conforming message holds, [getBinaryMessage] encodes it, and
    decoding the bytes gives the message restricted to the fields its layout
    names: extra fields are not sent. *)
Theorem wire_roundtrip_project ml m layout slack :
  getMessageLayout ml (m_type m) = Ok layout -> conforms layout m = true ->
  exists bs, getBinaryMessage ml m = Ok bs /\
    FBTCtlMessage_bin ml (bs ++ slack) (Z.of_nat (length bs)) = Ok (project layout m).
Proof.
  intros L C. destruct (layout_roundtrips ml layout m C) as (bs & E & _). exists bs.
  split; [unfold getBinaryMessage; by rewrite L|by apply decode_encoded].
Qed.

(** a STATUS_REPLY about one locomotive, and the same with a field the
    protocol does not have *)
Definition sample_info (extra : smap FBTCtlMessage) : FBTCtlMessage :=
  Msg 8 (data_struct_t (extra ++ [("info", Msg ARRAY (data_array_t
    [Msg STRUCT (data_struct_t [("addr", FBTCtlMessage_int 3); ("functions", FBTCtlMessage_int 5);
                                ("speed", FBTCtlMessage_int (-255))])]))])).
Definition sample_layout : MessageLayout :=
  Layout 8 "" [Layout ARRAY "info" [Layout INT "addr" []; Layout INT "speed" []; Layout INT "functions" []]].

Lemma wire_roundtrip_project_witness :
  exists bs, getBinaryMessage protocol (sample_info [("debug", FBTCtlMessage_string "x")]) = Ok bs /\
    FBTCtlMessage_bin protocol (bs ++ []) (Z.of_nat (length bs)) =
      Ok (project sample_layout (sample_info [("debug", FBTCtlMessage_string "x")])).
Proof. apply (wire_roundtrip_project protocol _ sample_layout []); vm_compute; reflexivity. Defined.

(** C1: A message that has exactly the fields of its layout, integers of 32 bits,
    strings below 64 KiB and arrays below 256 elements survives the wire: the
    bytes decode to the message with its empty structs (PING, GETLOCOS and
    BTSCAN have no fields) as messages without data, which is the message
    itself when every struct of its layout has a field. *)
Theorem wire_roundtrip ml m layout slack :
  getMessageLayout ml (m_type m) = Ok layout ->
  conforms layout m = true -> exact layout m = true ->
  exists bs, getBinaryMessage ml m = Ok bs /\
    FBTCtlMessage_bin ml (bs ++ slack) (Z.of_nat (length bs)) = Ok (blank m) /\
    (if has_fields layout then blank m = m
     else l_children layout = [] -> m = Msg (m_type m) (data_struct_t []) /\ blank m = Msg (m_type m) NULL).
Proof.
  intros L C X. destruct (layout_roundtrips ml layout m C) as (bs & E & R). exists bs.
  split; [unfold getBinaryMessage; by rewrite L|].
  rewrite (decode_encoded ml layout m bs slack L C E), project_blank by done. split; [done|].
  destruct (has_fields layout) eqn:H; [by eapply blank_has_fields|]. intros Hn. by apply exact_empty with layout.
Qed.

Lemma wire_roundtrip_witness :
  (exists bs, getBinaryMessage protocol (sample_info []) = Ok bs /\
    FBTCtlMessage_bin protocol (bs ++ []) (Z.of_nat (length bs)) = Ok (sample_info [])) /\
  (exists bs, getBinaryMessage protocol (Msg 7 (data_struct_t [])) = Ok bs /\
    FBTCtlMessage_bin protocol (bs ++ []) (Z.of_nat (length bs)) = Ok (Msg 7 NULL)).
Proof.
  split.
  - destruct (wire_roundtrip protocol (sample_info []) sample_layout []) as (bs & H1 & H2 & _);
      [vm_compute; reflexivity..|]. by exists bs.
  - destruct (wire_roundtrip protocol (Msg 7 (data_struct_t [])) (Layout 7 "" []) []) as (bs & H1 & H2 & _);
      [vm_compute; reflexivity..|]. by exists bs.
Defined.

Lemma sim_self data slack1 slack2 :
  (4 <= length slack1)%nat -> (4 <= length slack2)%nat ->
  rd_sim (mkReader (data ++ slack1) (Z.of_nat (length data)) 0)
         (mkReader (data ++ slack2) (Z.of_nat (length data)) 0).
Proof.
  intros H1 H2. split; cbn; [done|done|lia| | |]; rewrite ?Nat2Z.id, ?take_app_length, ?length_app; lia || done.
Qed.

(** C23: Arbitrary bytes: with four readable bytes behind the message, decoding
    ends with a message or a C++ exception, and what those bytes hold has no
    influence on the result. *)
Theorem decode_any_bytes ml data slack slack' :
  loaded ml = true -> (4 <= length slack)%nat -> (4 <= length slack')%nat ->
  let result := FBTCtlMessage_bin ml (data ++ slack) (Z.of_nat (length data)) in
  match result with Ok m => fillable m | Err e => is_throw e end /\
  FBTCtlMessage_bin ml (data ++ slack') (Z.of_nat (length data)) = result.
Proof.
  intros L H1 H2. pose proof (robust_readMessage ml None L _ _ (sim_self data slack slack' H1 H2)) as R.
  cbn. unfold FBTCtlMessage_bin. destruct (readMessage ml None _) as [[a|e] r1], (readMessage ml None _) as [[b|e'] r2];
    try done; cbn; naive_solver.
Qed.

Lemma decode_any_bytes_witness :
  FBTCtlMessage_bin protocol ([byte_of_Z 9; byte_of_Z 1; byte_of_Z 3] ++ repeat (byte_of_Z 0) 4) 3 =
    FBTCtlMessage_bin protocol ([byte_of_Z 9; byte_of_Z 1; byte_of_Z 3] ++ repeat (byte_of_Z 7) 4) 3.
Proof.
  apply (decode_any_bytes protocol [byte_of_Z 9; byte_of_Z 1; byte_of_Z 3]
           (repeat (byte_of_Z 7) 4) (repeat (byte_of_Z 0) 4));
    [vm_compute; reflexivity|cbn; lia|cbn; lia].
Defined.

(** [CommThread::readMessage] decodes from a buffer of exactly the message's
    size: a message cut off inside an integer is read past the end of that
    buffer, before the length is compared. *)
Example truncated_message_reads_past_buffer :
  FBTCtlMessage_bin protocol [byte_of_Z 9; byte_of_Z 1; byte_of_Z 3] 3 = Err (UB "getInt: data[pos]").
Proof. vm_compute. reflexivity. Qed.

(** The size check of strings admits one length too many: a string of exactly
    65536 bytes is announced with length 0 and its bytes follow; one byte more
    and the message is refused. *)
Theorem string_length_limit ml layout s :
  (Z.of_nat (String.length s) = 65536 ->
    encode ml (FBTCtlMessage_string s) layout =
      Ok ([byte_of_Z STRING; byte_of_Z 0; byte_of_Z 0] ++ String.list_byte_of_string s)) /\
  (65536 < Z.of_nat (String.length s) ->
    encode ml (FBTCtlMessage_string s) layout = Err (Throw "string too big")).
Proof.
  split; intros H.
  - rewrite encode_string by lia. by rewrite H.
  - unfold encode. cbn -[le_bytes]. by destruct (Z.ltb_spec 65536 (Z.of_nat (String.length s))); [|lia].
Qed.

(** a string of [n] letters *)
Definition letters (n : N) : string := N.iter n (String "a") EmptyString.

Lemma string_length_limit_witness :
  encode protocol (FBTCtlMessage_string (letters 65536)) layout0 =
      Ok ([byte_of_Z STRING; byte_of_Z 0; byte_of_Z 0] ++ String.list_byte_of_string (letters 65536)) /\
  encode protocol (FBTCtlMessage_string (letters 65537)) layout0 = Err (Throw "string too big").
Proof.
  split; [apply (string_length_limit protocol layout0 (letters 65536))|
          apply (string_length_limit protocol layout0 (letters 65537))]; vm_compute; reflexivity.
Defined.

(** The element count of an array is one byte: an array of 256 or more
    structs is announced with its size modulo 256. *)
Theorem array_count_wraps ml layout l bs :
  encode ml (Msg ARRAY (data_array_t l)) layout = Ok bs ->
  exists elems, encode_elems ml layout l = Ok elems /\
    bs = byte_of_Z ARRAY :: byte_of_Z (Z.of_nat (length l) mod 256) :: elems.
Proof.
  rewrite encode_array. intros H. apply outcome_bind_ok in H as (elems & E & [= <-]).
  exists elems. split; [done|]. cbn [le_bytes app]. do 2 f_equal.
  unfold byte_of_Z, u8. by rewrite Z.mod_mod.
Qed.

Lemma array_count_wraps_witness :
  exists elems, encode_elems protocol (Layout ARRAY "x" []) (repeat (Msg STRUCT (data_struct_t [])) 257) = Ok elems /\
    byte_of_Z ARRAY :: byte_of_Z 1 :: repeat (byte_of_Z STRUCT) 257 =
    byte_of_Z ARRAY :: byte_of_Z (257 mod 256) :: elems.
Proof.
  apply (array_count_wraps protocol (Layout ARRAY "x" []) (repeat (Msg STRUCT (data_struct_t [])) 257)).
  vm_compute. reflexivity.
Defined.
