(* ===== verification/MessageTyping.v ===== *)
(** * What the decoder accepts is typed and canonical

    The converse of the round trip: a message that [readMessage] accepts has
    the fields of its layout with their types, and the bytes it was read from
    are the bytes [getBinaryMessage] writes for it. *)

From Stdlib Require Import Ascii.
From Stdlib Require Strings.String.
From S2P Require Import Prelude StdMap CString MessageLayout Message.

(** ** Layouts the format can carry

    Fields with different names, each an int, a string or an array; the
    elements of an array have at least one field. *)
Fixpoint regular (layout : MessageLayout) : bool :=
  let 'Layout _ _ cs := layout in
  bool_decide (NoDup (map l_name cs)) &&
  forallb (fun it => (l_type it =? INT) || (l_type it =? STRING) ||
    ((l_type it =? ARRAY) && negb (bool_decide (length (l_children it) = 0%nat)) && regular it)) cs.

(** every layout of the table *)
Definition regular_table (ml : MessageLayouts) : bool := forallb (fun kv => regular kv.2) (layouts ml).

(** ** Bytes consumed

    [consumes c E]: when [c] returns [a] it has read some bytes [bs] with
    [E a bs], inside the message, and stands behind them. *)
Definition consumes {A} (c : M InputReader A) (E : A -> list byte -> Prop) : Prop :=
  forall r a r', 0 <= rd_pos r <= rd_len r -> c r = (Ok a, r') ->
    exists bs rest, drop (Z.to_nat (rd_pos r)) (rd_data r) = bs ++ rest /\
      r' = rd_advance (Z.of_nat (length bs)) r /\ rd_pos r' <= rd_len r /\ E a bs.

Lemma consumes_lift {A} (o : outcome A) (E : A -> list byte -> Prop) :
  (forall a, o = Ok a -> E a []) -> consumes (lift o) E.
Proof.
  intros H r a r' Hp Hc. injection Hc as -> <-. exists [], (drop (Z.to_nat (rd_pos r)) (rd_data r)).
  split_and!; [done| |lia|by apply H]. unfold rd_advance. rewrite Z.add_0_r. by destruct r.
Qed.
Lemma consumes_ret {A} (a : A) (E : A -> list byte -> Prop) : E a [] -> consumes (mret a) E.
Proof. intros H. apply (consumes_lift (Ok a)). by intros ? [= ->]. Qed.
Lemma consumes_throw {A} w (E : A -> list byte -> Prop) : consumes (throw w) E.
Proof. by intros r a r' _ Hc. Qed.

Lemma consumes_mono {A} (c : M InputReader A) (E E' : A -> list byte -> Prop) :
  consumes c E -> (forall a bs, E a bs -> E' a bs) -> consumes c E'.
Proof. intros H HE r a r' Hp Hc. destruct (H r a r' Hp Hc) as (bs & rest & ? & ? & ? & ?). eauto 10. Qed.

Lemma consumes_bind {A B} (c : M InputReader A) (f : A -> M InputReader B) (P : A -> list byte -> Prop) (Q : B -> list byte -> Prop) :
  consumes c P -> (forall a bs, P a bs -> consumes (f a) (fun b bs' => Q b (bs ++ bs'))) -> consumes (c ≫= f) Q.
Proof.
  intros Hc Hf r b r2 Hp Hr. unfold mbind, M_bind in Hr. destruct (c r) as [[a|e] r1] eqn:E; [|done].
  destruct (Hc r a r1 Hp E) as (bs & rest & Hd & -> & Hl & HP).
  destruct (Hf a bs HP (rd_advance (Z.of_nat (length bs)) r) b r2 ltac:(cbn in *; lia) Hr) as (bs' & rest' & Hd' & -> & Hl' & HQ).
  exists (bs ++ bs'), rest'. cbn in Hd', Hl, Hl'. split_and!; [| |cbn; lia|done].
  2: by rewrite rd_advance_advance, length_app, Nat2Z.inj_add.
  rewrite Z2Nat.inj_add, Nat2Z.id, <- drop_drop, Hd, drop_app_length in Hd' by lia. by rewrite Hd, Hd', app_assoc.
Qed.

Lemma peek_consumed n r l : rd_peek n r = Some l ->
  length l = n /\ exists rest, drop (Z.to_nat (rd_pos r)) (rd_data r) = l ++ rest.
Proof.
  unfold rd_peek. destruct (_ <? _); [done|]. destruct (Nat.eqb_spec (length (take n (drop (Z.to_nat (rd_pos r)) (rd_data r)))) n); [|done].
  intros [= <-]. split; [done|]. exists (drop n (drop (Z.to_nat (rd_pos r)) (rd_data r))). by rewrite take_drop.
Qed.

Lemma consumes_getByte : consumes getByte (fun b bs => 0 <= b < 256 /\ bs = [byte_of_Z b]).
Proof.
  intros r a r' Hp. unfold getByte. destruct (rd_peek 1 r) as [l|] eqn:E; [|done].
  apply peek_consumed in E as [Hl [rest Hd]]. destruct l as [|b [|]]; try done.
  destruct (Z.ltb_spec (rd_len (rd_advance 1 r)) (rd_pos (rd_advance 1 r))); [done|]. intros [= <- <-].
  pose proof (Z_of_byte_range b). change (le_value [b]) with (Z_of_byte b + 0). rewrite Z.add_0_r.
  exists [b], rest. rewrite byte_of_Z_of_byte. split_and!; try done; cbn in *; lia.
Qed.

Lemma le_bytes_value l z : z mod 256 ^ Z.of_nat (length l) = le_value l -> le_bytes (length l) z = l.
Proof.
  revert z. induction l as [|b l IH]; intros z Hz; [done|]. cbn [length le_bytes le_value] in *.
  rewrite Nat2Z.inj_succ, Z.pow_succ_r, Z.rem_mul_r in Hz by (try apply Z.pow_pos_nonneg; lia).
  pose proof (Z_of_byte_range b) as Hb. pose proof (Z.mod_pos_bound z 256 ltac:(lia)) as Hm.
  f_equal; [|apply IH; lia].
  rewrite <- (byte_of_Z_of_byte b). unfold byte_of_Z.
  assert (u8 z = u8 (Z_of_byte b)) as ->; [rewrite (u8_id (Z_of_byte b)) by done; unfold u8; lia|done].
Qed.

Lemma le_value_range l : 0 <= le_value l < 256 ^ Z.of_nat (length l).
Proof.
  induction l as [|b l IH]; [done|]. cbn [length le_value]. rewrite Nat2Z.inj_succ, Z.pow_succ_r by lia.
  pose proof (Z_of_byte_range b). lia.
Qed.

Lemma wrap32_mod z : wrap32 z mod 2^32 = z mod 2^32.
Proof. unfold wrap32. rewrite Zminus_mod_idemp_l. f_equal. lia. Qed.

Lemma consumes_getInt : consumes getInt (fun i bs => int32b i = true /\ bs = le_bytes 4 i).
Proof.
  intros r a r' Hp. unfold getInt. destruct (rd_peek 4 r) as [l|] eqn:E; [|done].
  apply peek_consumed in E as [Hl [rest Hd]].
  destruct (Z.ltb_spec (rd_len (rd_advance 4 r)) (rd_pos (rd_advance 4 r))); [done|]. intros [= <- <-].
  exists l, rest. split_and!; [done|by rewrite Hl|cbn in *; lia|apply int32b_spec, wrap32_range|].
  rewrite <- Hl. symmetry. apply le_bytes_value. rewrite Hl. change (256 ^ Z.of_nat 4) with (2^32). rewrite wrap32_mod.
  pose proof (le_value_range l) as Hr. rewrite Hl in Hr. apply Z.mod_small. exact Hr.
Qed.

Lemma consumes_getString :
  consumes getString (fun s bs => Z.of_nat (String.length s) < 65536 /\
    bs = le_bytes 2 (Z.of_nat (String.length s)) ++ String.list_byte_of_string s).
Proof.
  unfold getString. eapply consumes_bind; [apply consumes_getByte|]. intros lo b1 [Hlo ->].
  eapply consumes_bind; [apply consumes_getByte|]. intros hi b2 [Hhi ->]. rewrite lor_shift8 by lia.
  intros r s r' Hp. unfold mbind, M_bind, get, put, mret, M_ret, throw, fail.
  destruct (Z.ltb_spec (rd_len r) (rd_pos r + (lo + 256 * hi))); [done|].
  destruct (rd_peek _ r) as [l|] eqn:E; [|done]. apply peek_consumed in E as [Hl [rest Hd]]. intros [= <- <-].
  exists l, rest. rewrite <- length_list_byte, String.list_byte_of_string_of_list_byte, Hl, Z2Nat.id by lia.
  split_and!; [done|done|cbn; lia|lia|]. cbn [app le_bytes].
  f_equal; [|f_equal]; unfold byte_of_Z; f_equal; f_equal; f_equal; unfold u8.
  - by rewrite Z.mul_comm, Z_mod_plus_full.
  - rewrite Z.mul_comm, Z.div_add, Z.div_small by lia. done.
Qed.

Section typing.
Context (ml : MessageLayouts).

(** [it] decodes to what it encodes *)
Definition canonical (it : MessageLayout) : Prop :=
  consumes (read_elem ml it) (fun m bs => conforms it m = true /\ encode ml m it = Ok bs).

Lemma consumes_elems it n pre : canonical it ->
  consumes (foldM (array_step (read_elem ml it)) (seq (length pre) n) (Msg ARRAY (data_array_t pre)))
    (fun m bs => exists l, m = Msg ARRAY (data_array_t (pre ++ l)) /\ length l = n /\
       forallb (conforms it) l = true /\ encode_elems ml it l = Ok bs).
Proof.
  intros Hit. revert pre. induction n as [|n IH]; intros pre; cbn [seq foldM].
  { apply consumes_ret. exists []. by rewrite app_nil_r. }
  eapply (consumes_bind _ _ (fun m bs => exists e, m = Msg ARRAY (data_array_t (pre ++ [e])) /\ conforms it e = true /\ encode ml e it = Ok bs)).
  - eapply consumes_bind; [exact Hit|]. intros e bs [He Eb]. rewrite at_index_push. apply consumes_lift. intros ? [= <-].
    exists e. by rewrite app_nil_r.
  - intros ? bs (e & -> & He & Eb). specialize (IH (pre ++ [e])). rewrite length_app, Nat.add_1_r in IH.
    eapply consumes_mono; [exact IH|]. intros m bs' (l & -> & Hn & Hl & El). exists (e :: l).
    rewrite <- app_assoc. cbn. by rewrite Hn, He, Hl, Eb, El.
Qed.

(** a field the layout allows *)
Definition field_ok (it : MessageLayout) : Prop :=
  l_type it = INT \/ l_type it = STRING \/ l_type it = ARRAY /\ canonical it.

Lemma consumes_val it : field_ok it ->
  consumes (read_val ml it) (fun o bs => exists v, o = Some v /\ conforms_val (conforms it) it v = true /\
    m_type v = l_type it /\ encode ml v it = Ok bs).
Proof.
  intros Hit. unfold read_val. eapply consumes_bind; [apply consumes_getByte|]. intros ty b [Hty ->].
  destruct (Z.eqb_spec ty (l_type it)) as [->|]; cbn [negb].
  2: { eapply (consumes_bind _ _ (fun _ _ => True)); [by apply consumes_lift|]. intros; apply consumes_throw. }
  destruct Hit as [H|[H|[H Hit]]]; rewrite H; cbn [Z.eqb Pos.eqb INT STRING ARRAY].
  - eapply consumes_bind; [apply consumes_getInt|]. intros i bs [Hi ->]. apply consumes_ret.
    exists (FBTCtlMessage_int i). unfold conforms_val. cbn [m_type m_data FBTCtlMessage_int]. rewrite H, Hi.
    by split_and!.
  - eapply consumes_bind; [apply consumes_getString|]. intros s bs [Hs ->]. apply consumes_ret.
    exists (FBTCtlMessage_string s). unfold conforms_val. cbn [m_type m_data FBTCtlMessage_string].
    rewrite H, (proj2 (Z.ltb_lt _ _) Hs). split_and!; try done. by rewrite encode_string, app_nil_r by lia.
  - eapply (consumes_bind _ _ (fun m bs => exists l, m = Msg ARRAY (data_array_t l) /\ Z.of_nat (length l) < 256 /\
        forallb (conforms it) l = true /\ exists bs', encode_elems ml it l = Ok bs' /\ bs = le_bytes 1 (Z.of_nat (length l)) ++ bs')).
    + unfold read_array. eapply consumes_bind; [apply consumes_getByte|]. intros n b [Hn ->].
      eapply (consumes_bind _ _ (fun m bs => m = Msg ARRAY (data_array_t []) /\ bs = [])).
      { apply consumes_lift. by intros ? [= <-]. }
      intros ? ? [-> ->]. eapply consumes_mono; [apply (consumes_elems it _ [] Hit)|].
      intros m bs (l & -> & Hl & Hc & El). exists l. rewrite Hl, Z2Nat.id by lia. split_and!; [done|lia|done|]. by exists bs.
    + intros m bs (l & -> & Hl & Hc & bs' & El & ->). apply consumes_ret.
      exists (Msg ARRAY (data_array_t l)). unfold conforms_val. cbn [m_type m_data].
      rewrite H, (proj2 (Z.ltb_lt _ _) Hl), Hc. split_and!; try done. by rewrite encode_array, El, app_nil_r.
Qed.

Lemma consumes_ext {A} (c c' : M InputReader A) (E : A -> list byte -> Prop) :
  (forall r, c r = c' r) -> consumes c' E -> consumes c E.
Proof. intros Heq H r a r' Hp Hc. rewrite Heq in Hc. by apply H. Qed.

Definition is_struct (m : FBTCtlMessage) : Prop := exists s, m_data m = data_struct_t s.

(** the fields of [cs] in a struct *)
Definition fields_conform (m : smap FBTCtlMessage) (cs : list MessageLayout) : bool :=
  forallb (fun it => match smap_find (l_name it) m with Some v => conforms_val (conforms it) it v | None => false end) cs.

(** what [read_children] made of [this] *)
Record filled (cs : list MessageLayout) (this m : FBTCtlMessage) (bs : list byte) : Prop := mkFilled {
  f_type : m_type m = m_type this;
  f_struct : is_struct this \/ cs <> [] -> is_struct m;
  f_tag : cs <> [] -> STRUCT <= m_type this;
  f_others : forall k, k ∉ map l_name cs -> smap_find k (m_fields m) = smap_find k (m_fields this);
  f_conform : fields_conform (m_fields m) cs = true;
  f_bytes : encode_fields ml (m_type this) (m_fields m) cs = Ok bs;
}.

Lemma filled_cons it cs this v m bs1 bs2 :
  STRUCT <= m_type this -> l_name it ∉ map l_name cs ->
  conforms_val (conforms it) it v = true -> m_type v = l_type it -> encode ml v it = Ok bs1 ->
  filled cs (set_field (l_name it) v this) m bs2 -> filled (it :: cs) this m (bs1 ++ bs2).
Proof.
  intros Ht Hn Hv Htv Ev [F1 F2 F3 F4 F5 F6]. cbn [m_type set_field] in *.
  assert (smap_find (l_name it) (m_fields m) = Some v) as Hf.
  { rewrite F4 by done. cbn [m_fields m_data set_field]. apply smap_find_set_eq. }
  split; [done|intros _; apply F2; left; by eexists|done| | |].
  - intros k Hk. cbn [map] in Hk. apply not_elem_of_cons in Hk as [Hk1 Hk2]. rewrite F4 by done.
    cbn [m_fields m_data set_field]. by apply smap_find_set_ne.
  - cbn [fields_conform forallb]. by rewrite Hf, Hv.
  - cbn [encode_fields]. by rewrite Hf, Htv, Z.eqb_refl, Ev, F6.
Qed.

Lemma consumes_children ty n cs this :
  fillable this -> NoDup (map l_name cs) -> Forall field_ok cs ->
  consumes (read_children ml (Layout ty n cs) this) (filled cs this).
Proof.
  intros Hthis Hnd Hok. revert this Hthis Hnd. induction Hok as [|it cs Hit _ IH]; intros this Hthis Hnd.
  { apply consumes_ret. split; try done. by intros [?|]. }
  apply list.NoDup_cons in Hnd as [Hn Hnd]. eapply consumes_ext; [intros; apply read_children_cons|].
  eapply consumes_bind; [by apply consumes_val|]. intros ? bs (v & -> & Hv & Htv & Ev). cbn [assign_opt].
  eapply (consumes_bind _ _ (fun m bs' => bs' = [] /\ STRUCT <= m_type this /\ m = set_field (l_name it) v this)).
  - apply consumes_lift. intros m. destruct (Z.lt_ge_cases (m_type this) STRUCT) as [Hlt|Hge].
    + unfold assign_field, at_field. by rewrite (proj2 (Z.ltb_lt _ _) Hlt).
    + rewrite assign_field_ok by done. by intros [= <-].
  - intros ? ? (-> & Ht & ->). eapply consumes_mono; [by apply IH|]. intros m bs' F. by eapply filled_cons.
Qed.

Lemma filled_struct ty n t cs m bs : cs <> [] -> t < 256 ->
  filled cs (Msg t NULL) m bs ->
  conforms (Layout ty n cs) m = true /\ encode ml m (Layout ty n cs) = Ok (byte_of_Z t :: bs).
Proof.
  intros Hcs Ht F. destruct m as [t' d]. destruct (f_struct _ _ _ _ F (or_intror Hcs)) as [s Hs].
  pose proof (f_tag _ _ _ _ F Hcs) as Hlo. pose proof (f_type _ _ _ _ F) as E. pose proof (f_conform _ _ _ _ F) as C.
  pose proof (f_bytes _ _ _ _ F) as B. cbn [m_type m_data] in *. subst t' d. cbn [m_fields m_data] in *. split.
  - cbn [conforms m_type m_data]. rewrite (proj2 (Z.leb_le _ _) Hlo), (proj2 (Z.ltb_lt _ _) Ht). exact C.
  - rewrite encode_struct by (unfold STRUCT, INT, STRING, ARRAY in *; lia). cbn [l_children]. by rewrite B.
Qed.

(** the fields of a regular layout, when the elements of its arrays are read back *)
Lemma regular_fields ty n cs : regular (Layout ty n cs) = true ->
  Forall (fun it => regular it = true -> l_children it <> [] -> canonical it) cs ->
  NoDup (map l_name cs) /\ Forall field_ok cs.
Proof.
  cbn [regular]. intros Hr IH. apply andb_true_iff in Hr as [Hnd Hall]. apply bool_decide_eq_true in Hnd.
  split; [done|]. rewrite forallb_forall in Hall. apply List.Forall_forall. intros it Hin. rewrite List.Forall_forall in IH.
  specialize (Hall it Hin). rewrite !orb_true_iff, !andb_true_iff, !Z.eqb_eq, negb_true_iff, bool_decide_eq_false in Hall.
  destruct Hall as [[H|H]|[[H Hne] Hr]]; [by left|by right; left|]. right; right. split; [done|].
  apply IH; [done|done|]. intros E. by rewrite E in Hne.
Qed.

Lemma regular_canonical it : regular it = true -> l_children it <> [] -> canonical it.
Proof.
  induction it as [ty n cs IH] using layout_ind'. intros Hr Hcs. destruct (regular_fields ty n cs Hr IH) as [Hnd Hok].
  unfold canonical, read_elem. eapply consumes_bind; [apply consumes_getByte|]. intros t b [Ht ->].
  eapply consumes_mono; [by apply consumes_children|]. intros m bs F. apply (filled_struct ty n t); [done|lia|done].
Qed.
End typing.

(** ** The decoder *)

Lemma find_type_regular ml t n l : regular_table ml = true -> find_type t (layouts ml) = Some (n, l) -> regular l = true.
Proof.
  intros Hr Hf. apply List.find_some in Hf as [Hin _]. unfold regular_table in Hr. rewrite forallb_forall in Hr.
  exact (Hr _ Hin).
Qed.

Lemma getMessageLayout_find ml t l : getMessageLayout ml t = Ok l -> STRUCT < t /\ exists n, find_type t (layouts ml) = Some (n, l).
Proof.
  unfold getMessageLayout. destruct (negb _); [done|]. destruct (Z.leb_spec t STRUCT); [done|].
  destruct (find_type t (layouts ml)) as [[n l']|]; [|done]. intros [= ->]. split; [done|by exists n].
Qed.

(** what an accepted message is *)
Definition accepted (ml : MessageLayouts) (m : FBTCtlMessage) (bs : list byte) : Prop :=
  exists layout, getMessageLayout ml (m_type m) = Ok layout /\
    if decide (l_children layout = []) then m_data m = NULL /\ bs = [byte_of_Z (m_type m)]
    else conforms layout m = true /\ encode ml m layout = Ok bs.

Lemma consumes_readMessage ml : regular_table ml = true -> consumes (readMessage ml None) (accepted ml).
Proof.
  intros Hr. unfold readMessage. eapply consumes_bind; [apply consumes_getByte|]. intros t b [Ht ->].
  eapply (consumes_bind _ _ (fun o bs => bs = [] /\ match o with Some l => getMessageLayout ml t = Ok l | None => True end)).
  { destruct (STRUCT <? t); [|by apply consumes_ret].
    eapply (consumes_bind _ _ (fun l bs => bs = [] /\ getMessageLayout ml t = Ok l)).
    - apply consumes_lift. by intros.
    - intros l ? [-> Hl]. by apply consumes_ret. }
  intros [l|] ? [-> Hl]; [|apply consumes_throw]. destruct (getMessageLayout_find _ _ _ Hl) as [Hs [name Hf]].
  pose proof (find_type_regular _ _ _ _ Hr Hf) as Hreg. destruct l as [ty n cs].
  destruct (decide (cs = [])) as [->|Hcs].
  { apply consumes_ret. exists (Layout ty n []). cbn. by rewrite Hl. }
  destruct (regular_fields ml ty n cs Hreg) as [Hnd Hok]; [apply List.Forall_forall; intros it _; apply regular_canonical|]. eapply consumes_mono; [by apply consumes_children|].
  intros m bs F. exists (Layout ty n cs). rewrite (f_type _ _ _ _ _ F). cbn [m_type l_children].
  split; [done|]. rewrite decide_False by done. apply filled_struct; [done|lia|done].
Qed.

Lemma decode_accepted ml data len m : regular_table ml = true -> FBTCtlMessage_bin ml data len = Ok m ->
  exists bs rest, data = bs ++ rest /\ Z.of_nat (length bs) <= len /\ accepted ml m bs.
Proof.
  intros Hr Hm. unfold FBTCtlMessage_bin in Hm. destruct (readMessage ml None (mkReader data len 0)) as [o r'] eqn:E. cbn in Hm. subst o.
  assert (0 <= len) as Hlen.
  { destruct (Z.lt_ge_cases len 0) as [Hneg|]; [|done]. exfalso. unfold readMessage, mbind, M_bind, getByte in E.
    destruct (rd_peek 1 _); [|done]. cbn [rd_advance rd_len rd_pos] in E. by rewrite (proj2 (Z.ltb_lt len (0 + 1))) in E by lia. }
  destruct (consumes_readMessage ml Hr (mkReader data len 0) m r' ltac:(cbn; lia) E) as (bs & rest & Hd & -> & Hl & Ha).
  exists bs, rest. cbn in *. split_and!; [done|lia|done].
Qed.

(** the shipped table is regular *)
Lemma protocol_regular : regular_table protocol = true.
Proof. vm_compute. reflexivity. Qed.

(** C21: Whatever bytes arrive: a message the decoder accepts has a type
    of the table, and every field of that layout with the declared type, ints
    of 32 bit, strings and arrays within their length bytes, at every depth; a
    message without fields carries no data. *)
Theorem decode_typed ml data len m :
  regular_table ml = true -> FBTCtlMessage_bin ml data len = Ok m ->
  exists layout, getMessageLayout ml (m_type m) = Ok layout /\
    if decide (l_children layout = []) then m_data m = NULL else conforms layout m = true.
Proof.
  intros Hr Hm. destruct (decode_accepted _ _ _ _ Hr Hm) as (bs & rest & _ & _ & layout & Hl & Ha).
  exists layout. split; [done|]. destruct (decide _); by destruct Ha.
Qed.

(** C22: The encoding is canonical: the bytes the decoder consumed for an
    accepted message with fields are exactly the bytes [getBinaryMessage]
    writes for it, so two different messages never come from the same bytes
    and the server can repeat what it received. *)
Theorem decode_canonical ml data len m layout :
  regular_table ml = true -> FBTCtlMessage_bin ml data len = Ok m ->
  getMessageLayout ml (m_type m) = Ok layout -> l_children layout <> [] ->
  exists bs rest, data = bs ++ rest /\ Z.of_nat (length bs) <= len /\ getBinaryMessage ml m = Ok bs.
Proof.
  intros Hr Hm Hl Hcs. destruct (decode_accepted _ _ _ _ Hr Hm) as (bs & rest & Hd & Hlen & layout' & Hl' & Ha).
  rewrite Hl in Hl'. injection Hl' as <-. rewrite decide_False in Ha by done. exists bs, rest.
  split_and!; [done|done|]. unfold getBinaryMessage. rewrite Hl. by apply Ha.
Qed.

(** the bytes of a STATUS_REPLY *)
Definition reply_bytes : list byte := default [] (match getBinaryMessage protocol (sample_info []) with Ok bs => Some bs | Err _ => None end).

Lemma decode_typed_witness :
  exists layout, getMessageLayout protocol (m_type (sample_info [])) = Ok layout /\
    if decide (l_children layout = []) then m_data (sample_info []) = NULL else conforms layout (sample_info []) = true.
Proof.
  apply (decode_typed protocol reply_bytes (Z.of_nat (length reply_bytes)) (sample_info []));
    [apply protocol_regular|vm_compute; reflexivity].
Defined.

Lemma decode_canonical_witness :
  exists bs rest, reply_bytes = bs ++ rest /\ Z.of_nat (length bs) <= Z.of_nat (length reply_bytes) /\
    getBinaryMessage protocol (sample_info []) = Ok bs.
Proof.
  apply (decode_canonical protocol reply_bytes (Z.of_nat (length reply_bytes)) (sample_info []) sample_layout);
    [apply protocol_regular|vm_compute; reflexivity|vm_compute; reflexivity|discriminate].
Defined.
