(* ===== verification/Stream.v ===== *)
(** * The byte stream below the messages

    bluetoothserver/ClientStream.h (the interface), tcpclient.cpp with
    [myRead] of utils.cpp (the implementation over a socket), and the framing
    of CommThread.cpp ([sendMessage], [readMessage]) written against the
    interface. *)

From S2P Require Import Prelude StdMap CString MessageLayout Message.

(** ** The interface ([class ClientStream]) *)

Class ClientStream (S : Type) : Type := {
  isConnected : S -> bool;
  readSelect : Z -> M S unit;
  prepareMessage : M S unit;
  flushMessage : M S unit;
  (** [read(buf, count)]: the bytes stored into the buffer *)
  read : Z -> M S (list byte);
  write : list byte -> M S Z;
  close : M S unit;
}.

(** What a stream promises: bytes arrive in order ([inbox]) and leave in
    order ([outbox]); a read of bytes that arrive before anything goes wrong
    returns exactly them. *)
Class ClientStreamLaws (S : Type) `{ClientStream S} : Type := {
  inbox : S -> list byte;
  outbox : S -> list byte;
  (** a [readSelect] with this timeout ends before it when bytes arrive *)
  ready : Z -> S -> Prop;
  read_law s n bs rest :
    isConnected s = true -> inbox s = bs ++ rest -> Z.of_nat (length bs) = n -> n < 2^31 ->
    exists s', read n s = (Ok bs, s') /\ inbox s' = rest /\ outbox s' = outbox s /\
               isConnected s' = true /\ (forall t, ready t s -> ready t s');
  select_law s t :
    isConnected s = true -> ready t s -> inbox s <> [] ->
    exists s', readSelect t s = (Ok tt, s') /\ inbox s' = inbox s /\ outbox s' = outbox s /\
               isConnected s' = true /\ ready t s';
  write_law s bs :
    isConnected s = true ->
    exists s', write bs s = (Ok (Z.of_nat (length bs)), s') /\ outbox s' = outbox s ++ bs /\
               inbox s' = inbox s /\ isConnected s' = true;
  prepare_law s : exists s', prepareMessage s = (Ok tt, s') /\ outbox s' = outbox s /\
               inbox s' = inbox s /\ isConnected s' = isConnected s;
  flush_law s : exists s', flushMessage s = (Ok tt, s') /\ outbox s' = outbox s /\
               inbox s' = inbox s /\ isConnected s' = isConnected s;
}.

(** ** CommThread: framing *)

Definition MAX_MESSAGE_SIZE : Z := 10000.

Section CommThread.
Context {S : Type} `{ClientStream S} (ml : MessageLayouts) (timeout : Z).

(** [this->client] *)
Definition on_client {A} (c : M S A) : M (option S) A := fun client =>
  match client with
  | None => (Err (Throw "no client"), client)
  | Some s => let '(r, s) := c s in (r, Some s)
  end.

Definition check_connected : M S unit :=
  s ← get; if isConnected s then mret tt else throw "client not connected".

(** the results of [write] are not looked at *)
Definition sendMessage (msg : FBTCtlMessage) : M (option S) unit := on_client (
  check_connected;;
  binMsg ← lift (getBinaryMessage ml msg);
  prepareMessage;;
  write (le_bytes 4 (Z.of_nat (length binMsg)));;
  write binMsg;;
  flushMessage).

Definition comm_readSelect : M (option S) unit := on_client (readSelect timeout).
Definition comm_close : M (option S) unit := on_client close.

(** The buffer has exactly [msgsize] bytes. *)
Definition comm_readMessage : M (option S) FBTCtlMessage := on_client (
  check_connected;;
  readSelect timeout;;
  hdr ← read 4;
  if negb (Z.of_nat (length hdr) =? 4)
  then throw ("error reading cmd: " +:+ to_string (Z.of_nat (length hdr)))
  else
    let msgsize := wrap32 (le_value hdr) in
    if (msgsize <? 0) || (MAX_MESSAGE_SIZE <? msgsize) then throw "invalid size msgsize 2big"
    else
      readSelect timeout;;
      buffer ← read msgsize;
      if negb (Z.of_nat (length buffer) =? msgsize)
      then throw ("error reading cmd.data: " +:+ to_string (Z.of_nat (length buffer)))
      else lift (FBTCtlMessage_bin ml buffer msgsize)).

(** ** Framing is correct over every lawful stream *)

Context `{!ClientStreamLaws S}.

(** the bytes one message occupies on the stream *)
Definition frame (bs : list byte) : list byte := le_bytes 4 (Z.of_nat (length bs)) ++ bs.

Lemma sendMessage_frame msg bs s :
  isConnected s = true -> getBinaryMessage ml msg = Ok bs ->
  exists s', sendMessage msg (Some s) = (Ok tt, Some s') /\ outbox s' = outbox s ++ frame bs /\
             inbox s' = inbox s /\ isConnected s' = true.
Proof.
  intros C E. unfold sendMessage, on_client, check_connected, get, lift, mret, M_ret, mbind, M_bind.
  rewrite C, E. destruct (prepare_law s) as (s1 & -> & O1 & I1 & C1). rewrite C in C1.
  destruct (write_law s1 (le_bytes 4 (Z.of_nat (length bs))) C1) as (s2 & -> & O2 & I2 & C2).
  destruct (write_law s2 bs C2) as (s3 & -> & O3 & I3 & C3).
  destruct (flush_law s3) as (s4 & -> & O4 & I4 & C4). exists s4.
  unfold frame. rewrite app_assoc. split_and!; congruence.
Qed.

Lemma sendMessage_refused msg e s :
  isConnected s = true -> getBinaryMessage ml msg = Err e -> sendMessage msg (Some s) = (Err e, Some s).
Proof.
  intros C E. unfold sendMessage, on_client, check_connected, get, lift, mret, M_ret, mbind, M_bind.
  by rewrite C, E.
Qed.

Lemma is_frame_size n : 0 <= n <= MAX_MESSAGE_SIZE -> is_int32 n.
Proof. unfold is_int32, MAX_MESSAGE_SIZE. lia. Qed.

(** One frame at the head of the inbox is read and decoded, whatever follows
    it. *)
Lemma readMessage_frame s bs rest :
  isConnected s = true -> ready timeout s -> inbox s = frame bs ++ rest ->
  bs <> [] -> Z.of_nat (length bs) <= MAX_MESSAGE_SIZE ->
  exists s', comm_readMessage (Some s) = (FBTCtlMessage_bin ml bs (Z.of_nat (length bs)), Some s') /\
             inbox s' = rest /\ outbox s' = outbox s /\ isConnected s' = true /\ ready timeout s'.
Proof.
  intros C R I Hne Hmax. set (n := Z.of_nat (length bs)) in *.
  unfold comm_readMessage, on_client, check_connected, get, lift, mret, M_ret, mbind, M_bind.
  rewrite C. destruct (select_law s timeout C R) as (s0 & -> & I0 & O0 & C0 & R0); [by rewrite I|]. rewrite I in I0.
  destruct (read_law s0 4 (le_bytes 4 n) (bs ++ rest)) as (s1 & -> & I1 & O1 & C1 & R1);
    [done|by rewrite I0; unfold frame; rewrite <- app_assoc|by rewrite length_le_bytes|lia|].
  rewrite length_le_bytes. cbn [negb Z.eqb]. rewrite Z.eqb_refl. cbn [negb].
  rewrite int32_le_roundtrip by (apply is_frame_size; lia).
  destruct (Z.ltb_spec n 0); [lia|]. destruct (Z.ltb_spec MAX_MESSAGE_SIZE n); [lia|]. cbn [orb].
  destruct (select_law s1 timeout C1 (R1 _ R0)) as (s1' & -> & I1' & O1' & C1' & R1'); [rewrite I1; by destruct bs|]. rewrite I1 in I1'.
  destruct (read_law s1' n bs rest C1' I1' eq_refl ltac:(unfold MAX_MESSAGE_SIZE in *; lia)) as (s2 & -> & I2 & O2 & C2 & R2).
  fold n. rewrite Z.eqb_refl. exists s2. split_and!; [done|done|congruence|done|auto].
Qed.

(** ** Conversations *)

(** the message can be sent and its frame is not too long to be received *)
Definition sendable (m : FBTCtlMessage) : bool :=
  match getMessageLayout ml (m_type m) with
  | Ok l => conforms l m &&
      match getBinaryMessage ml m with
      | Ok bs => Z.of_nat (length bs) <=? MAX_MESSAGE_SIZE
      | Err _ => false
      end
  | Err _ => false
  end.

(** what arrives of it: the fields of its layout *)
Definition received (m : FBTCtlMessage) : FBTCtlMessage :=
  match getMessageLayout ml (m_type m) with Ok l => project l m | Err _ => m end.

Fixpoint receive_n (n : nat) : M (option S) (list FBTCtlMessage) :=
  match n with
  | O => mret []
  | Datatypes.S n' => m ← comm_readMessage; ms ← receive_n n'; mret (m :: ms)
  end.

Lemma sendable_frame m :
  sendable m = true ->
  exists bs, getBinaryMessage ml m = Ok bs /\ bs <> [] /\ Z.of_nat (length bs) <= MAX_MESSAGE_SIZE /\
    FBTCtlMessage_bin ml bs (Z.of_nat (length bs)) = Ok (received m).
Proof.
  unfold sendable, received. destruct (getMessageLayout ml (m_type m)) as [l|] eqn:L; [|done].
  intros [C B]%andb_true_iff. destruct (layout_roundtrips ml l m C) as (bs & E & _).
  unfold getBinaryMessage in *. rewrite L in *. cbn in *. rewrite E in *. exists bs.
  apply Z.leb_le in B. split_and!; [done| |done|].
  - intros ->. destruct m as [t d]. cbn [encode] in E. by apply outcome_bind_ok in E as (? & _ & ?).
  - rewrite <- (app_nil_r bs) at 1. by apply decode_encoded.
Qed.

(** [frames] is the concatenation of the frames of [ms] *)
Inductive framed : list FBTCtlMessage -> list byte -> Prop :=
  | framed_nil : framed [] []
  | framed_cons m ms bs w :
      bs <> [] -> Z.of_nat (length bs) <= MAX_MESSAGE_SIZE ->
      FBTCtlMessage_bin ml bs (Z.of_nat (length bs)) = Ok (received m) ->
      framed ms w -> framed (m :: ms) (frame bs ++ w).

Lemma receive_framed ms w r rest :
  framed ms w -> isConnected r = true -> ready timeout r -> inbox r = w ++ rest ->
  exists r', receive_n (length ms) (Some r) = (Ok (map received ms), Some r') /\
             inbox r' = rest /\ isConnected r' = true.
Proof.
  intros F. revert r. induction F as [|m ms bs w Hne Hmax Hdec _ IH]; intros r C R I.
  - by exists r.
  - rewrite <- app_assoc in I.
    destruct (readMessage_frame r bs (w ++ rest) C R I Hne Hmax) as (r1 & E & I1 & _ & C1 & R1).
    destruct (IH r1 C1 R1 I1) as (r2 & E2 & I2 & C2). exists r2.
    cbn [length receive_n map]. unfold mbind, M_bind. rewrite E, Hdec, E2. done.
Qed.

Lemma send_framed ms s :
  isConnected s = true -> forallb sendable ms = true ->
  exists s' w, iterM sendMessage ms (Some s) = (Ok tt, Some s') /\
    outbox s' = outbox s ++ w /\ inbox s' = inbox s /\ framed ms w.
Proof.
  revert s. induction ms as [|m ms IH]; intros s C Hs.
  - exists s, []. rewrite app_nil_r. split_and!; [done..|constructor].
  - cbn in Hs. apply andb_true_iff in Hs as [Hm Hs].
    destruct (sendable_frame m Hm) as (bs & E & Hne & Hmax & Hdec).
    destruct (sendMessage_frame m bs s C E) as (s1 & E1 & O1 & I1 & C1).
    destruct (IH s1 C1 Hs) as (s2 & w & E2 & O2 & I2 & F). exists s2, (frame bs ++ w).
    cbn [iterM]. unfold mbind, M_bind. rewrite E1, E2.
    split_and!; [done|by rewrite O2, O1, app_assoc|congruence|by constructor].
Qed.
End CommThread.

(** ** TCPClient over a socket *)

(** What the kernel delivers: data in pieces of its own choice, a pause longer
    than the timeout, a failure.  The list ends where the peer closes. *)
Inductive rx_event : Type :=
  | Data (b : byte) (l : list byte)
  | Pause
  | Failed.

Record TCPClient : Type := mkTCP {
  so : Z;
  rx : list rx_event;
  tx : list byte;
  corked : bool;
}.

Definition tcp_isConnected (c : TCPClient) : bool := 0 <=? so c.
Definition tcp_close : M TCPClient unit := modify (fun c => mkTCP (-1) (rx c) (tx c) (corked c)).
Definition set_cork (flag : bool) : M TCPClient unit :=
  modify (fun c => mkTCP (so c) (rx c) (tx c) flag).

(** [select] reports a closed or failed socket as readable *)
Definition tcp_readSelect (timeout : Z) : M TCPClient unit := fun c =>
  if so c <? 0 then (Err (Throw "error select"), c)
  else match rx c with
       | Pause :: rx' => (Err (Throw "timeout reading cmd"), mkTCP (so c) rx' (tx c) (corked c))
       | _ => (Ok tt, c)
       end.

(** [::read(so, buf, n)] on a blocking socket, [n > 0]: what has arrived, at
    most [n] bytes; [None] for a negative result *)
Fixpoint sys_read_rx (n : nat) (l : list rx_event) : option (list byte) * list rx_event :=
  match l with
  | [] => (Some [], [])
  | Data b d :: l' =>
      (Some (take n (b :: d)), match drop n (b :: d) with [] => l' | b' :: d' => Data b' d' :: l' end)
  | Pause :: l' => sys_read_rx n l'
  | Failed :: l' => (None, l')
  end.

Definition sys_read (n : nat) : M TCPClient (option (list byte)) := fun c =>
  if so c <? 0 then (Ok None, c)
  else let '(r, rx') := sys_read_rx n (rx c) in (Ok r, mkTCP (so c) rx' (tx c) (corked c)).

(** [myRead]; [acc] is the part of the buffer filled so far *)
Fixpoint myRead_loop (fuel : nat) (acc : list byte) (size : nat) : M TCPClient (list byte) :=
  if (length acc <? size)%nat then
    match fuel with
    | O => fail OutOfFuel
    | S f =>
        rc ← sys_read (size - length acc);
        match rc with
        | None => throw "error reading data"
        | Some [] => throw "nothing to read"
        | Some l => myRead_loop f (acc ++ l) size
        end
    end
  else mret acc.

(** every iteration stores a byte: [size] iterations are enough *)
Definition myRead (size : Z) : M TCPClient (list byte) :=
  myRead_loop (Z.to_nat size) [] (Z.to_nat size).

(** [TCPClient::read]: closes the socket when [myRead] throws *)
Definition tcp_read (count : Z) : M TCPClient (list byte) := fun c =>
  match myRead count c with
  | (Ok l, c') => (Ok l, c')
  | (Err e, c') => (Err e, (tcp_close c').2)
  end.

(** [::write] on a blocking socket takes everything *)
Definition tcp_write (buf : list byte) : M TCPClient Z := fun c =>
  if so c <? 0 then (Ok (-1), c)
  else (Ok (Z.of_nat (length buf)), mkTCP (so c) (rx c) (tx c ++ buf) (corked c)).

#[export] Instance TCPClient_stream : ClientStream TCPClient := {
  isConnected := tcp_isConnected;
  readSelect := tcp_readSelect;
  prepareMessage := set_cork true;
  flushMessage := set_cork false;
  read := tcp_read;
  write := tcp_write;
  close := tcp_close;
}.

(** the bytes that arrive before a failure *)
Fixpoint rx_bytes (l : list rx_event) : list byte :=
  match l with
  | [] => []
  | Data b d :: l' => b :: d ++ rx_bytes l'
  | Pause :: l' => rx_bytes l'
  | Failed :: _ => []
  end.

Fixpoint rx_ready (l : list rx_event) : Prop :=
  match l with
  | [] | Failed :: _ => True
  | Data _ _ :: l' => rx_ready l'
  | Pause :: _ => False
  end.

Lemma sys_read_rx_spec n l :
  (0 < n)%nat -> rx_bytes l <> [] ->
  exists d l', sys_read_rx n l = (Some d, l') /\ d <> [] /\ (length d <= n)%nat /\
    rx_bytes l = d ++ rx_bytes l' /\ (rx_ready l -> rx_ready l').
Proof.
  intros Hn. induction l as [|[b d| |] l IH]; intros Hne; try done.
  - exists (take n (b :: d)). eexists. split; [reflexivity|]. split_and!.
    + destruct n; [lia|done].
    + rewrite length_take. lia.
    + change (rx_bytes (Data b d :: l)) with ((b :: d) ++ rx_bytes l).
      rewrite <- (take_drop n (b :: d)) at 1. rewrite <- app_assoc. f_equal.
      by destruct (drop n (b :: d)).
    + by destruct (drop n (b :: d)).
  - destruct (IH Hne) as (d & l' & E & H1 & H2 & H3 & _). exists d, l'. cbn. done.
Qed.

Lemma myRead_loop_spec fuel acc size c bs rest :
  0 <= so c -> (length acc + length bs = size)%nat -> (length bs <= fuel)%nat ->
  rx_bytes (rx c) = bs ++ rest ->
  exists c', myRead_loop fuel acc size c = (Ok (acc ++ bs), c') /\ rx_bytes (rx c') = rest /\
    so c' = so c /\ tx c' = tx c /\ (rx_ready (rx c) -> rx_ready (rx c')).
Proof.
  revert acc bs c. induction fuel as [|fuel IH]; intros acc bs c Hso Hsize Hf Hrx; cbn [myRead_loop];
    (destruct (Nat.ltb_spec (length acc) size) as [Hlt|Hlt];
     [|destruct bs; cbn in *; [exists c; by rewrite app_nil_r|lia]]); [lia|].
  destruct (sys_read_rx_spec (size - length acc) (rx c)) as (d & l' & E & Hne & Hle & Hb & Hr);
    [lia|rewrite Hrx; destruct bs; cbn in *; [lia|done]|].
  unfold mbind, M_bind, sys_read. destruct (Z.ltb_spec (so c) 0); [lia|]. rewrite E.
  destruct d as [|b d]; [done|].
  assert (exists bs', bs = (b :: d) ++ bs') as [bs' Hsplit].
  { rewrite Hrx in Hb. apply (f_equal (take (length bs))) in Hb.
    rewrite take_app_length in Hb. rewrite take_app_ge in Hb by lia. by eexists. }
  assert (length bs = length (b :: d) + length bs')%nat as Hlen by (rewrite Hsplit; apply length_app).
  destruct (IH (acc ++ b :: d) bs' (mkTCP (so c) l' (tx c) (corked c))) as (c' & E' & H1 & H2 & H3 & H4);
    [done|rewrite length_app; lia|cbn in *; lia| |].
  { cbn [rx]. rewrite Hrx, Hsplit, <- app_assoc in Hb. by apply app_inv_head in Hb. }
  exists c'. rewrite E', <- app_assoc, <- Hsplit. cbn in *. split_and!; auto.
Qed.

(** However the kernel cuts the incoming bytes into pieces, [myRead] returns
    the first [size] of them and leaves the rest. *)
Lemma myRead_spec size c bs rest :
  0 <= so c -> rx_bytes (rx c) = bs ++ rest -> Z.of_nat (length bs) = size ->
  exists c', myRead size c = (Ok bs, c') /\ rx_bytes (rx c') = rest /\
    so c' = so c /\ tx c' = tx c /\ (rx_ready (rx c) -> rx_ready (rx c')).
Proof.
  intros Hso Hrx <-. unfold myRead. rewrite Nat2Z.id. by apply (myRead_loop_spec _ []).
Qed.

#[export] Program Instance TCPClient_laws : ClientStreamLaws TCPClient := {
  inbox c := rx_bytes (rx c);
  outbox := tx;
  ready _ c := rx_ready (rx c);
}.
Next Obligation.
  intros s n bs rest C I L _. cbn in *. apply Z.leb_le in C.
  destruct (myRead_spec n s bs rest C I L) as (c' & E & H1 & H2 & H3 & H4). exists c'.
  unfold tcp_read, tcp_isConnected. rewrite E, H2. split_and!; [done..| |done]. by apply Z.leb_le.
Qed.
Next Obligation.
  intros s t C R I. cbn in *. apply Z.leb_le in C. unfold tcp_readSelect.
  exists s. destruct (Z.ltb_spec (so s) 0); [lia|]. apply Z.leb_le in C. by destruct (rx s) as [|[] ?].
Qed.
Next Obligation.
  intros s bs C. cbn in *. apply Z.leb_le in C. unfold tcp_write, tcp_isConnected.
  destruct (Z.ltb_spec (so s) 0); [lia|]. eexists. split_and!; [done..|]. by apply Z.leb_le.
Qed.
Next Obligation. intros s. by eexists. Qed.
Next Obligation. intros s. by eexists. Qed.

(** ** Properties *)

Lemma myRead_loop_short fuel acc size c :
  0 <= so c -> (length acc + length (rx_bytes (rx c)) < size)%nat ->
  (size - length acc <= fuel)%nat ->
  exists w c', myRead_loop fuel acc size c = (Err (Throw w), c') /\ tx c' = tx c.
Proof.
  revert acc c. induction fuel as [|fuel IH]; intros acc c Hso Hs Hf; [lia|]. cbn [myRead_loop].
  destruct (Nat.ltb_spec (length acc) size); [|lia].
  unfold mbind, M_bind, sys_read. destruct (Z.ltb_spec (so c) 0); [lia|].
  destruct (decide (rx_bytes (rx c) = [])) as [E|Hne].
  - assert (exists l', sys_read_rx (size - length acc) (rx c) = (None, l') \/
                       sys_read_rx (size - length acc) (rx c) = (Some [], l')) as [l' El].
    { clear -E. induction (rx c) as [|[]]; cbn in *; eauto; done. }
    destruct El as [-> | ->]; by eexists _, _.
  - destruct (sys_read_rx_spec (size - length acc) (rx c)) as (d & l' & -> & Hd & Hle & Hb & _); [lia|done|].
    destruct d as [|b d]; [done|]. apply (f_equal length) in Hb. rewrite length_app in Hb. cbn [length] in *.
    apply (IH _ (mkTCP (so c) l' (tx c) (corked c))); [done| |]; rewrite length_app; cbn in *; lia.
Qed.

(** The way the kernel cuts the stream into pieces, and pauses in between,
    cannot be observed: two sockets that deliver the same bytes give the same
    result for every read they can serve, and continue with the same bytes. *)
Theorem read_independent_of_pieces n c1 c2 :
  tcp_isConnected c1 = true -> tcp_isConnected c2 = true ->
  rx_bytes (rx c1) = rx_bytes (rx c2) -> 0 <= n <= Z.of_nat (length (rx_bytes (rx c1))) ->
  (tcp_read n c1).1 = Ok (take (Z.to_nat n) (rx_bytes (rx c1))) /\
  (tcp_read n c2).1 = (tcp_read n c1).1 /\
  rx_bytes (rx (tcp_read n c1).2) = rx_bytes (rx (tcp_read n c2).2).
Proof.
  intros C1 C2 E Hn. apply Z.leb_le in C1, C2.
  pose proof (take_drop (Z.to_nat n) (rx_bytes (rx c1))) as Hs. symmetry in Hs.
  assert (Z.of_nat (length (take (Z.to_nat n) (rx_bytes (rx c1)))) = n) as Hl by (rewrite length_take; lia).
  destruct (myRead_spec n c1 _ _ C1 Hs Hl) as (c1' & E1 & R1 & _). rewrite E in Hs at 1.
  destruct (myRead_spec n c2 _ _ C2 Hs Hl) as (c2' & E2 & R2 & _).
  unfold tcp_read. rewrite E1, E2. cbn. by rewrite R1, R2.
Qed.

Definition sample_bytes : list byte := map byte_of_Z [1; 2; 3; 4; 5].
Definition sample_socket (l : list rx_event) : TCPClient := mkTCP 7 l [] false.

Lemma read_independent_of_pieces_witness :
  (tcp_read 4 (sample_socket [Data (byte_of_Z 1) (map byte_of_Z [2]); Pause;
                              Data (byte_of_Z 3) (map byte_of_Z [4; 5])])).1 =
  (tcp_read 4 (sample_socket [Data (byte_of_Z 1) (map byte_of_Z [2; 3; 4; 5])])).1.
Proof.
  apply (read_independent_of_pieces 4 (sample_socket [Data (byte_of_Z 1) (map byte_of_Z [2; 3; 4; 5])])
    (sample_socket [Data (byte_of_Z 1) (map byte_of_Z [2]); Pause;
                    Data (byte_of_Z 3) (map byte_of_Z [4; 5])])); try reflexivity.
  cbn. lia.
Defined.

(** When the peer closes or the socket fails before enough bytes arrived, the
    read ends with an exception and the connection is closed: every later
    message is refused with "client not connected". *)
Theorem short_read_disconnects ml timeout n c :
  tcp_isConnected c = true -> Z.of_nat (length (rx_bytes (rx c))) < n ->
  exists w c', tcp_read n c = (Err (Throw w), c') /\ tcp_isConnected c' = false /\
    (comm_readMessage ml timeout (Some c')).1 = Err (Throw "client not connected") /\
    forall m, (sendMessage ml m (Some c')).1 = Err (Throw "client not connected").
Proof.
  intros C Hn. apply Z.leb_le in C.
  destruct (myRead_loop_short (Z.to_nat n) [] (Z.to_nat n) c C) as (w & c' & E & _); [cbn; lia|cbn; lia|].
  exists w, (tcp_close c').2. unfold tcp_read, myRead. rewrite E. done.
Qed.

Lemma short_read_disconnects_witness :
  exists w c', tcp_read 4 (sample_socket [Data (byte_of_Z 1) []; Failed]) = (Err (Throw w), c') /\
    tcp_isConnected c' = false /\
    (comm_readMessage protocol 10 (Some c')).1 = Err (Throw "client not connected") /\
    forall m, (sendMessage protocol m (Some c')).1 = Err (Throw "client not connected").
Proof.
  apply (short_read_disconnects protocol 10 4 (sample_socket [Data (byte_of_Z 1) []; Failed]));
    [reflexivity|cbn; lia].
Defined.

(** C7: Messages that conform to their layouts and take at most 10000 bytes
    each (the sender does not check that, the receiver does), sent one after the
    other, arrive one by one and in order, over every pair of streams that keep
    their promises.  What arrives of each is its fields that the layout names;
    of a message with exactly these fields it is the whole message. *)
Theorem conversation_delivered {S R} `{ClientStreamLaws S} `{ClientStreamLaws R} ml timeout ms (s : S) :
  isConnected s = true -> forallb (sendable ml) ms = true ->
  exists s' w, iterM (sendMessage ml) ms (Some s) = (Ok tt, Some s') /\ outbox s' = outbox s ++ w /\
    (forall (r : R) rest, isConnected r = true -> ready timeout r -> inbox r = w ++ rest ->
      exists r', receive_n ml timeout (length ms) (Some r) = (Ok (map (received ml) ms), Some r') /\
                 inbox r' = rest) /\
    Forall (fun m => exists l, getMessageLayout ml (m_type m) = Ok l /\ received ml m = project l m /\
                       (exact l m = true -> received ml m = blank m)) ms.
Proof.
  intros C Hs. destruct (send_framed ml ms s C Hs) as (s' & w & E & O & _ & F).
  exists s', w. split_and!; [done..| |].
  - intros r rest Cr Rr I. destruct (receive_framed ml timeout ms w r rest F Cr Rr I) as (r' & Er & Ir & _). eauto.
  - apply Forall_forall. intros m Hm. rewrite forallb_forall in Hs. specialize (Hs m Hm). unfold sendable, received in *.
    destruct (getMessageLayout ml (m_type m)) as [l|]; [|done]. apply andb_true_iff in Hs as [Hc _].
    exists l. split_and!; [done..|]. by apply project_blank.
Qed.

(** a PING and a status reply *)
Definition sample_conversation : list FBTCtlMessage := [Msg 7 (data_struct_t []); sample_info []].

Lemma conversation_delivered_witness :
  exists s' w, iterM (sendMessage protocol) sample_conversation (Some (sample_socket [])) =
      (Ok tt, Some s') /\ outbox s' = outbox (sample_socket []) ++ w /\
    (forall (r : TCPClient) rest, isConnected r = true -> ready 10 r -> inbox r = w ++ rest ->
      exists r', receive_n protocol 10 2 (Some r) =
        (Ok (map (received protocol) sample_conversation), Some r') /\ inbox r' = rest) /\
    Forall (fun m => exists l, getMessageLayout protocol (m_type m) = Ok l /\ received protocol m = project l m /\
                       (exact l m = true -> received protocol m = blank m)) sample_conversation.
Proof.
  apply (conversation_delivered protocol 10 sample_conversation (sample_socket []));
    vm_compute; reflexivity.
Defined.

(** A size field outside 0..10000 ends the reading with an exception before a
    buffer of that size is made; only the four size bytes are consumed. *)
Theorem oversized_frame_refused {S} `{ClientStreamLaws S} ml timeout (s : S) n rest :
  isConnected s = true -> ready timeout s -> is_int32 n -> n < 0 \/ MAX_MESSAGE_SIZE < n ->
  inbox s = le_bytes 4 n ++ rest ->
  exists s', comm_readMessage ml timeout (Some s) = (Err (Throw "invalid size msgsize 2big"), Some s') /\
             inbox s' = rest.
Proof.
  intros C R Hi Hn I.
  unfold comm_readMessage, on_client, check_connected, get, lift, mret, M_ret, mbind, M_bind.
  rewrite C. destruct (select_law s timeout C R) as (s0 & -> & I0 & _ & C0 & _); [by rewrite I|]. rewrite I in I0.
  destruct (read_law s0 4 (le_bytes 4 n) rest C0 I0) as (s1 & -> & I1 & _); [by rewrite length_le_bytes|lia|].
  rewrite length_le_bytes. cbn [negb Z.eqb]. rewrite Z.eqb_refl, int32_le_roundtrip by done. cbn [negb].
  exists s1. destruct (Z.ltb_spec n 0), (Z.ltb_spec MAX_MESSAGE_SIZE n); try done. lia.
Qed.

Lemma oversized_frame_refused_witness :
  exists s', comm_readMessage protocol 10 (Some (sample_socket [Data (byte_of_Z 17) (map byte_of_Z [39; 0; 0; 5])])) =
      (Err (Throw "invalid size msgsize 2big"), Some s') /\ inbox s' = [byte_of_Z 5].
Proof.
  apply (oversized_frame_refused protocol 10 _ 10001 [byte_of_Z 5]); try reflexivity.
  - by split.
  - by right.
Defined.

(** The sender does not look at the size: a message of more than 10000 bytes
    (a GETIMAGE_REPLY with a large image) is sent, and the other side gives up
    at its size field, in the middle of the stream. *)
Theorem long_message_lost {S R} `{ClientStreamLaws S} `{ClientStreamLaws R} ml timeout m bs (s : S) :
  isConnected s = true -> getBinaryMessage ml m = Ok bs -> MAX_MESSAGE_SIZE < Z.of_nat (length bs) < 2^31 ->
  exists s', sendMessage ml m (Some s) = (Ok tt, Some s') /\ outbox s' = outbox s ++ frame bs /\
    forall (r : R) rest, isConnected r = true -> ready timeout r -> inbox r = frame bs ++ rest ->
      exists r', comm_readMessage ml timeout (Some r) = (Err (Throw "invalid size msgsize 2big"), Some r') /\
                 inbox r' = bs ++ rest.
Proof.
  intros C E Hl. destruct (sendMessage_frame ml m bs s C E) as (s' & Es & O & _ & _). exists s'. split_and!; [done..|].
  intros r rest Cr Rr I. unfold MAX_MESSAGE_SIZE in Hl. unfold frame in I. rewrite <- app_assoc in I.
  apply (oversized_frame_refused ml timeout r (Z.of_nat (length bs)) (bs ++ rest)); try done.
  - unfold is_int32. lia.
  - right. unfold MAX_MESSAGE_SIZE. lia.
Qed.

(** an image of 10000 letters *)
Definition large_image : FBTCtlMessage := Msg 29 (data_struct_t [("img", FBTCtlMessage_string (letters 10000))]).

Lemma long_message_lost_witness :
  exists bs s', sendMessage protocol large_image (Some (sample_socket [])) = (Ok tt, Some s') /\
    outbox s' = outbox (sample_socket []) ++ frame bs /\
    forall (r : TCPClient) rest, isConnected r = true -> ready 10 r -> inbox r = frame bs ++ rest ->
      exists r', comm_readMessage protocol 10 (Some r) = (Err (Throw "invalid size msgsize 2big"), Some r') /\
                 inbox r' = bs ++ rest.
Proof.
  assert (match getBinaryMessage protocol large_image with
    | Ok bs => Z.of_nat (length bs) =? 10004 | Err _ => false end = true) as El by (vm_compute; reflexivity).
  destruct (getBinaryMessage protocol large_image) as [bs|] eqn:E; [|discriminate El]. apply Z.eqb_eq in El.
  exists bs. apply (long_message_lost protocol 10 large_image bs (sample_socket [])); [reflexivity|exact E|].
  unfold MAX_MESSAGE_SIZE. lia.
Defined.
