(* ===== verification/StreamESP32.v ===== *)
(** * The byte streams of the ESP32

    esp32-server/btcontrol/tcpclient.cpp over the WiFiClient of the Arduino
    library, which is a class with laws here, and control-esp32/src/BTClient.cpp
    over the receive queue of BluetoothSerial.cpp.  Both are instances of
    [ClientStream], so the framing and its theorems apply to them. *)

From S2P Require Import Prelude StdMap CString MessageLayout Message Stream.

(** ** tcpclient.cpp *)

(** what [select] and the two [getsockopt] of [readSelect] answer *)
Inductive select_result : Type :=
  | SelectError
  | SelectTimeout
  | SelectReady (getsockopt_ok : bool) (sockerr : Z).

(** WiFiClient and the socket below it.  [wc_read n] is [read(buf, n)]: the
    result and the bytes stored. *)
Class WiFiClient (W : Type) : Type := {
  wc_connected : W -> bool;
  wc_available : W -> Z;
  wc_select : Z -> W -> select_result * W;
  wc_read : Z -> W -> Z * list byte * W;
  wc_write : list byte -> W -> Z * W;
  wc_stop : W -> W;
}.

(** The library keeps the bytes that have arrived in a buffer: [available] is
    their number and [read] delivers some of them, at most as many as asked
    for, without waiting; nothing gets lost on the way out.  More bytes can
    arrive during every call: [wc_meanwhile] are those that come in until the
    program waits in [select] the next time, of which no law says anything. *)
Class WiFiClientLaws (W : Type) `{WiFiClient W} : Type := {
  wc_arrived : W -> list byte;
  wc_meanwhile : W -> list byte;
  wc_sent : W -> list byte;
  wc_available_law w : wc_available w = Z.of_nat (length (wc_arrived w));
  wc_read_law w n : wc_connected w = true -> 0 < n -> wc_arrived w <> [] ->
    exists d rest more w', wc_read n w = (Z.of_nat (length d), d, w') /\ d <> [] /\ Z.of_nat (length d) <= n /\
      wc_arrived w = d ++ rest /\ wc_arrived w' = rest ++ more /\ wc_meanwhile w = more ++ wc_meanwhile w' /\
      wc_sent w' = wc_sent w /\ wc_connected w' = true;
  wc_read_empty w n : wc_connected w = true -> 0 < n -> wc_arrived w = [] -> (wc_read n w).1.1 <= 0;
  wc_write_law w bs : wc_connected w = true ->
    exists more w', wc_write bs w = (Z.of_nat (length bs), w') /\ wc_sent w' = wc_sent w ++ bs /\
      wc_arrived w' = wc_arrived w ++ more /\ wc_meanwhile w = more ++ wc_meanwhile w' /\ wc_connected w' = true;
}.

Section TCPClient_esp.
Context {W : Type} `{WiFiClient W}.

(** [TCPClient::readSelect] *)
Definition wifi_readSelect (timeout : Z) : M W unit := fun w =>
  if negb (wc_connected w) then (Err (Throw "client not connected"), w)
  else if negb (wc_available w =? 0) then (Ok tt, w)
  else let '(r, w') := wc_select timeout w in
       (match r with
        | SelectError => Err (Throw "select error")
        | SelectTimeout => Err (Throw "timeout reading cmd")
        | SelectReady false _ => Err (Throw "getsockopt error")
        | SelectReady true sockerr => if sockerr =? 0 then Ok tt else Err (Throw "socket error")
        end, w').

(** [TCPClient::read]; [acc] is the part of the buffer filled so far *)
Fixpoint wifi_read_loop (fuel : nat) (acc : list byte) (count : Z) : M W (list byte) := fun w =>
  if Z.of_nat (length acc) <? wrap32 count then
    match fuel with
    | O => (Err OutOfFuel, w)
    | S f =>
        let '(rc, d, w') := wc_read (count - Z.of_nat (length acc)) w in
        if rc <? 0 then (Err (Throw "error reading data"), w')
        else if rc =? 0 then (Err (Throw "empty buffer - nothing to read"), w')
        else wifi_read_loop f (acc ++ d) count w'
    end
  else (Ok acc, w).
(** every round stores a byte *)
Definition wifi_read (count : Z) : M W (list byte) := wifi_read_loop (Z.to_nat count) [] count.

Definition wifi_write (buf : list byte) : M W Z := fun w => let '(n, w') := wc_write buf w in (Ok n, w').

#[export] Instance WiFiClient_stream : ClientStream W := {
  isConnected := wc_connected;
  readSelect := wifi_readSelect;
  prepareMessage := mret tt;
  flushMessage := mret tt;
  read := wifi_read;
  write := wifi_write;
  close := modify wc_stop;
}.

Context `{!WiFiClientLaws W}.

(** a read of bytes that have arrived, whatever pieces the library delivers and
    whatever comes in meanwhile *)
Lemma wifi_read_loop_spec fuel acc count w bs rest :
  0 <= count < 2^31 -> wc_connected w = true -> wc_arrived w = bs ++ rest ->
  Z.of_nat (length acc + length bs) = count -> (length bs <= fuel)%nat ->
  exists more w', wifi_read_loop fuel acc count w = (Ok (acc ++ bs), w') /\ wc_arrived w' = rest ++ more /\
    wc_meanwhile w = more ++ wc_meanwhile w' /\ wc_sent w' = wc_sent w /\ wc_connected w' = true.
Proof.
  intros Hc. assert (wrap32 count = count) as Hw by (apply wrap32_id; unfold is_int32; lia).
  revert acc bs rest w. induction fuel as [|fuel IH]; intros acc bs rest w C A L F; cbn [wifi_read_loop]; rewrite Hw;
    (destruct (Z.ltb_spec (Z.of_nat (length acc)) count) as [Hlt|Hge];
     [|destruct bs; cbn in *; [exists [], w; by rewrite !app_nil_r|lia]]); [destruct bs; cbn in *; lia|].
  destruct (wc_read_law w (count - Z.of_nat (length acc)) C) as (d & r & more & w' & -> & Hd & Hle & Hsplit & A' & M' & S' & C');
    [lia|rewrite A; destruct bs; cbn in *; [lia|done]|].
  destruct (Z.ltb_spec (Z.of_nat (length d)) 0); [lia|]. destruct (Z.eqb_spec (Z.of_nat (length d)) 0); [by destruct d|].
  assert (exists bs', bs = d ++ bs') as [bs' ->].
  { rewrite A in Hsplit. apply (f_equal (take (length bs))) in Hsplit.
    rewrite take_app_length, take_app_ge in Hsplit by lia. by eexists. }
  assert (0 < length d)%nat by (destruct d; [done|cbn; lia]). rewrite length_app in L, F.
  rewrite A, <- app_assoc in Hsplit. apply app_inv_head in Hsplit. subst r. rewrite <- app_assoc in A'.
  destruct (IH (acc ++ d) bs' (rest ++ more) w' C' A') as (more2 & w2 & E & A2 & M2 & S2 & C2); [rewrite length_app; lia|lia|].
  exists (more ++ more2), w2. rewrite E, A2, M', M2, !app_assoc. split_and!; congruence.
Qed.

(** a read of more than comes in gives up, however much is on its way *)
Lemma wifi_read_loop_short fuel acc count w :
  0 <= count < 2^31 -> wc_connected w = true ->
  Z.of_nat (length acc + length (wc_arrived w) + length (wc_meanwhile w)) < count ->
  count - Z.of_nat (length acc) <= Z.of_nat fuel ->
  exists e w', wifi_read_loop fuel acc count w = (Err (Throw e), w').
Proof.
  intros Hc. assert (wrap32 count = count) as Hw by (apply wrap32_id; unfold is_int32; lia).
  revert acc w. induction fuel as [|fuel IH]; intros acc w C L F; [lia|]. cbn [wifi_read_loop]. rewrite Hw.
  destruct (Z.ltb_spec (Z.of_nat (length acc)) count); [|lia].
  destruct (decide (wc_arrived w = [])) as [E|Hne].
  - pose proof (wc_read_empty w (count - Z.of_nat (length acc)) C ltac:(lia) E) as Hr.
    destruct (wc_read _ w) as [[rc d] w']. cbn in Hr.
    destruct (Z.ltb_spec rc 0); [by eexists _, _|]. destruct (Z.eqb_spec rc 0); [by eexists _, _|lia].
  - destruct (wc_read_law w (count - Z.of_nat (length acc)) C)
      as (d & r & more & w' & -> & Hd & Hle & Hsplit & A' & M' & _ & C'); [lia|done|].
    destruct (Z.ltb_spec (Z.of_nat (length d)) 0); [lia|]. destruct (Z.eqb_spec (Z.of_nat (length d)) 0); [by destruct d|].
    assert (0 < length d)%nat by (destruct d; [done|cbn; lia]). rewrite Hsplit, M', !length_app in L.
    apply IH; [done| |]; rewrite ?A', ?length_app; lia.
Qed.

Lemma wifi_select_arrived timeout w :
  wc_connected w = true -> wc_arrived w <> [] -> wifi_readSelect timeout w = (Ok tt, w).
Proof.
  intros C A. unfold wifi_readSelect. rewrite C, wc_available_law. cbn [negb].
  destruct (Z.eqb_spec (Z.of_nat (length (wc_arrived w))) 0); [by destruct (wc_arrived w)|done].
Qed.

(** the header of a frame that has arrived is read, and the reading of the
    body starts *)
Lemma wifi_header_read ml timeout w n part :
  wc_connected w = true -> 0 <= n <= MAX_MESSAGE_SIZE -> part <> [] -> wc_arrived w = le_bytes 4 n ++ part ->
  exists more w1, comm_readMessage ml timeout (Some w) =
      on_client (buffer ← wifi_read n;
        if negb (Z.of_nat (length buffer) =? n) then throw ("error reading cmd.data: " +:+ to_string (Z.of_nat (length buffer)))
        else lift (FBTCtlMessage_bin ml buffer n)) (Some w1) /\
    wc_arrived w1 = part ++ more /\ wc_meanwhile w = more ++ wc_meanwhile w1 /\ wc_connected w1 = true.
Proof.
  intros C Hn Hp A. unfold comm_readMessage, on_client, check_connected, get, lift, mret, M_ret, mbind, M_bind.
  cbn [isConnected readSelect read WiFiClient_stream]. rewrite C, wifi_select_arrived by (done || by rewrite A).
  destruct (wifi_read_loop_spec (Z.to_nat 4) [] 4 w (le_bytes 4 n) part ltac:(lia) C A) as (more & w1 & E1 & A1 & M1 & _ & C1);
    [by rewrite length_le_bytes|by rewrite length_le_bytes|].
  exists more, w1. split; [|done]. unfold wifi_read at 1. rewrite E1, app_nil_l, length_le_bytes. cbn [negb Z.eqb].
  rewrite Z.eqb_refl, int32_le_roundtrip by (by apply is_frame_size). cbn [negb].
  destruct (Z.ltb_spec n 0); [lia|]. destruct (Z.ltb_spec MAX_MESSAGE_SIZE n); [lia|]. cbn [orb].
  rewrite wifi_select_arrived; [done|done|]. rewrite A1. by destruct part.
Qed.

(** A stream in the sense of [ClientStream] has its bytes in order from the
    beginning; a WiFiClient is one as long as nothing comes in between the
    calls. *)
Class WiFiQuiet : Prop := { wc_quiet w : wc_meanwhile w = [] }.

#[export] Program Instance WiFiClient_stream_laws `{!WiFiQuiet} : ClientStreamLaws W := {
  inbox := wc_arrived;
  outbox := wc_sent;
  ready _ _ := True;
}.
Next Obligation.
  intros Q s n bs rest C I L Hn. cbn in *.
  destruct (wifi_read_loop_spec (Z.to_nat n) [] n s bs rest ltac:(lia) C I) as (more & w' & E & A & M' & S & C'); [cbn; lia|lia|].
  rewrite !wc_quiet, app_nil_r in M'. subst more. rewrite app_nil_r in A.
  exists w'. unfold wifi_read. rewrite E. by split_and!.
Qed.
Next Obligation. intros Q s t C _ I. cbn in *. exists s. by rewrite wifi_select_arrived. Qed.
Next Obligation.
  intros Q s bs C. cbn in *. destruct (wc_write_law s bs C) as (more & w' & E & S & A & M' & C').
  rewrite !wc_quiet, app_nil_r in M'. subst more. rewrite app_nil_r in A. exists w'. unfold wifi_write. by rewrite E.
Qed.
Next Obligation. intros Q s. by exists s. Qed.
Next Obligation. intros Q s. by exists s. Qed.
End TCPClient_esp.

(** ** BTClient.cpp *)

(** The receive queue of BluetoothSerial.cpp: every byte with the time in
    milliseconds that passes before it is in the queue, counted from the byte
    before it or from the last look.  [bt_now] is the time since the start;
    [millis()] shows it in 32 bit. *)
Record BTClient : Type := mkBT {
  spp_client : bool;
  bt_rx : list (Z * byte);
  bt_tx : list byte;
  bt_now : Z;
  bt_timeout : Z;
}.

Definition millis (c : BTClient) : Z := bt_now c mod 2^32.
Definition bt_setTimeout (ms : Z) : M BTClient unit :=
  modify (fun c => mkBT (spp_client c) (bt_rx c) (bt_tx c) (bt_now c) ms).

(** [xQueueReceive] and [xQueuePeek] with the timeout *)
Definition queue_wait (keep : bool) : M BTClient (option byte) := fun c =>
  match bt_rx c with
  | (w, b) :: rx =>
      if w <=? bt_timeout c
      then (Ok (Some b), mkBT (spp_client c) (if keep then (0, b) :: rx else rx) (bt_tx c) (bt_now c + w) (bt_timeout c))
      else (Ok None, mkBT (spp_client c) ((w - bt_timeout c, b) :: rx) (bt_tx c) (bt_now c + bt_timeout c) (bt_timeout c))
  | [] => (Ok None, mkBT (spp_client c) [] (bt_tx c) (bt_now c + bt_timeout c) (bt_timeout c))
  end.

(** [BTClient::readSelect]; a number of milliseconds that does not fit into an
    [int] is an overflow *)
Definition bt_readSelect (timeout : Z) : M BTClient unit :=
  if negb (int32b (timeout * 1000)) then fail (UB "signed overflow")
  else
    bt_setTimeout (timeout * 1000);;
    c ← queue_wait true;
    match c with Some _ => mret tt | None => throw "timeout/error in readSelect" end.

(** [BTClient::read]: [startTime] is a [long] of 32 bit, the comparison is
    unsigned *)
Fixpoint bt_read_loop (n : nat) (startTime : Z) : M BTClient (list byte) :=
  match n with
  | O => mret []
  | S n' =>
      c ← get;
      if negb (int32b (startTime + 2000)) then fail (UB "signed overflow")
      else if (startTime + 2000) mod 2^32 <? millis c then throw "::read timeout"
      else
        bt_setTimeout 2000;;
        b ← queue_wait false;
        match b with
        | Some b => rest ← bt_read_loop n' startTime; mret (b :: rest)
        | None => throw "::read failed"
        end
  end.
Definition bt_read (count : Z) : M BTClient (list byte) :=
  c ← get; bt_read_loop (Z.to_nat count) (wrap32 (millis c)).

Definition bt_write (buf : list byte) : M BTClient Z := fun c =>
  if spp_client c then (Ok (Z.of_nat (length buf)), mkBT true (bt_rx c) (bt_tx c ++ buf) (bt_now c) (bt_timeout c))
  else (Ok 0, c).
Definition bt_close : M BTClient unit := modify (fun c => mkBT false (bt_rx c) (bt_tx c) (bt_now c) (bt_timeout c)).

#[export] Instance BTClient_stream : ClientStream BTClient := {
  isConnected := spp_client;
  readSelect := bt_readSelect;
  prepareMessage := mret tt;
  flushMessage := mret tt;
  read := bt_read;
  write := bt_write;
  close := bt_close;
}.

(** the waits are not negative, and the clock is in the first 24 days *)
Definition bt_ok (c : BTClient) : Prop := Forall (fun wb => 0 <= wb.1) (bt_rx c) /\ 0 <= bt_now c < 2^31 - 2000.

(** the bytes come in time: none later than two seconds after the one before,
    and when one is waited for at most two seconds have passed *)
Fixpoint in_time (elapsed : Z) (l : list (Z * byte)) : Prop :=
  match l with
  | [] => True
  | (w, _) :: l' => elapsed <= 2000 /\ w <= 2000 /\ in_time (elapsed + w) l'
  end.

Definition bt_after (n : nat) (c : BTClient) : BTClient :=
  mkBT (spp_client c) (drop n (bt_rx c)) (bt_tx c) (bt_now c + foldr (fun wb t => wb.1 + t) 0 (take n (bt_rx c)))
    (if (n =? 0)%nat then bt_timeout c else 2000).

Lemma bt_clock_small c t : 0 <= t -> t + 2000 < 2^31 -> t <= bt_now c -> bt_now c < 2^32 ->
  ((t + 2000) mod 2^32 <? millis c) = (t + 2000 <? bt_now c).
Proof. intros H1 H2 H3 H4. unfold millis. by rewrite !Z.mod_small by lia. Qed.

Lemma bt_read_loop_spec n c t l rest :
  bt_rx c = l ++ rest -> length l = n -> Forall (fun wb => 0 <= wb.1) l -> 0 <= t -> t + 2000 < 2^31 -> t <= bt_now c ->
  in_time (bt_now c - t) l ->
  bt_read_loop n t c = (Ok l.*2, bt_after n c).
Proof.
  revert c l. induction n as [|n IH]; intros c l E L P H1 H2 H3 T.
  - destruct l; [|done]. unfold bt_after. cbn. rewrite drop_0, Z.add_0_r. by destruct c.
  - destruct l as [|[w b] l]; [done|]. cbn in L. injection L as L. destruct T as (T1 & T2 & T3). inversion P as [|? ? Hw P']; subst. cbn in Hw.
    cbn [bt_read_loop]. unfold mbind, M_bind, get. assert (int32b (t + 2000) = true) as -> by (apply int32b_spec; unfold is_int32; lia). cbn [negb].
    rewrite bt_clock_small by lia. destruct (Z.ltb_spec (t + 2000) (bt_now c)); [lia|].
    unfold bt_setTimeout, modify, queue_wait. cbn [bt_rx bt_timeout bt_now spp_client bt_tx]. rewrite E. cbn [app].
    rewrite (proj2 (Z.leb_le w 2000) T2).
    rewrite (IH (mkBT (spp_client c) (l ++ rest) (bt_tx c) (bt_now c + w) 2000) l); cbn; [|done..|lia|].
    + unfold mret, M_ret, bt_after. cbn. rewrite E. cbn [app take drop foldr fst]. f_equal. f_equal; [lia|].
      by destruct (length l =? 0)%nat.
    + by replace (bt_now c + w - t) with (bt_now c - t + w) by lia.
Qed.

Definition bt_total (l : list (Z * byte)) : Z := foldr (fun wb t => wb.1 + t) 0 l.

(** the loop ends in time, whatever happens; [elapsed] is at most four seconds *)
Lemma bt_read_loop_bound n c t :
  Forall (fun wb => 0 <= wb.1) (bt_rx c) -> 0 <= t -> t + 2000 < 2^31 -> t <= bt_now c <= t + 4000 ->
  let l := take n (bt_rx c) in
  match bt_read_loop n t c with
  | (Ok bs, c') => bs = l.*2 /\ length l = n /\ in_time (bt_now c - t) l /\ bt_now c <= bt_now c' <= t + 4000
  | (Err e, c') => is_throw e /\ ~ (length l = n /\ in_time (bt_now c - t) l) /\ bt_now c <= bt_now c' <= t + 4000
  end.
Proof.
  revert c. induction n as [|n IH]; intros c P H1 H2 H3; cbv zeta.
  { cbn. split_and!; try done; lia. }
  cbn [bt_read_loop]. unfold mbind, M_bind, get. assert (int32b (t + 2000) = true) as -> by (apply int32b_spec; unfold is_int32; lia). cbn [negb].
  rewrite bt_clock_small by lia. destruct (Z.ltb_spec (t + 2000) (bt_now c)) as [Hlate|Hok].
  { split; [done|]. split; [|cbn; lia]. intros [L T]. destruct (bt_rx c) as [|[w b] rx]; [done|]. cbn in T. lia. }
  unfold bt_setTimeout, modify, queue_wait. cbn [bt_rx bt_timeout bt_now spp_client bt_tx].
  destruct (bt_rx c) as [|[w b] rx] eqn:E; cbn [take].
  { split; [done|]. split; [by intros []|cbn; lia]. }
  inversion P as [|? ? Hw P']; subst. cbn in Hw. destruct (Z.leb_spec w 2000) as [Hle|Hgt].
  2:{ split; [done|]. split; [|cbn; lia]. intros [_ (_ & T & _)]. lia. }
  pose proof (IH (mkBT (spp_client c) rx (bt_tx c) (bt_now c + w) 2000) P' H1 H2 ltac:(cbn; lia)) as IHn. cbn [bt_rx bt_now] in IHn. cbv zeta in IHn.
  assert (bt_now c + w - t = bt_now c - t + w) as Et by lia. rewrite Et in IHn.
  destruct (bt_read_loop n t _) as [[bs|e] c']; cbn [mret M_ret].
  - destruct IHn as (-> & L & T & B). cbn. split_and!; try done; lia.
  - destruct IHn as (He & Hn & B). split; [done|]. split; [|lia]. intros [L (_ & _ & T)]. apply Hn. split; [by injection L|done].
Qed.

(** the bytes in the queue *)
Fixpoint bt_arrived (l : list (Z * byte)) : list byte :=
  match l with
  | (w, b) :: l' => if w =? 0 then b :: bt_arrived l' else []
  | [] => []
  end.

Lemma bt_arrived_split l bs rest : bt_arrived l = bs ++ rest ->
  exists l', l = map (pair 0) bs ++ l' /\ bt_arrived l' = rest.
Proof.
  revert bs. induction l as [|[w b] l IH]; intros bs E.
  - cbn in E. destruct bs; [|done]. by exists [].
  - destruct bs as [|b' bs]; [by exists ((w, b) :: l)|]. cbn in E. destruct (Z.eqb_spec w 0) as [->|]; [|done].
    injection E as -> E. destruct (IH bs E) as (l' & -> & El). by exists l'.
Qed.

Definition bt_clock_okb (c : BTClient) : bool := (0 <=? bt_now c) && (bt_now c <? 2^31 - 2000).

Lemma bt_read_arrived c bs l : bt_clock_okb c = true -> bt_rx c = map (pair 0) bs ++ l ->
  exists t, bt_read (Z.of_nat (length bs)) c = (Ok bs, mkBT (spp_client c) l (bt_tx c) (bt_now c) t).
Proof.
  unfold bt_clock_okb. rewrite andb_true_iff, Z.leb_le, Z.ltb_lt. intros Hc E. unfold bt_read, mbind, M_bind, get, millis.
  rewrite Z.mod_small, wrap32_id, Nat2Z.id by (unfold is_int32; lia). eexists.
  rewrite (bt_read_loop_spec (length bs) c (bt_now c) (map (pair 0) bs) l); [|done|by rewrite length_map| |lia|lia|lia|].
  - unfold bt_after. rewrite E.
    assert (length bs = length (map (pair 0) bs)) as Hl by (by rewrite length_map).
    rewrite Hl at 1 2 3. rewrite drop_app_length, take_app_length.
    assert (foldr (fun wb t => wb.1 + t) 0 (map (pair 0) bs) = 0) as -> by (clear; induction bs; cbn; lia).
    rewrite Z.add_0_r. f_equal. f_equal. clear. induction bs; cbn; congruence.
  - apply List.Forall_forall. intros ? (b & <- & _)%in_map_iff. done.
  - rewrite Z.sub_diag. clear. induction bs; cbn; [done|]. split; [lia|]. split; [lia|done].
Qed.

#[export] Program Instance BTClient_laws : ClientStreamLaws BTClient := {
  inbox c := if bt_clock_okb c then bt_arrived (bt_rx c) else [];
  outbox := bt_tx;
  ready t c := int32b (t * 1000) = true /\ 0 <= t;
}.
Next Obligation.
  intros s n bs rest C I <- _. cbn in *. destruct (bt_clock_okb s) eqn:K.
  - destruct (bt_arrived_split _ _ _ I) as (l & E & A). destruct (bt_read_arrived s bs l K E) as [t ->].
    eexists. split; [done|]. cbn. change (bt_clock_okb _) with (bt_clock_okb s). rewrite K. by split_and!.
  - destruct bs; [|done]. cbn in I. subst. exists s. cbn. rewrite K. by split_and!.
Qed.
Next Obligation.
  intros s t C [R Ht] I. cbn in *. destruct (bt_clock_okb s) eqn:K; [|done].
  destruct (bt_rx s) as [|[w b] rx] eqn:E; [done|]. cbn in I. destruct (Z.eqb_spec w 0) as [->|]; [|done].
  unfold bt_readSelect. rewrite R. cbn [negb]. unfold mbind, M_bind, bt_setTimeout, modify, queue_wait. cbn [bt_rx bt_timeout]. rewrite E.
  destruct (Z.leb_spec 0 (t * 1000)); [|lia]. eexists. split; [done|]. cbn. rewrite Z.add_0_r.
  assert (bt_clock_okb (mkBT (spp_client s) ((0, b) :: rx) (bt_tx s) (bt_now s) (t * 1000)) = true) as -> by exact K.
  by split_and!.
Qed.
Next Obligation.
  intros s bs C. cbn in *. unfold bt_write. rewrite C. eexists. by split_and!.
Qed.
Next Obligation. intros s. by exists s. Qed.
Next Obligation. intros s. by exists s. Qed.

(** ** Properties *)

(** C39: Reading over Bluetooth never hangs while the clock is below 2^31-2000
    ms, that is in the first 24 days after the start: within four seconds it
    returns exactly the bytes asked for, if none comes later than two seconds
    after the one before and the last is waited for within two seconds, and
    otherwise it ends with an exception.  Outside these days it is not so:
    [bt_clock_overflows] and [bt_timeout_at_once]. *)
Theorem bt_read_in_time c n :
  bt_ok c -> 0 <= n ->
  let l := take (Z.to_nat n) (bt_rx c) in
  match bt_read n c with
  | (Ok bs, c') => bs = l.*2 /\ Z.of_nat (length bs) = n /\ in_time 0 l /\ bt_now c <= bt_now c' <= bt_now c + 4000
  | (Err e, c') => is_throw e /\ ~ (Z.of_nat (length l) = n /\ in_time 0 l) /\ bt_now c <= bt_now c' <= bt_now c + 4000
  end.
Proof.
  intros [P T] Hn l. pose proof (bt_read_loop_bound (Z.to_nat n) c (bt_now c) P ltac:(lia) ltac:(lia) ltac:(lia)) as B. cbv zeta in B.
  unfold bt_read, mbind, M_bind, get, millis. rewrite Z.mod_small, wrap32_id by (unfold is_int32; lia).
  rewrite Z.sub_diag in B. fold l in B. destruct (bt_read_loop _ _ c) as [[bs|e] c'].
  - destruct B as (-> & L & I & B). rewrite length_map. split_and!; try done; lia.
  - destruct B as (E & N & B). split_and!; try done; try lia. intros [L I]. apply N. split; [lia|done].
Qed.

Definition sample_bt : BTClient := mkBT true (map (pair 1500) (map byte_of_Z [1; 2; 3])) [] 100000 0.
Lemma bt_read_in_time_witness : (bt_read 2 sample_bt).1 = Ok (map byte_of_Z [1; 2]) /\ (exists e, (bt_read 3 sample_bt).1 = Err e /\ is_throw e).
Proof.
  assert (bt_ok sample_bt) as Hok by (split; [repeat constructor; cbn; lia|cbn; lia]). split.
  - pose proof (bt_read_in_time sample_bt 2 Hok ltac:(lia)) as B. cbv zeta in B.
    destruct (bt_read 2 sample_bt) as [[bs|e] c'] eqn:E; cbn [fst].
    + destruct B as [-> _]. reflexivity.
    + destruct B as (_ & N & _). exfalso. apply N. split; [reflexivity|]. split_and!; cbn; done || lia.
  - pose proof (bt_read_in_time sample_bt 3 Hok ltac:(lia)) as B. cbv zeta in B.
    destruct (bt_read 3 sample_bt) as [[bs|e] c'] eqn:E; cbn [fst].
    + destruct B as (_ & _ & (_ & _ & _ & _ & I & _) & _). exfalso. cbn in I. lia.
    + exists e. split; [reflexivity|exact (proj1 B)].
Defined.

(** the int of the start time overflows in the two seconds before 2^31 ms *)
Example bt_clock_overflows :
  (bt_read 1 (mkBT true [(0, byte_of_Z 7)] [] (2^31 - 1000) 0)).1 = Err (UB "signed overflow").
Proof. vm_compute. reflexivity. Qed.
(** in the two seconds before the clock of 32 bit starts again, a byte that is
    there is not read *)
Example bt_timeout_at_once :
  (bt_read 1 (mkBT true [(0, byte_of_Z 7)] [] (2^32 - 1000) 0)).1 = Err (Throw "::read timeout").
Proof. vm_compute. reflexivity. Qed.

(** C40: What of a frame is taken over the WiFiClient of the ESP32, when the four
    bytes of its header and at least one byte of its body have arrived.  If the
    whole body has arrived the message is decoded, whatever follows or comes in
    meanwhile.  If fewer bytes than the header announces are there at the end
    of the reading, those that come in between the calls included, it ends with
    an exception although the rest is on its way, whereas the socket client of
    the Linux server waits for the rest.  (With the header alone, [readSelect]
    waits for the first byte of the body.) *)
Theorem partial_frame_refused {W} `{WiFiClientLaws W} ml timeout (w : W) n part :
  wc_connected w = true -> 0 <= n <= MAX_MESSAGE_SIZE -> part <> [] -> wc_arrived w = le_bytes 4 n ++ part ->
  (Z.of_nat (length part + length (wc_meanwhile w)) < n ->
   exists e w', comm_readMessage ml timeout (Some w) = (Err (Throw e), Some w')) /\
  (forall bs rest, part = bs ++ rest -> Z.of_nat (length bs) = n ->
   exists more w', comm_readMessage ml timeout (Some w) = (FBTCtlMessage_bin ml bs n, Some w') /\
     wc_arrived w' = rest ++ more /\ wc_meanwhile w = more ++ wc_meanwhile w').
Proof.
  intros C Hn Hp A. destruct (wifi_header_read ml timeout w n part C Hn Hp A) as (more & w1 & -> & A1 & M1 & C1).
  unfold MAX_MESSAGE_SIZE in Hn. unfold on_client, mbind, M_bind, wifi_read. rewrite M1. split.
  - rewrite length_app. intros L.
    destruct (wifi_read_loop_short (Z.to_nat n) [] n w1 ltac:(lia) C1) as (e & w2 & ->); [rewrite A1, length_app; cbn; lia|cbn; lia|].
    by exists e, w2.
  - intros bs rest -> L. rewrite <- app_assoc in A1.
    destruct (wifi_read_loop_spec (Z.to_nat n) [] n w1 bs (rest ++ more) ltac:(lia) C1 A1) as (more2 & w2 & -> & A2 & M2 & _);
      [cbn; lia|lia|].
    rewrite app_nil_l, L, Z.eqb_refl. exists (more ++ more2), w2. rewrite A2, M2, !app_assoc. done.
Qed.

(** a client that delivers pieces of two bytes, while one byte comes in with
    every read *)
Record BufferClient : Type := mkBuffer { buf_in : list byte; buf_coming : list byte; buf_out : list byte; buf_open : bool }.
#[export] Instance BufferClient_wifi : WiFiClient BufferClient := {
  wc_connected := buf_open;
  wc_available w := Z.of_nat (length (buf_in w));
  wc_select _ w := (SelectTimeout, w);
  wc_read n w := let k := Nat.min 2 (Z.to_nat n) in let d := take k (buf_in w) in
    (Z.of_nat (length d), d,
     mkBuffer (drop k (buf_in w) ++ take 1 (buf_coming w)) (drop 1 (buf_coming w)) (buf_out w) (buf_open w));
  wc_write bs w := (Z.of_nat (length bs), mkBuffer (buf_in w) (buf_coming w) (buf_out w ++ bs) (buf_open w));
  wc_stop w := mkBuffer (buf_in w) (buf_coming w) (buf_out w) false;
}.
#[export] Program Instance BufferClient_laws : WiFiClientLaws BufferClient := {
  wc_arrived := buf_in;
  wc_meanwhile := buf_coming;
  wc_sent := buf_out;
}.
Next Obligation. done. Qed.
Next Obligation.
  intros w n C Hn A. cbn [wc_read BufferClient_wifi wc_connected] in *. set (k := Nat.min 2 (Z.to_nat n)). assert (0 < k)%nat by lia.
  eexists _, _, _, _. split; [done|]. split_and!; [| |symmetry; apply take_drop|done|symmetry; apply take_drop|done|done].
  - destruct k; [lia|]. by destruct (buf_in w).
  - rewrite length_take. lia.
Qed.
Next Obligation. intros w n C Hn A. cbn in *. rewrite A. by rewrite take_nil. Qed.
Next Obligation. intros w bs C. cbn in *. eexists [], _. split; [done|]. by rewrite app_nil_r. Qed.

(** three of six bytes are there and two more come in; a complete PING with a
    byte behind it *)
Definition sample_part : BufferClient := mkBuffer (le_bytes 4 6 ++ map byte_of_Z [8; 3; 1]) (map byte_of_Z [2; 0]) [] true.
Definition sample_whole : BufferClient := mkBuffer (le_bytes 4 1 ++ map byte_of_Z [7; 9]) (map byte_of_Z [2; 0]) [] true.
Lemma partial_frame_refused_witness :
  (exists e w', comm_readMessage protocol 10 (Some sample_part) = (Err (Throw e), Some w')) /\
  (exists more w', comm_readMessage protocol 10 (Some sample_whole) = (FBTCtlMessage_bin protocol [byte_of_Z 7] 1, Some w') /\
     wc_arrived w' = [byte_of_Z 9] ++ more /\ wc_meanwhile sample_whole = more ++ wc_meanwhile w').
Proof.
  split.
  - apply (partial_frame_refused protocol 10 sample_part 6 (map byte_of_Z [8; 3; 1]));
      [reflexivity|unfold MAX_MESSAGE_SIZE; lia|discriminate|reflexivity|cbn; lia].
  - apply (partial_frame_refused protocol 10 sample_whole 1 (map byte_of_Z [7; 9]));
      [reflexivity|unfold MAX_MESSAGE_SIZE; lia|discriminate|reflexivity|reflexivity|reflexivity].
Defined.
