(* ===== verification/Lokdef.v ===== *)
(** * bluetoothserver/lokdef.{h,cpp}: the locomotive table

    The table, the search by address and the reader of conf/lokdef.csv. *)

From Stdlib Require Import Ascii.
From S2P Require Import Prelude StdMap CString Utils.

(** ** Data *)

Definition F_DEFAULT : Z := 0.
Definition F_DEC14 : Z := 1.
Definition F_DEC28 : Z := 2.
Definition MAX_NFUNC : Z := 32.

(** [struct func_t]; a [char] array is the text up to its terminator *)
Record func_t : Type := mkFunc {
  f_name : string;
  pulse : bool;
  ison : bool;
  f_imgname : string;
}.

(** [struct lokdef_t]; [func] has [MAX_NFUNC] elements, of which [nFunc] are
    in use *)
Record lokdef_t : Type := mkLok {
  addr : Z;
  flags : Z;
  name : string;
  nFunc : Z;
  func : list func_t;
  currspeed : Z;
  currdir : Z;
  initDone : bool;
  imgname : string;
  lastClientID : Z;
}.

Definition func0 : func_t := mkFunc "" false false "".
(** a zeroed element, the end marker of the table *)
Definition lokdef0 : lokdef_t :=
  mkLok 0 0 "" 0 (repeat func0 (Z.to_nat MAX_NFUNC)) 0 0 false "" 0.

(** member updates *)
Definition set_currspeed (v : Z) (l : lokdef_t) : lokdef_t :=
  mkLok (addr l) (flags l) (name l) (nFunc l) (func l) v (currdir l) (initDone l) (imgname l) (lastClientID l).
Definition set_currdir (v : Z) (l : lokdef_t) : lokdef_t :=
  mkLok (addr l) (flags l) (name l) (nFunc l) (func l) (currspeed l) v (initDone l) (imgname l) (lastClientID l).
Definition set_func (v : list func_t) (l : lokdef_t) : lokdef_t :=
  mkLok (addr l) (flags l) (name l) (nFunc l) v (currspeed l) (currdir l) (initDone l) (imgname l) (lastClientID l).
Definition set_initDone (v : bool) (l : lokdef_t) : lokdef_t :=
  mkLok (addr l) (flags l) (name l) (nFunc l) (func l) (currspeed l) (currdir l) v (imgname l) (lastClientID l).
Definition set_lastClientID (v : Z) (l : lokdef_t) : lokdef_t :=
  mkLok (addr l) (flags l) (name l) (nFunc l) (func l) (currspeed l) (currdir l) (initDone l) (imgname l) v.
Definition set_ison (v : bool) (f : func_t) : func_t := mkFunc (f_name f) (pulse f) v (f_imgname f).

(** ** Search *)

(** the loop of [getAddrIndex] from index [i] on; running past the array
    without meeting the end marker has no defined behaviour *)
Fixpoint find_addr (a : Z) (i : Z) (l : list lokdef_t) : outcome Z :=
  match l with
  | [] => Err (UB "lokdef[i]")
  | d :: l' =>
      if addr d =? 0 then Err (Throw ("getAddrIndex: invalid address " +:+ to_string a))
      else if addr d =? a then Ok i
      else find_addr a (i + 1) l'
  end.
Definition getAddrIndex (a : Z) (lokdef : list lokdef_t) : outcome Z := find_addr a 0 lokdef.

(** ** Reading lokdef.csv *)

Definition str2decodertype (pos : string) : Z :=
  if String.prefix "F_DEC14" pos then F_DEC14
  else if String.prefix "F_DEC28" pos then F_DEC28
  else F_DEFAULT.

Definition carriage : ascii := "013"%char.
Definition separator (c : ascii) : bool :=
  bool_decide (c = ","%char) || bool_decide (c = carriage) || bool_decide (c = newline).
Definition not_sep (c : ascii) : bool := negb (separator c).
Definition blank (c : ascii) : bool := bool_decide (c = " "%char) || bool_decide (c = "009"%char).

(** [getnext(&pos)]: the new [pos] and the returned end of the value; [None]
    is the null pointer for both *)
Definition getnext (pos : string) : option (string * string) :=
  let pos := skip_while not_sep pos in
  if decide (pos = EmptyString) then None
  else
    let pos := skip_while blank (advance pos) in
    Some (pos, skip_while not_sep pos).

(** [pos_end - pos] *)
Definition ptr_diff (pos_end pos : string) : Z :=
  Z.of_nat (String.length pos) - Z.of_nat (String.length pos_end).

(** [strncpy(dst, src, n)] into a zeroed array *)
Definition strncpy (src : string) (n : Z) : string := String.substring 0 (Z.to_nat n) src.

(** [memmem(pos, len, "=1", 2) != NULL] *)
Fixpoint has_eq1 (s : string) : bool :=
  match s with
  | EmptyString => false
  | String c s' => (bool_decide (c = "="%char) && bool_decide (deref s' = "1"%char)) || has_eq1 s'
  end.

Definition LOKDEF_FILENAME : string := "conf/lokdef.csv".

(** the loop over the function names, from [i] on, [k] iterations left;
    returns the functions read and the last [pos_end].  [strncpy] may fill all
    32 bytes of [func[i].name]; [strchr] then reads behind the array. *)
Fixpoint read_funcs (lineNo nf : Z) (i : Z) (k : nat) (pos pos_end : string) : outcome (list func_t * string) :=
  match k with
  | O => Ok ([], pos_end)
  | S k' =>
      match getnext pos with
      | None => Err (Throw ("func i = " +:+ to_string i +:+ ", nfunc " +:+ to_string nf +:+
                            " invalid? " +:+ to_string (nf - i) +:+ " function names missing"))
      | Some (pos, pos_end) =>
          let funcNameLen := ptr_diff pos_end pos in
          let start := has_eq1 (strncpy pos funcNameLen) in
          let funcNameLen := if start then funcNameLen - 2 else funcNameLen in
          let fname := strncpy pos (Z.min 32 funcNameLen) in
          if 32 <=? funcNameLen then Err (UB "strchr: func[i].name has no terminator")
          else
          '(fs, e) ← read_funcs lineNo nf (i + 1) k' pos pos_end;
          Ok (mkFunc fname false start "" :: fs, e)
      end
  end.

(** one line of the file; [None] for a line that adds no element ([continue]).
    A line that ends before the image name makes [getnext] read through a null
    pointer.  The check for a newline in a function name cannot fire: lines
    hold none. *)
Definition read_lok (lineNo : Z) (line : string) : outcome (option lokdef_t) :=
  let buffer := c_str line in
  if decide (deref buffer = "#"%char) then Ok None
  else
    let a := atoi buffer in
    match getnext buffer with
    | None => Ok None
    | Some (pos, _) =>
        let fl := str2decodertype pos in
        match getnext pos with
        | None => Err (UB "getnext: null pointer")
        | Some (pos, pos_end) =>
            let nm := strtrim (strncpy pos (Z.min 19 (ptr_diff pos_end pos))) in
            match getnext pos with
            | None => Err (UB "getnext: null pointer")
            | Some (pos, pos_end) =>
                let img := strtrim (strncpy pos (Z.min 31 (ptr_diff pos_end pos))) in
                match getnext pos with
                | None => Err (Throw "error reading nfunc")
                | Some (pos, pos_end) =>
                    let nf := wrap32 (atoi pos + 1) in
                    if MAX_NFUNC <? nf
                    then Err (Throw (LOKDEF_FILENAME +:+ ":" +:+ to_string lineNo +:+
                                     " Error: lokdef.nFunc > MAX_NFUNC" +:+ String newline ""))
                    else
                      '(fs, pos_end) ← read_funcs lineNo nf 1 (Z.to_nat (nf - 1)) pos pos_end;
                      if negb (bool_decide (pos_end = EmptyString))
                      then Err (Throw (LOKDEF_FILENAME +:+ ":" +:+ to_string lineNo +:+
                                       " Error: too many function names [" +:+ pos_end +:+ "]"))
                      else
                        let funcs := mkFunc "lHeadlight" false true "" :: fs in
                        Ok (Some (mkLok a fl nm nf
                          (funcs ++ repeat func0 (Z.to_nat MAX_NFUNC - length funcs)) 0 1 false img 0))
                end
            end
        end
    end.

Fixpoint read_loks (lineNo : Z) (lines : list string) : outcome (list lokdef_t) :=
  match lines with
  | [] => Ok [lokdef0]
  | line :: lines' =>
      d ← read_lok lineNo line;
      ds ← read_loks (lineNo + 1) lines';
      Ok (match d with Some d => d :: ds | None => ds end)
  end.

(** [readLokdef()], the text of the file given; the array it leaves in
    [lokdef] *)
Definition readLokdef (lokdefCsv : string) : outcome (list lokdef_t) :=
  if decide (lokdefCsv = EmptyString) then Err (Throw "lokdev.csv is empty")
  else read_loks 1 (getlines lokdefCsv).

(** ** Texts built from clean pieces *)

Definition not_nul (c : ascii) : bool := negb (bool_decide (c = NUL)).
Definition not_nl (c : ascii) : bool := negb (bool_decide (c = newline)).

Lemma c_str_forall s : str_forall not_nul s = true -> c_str s = s.
Proof.
  induction s as [|c s IH]; [done|]. cbn. intros [H1 H2]%andb_true_iff.
  destruct (ascii_dec c NUL); [by subst|]. by rewrite IH.
Qed.

Lemma getlines_line l s :
  str_forall not_nl l = true -> getlines (l +:+ String newline s) = l :: getlines s.
Proof.
  induction l as [|c l IH]; intros H; rewrite ?string_nil_app, ?string_cons_app; [done|].
  cbn in H. apply andb_true_iff in H as [H1 H2]. cbn [getlines].
  destruct (ascii_dec c newline); [by subst|]. by rewrite IH.
Qed.

Lemma substring_take a b n : (String.length a = n)%nat -> String.substring 0 n (a +:+ b) = a.
Proof. intros <-. apply substring_prefix. Qed.

(** ** The fields of a line *)

Definition comma (rest : string) : string := String "," rest.

(** the rest of a line behind a field: nothing or the next field *)
Definition field_end (rest : string) : Prop := rest = EmptyString \/ exists r, rest = comma r.

Definition clean_field (v : string) : bool := str_forall not_sep v && str_forall not_nul v &&
  match v with EmptyString => true | String c _ => negb (blank c) end.

Lemma skip_field v rest : str_forall not_sep v = true -> field_end rest -> skip_while not_sep (v +:+ rest) = rest.
Proof. intros Hv [-> |[r ->]]; by rewrite skip_while_forall. Qed.

Lemma skip_blank v rest : clean_field v = true -> field_end rest -> skip_while blank (v +:+ rest) = v +:+ rest.
Proof.
  unfold clean_field. rewrite andb_true_iff. intros [_ Hb]. destruct v as [|c v].
  - intros [-> |[r ->]]; by rewrite string_nil_app.
  - intros _. rewrite string_cons_app. cbn. by destruct (blank c).
Qed.

Lemma clean_not_sep v : clean_field v = true -> str_forall not_sep v = true.
Proof. unfold clean_field. by intros [[? _]%andb_true_iff _]%andb_true_iff. Qed.

(** [getnext] moves from one field to the next *)
Lemma getnext_field a v rest :
  str_forall not_sep a = true -> clean_field v = true -> field_end rest ->
  getnext (a +:+ comma (v +:+ rest)) = Some (v +:+ rest, rest).
Proof.
  intros Ha Hv Hr. unfold getnext. rewrite skip_while_forall by done.
  assert (skip_while not_sep (comma (v +:+ rest)) = comma (v +:+ rest)) as -> by done.
  rewrite decide_False by done. cbn [comma advance]. rewrite skip_blank by done.
  by rewrite skip_field by auto using clean_not_sep.
Qed.

Lemma ptr_diff_field v rest : ptr_diff rest (v +:+ rest) = Z.of_nat (String.length v).
Proof. unfold ptr_diff. rewrite string_app_length. lia. Qed.

Lemma strncpy_field v rest n :
  Z.of_nat (String.length v) <= n -> strncpy (v +:+ rest) (Z.min n (Z.of_nat (String.length v))) = v.
Proof. intros H. unfold strncpy. rewrite Z.min_r by done. apply substring_take. lia. Qed.

(** ** Printing a table *)

(** what a line of lokdef.csv says about a locomotive *)
Record csv_entry : Type := mkEntry {
  e_addr : Z;
  e_flags : Z;
  e_name : string;
  e_img : string;
  e_funcs : list (string * bool);
}.

Definition print_flags (f : Z) : string :=
  if f =? F_DEC14 then "F_DEC14" else if f =? F_DEC28 then "F_DEC28" else "F_DEFAULT".
Definition print_func (f : string * bool) : string := if f.2 then f.1 +:+ "=1" else f.1.
Fixpoint print_funcs (fs : list (string * bool)) : string :=
  match fs with [] => "" | f :: fs' => comma (print_func f +:+ print_funcs fs') end.
Definition print_entry (e : csv_entry) : string :=
  udec (e_addr e) +:+ comma (print_flags (e_flags e) +:+ comma (e_name e +:+ comma (e_img e +:+
    comma (udec (Z.of_nat (length (e_funcs e))) +:+ print_funcs (e_funcs e))))).
Fixpoint print_csv (es : list csv_entry) : string :=
  match es with [] => "" | e :: es' => print_entry e +:+ String newline (print_csv es') end.

(** the element such a line describes *)
Definition entry_func (f : string * bool) : func_t := mkFunc f.1 false f.2 "".
Definition entry_lok (e : csv_entry) : lokdef_t :=
  let funcs := mkFunc "lHeadlight" false true "" :: map entry_func (e_funcs e) in
  mkLok (e_addr e) (e_flags e) (e_name e) (Z.of_nat (length funcs))
    (funcs ++ repeat func0 (Z.to_nat MAX_NFUNC - length funcs)) 0 1 false (e_img e) 0.

Definition func_ok (f : string * bool) : bool :=
  clean_field (print_func f) && (Z.of_nat (String.length f.1) <=? 31) && (f.2 || negb (has_eq1 f.1)).
Definition entry_ok (e : csv_entry) : bool :=
  (0 <=? e_addr e) && (e_addr e <? 2^31) && (0 <=? e_flags e) && (e_flags e <=? 2) &&
  clean_field (e_name e) && bool_decide (strtrim (e_name e) = e_name e) &&
  (Z.of_nat (String.length (e_name e)) <=? 19) &&
  clean_field (e_img e) && bool_decide (strtrim (e_img e) = e_img e) &&
  (Z.of_nat (String.length (e_img e)) <=? 31) &&
  (Z.of_nat (length (e_funcs e)) <? MAX_NFUNC) && forallb func_ok (e_funcs e).

Lemma has_eq1_suffix s : has_eq1 (s +:+ "=1") = true.
Proof.
  induction s as [|c s IH]; [done|]. rewrite string_cons_app. cbn. by rewrite IH, orb_true_r.
Qed.

Lemma print_funcs_end fs : field_end (print_funcs fs).
Proof. destruct fs; [by left|right; by eexists]. Qed.

Lemma read_funcs_print lineNo nf i fs a :
  str_forall not_sep a = true -> forallb func_ok fs = true ->
  read_funcs lineNo nf i (length fs) (a +:+ print_funcs fs) (print_funcs fs) =
    Ok (map entry_func fs, EmptyString).
Proof.
  intros Ha. revert i a Ha. induction fs as [|[f on] fs IH]; intros i a Ha Hfs; [done|].
  cbn in Hfs. apply andb_true_iff in Hfs as [Hf Hfs]. unfold func_ok in Hf.
  rewrite !andb_true_iff, Z.leb_le in Hf. destruct Hf as [[Hc Hl] He].
  cbn [length read_funcs print_funcs].
  rewrite getnext_field by (auto using print_funcs_end). cbn [fst snd] in *.
  rewrite ptr_diff_field. rewrite (IH (i + 1)) by auto using clean_not_sep.
  cbn [mbind outcome_bind map]. cbv zeta. unfold entry_func. cbn [fst snd].
  assert (strncpy (print_func (f, on) +:+ print_funcs fs) (Z.of_nat (String.length (print_func (f, on))))
          = print_func (f, on)) as ->.
  { unfold strncpy. rewrite Nat2Z.id. by apply substring_take. }
  destruct on; cbn [print_func fst snd] in *.
  - rewrite has_eq1_suffix. rewrite string_app_length. cbn [String.length].
    replace (Z.of_nat (String.length f + 2) - 2) with (Z.of_nat (String.length f)) by lia.
    rewrite (proj2 (Z.leb_gt 32 _)) by lia. rewrite <- string_app_assoc, strncpy_field by lia. done.
  - cbn in He. apply negb_true_iff in He. unfold print_func in *. cbn in *. rewrite He.
    rewrite (proj2 (Z.leb_gt 32 _)) by lia. by rewrite strncpy_field by lia.
Qed.

Lemma decodertype_print f rest :
  0 <= f <= 2 -> str2decodertype (print_flags f +:+ comma rest) = f.
Proof.
  intros Hf. assert (f = 0 \/ f = 1 \/ f = 2) as [-> |[-> | ->]] by lia; unfold str2decodertype; cbn;
    rewrite ?string_cons_app, ?string_nil_app; cbn; by destruct rest.
Qed.

Lemma digit_not_sep d : 0 <= d < 10 -> not_sep (digit_chr d) = true /\ not_nul (digit_chr d) = true /\
  not_nl (digit_chr d) = true /\ blank (digit_chr d) = false /\ digit_chr d <> "#"%char.
Proof.
  intros H. rewrite <- (Z2Nat.id d) by lia.
  assert (Z.to_nat d < 10)%nat as Hn by lia. generalize dependent (Z.to_nat d). clear H.
  intros n Hn. do 10 (destruct n as [|n]; [vm_compute; split_and!; done|]). lia.
Qed.

Lemma udec_clean n : 0 <= n -> clean_field (udec n) = true.
Proof.
  intros Hn. unfold clean_field. rewrite !udec_forall by (try done; intros; by apply digit_not_sep).
  destruct (udigits_head 10 64 n "") as (d & s & Hd & E & _); [lia..|].
  unfold udec. rewrite E. cbn. by destruct (digit_not_sep d Hd) as (_ & _ & _ & -> & _).
Qed.

Lemma clean_forall v : clean_field v = true -> str_forall not_nul v = true /\ str_forall not_nl v = true.
Proof.
  unfold clean_field. rewrite !andb_true_iff. intros [[Hs Hn] _]. split; [done|].
  revert Hs. apply str_forall_mono. unfold not_sep, separator, not_nl. intros c.
  rewrite !negb_true_iff, !orb_false_iff. naive_solver.
Qed.

Lemma print_flags_clean f : clean_field (print_flags f) = true.
Proof. unfold print_flags. by repeat case_match. Qed.

Section print_entry_forall.
Context (p : ascii -> bool) (Hp : p ","%char = true)
  (Hv : forall v, clean_field v = true -> str_forall p v = true).

Lemma comma_forall s : str_forall p (comma s) = str_forall p s.
Proof. cbn. by rewrite Hp. Qed.

Lemma print_funcs_forall fs : forallb func_ok fs = true -> str_forall p (print_funcs fs) = true.
Proof.
  induction fs as [|f fs IH]; [done|]. cbn [forallb print_funcs].
  intros [Hf Hfs]%andb_true_iff. rewrite comma_forall, str_forall_app, IH by done.
  unfold func_ok in Hf. rewrite !andb_true_iff in Hf. destruct Hf as [[Hf _] _]. by rewrite Hv.
Qed.

Lemma print_entry_forall e : entry_ok e = true -> str_forall p (print_entry e) = true.
Proof.
  unfold entry_ok. rewrite !andb_true_iff, !Z.leb_le. intros H. destruct_and!.
  unfold print_entry. repeat (rewrite str_forall_app || rewrite comma_forall).
  rewrite !Hv, print_funcs_forall by (auto using print_flags_clean, udec_clean || (apply udec_clean; lia)). done.
Qed.
End print_entry_forall.

Lemma print_entry_hash e : 0 <= e_addr e -> deref (print_entry e) <> "#"%char.
Proof.
  intros Ha. unfold print_entry, udec. rewrite <- udigits_app.
  match goal with |- deref (udigits _ _ _ ?r) <> _ =>
    destruct (udigits_head 10 64 (e_addr e) r) as (d & s & Hd & E & _); [lia..|] end.
  rewrite E. cbn. by apply digit_not_sep.
Qed.

Lemma read_lok_print lineNo e :
  entry_ok e = true -> read_lok lineNo (print_entry e) = Ok (Some (entry_lok e)).
Proof.
  intros Hok. unfold read_lok.
  rewrite c_str_forall by (apply print_entry_forall; [done|apply clean_forall|done]).
  unfold entry_ok in Hok. rewrite !andb_true_iff, !Z.leb_le, !Z.ltb_lt, !bool_decide_eq_true in Hok.
  destruct_and!. rewrite decide_False by by apply print_entry_hash. unfold print_entry.
  assert (forall n, 0 <= n -> str_forall not_sep (udec n) = true) as Hudec
    by (intros; by apply clean_not_sep, udec_clean).
  rewrite atoi_udec by done. assert (forall r, field_end (comma r)) as Hend by (intros; right; by eexists).
  rewrite getnext_field by (auto using print_flags_clean). rewrite decodertype_print by done.
  rewrite getnext_field by (auto using clean_not_sep, print_flags_clean).
  rewrite ptr_diff_field, strncpy_field by done.
  rewrite getnext_field by (auto using clean_not_sep). rewrite ptr_diff_field, strncpy_field by done.
  rewrite getnext_field by (auto using clean_not_sep, print_funcs_end, udec_clean || (apply udec_clean; lia)).
  rewrite atoi_udec; [|unfold MAX_NFUNC in *; lia|by destruct (e_funcs e)].
  rewrite wrap32_id by (unfold is_int32, MAX_NFUNC in *; lia).
  destruct (Z.ltb_spec MAX_NFUNC (Z.of_nat (length (e_funcs e)) + 1)); [lia|].
  replace (Z.to_nat (Z.of_nat (length (e_funcs e)) + 1 - 1)) with (length (e_funcs e)) by lia.
  rewrite read_funcs_print by (done || apply Hudec; lia). cbn [mbind outcome_bind].
  rewrite bool_decide_true by done. cbn [negb]. unfold entry_lok.
  repeat match goal with H : strtrim _ = _ |- _ => rewrite H end.
  cbn [length]. by rewrite length_map, Nat2Z.inj_succ.
Qed.

(** ** The table as the rest of the server sees it *)

(** the elements in front of the end marker: what [while(lokdef[i].addr)] visits *)
Fixpoint locos (t : list lokdef_t) : list lokdef_t :=
  match t with
  | [] => []
  | d :: t' => if addr d =? 0 then [] else d :: locos t'
  end.

(** the array has an end marker *)
Definition terminated (t : list lokdef_t) : Prop := exists d, d ∈ t /\ addr d = 0.

Lemma terminated_tail d t : terminated (d :: t) -> addr d <> 0 -> terminated t.
Proof. intros (e & He & H0) Hd. exists e. set_solver. Qed.

(** the end marker follows the locomotives *)
Lemma locos_end t : terminated t -> exists d, t !! length (locos t) = Some d /\ addr d = 0.
Proof.
  intros (e & He & H0). induction t as [|d t IH]; [by apply elem_of_nil in He|]. cbn.
  destruct (Z.eqb_spec (addr d) 0) as [|Hd]; [by exists d|]. cbn.
  apply IH. apply elem_of_cons in He as [->|He]; [done|exact He].
Qed.

Lemma locos_lookup t i d : locos t !! i = Some d -> t !! i = Some d /\ addr d <> 0.
Proof.
  revert i. induction t as [|e t IH]; intros i; [done|]. cbn.
  destruct (Z.eqb_spec (addr e) 0); [done|]. destruct i; cbn; [naive_solver|apply IH].
Qed.

Lemma find_addr_spec a i t :
  terminated t ->
  (exists k d, find_addr a i t = Ok (i + Z.of_nat k) /\ locos t !! k = Some d /\ addr d = a /\
     forall j e, (j < k)%nat -> locos t !! j = Some e -> addr e <> a) \/
  (find_addr a i t = Err (Throw ("getAddrIndex: invalid address " +:+ to_string a)) /\
     a ∉ map addr (locos t)).
Proof.
  revert i. induction t as [|d t IH]; intros i T; [by destruct T as (? & ?%elem_of_nil & _)|]. cbn.
  destruct (Z.eqb_spec (addr d) 0) as [|Hd]; [right; set_solver|].
  destruct (Z.eqb_spec (addr d) a) as [Ha|Ha].
  { left. exists O, d. split_and!; [f_equal; lia|done|done|lia]. }
  destruct (IH (i + 1) (terminated_tail _ _ T Hd)) as [(k & e & E & L & A & F)|[E N]].
  - left. exists (S k), e. split_and!; [rewrite E; f_equal; lia|done|done|].
    intros [|j] e' Hj; cbn; [naive_solver|]. apply F. lia.
  - right. split; [done|]. cbn. set_solver.
Qed.

Lemma getAddrIndex_ok a t i :
  terminated t -> getAddrIndex a t = Ok i ->
  0 <= i /\ exists d, locos t !! Z.to_nat i = Some d /\ addr d = a.
Proof.
  intros T E. unfold getAddrIndex in E. destruct (find_addr_spec a 0 t T) as [(k & d & E' & L & A & _)|[E' _]];
    rewrite E in E'; [|done]. injection E' as ->. split; [lia|]. exists d. rewrite Z.add_0_l, Nat2Z.id. done.
Qed.

(** the elements [readLokdef] makes *)
Record lok_wf (d : lokdef_t) : Prop := mkLokWf {
  wf_nFunc : nFunc d <= MAX_NFUNC;
  wf_func : length (func d) = Z.to_nat MAX_NFUNC;
}.
(** the state of a locomotive when the server starts *)
Definition at_rest (d : lokdef_t) : Prop :=
  currspeed d = 0 /\ currdir d = 1 /\ exists f fs, func d = f :: fs /\ ison f = true.

Lemma read_funcs_length lineNo nf i k pos pos_end fs e :
  read_funcs lineNo nf i k pos pos_end = Ok (fs, e) -> length fs = k.
Proof.
  revert i pos pos_end fs e. induction k as [|k IH]; intros i pos pos_end fs e; cbn; [naive_solver|].
  destruct (getnext pos) as [[p pe]|]; [|done]. case_match; [done|]. destruct (read_funcs _ _ _ k _ _) as [[fs' e']|] eqn:E; [|done].
  cbn. intros [= <- <-]. cbn. f_equal. by eapply IH.
Qed.

Lemma read_lok_wf lineNo line d : read_lok lineNo line = Ok (Some d) -> lok_wf d /\ at_rest d.
Proof.
  unfold read_lok. case_decide; [done|].
  destruct (getnext _) as [[p1 e1]|]; [|done]. destruct (getnext p1) as [[p2 e2]|]; [|done].
  destruct (getnext p2) as [[p3 e3]|]; [|done]. destruct (getnext p3) as [[p4 e4]|]; [|done].
  destruct (Z.ltb_spec MAX_NFUNC (wrap32 (atoi p4 + 1))) as [|Hn]; [done|].
  destruct (read_funcs _ _ _ _ _ _) as [[fs e]|] eqn:E; [|done]. cbn [mbind outcome_bind].
  apply read_funcs_length in E. destruct (negb _); [done|]. intros [= <-]. split; [split; cbn|].
  - done.
  - rewrite length_app, repeat_length. unfold MAX_NFUNC in *. lia.
  - split_and!; [done..|]. by eexists _, _.
Qed.

Lemma read_loks_spec lineNo lines t :
  read_loks lineNo lines = Ok t ->
  exists ds, t = ds ++ [lokdef0] /\ Forall (fun d => lok_wf d /\ at_rest d) ds /\ (length ds <= length lines)%nat.
Proof.
  revert lineNo t. induction lines as [|l lines IH]; intros lineNo t; cbn.
  - intros [= <-]. exists []. split_and!; [done|constructor|done].
  - destruct (read_lok lineNo l) as [d|] eqn:E; [|done]. cbn.
    destruct (read_loks (lineNo + 1) lines) as [ds|] eqn:E2; [|done]. cbn. intros [= <-].
    destruct (IH _ _ E2) as (ds' & -> & F & L). destruct d as [d|].
    + exists (d :: ds'). apply read_lok_wf in E. split_and!; [done|by constructor|cbn; lia].
    + exists ds'. split_and!; [done|done|lia].
Qed.

Lemma end_marker_terminated ds : terminated (ds ++ [lokdef0]).
Proof. exists lokdef0. set_solver. Qed.

(** ** Properties *)

(** C28: Round trip of the locomotive file, for entries that fit into the table:
    addresses of 31 bits, names of at most 19 and image names of at most 31
    bytes without white space at the ends, fewer than 32 functions with names of
    at most 31 bytes (the reader cuts longer names of locomotives and images and
    reads behind the array for longer names of functions), no field with a
    comma, a line end, a NUL or a blank at its start, and no "=1" in the name of
    a function that is off.  The table read from a printed list of such entries
    is that list, followed by the end marker. *)
Theorem lokdef_roundtrip es :
  es <> [] -> forallb entry_ok es = true ->
  readLokdef (print_csv es) = Ok (map entry_lok es ++ [lokdef0]).
Proof.
  intros Hne Hok. unfold readLokdef. rewrite decide_False.
  2: { destruct es as [|e es]; [done|]. cbn. unfold print_entry. by destruct (udec _). }
  generalize 1 as lineNo. clear Hne. induction es as [|e es IH]; intros lineNo; [done|].
  cbn in Hok. apply andb_true_iff in Hok as [He Hes]. cbn [print_csv map].
  rewrite getlines_line by (apply print_entry_forall; [done|apply clean_forall|done]).
  cbn [read_loks]. rewrite read_lok_print by done. cbn [mbind outcome_bind].
  by rewrite IH.
Qed.

Definition sample_entries : list csv_entry :=
  [mkEntry 3 F_DEFAULT "Ge 4/4 I" "ge44.png" [("sPfeife", false); ("sSound", true)];
   mkEntry 12 F_DEC14 "Ge 2/4 213" "" []].

Lemma lokdef_roundtrip_witness :
  readLokdef (print_csv sample_entries) = Ok (map entry_lok sample_entries ++ [lokdef0]).
Proof. apply (lokdef_roundtrip sample_entries); [done|vm_compute; reflexivity]. Defined.

(** A line of the shipped lokdef.csv.sample: the name of its seventh function
    has 42 bytes and fills [func[7].name] up to the last byte, so that [strchr]
    has no terminator to stop at (where the compiler puts [pulse] right behind
    the array, its 0 is taken for one). *)
Example sample_line_unterminated :
  readLokdef ("647,F_DEFAULT,Ge 4/4 III (647),capito.png,7,l,2,3,sPfeife,5,6,sDurchsage This Train remains in Landquart" +:+
    String newline "") = Err (UB "strchr: func[i].name has no terminator").
Proof. vm_compute. reflexivity. Qed.

(** Whatever the file says, a table that is accepted ends with the marker the
    loops of the server stop at, and every locomotive in it stands still, faces
    forward, has its headlight on and at most 32 functions in an array of 32. *)
Theorem readLokdef_table lokdefCsv t :
  readLokdef lokdefCsv = Ok t ->
  terminated t /\ exists ds, t = ds ++ [lokdef0] /\ Forall (fun d => lok_wf d /\ at_rest d) ds.
Proof.
  unfold readLokdef. case_decide; [done|]. intros E.
  destruct (read_loks_spec _ _ _ E) as (ds & -> & F & _). split; [apply end_marker_terminated|eauto].
Qed.

Lemma readLokdef_table_witness :
  let t := map entry_lok sample_entries ++ [lokdef0] in
  terminated t /\ exists ds, t = ds ++ [lokdef0] /\ Forall (fun d => lok_wf d /\ at_rest d) ds.
Proof. apply (readLokdef_table (print_csv sample_entries)). vm_compute. reflexivity. Defined.

(** The search by address returns the first locomotive in front of the end
    marker that has it, and throws when none has. *)
Theorem getAddrIndex_spec a t :
  terminated t ->
  (exists i d, getAddrIndex a t = Ok (Z.of_nat i) /\ locos t !! i = Some d /\ addr d = a /\
     forall j e, (j < i)%nat -> locos t !! j = Some e -> addr e <> a) \/
  (getAddrIndex a t = Err (Throw ("getAddrIndex: invalid address " +:+ to_string a)) /\
     a ∉ map addr (locos t)).
Proof. apply find_addr_spec. Qed.

Lemma getAddrIndex_spec_witness :
  let t := map entry_lok sample_entries ++ [lokdef0] in
  (exists i d, getAddrIndex 12 t = Ok (Z.of_nat i) /\ locos t !! i = Some d /\ addr d = 12 /\
     forall j e, (j < i)%nat -> locos t !! j = Some e -> addr e <> 12) \/
  (getAddrIndex 12 t = Err (Throw ("getAddrIndex: invalid address " +:+ to_string 12)) /\
     12 ∉ map addr (locos t)).
Proof. apply (getAddrIndex_spec 12). exists lokdef0. split; [set_solver|reflexivity]. Defined.

(** A line that stops in front of the image name sends the reader through a
    null pointer; only a line that stops in front of the number of functions
    is reported. *)
Example short_line_null_pointer :
  readLokdef ("3,F_DEFAULT,Ge44" +:+ String newline "") = Err (UB "getnext: null pointer") /\
  readLokdef ("3,F_DEFAULT,Ge44,img" +:+ String newline "") = Err (Throw "error reading nfunc").
Proof. vm_compute. done. Qed.
