(* ===== verification/Zsp.v ===== *)
(** * bluetoothserver/zsp.cpp, zsp.h, unquote.hpp: the sound project of the Linux server

    A ZIMO sound project is a text file of sections.  [loadZSP] reads it into
    a multimap, looks for the sound set of the configuration, and collects the
    sample files of its speed steps and of the function sounds.  The three
    algorithms of Boost the reader calls are parameters, with their documented
    behaviour as the class [BoostLaws]. *)

From Stdlib Require Import Ascii.
From S2P Require Import Prelude StdMap CString Utils.

(** ** Boost *)

Class Boost : Type := mkBoost {
  boost_trim : string -> string;
  boost_starts_with : string -> string -> bool;
  replace_all_copy : string -> string -> string -> string;
}.

(** a text that neither begins nor ends with white space *)
Definition stripped (s : string) : Prop :=
  take_while isspace s = EmptyString /\ take_while isspace (string_rev s) = EmptyString.

Class BoostLaws (B : Boost) : Prop := mkBoostLaws {
  (** trim removes leading and trailing spaces *)
  boost_trim_spec : forall a s b, take_while isspace a = a -> take_while isspace b = b -> stripped s ->
    s <> EmptyString -> boost_trim (a +:+ s +:+ b) = s;
  boost_starts_with_spec : forall s p, boost_starts_with s p = String.prefix p s;
  (** nothing is replaced in a text without the pattern *)
  replace_all_absent : forall s c t, break_at c s = None -> replace_all_copy s (String c EmptyString) t = s;
}.

(** ** unquote.hpp *)

(** [unquote]: outside and inside of a pair of delimiters.  When the text ends
    inside, the iterator stands at the end and is advanced once more; the
    exception behind the loop is not reached. *)
Fixpoint unquote_loop (delimiter escape : ascii) (inside : bool) (s : string) : outcome string :=
  match inside, s with
  | false, EmptyString => Ok EmptyString
  | false, String ch s' =>
      if ascii_dec ch delimiter then unquote_loop delimiter escape true s'
      else r ← unquote_loop delimiter escape false s'; Ok (String ch r)
  | true, EmptyString => Err (UB "unquote: iterator past the end")
  | true, String ch s' =>
      if ascii_dec ch escape then
        match s' with
        | EmptyString => Err (UB "unquote: *end")
        | String ch' s'' => r ← unquote_loop delimiter escape true s''; Ok (String ch' r)
        end
      else if ascii_dec ch delimiter then unquote_loop delimiter escape false s'
      else r ← unquote_loop delimiter escape true s'; Ok (String ch r)
  end.

Definition quote : ascii := "034"%char.
Definition comma : ascii := ","%char.
Definition backslash : ascii := "\"%char.
Definition backspace : ascii := "008"%char.

(** [unquote(s)], and [unquote] with backspace as the escape character *)
Definition unquote (s : string) : outcome string := unquote_loop quote backslash false s.
Definition unquote_bs (s : string) : outcome string := unquote_loop quote backspace false s.

(** ** Sections *)

(** [class SectionValues], in the order of the file *)
Definition SectionValues : Type := list (string * string).

(** [SectionValues::operator[]] *)
Definition section_get (sp : SectionValues) (key : string) : string :=
  match list_find (fun kv => kv.1 = key) sp with
  | Some (_, kv) => kv.2
  | None => NOT_SET
  end.

(** [ZSPDataType]: a null pointer is [None] *)
Definition ZSPDataType : Type := smap (option SectionValues).

(** [sp->...] *)
Definition sp_deref (sp : option SectionValues) : outcome SectionValues :=
  match sp with Some v => Ok v | None => Err (UB "sp is NULL") end.

(** [SectionValues::getName] *)
Definition getName (sp : SectionValues) : outcome string :=
  let ret := section_get sp "NAME" in
  if decide (ret <> NOT_SET) then unquote_bs ret else Ok NOT_SET.

(** what [fgets(buffer, sizeof(buffer), f)] delivers one after the other: at
    most 1023 characters, up to and including a newline *)
Fixpoint fgets_chunks (room : nat) (s : string) : list string :=
  match s with
  | EmptyString => []
  | String c s' =>
      match room with
      | O | S O => String c EmptyString :: fgets_chunks 1023 s'
      | S room' =>
          if ascii_dec c newline then String c EmptyString :: fgets_chunks 1023 s'
          else match s' with
               | EmptyString => [String c EmptyString]
               | _ => match fgets_chunks room' s' with
                      | [] => [String c EmptyString]
                      | l :: ls => String c l :: ls
                      end
               end
      end
  end.
Definition fgets_lines (s : string) : list string := map c_str (fgets_chunks 1023 s).

(** ** Sounds *)

Record Sample : Type := mkSample {
  fileName : string;
  wav : string;
  loopStartPos : Z;
  loopEndPos : Z;
}.
Definition Sample0 : Sample := mkSample NOT_SET NOT_SET 0 0.

(** [Sample::operator bool] *)
Definition sample_set (s : Sample) : bool := negb (bool_decide (fileName s = NOT_SET)).

(** [loopStart], [loop] and [loopEnd]; [substr(pos, n)] throws when [pos] is
    behind the text, and a negative [n] is a huge [size_t] *)
Definition substr (s : string) (pos n : Z) : outcome string :=
  let len := Z.of_nat (String.length s) in
  if len <? size_t pos then Err (Throw "basic_string::substr")
  else Ok (String.substring (Z.to_nat pos) (Z.to_nat (Z.min (size_t n) (len - pos))) s).
Definition loaded (s : Sample) : outcome string :=
  if decide (wav s <> NOT_SET) then Ok (wav s) else Err (Throw "file not loaded").
Definition loopStart (s : Sample) : outcome string := w ← loaded s; substr w 0 (loopStartPos s).
Definition loop (s : Sample) : outcome string :=
  w ← loaded s; substr w (loopStartPos s) (loopEndPos s - loopStartPos s).
Definition loopEnd (s : Sample) : outcome string :=
  w ← loaded s; substr w (loopEndPos s) (Z.of_nat (String.length w) - loopEndPos s).

Definition CFG_FUNC_SOUND_N : Z := 18.
Definition CFG_FUNC_SOUND_BOIL : nat := 0.
Definition CFG_FUNC_SOUND_BRAKE : nat := 2.
Definition CFG_FUNC_SOUND_ENTWAESSERN : nat := 3.
Definition CFG_FUNC_SOUND_ABFAHRT : nat := 4.
Definition CFG_FUNC_SOUND_HORN : nat := 5.
Definition CFG_FUNC_SOUND_EMOTOR : nat := 6.

Record DiSoundStepType : Type := mkDiStep { up : Sample; down : Sample; run : Sample; limit : Z }.
Definition DiSoundStep0 : DiSoundStepType := mkDiStep Sample0 Sample0 Sample0 255.

(** [ch[3][maxSlots]] row by row; [ms] is not initialised *)
Record SteamSoundStepType : Type := mkSteamStep { ch : list (list Sample); ms : option Z }.
Definition maxSlots : Z := 6.
Definition SteamSoundStep0 : SteamSoundStepType := mkSteamStep (repeat (repeat Sample0 6) 3) None.

(** the two classes derived from [SoundType] *)
Inductive engine : Type :=
  | DiSoundType (nsteps : Z) (steps : list DiSoundStepType)
  | SteamSoundType (nsteps nslots : Z) (steps : list SteamSoundStepType).
Record SoundType : Type := mkSoundType {
  lok : Z;
  funcSound : list Sample;
  funcSoundVolume : list (option Z);
  kind : engine;
}.
Definition di_maxSteps : Z := 20.
Definition steam_maxSteps : Z := 5.
Definition new_sound (lok : Z) (e : engine) : SoundType :=
  mkSoundType lok (repeat Sample0 18) (repeat None 18) e.
Definition set_funcSound (i : nat) (s : Sample) (t : SoundType) : SoundType :=
  mkSoundType (lok t) (<[i:=s]> (funcSound t)) (funcSoundVolume t) (kind t).
Definition set_funcSoundVolume (i : nat) (v : Z) (t : SoundType) : SoundType :=
  mkSoundType (lok t) (funcSound t) (<[i:=Some v]> (funcSoundVolume t)) (kind t).

(** ** The project reader *)

(** the globals of zsp.cpp *)
Record ZSP : Type := mkZSP {
  ZSPData : ZSPDataType;
  cfg_soundFiles : option SoundType;
  soundsetPath : string;
}.

Section zsp.
Context `{B : Boost}.

(** one round of the loop over the lines: [section], [sp], [ZSPData] *)
Definition zsp_line (buffer : string) (st : string * option SectionValues * ZSPDataType)
    : outcome (string * option SectionValues * ZSPDataType) :=
  let '(section, sp, data) := st in
  let line := boost_trim buffer in
  if boost_starts_with line (String quote "/") then Ok (EmptyString, sp, mmap_insert section sp data)
  else if decide (section = EmptyString) then
    line ← unquote line;
    if decide (line = EmptyString) then Ok st else Ok (line, Some [], data)
  else
    '(subsection, value) ← match break_at comma line with
                           | Some (a, v) => a' ← unquote a; Ok (a', v)
                           | None => Ok (line, EmptyString)
                           end;
    match sp with
    | None => Ok st
    | Some values => Ok (section, Some (values ++ [(subsection, value)]), data)
    end.

Fixpoint zsp_lines (l : list string) (st : string * option SectionValues * ZSPDataType)
    : outcome (string * option SectionValues * ZSPDataType) :=
  match l with
  | [] => Ok st
  | line :: l' => st' ← zsp_line line st; zsp_lines l' st'
  end.

(** the file, added to what [ZSPData] held *)
Definition read_sections (text : string) (data : ZSPDataType) : outcome ZSPDataType :=
  '(_, data') ← zsp_lines (fgets_lines text) (EmptyString, None, data); Ok data'.

(** [ZSPData.find(key)] up to [ZSPData.end()] *)
Fixpoint from_key (key : string) (data : ZSPDataType) : ZSPDataType :=
  match data with
  | [] => []
  | (k, v) :: data' => if decide (k = key) then data else from_key key data'
  end.

(** [getSample]: the loop runs to the end of the multimap *)
Fixpoint find_sample (path number : string) (l : ZSPDataType) : outcome Sample :=
  match l with
  | [] => Err (Throw "invalid sample number")
  | (_, sp) :: l' =>
      sp ← sp_deref sp;
      if decide (section_get sp "NUMMER" = number) then
        pfad ← unquote_bs (section_get sp "PFAD");
        name ← unquote_bs (section_get sp "NAME");
        l1 ← stoi (section_get sp "L1");
        l2 ← stoi (section_get sp "L2");
        Ok (mkSample (path +:+ "/" +:+ replace_all_copy pfad (String backslash EmptyString) "/" +:+ name) NOT_SET l1 l2)
      else find_sample path number l'
  end.
Definition getSample (path number : string) (data : ZSPDataType) : outcome Sample :=
  find_sample path number (from_key "Sample" data).

(** [steps[i]] of an array of [n] elements *)
Definition at_step {A} (i : Z) (steps : list A) : outcome A :=
  if i <? 0 then Err (UB "steps[i]")
  else match steps !! Z.to_nat i with Some s => Ok s | None => Err (UB "steps[i]") end.

Definition int_add (a b : Z) : outcome Z := if int32b (a + b) then Ok (a + b) else Err (UB "signed overflow").

(** the two kinds of entries [parseDiSet] uses *)
Definition di_sample (path : string) (data : ZSPDataType) (nsteps : Z) (value : string) (steps : list DiSoundStepType)
    : outcome (list DiSoundStepType) :=
  match break_at comma value with
  | None => Ok steps
  | Some (nr, number) =>
      sample ← getSample path number data;
      let n := atoi (c_str nr) in
      let fahrstufe := Z.quot n 3 in
      if nsteps <=? fahrstufe then Err (Abort "fahrstufe < soundFiles->nsteps")
      else
        s ← at_step fahrstufe steps;
        let s' := match Z.rem n 3 with
                  | 0 => mkDiStep sample (down s) (run s) (limit s)
                  | 1 => mkDiStep (up s) (down s) sample (limit s)
                  | 2 => mkDiStep (up s) sample (run s) (limit s)
                  | _ => s
                  end in
        Ok (<[Z.to_nat fahrstufe:=s']> steps)
  end.

Definition set_limit (v : Z) (s : DiSoundStepType) : DiSoundStepType := mkDiStep (up s) (down s) (run s) v.
(** [it->second.substr(komma+1, komma2)]: the second argument is a length *)
Definition schwelle_text (value : string) : string * string :=
  match break_at comma value with
  | None => (value, value)
  | Some (a, rest) =>
      (a, match break_at comma rest with
          | None => rest
          | Some (b, _) => String.substring 0 (String.length a + 1 + String.length b) rest
          end)
  end.
Definition di_schwelle (nsteps : Z) (value : string) (steps : list DiSoundStepType) : outcome (list DiSoundStepType) :=
  let '(a, b) := schwelle_text value in
  let fahrstufe := atoi (c_str a) in
  n1 ← int_add nsteps 1;
  if fahrstufe <? n1 then
    s ← at_step fahrstufe steps;
    Ok (<[Z.to_nat fahrstufe:=set_limit (atoi (c_str b)) s]> steps)
  else Ok steps.

Fixpoint di_entries (path : string) (data : ZSPDataType) (nsteps : Z) (l : SectionValues) (steps : list DiSoundStepType)
    : outcome (list DiSoundStepType) :=
  match l with
  | [] => Ok steps
  | (key, value) :: l' =>
      steps ← (if decide (key = "SAMPLE") then di_sample path data nsteps value steps else Ok steps);
      steps ← (if decide (key = "SCHWELLE") then di_schwelle nsteps value steps else Ok steps);
      di_entries path data nsteps l' steps
  end.

(** [SectionValues::parseDiSet] *)
Definition parseDiSet (sp : SectionValues) : M ZSP SoundType :=
  z ← get;
  match cfg_soundFiles z with
  | Some _ => fail (Abort "cfg_soundFiles == NULL")
  | None =>
      lift (lok ← stoi (section_get sp "NUMMER");
            stufen ← stoi (section_get sp "STUFEN");
            nsteps ← int_add stufen 1;
            steps ← di_entries (soundsetPath z) (ZSPData z) nsteps sp (repeat DiSoundStep0 20);
            Ok (new_sound lok (DiSoundType nsteps (alter (set_limit 1) 0%nat steps))))
  end.

(** the samples of one speed step of a steam engine: [it] is the rest of the
    section; a failing [getSample] leaves the slot as it is *)
Fixpoint steam_slots (path : string) (data : ZSPDataType) (slots : nat) (it : SectionValues) : outcome (list (option Sample) * SectionValues) :=
  match slots with
  | O => Ok ([], it)
  | S slots' =>
      match it with
      | [] => Err (UB "it == end()")
      | (first, _) :: it' =>
          sample ← match (stoi first;; getSample path first data) with
                   | Ok s => Ok (Some s)
                   | Err (Throw _) => Ok None
                   | Err e => Err e
                   end;
          '(rest, it'') ← steam_slots path data slots' it';
          Ok (sample :: rest, it'')
      end
  end.
Definition put_slots (l : list (option Sample)) (row : list Sample) : list Sample :=
  zip_with (fun o s => match o with Some s' => s' | None => s end) l row ++ drop (length l) row.

Definition steam_step (path : string) (data : ZSPDataType) (nslots : nat) (it : SectionValues) (s : SteamSoundStepType)
    : outcome (SteamSoundStepType * SectionValues) :=
  '(h, it) ← steam_slots path data nslots it;
  '(m, it) ← steam_slots path data nslots it;
  '(l, it) ← steam_slots path data nslots it;
  match it with
  | [] => Err (UB "it == end()")
  | (first, _) :: it' =>
      v ← stoi first;
      Ok (mkSteamStep (zip_with put_slots [h; m; l] (ch s)) (Some v), it')
  end.
Fixpoint steam_steps (path : string) (data : ZSPDataType) (nslots : nat) (n : nat) (it : SectionValues) (steps : list SteamSoundStepType)
    : outcome (list SteamSoundStepType) :=
  match n, steps with
  | O, _ => Ok steps
  | S _, [] => Err (UB "steps[step]")
  | S n', s :: steps' =>
      '(s', it') ← steam_step path data nslots it s;
      rest ← steam_steps path data nslots n' it' steps';
      Ok (s' :: rest)
  end.

(** the loop up to the first entry without a value *)
Fixpoint skip_to_numbers (it : SectionValues) : outcome SectionValues :=
  match it with
  | [] => Err (UB "it == end()")
  | (_, second) :: it' => if decide (second = EmptyString) then Ok it else skip_to_numbers it'
  end.

(** [SectionValues::parseDSet] *)
Definition parseDSet (sp : SectionValues) : M ZSP SoundType :=
  z ← get;
  lift (slots ← stoi (section_get sp "SLOTS");
        nslots ← int_add slots 1;
        if maxSlots <? nslots then Err (Abort "soundFiles->nslots <= SteamSoundStepType::maxSlots")
        else
          nsteps ← stoi (section_get sp "STUFEN");
          if steam_maxSteps <? nsteps then Err (Abort "soundFiles->nsteps <= SteamSoundType::maxSteps")
          else
            lok ← stoi (section_get sp "NUMMER");
            it ← skip_to_numbers sp;
            steps ← steam_steps (soundsetPath z) (ZSPData z) (Z.to_nat nslots) (Z.to_nat nsteps) it (repeat SteamSoundStep0 5);
            Ok (new_sound lok (SteamSoundType nsteps nslots steps))).

(** the first set with this name *)
Fixpoint find_set (name : string) (l : list (option SectionValues)) : outcome (option SectionValues) :=
  match l with
  | [] => Ok None
  | sp :: l' =>
      sp ← sp_deref sp;
      setName ← getName sp;
      if decide (setName = name) then Ok (Some sp) else find_set name l'
  end.

(** one of the "Abl" sections: the function sounds *)
Definition load_abl (sp : option SectionValues) : M ZSP unit :=
  z ← get;
  t ← match cfg_soundFiles z with Some t => mret t | None => fail (UB "cfg_soundFiles is NULL") end;
  sp ← lift (sp_deref sp);
  ablLok ← lift (stoi (section_get sp "LOK"));
  let ablLok := if 32 <=? ablLok then ablLok - 32 else ablLok in
  if ablLok =? lok t then
    nummer ← lift (stoi (section_get sp "NUMMER"));
    if (nummer <? 0) || (CFG_FUNC_SOUND_N <=? nummer) then fail (Abort "invalid Abl::NUMMER")
    else
      sample ← lift (getSample (soundsetPath z) (section_get sp "SAMPLE") (ZSPData z));
      modify (fun z => mkZSP (ZSPData z) (set_funcSound (Z.to_nat nummer) sample <$> cfg_soundFiles z) (soundsetPath z));;
      volume ← lift (stoi (section_get sp "LAUTST"));
      modify (fun z => mkZSP (ZSPData z) (set_funcSoundVolume (Z.to_nat nummer) volume <$> cfg_soundFiles z) (soundsetPath z))
  else mret tt.

Definition overrideConfigNames : list string :=
  ["sound.boil"; "sound.glocke"; "sound.brake"; "sound.entwaessern"; "sound.abfahrt"; "sound.horn"].
Definition set_fileName (f : string) (s : Sample) : Sample := mkSample f (wav s) (loopStartPos s) (loopEndPos s).
Definition override_sounds (config : Config) (t : SoundType) : SoundType :=
  mkSoundType (lok t)
    (imap (fun i s => match overrideConfigNames !! i with
                      | Some key => let f := Config_get key config in if decide (f <> NOT_SET) then set_fileName f s else s
                      | None => s
                      end) (funcSound t))
    (funcSoundVolume t) (kind t).

(** [soundsetFile.find_last_of('/')]: the text in front of it *)
Definition dir_of (s : string) : option string :=
  (fun ab => string_rev ab.2) <$> break_at "/" (string_rev s).

Definition set_cfg (t : option SoundType) : M ZSP unit := modify (fun z => mkZSP (ZSPData z) t (soundsetPath z)).

(** [loadZSP]; [file] is what [fopen] finds *)
Definition loadZSP (config : Config) (file : string -> option string) : M ZSP (option SoundType) :=
  let soundsetFile := Config_get "soundset" config in
  if decide (soundsetFile = NOT_SET) then mret None
  else
    modify (fun z => mkZSP (ZSPData z) (cfg_soundFiles z) (default (soundsetPath z) (dir_of soundsetFile)));;
    match file soundsetFile with
    | None => fail (Abort "error loading sound fileset")
    | Some text =>
        z ← get;
        data ← lift (read_sections text (ZSPData z));
        modify (fun z => mkZSP data (cfg_soundFiles z) (soundsetPath z));;
        let name := Config_get "sound.name" config in
        if decide (name = NOT_SET) then fail (Abort "sound.name not set in config file")
        else
          di ← lift (find_set name (mmap_range "DiSet" data));
          match di with
          | Some sp => t ← parseDiSet sp; set_cfg (Some t)
          | None =>
              d ← lift (find_set name (mmap_range "DSet" data));
              match d with
              | Some sp => t ← parseDSet sp; set_cfg (Some t)
              | None => fail (Abort "D*Set Name not found")
              end
          end;;
          iterM load_abl (mmap_range "Abl" data);;
          modify (fun z => mkZSP (ZSPData z) (override_sounds config <$> cfg_soundFiles z) (soundsetPath z));;
          gets cfg_soundFiles
    end.
End zsp.
