(* ===== verification/Zpp.v ===== *)
(** * bluetoothserver/zpp2zsp.cpp: from a decoder image to a sound project

    The tool reads the binary image of a sound decoder and writes a project
    that [loadZSP] reads, with a wav file per sample.  Text goes to a string
    here, wav files to a list; the conversion of names to UTF-8 is Boost's, and
    whether a plain [char] is signed depends on the machine: both are
    parameters. *)

From Stdlib Require Import Ascii.
From S2P Require Import Prelude StdMap CString Utils Zsp.

(** ** Text *)

Definition endl : string := String newline EmptyString.
Definition quoted (s : string) : string := String quote s +:+ String quote EmptyString.

(** lines of a project: a key with a value, or a number alone *)
Inductive zline : Type :=
  | Pair (key value : string)
  | Bare (text : string).
Definition line_text (l : zline) : string :=
  match l with
  | Pair key value => quoted key +:+ String comma value
  | Bare text => text
  end.
Definition lines_text (ls : list zline) : string :=
  foldr (fun l t => line_text l +:+ endl +:+ t) EmptyString ls.

Record zsection : Type := mkSection { sec_name : string; sec_lines : list zline }.
Definition section_text (s : zsection) : string :=
  quoted (sec_name s) +:+ endl +:+ lines_text (sec_lines s) +:+ quoted ("/" +:+ sec_name s) +:+ endl.
Definition sections_text (l : list zsection) : string := foldr (fun s t => section_text s +:+ t) EmptyString l.

Definition num (key : string) (z : Z) : zline := Pair key (to_string z).

(** ** The image *)

Section zpp.
Context (char_signed : bool) (to_utf : string -> string).

(** [data[i]] of a [std::string]: the terminator can be read *)
Definition char_at (data : string) (i : Z) : outcome ascii :=
  if i <? 0 then Err (UB "data[i]")
  else match String.get (Z.to_nat i) data with
       | Some c => Ok c
       | None => if i =? Z.of_nat (String.length data) then Ok NUL else Err (UB "data[i]")
       end.
Definition uchar_at (data : string) (i : Z) : outcome Z := c ← char_at data i; Ok (chr c).
Definition plain (c : ascii) : Z := if char_signed && (128 <=? chr c) then chr c - 256 else chr c.
Definition plain_at (data : string) (i : Z) : outcome Z := c ← char_at data i; Ok (plain c).

Definition be24 (data : string) (i : Z) : outcome Z :=
  a ← uchar_at data i; b ← uchar_at data (i + 1); c ← uchar_at data (i + 2); Ok (a * 65536 + b * 256 + c).
Definition le24 (data : string) (i : Z) : outcome Z :=
  a ← uchar_at data i; b ← uchar_at data (i + 1); c ← uchar_at data (i + 2); Ok (c * 65536 + b * 256 + a).
(** the pointers into the tables are read through plain [char] *)
Definition be16 (data : string) (i : Z) : outcome Z :=
  a ← plain_at data i; b ← plain_at data (i + 1); Ok (a * 256 + b).

Definition ZPP_FLAG_LOOP : Z := 8.
Definition ZPP_FLAG_SHORT : Z := 64.
Definition flag (flags mask : Z) : Z := if Z.land flags mask =? 0 then 0 else 1.

Definition sample_lines (i : nat) (infoName : string) (soundType flags wavLen wavLoopStart wavLoopEnd : Z) : list zline :=
  [num "NUMMER" (Z.of_nat i + 1); Pair "PFAD" (quoted EmptyString); Pair "NAME" (quoted (infoName +:+ ".wav"));
   num "ART" soundType; num "SIZE" wavLen; num "L1" wavLoopStart; num "L2" wavLoopEnd;
   num "Event1Pos" 0; num "Event1Typ" 0; num "Event1Akt" 0;
   num "Event2Pos" wavLoopEnd; num "Event2Typ" 0; num "Event2Akt" 0; num "SR" 2;
   Pair "INFO" (quoted infoName); num "LOOP" (flag flags ZPP_FLAG_LOOP); num "SHORT" (flag flags ZPP_FLAG_SHORT);
   num "FNR" 70].

(** the name of sample [i]; [wavEnd] is the address of its last byte *)
Definition info_name (data : string) (i : nat) (wavEnd : Z) : outcome string :=
  if wavEnd <? Z.of_nat (String.length data) then
    uchar_at data (wavEnd + 1);; uchar_at data (wavEnd + 2);;
    infoLen ← uchar_at data (wavEnd + 3);
    infoName ← substr data (wavEnd + 4) infoLen;
    Ok (if infoLen =? 0 then to_string (Z.of_nat i) else to_utf infoName)
  else Ok ("no-name" +:+ to_string (Z.of_nat i)).

(** an entry of the sample table: its section and its wav file, or nothing *)
Definition zpp_sample (data : string) (i : nat) : outcome (option (zsection * (string * string))) :=
  address ← be24 data (Z.of_nat i * 4 + 1);
  soundType ← uchar_at data (Z.of_nat i * 4);
  if (0 <? address) && (address <? Z.of_nat (String.length data)) then
    uchar_at data (address + 15);;
    flags ← uchar_at data address;
    wavEnd ← le24 data (address + 1);
    wavLoopStartAddr ← le24 data (address + 4);
    wavLoopEndAddr ← le24 data (address + 7);
    infoName ← info_name data i wavEnd;
    let wavLen := wavEnd - (address + 10) + 1 in
    wavData ← substr data (address + 10) wavLen;
    Ok (Some (mkSection "Sample" (sample_lines i infoName soundType flags wavLen
                (wavLoopStartAddr - (address + 10)) (wavLoopEndAddr - (address + 10))),
              (infoName +:+ ".wav", wavData)))
  else Ok None.

Fixpoint zpp_samples (data : string) (n i : nat) : outcome (list zsection * list (string * string)) :=
  match n with
  | O => Ok ([], [])
  | S n' =>
      s ← zpp_sample data i;
      '(ss, ws) ← zpp_samples data n' (S i);
      Ok (match s with Some (sec, w) => (sec :: ss, w :: ws) | None => (ss, ws) end)
  end.

(** the function sounds of locomotive [i] *)
Definition abl_section (i j : nat) (id soundLevel : Z) : zsection :=
  mkSection "Abl" [num "LOK" (Z.of_nat i); num "NUMMER" (Z.of_nat j); num "SAMPLE" id; num "LAUTST" soundLevel].
Fixpoint abl_entries (data : string) (offset : Z) (i n j : nat) : outcome (list zsection) :=
  match n with
  | O => Ok []
  | S n' =>
      id ← uchar_at data (offset + Z.of_nat j * 2);
      soundLevel ← uchar_at data (offset + Z.of_nat j * 2 + 1);
      rest ← abl_entries data offset i n' (S j);
      Ok (if id =? 0 then rest else abl_section i j id soundLevel :: rest)
  end.
Fixpoint zpp_abl (data : string) (n i : nat) : outcome (list zsection) :=
  match n with
  | O => Ok []
  | S n' =>
      offset ← be16 data (2208 + Z.of_nat i * 2);
      here ← (if offset =? 0 then Ok [] else abl_entries data (offset + 123) i 18 0);
      rest ← zpp_abl data n' (S i);
      Ok (here ++ rest)
  end.

(** diesel and electric engines *)
Definition di_step_lines (data : string) (address stufen s : Z) : outcome (list zline) :=
  let schwelle_addr := address + 39 + Z.quot (stufen - 1) 10 * 30 + (s - 1) * 2 in
  schwelle ← uchar_at data schwelle_addr;
  uchar_at data (schwelle_addr + 1);;
  a ← plain_at data (address + 8 + s * 3);
  b ← plain_at data (address + 9 + s * 3);
  c ← plain_at data (address + 10 + s * 3);
  Ok [Pair "SCHWELLE" (to_string s +:+ "," +:+ to_string schwelle +:+ ",64");
      Pair "SAMPLE" (to_string (s * 3 + 3) +:+ "," +:+ to_string a);
      Pair "SAMPLE" (to_string (s * 3 + 4) +:+ "," +:+ to_string b);
      Pair "SAMPLE" (to_string (s * 3 + 5) +:+ "," +:+ to_string c)].
Fixpoint di_steps_lines (data : string) (address stufen : Z) (n : nat) (s : Z) : outcome (list zline) :=
  match n with
  | O => Ok []
  | S n' => here ← di_step_lines data address stufen s; rest ← di_steps_lines data address stufen n' (s + 1); Ok (here ++ rest)
  end.
Fixpoint first_samples (data : string) (address : Z) (n : nat) (k : Z) : outcome (list zline) :=
  match n with
  | O => Ok []
  | S n' =>
      id ← plain_at data (address + 5 + k);
      rest ← first_samples data address n' (k + 1);
      Ok (Pair "SAMPLE" (to_string k +:+ "," +:+ to_string id) :: rest)
  end.
Definition di_section (data : string) (i : nat) (address : Z) : outcome zsection :=
  stufen ← plain_at data address;
  typ ← plain_at data (address + 1);
  plain_at data (address + 2);;
  six ← first_samples data address 6 0;
  more ← di_steps_lines data address stufen (Z.to_nat (stufen - 1)) 1;
  Ok (mkSection "DiSet"
        ([num "NUMMER" (Z.of_nat i); Pair "NAME" (quoted ("unknown-" +:+ to_string (Z.of_nat i)));
          num "STUFEN" stufen; num "TYP" typ] ++ six ++ more ++ [num "PANTOAUS" 0; num "HG_SCHALTWERK" 0])).
Fixpoint zpp_di (data : string) (n i : nat) : outcome (list zsection) :=
  match n with
  | O => Ok []
  | S n' =>
      address ← be16 data (2112 + Z.of_nat i * 2);
      if address =? 0 then Ok []
      else s ← di_section data i address; rest ← zpp_di data n' (S i); Ok (s :: rest)
  end.

(** steam engines *)
Fixpoint read_delays (data : string) (pos : Z) (room : nat) : outcome (list Z * Z) :=
  match room with
  | O => Err (Abort "too many anz stufen???")
  | S room' =>
      d ← uchar_at data pos;
      if d =? 255 then Ok ([], pos + 1)
      else '(ds, pos') ← read_delays data (pos + 1) room'; Ok (d :: ds, pos')
  end.
Definition delay_text (d : Z) : outcome string :=
  if d =? 221 then Ok "120" else if d =? 215 then Ok "140" else if d =? 212 then Ok "150"
  else if d =? 0 then Ok "0" else Err (Abort "unknown delay!").
Definition slot_lines (first_id : Z) (schlaege : Z) : list zline :=
  map (fun k => Bare (to_string (first_id + Z.of_nat k))) (seq 0 (Z.to_nat (schlaege + 1))).
Fixpoint steam_lines (data : string) (schlaege : Z) (delays : list Z) (pos : Z) : outcome (list zline * Z) :=
  match delays with
  | [] => Ok ([], pos)
  | d :: delays' =>
      first_id_h ← uchar_at data pos;
      first_id_l ← uchar_at data (pos + 1);
      first_id_m ← uchar_at data (pos + 2);
      t ← delay_text d;
      '(rest, pos') ← steam_lines data schlaege delays' (pos + 3);
      Ok (slot_lines first_id_h schlaege ++ slot_lines first_id_m schlaege ++ slot_lines first_id_l schlaege ++ Bare t :: rest, pos')
  end.
Definition d_section (data : string) (i : nat) (address : Z) : outcome zsection :=
  schlaege ← uchar_at data address;
  '(delays, pos) ← read_delays data (address + 1) 10;
  '(lines, pos) ← steam_lines data schlaege (delays ++ [0]) pos;
  n1 ← uchar_at data pos;
  n2 ← uchar_at data (pos + 1);
  if (negb (n1 =? 0)) || (negb (n2 =? 0)) then Err (Abort "error end not found")
  else Ok (mkSection "DSet"
    ([num "NUMMER" (Z.of_nat i); Pair "NAME" (String quote ("unknown-" +:+ to_string (Z.of_nat i)));
      num "STUFEN" (Z.of_nat (length delays)); num "SLOTS" schlaege] ++ lines ++ [num "PANTOAUS" 0])).
(** the pointer is read at the same place in every round *)
Fixpoint zpp_d (data : string) (n i : nat) : outcome (list zsection) :=
  match n with
  | O => Ok []
  | S n' =>
      address ← be16 data 2048;
      if address =? 0 then Ok []
      else s ← d_section data i address; rest ← zpp_d data n' (S i); Ok (s :: rest)
  end.

(** the project of an image without its header *)
Definition zpp_sections (data : string) : outcome (list zsection * list (string * string)) :=
  len ← uchar_at data 2560;
  (if 0 <? len then uchar_at data (2560 + len - 1) else Ok 0);;
  '(samples, wavs) ← zpp_samples data 128 0;
  abl ← zpp_abl data 64 0;
  di ← zpp_di data 32 0;
  d ← zpp_d data 32 0;
  Ok (samples ++ abl ++ di ++ d, wavs).

(** [main]: exit code, text of generated.zsp and wav files; [folder_ready] is
    the result of looking for and creating the folder *)
Definition zpp_main (argv1 : string) (folder_ready : bool) (zpp : string) : outcome (Z * option (string * list (string * string))) :=
  if negb (endsWith argv1 ".zpp") then Ok (1, None)
  else
    let len := Z.of_nat (String.length argv1) in
    let baseFolder := String.substring 0 (Z.to_nat (Z.min (size_t (len - 4)) len)) argv1 in
    if negb folder_ready then Ok (1, None)
    else if (String.length zpp <? 128)%nat then Ok (1, None)
    else
      s ← char_at zpp 0; p ← char_at zpp 1;
      if negb (bool_decide (s = "S"%char)) || negb (bool_decide (p = "P"%char)) then Ok (1, None)
      else
        headerSize ← uchar_at zpp 8;
        if negb (headerSize =? 128) then Ok (1, None)
        else
          data ← substr zpp headerSize (Z.of_nat (String.length zpp));
          '(ss, ws) ← zpp_sections data;
          Ok (0, Some (sections_text ss, map (fun w => (baseFolder +:+ "/" +:+ w.1, w.2)) ws)).
End zpp.
