(* ===== verification/ZppProps.v ===== *)
(** * The sound project: what zpp2zsp writes, loadZSP reads

    The text of a project is read back section by section, and the engine
    sounds of a decoder image arrive in the speed steps of the sound thread. *)

From Stdlib Require Import Ascii.
From S2P Require Import Prelude StdMap CString Utils Zsp Zpp.

(** ** Texts *)

(** a text without the characters of a list *)
Definition without (l : list ascii) : string -> bool := str_forall (fun c => negb (bool_decide (c ∈ l))).

Lemma without_sub l l' s : l' ⊆ l -> without l s = true -> without l' s = true.
Proof.
  intros Hl. apply str_forall_mono. intros c. rewrite !negb_true_iff, !bool_decide_eq_false. set_solver.
Qed.

Lemma without_cons l c s : without l (String c s) = true <-> c ∉ l /\ without l s = true.
Proof. unfold without. cbn. by rewrite andb_true_iff, negb_true_iff, bool_decide_eq_false. Qed.
Lemma without_app l a b : without l (a +:+ b) = true <-> without l a = true /\ without l b = true.
Proof. unfold without. by rewrite str_forall_app, andb_true_iff. Qed.

Lemma break_at_without c a b : without [c] a = true -> break_at c (a +:+ String c b) = Some (a, b).
Proof.
  induction a as [|d a IH]; [strsimpl; by destruct (ascii_dec c c)|].
  intros [Hd Ha]%without_cons. strsimpl. destruct (ascii_dec d c) as [->|]; [set_solver|]. by rewrite IH.
Qed.
Lemma break_at_none c a : without [c] a = true -> break_at c a = None.
Proof.
  induction a as [|d a IH]; [done|]. intros [Hd Ha]%without_cons. cbn. destruct (ascii_dec d c) as [->|]; [set_solver|].
  by rewrite IH.
Qed.

Lemma unquote_loop_plain d e s : without [d] s = true -> unquote_loop d e false s = Ok s.
Proof.
  induction s as [|c s IH]; [done|]. intros [Hc Hs]%without_cons. cbn. destruct (ascii_dec c d) as [->|]; [set_solver|].
  by rewrite IH.
Qed.

(** a quoted text *)
Lemma unquote_loop_quoted d e s t : d <> e -> without [d; e] s = true ->
  unquote_loop d e true (s +:+ String d t) = r ← unquote_loop d e false t; Ok (s +:+ r).
Proof.
  intros E. induction s as [|c s IH].
  - intros _. strsimpl. destruct (ascii_dec d e); [done|]. destruct (ascii_dec d d); [|done].
    by destruct (unquote_loop d e false t).
  - intros [Hc Hs]%without_cons. strsimpl. destruct (ascii_dec c e) as [->|]; [set_solver|].
    destruct (ascii_dec c d) as [->|]; [set_solver|]. rewrite IH by done. by destruct (unquote_loop d e false t).
Qed.

Lemma unquote_quoted s : without [quote; backslash] s = true -> unquote (quoted s) = Ok s.
Proof.
  intros Hs. unfold unquote, quoted. strsimpl. change (ascii_dec quote quote) with (@left (quote = quote) (quote <> quote) eq_refl).
  rewrite unquote_loop_quoted by done. cbn. by rewrite string_app_nil.
Qed.
Lemma unquote_bs_quoted s : without [quote; backspace] s = true -> unquote_bs (quoted s) = Ok s.
Proof.
  intros Hs. unfold unquote_bs, quoted. strsimpl. change (ascii_dec quote quote) with (@left (quote = quote) (quote <> quote) eq_refl).
  rewrite unquote_loop_quoted by done. cbn. by rewrite string_app_nil.
Qed.

(** ** Lines *)

(** a line that [fgets] and [trim] leave as it is *)
Record line_ok (t : string) : Prop := mkLineOk {
  lo_chars : without [newline; NUL] t = true;
  lo_short : (String.length t < 1023)%nat;
  lo_stripped : stripped t;
  lo_nonempty : t <> EmptyString;
}.

Lemma fgets_line room l rest : without [newline] l = true -> (String.length l < room)%nat ->
  fgets_chunks room (l +:+ String newline rest) = (l +:+ endl) :: fgets_chunks 1023 rest.
Proof.
  revert room. induction l as [|c l IH]; intros room Hl Hr.
  - strsimpl. destruct room as [|[|room]]; [cbn in Hr; lia|done|]. by destruct (ascii_dec newline newline).
  - apply without_cons in Hl as [Hc Hl]. cbn in Hr. destruct room as [|[|room]]; [lia|lia|]. strsimpl.
    destruct (ascii_dec c newline) as [->|]; [set_solver|]. rewrite (IH (S room) Hl) by lia.
    by destruct (l +:+ String newline rest) eqn:E; [destruct l|].
Qed.

Lemma c_str_line l : without [NUL] l = true -> c_str (l +:+ endl) = l +:+ endl.
Proof.
  induction l as [|c l IH]; [done|]. intros [Hc Hl]%without_cons. strsimpl.
  destruct (ascii_dec c NUL) as [->|]; [set_solver|]. by rewrite IH.
Qed.

Definition join_lines (ts : list string) : string := foldr (fun t r => t +:+ endl +:+ r) EmptyString ts.

Lemma join_lines_app a b : join_lines (a ++ b) = join_lines a +:+ join_lines b.
Proof. unfold join_lines. induction a as [|t a IH]; [done|]. cbn [app foldr]. rewrite IH. by rewrite !string_app_assoc. Qed.

Lemma fgets_lines_join ts : Forall line_ok ts -> fgets_lines (join_lines ts) = map (fun t => t +:+ endl) ts.
Proof.
  unfold fgets_lines. induction 1 as [|t ts [Hc Hs _ _] _ IH]; [done|]. cbn [join_lines foldr]. unfold endl at 1. strsimpl.
  rewrite fgets_line; [|by eapply without_sub; [|exact Hc]; set_solver|done]. cbn [map]. fold (join_lines ts). rewrite IH.
  f_equal. apply c_str_line. eapply without_sub; [|exact Hc]. set_solver.
Qed.

(** a line of a section *)
Definition zline_ok (l : zline) : Prop :=
  line_ok (line_text l) /\
  match l with
  | Pair key _ => without [quote; backslash; comma] key = true /\ String.prefix "/" key = false
  | Bare t => without [comma] t = true /\ String.prefix (String quote "/") t = false
  end.
Definition line_value (l : zline) : string * string :=
  match l with Pair key value => (key, value) | Bare t => (t, EmptyString) end.

(** a section that is read back *)
Record section_ok (s : zsection) : Prop := mkSectionOk {
  so_name : without [quote; backslash; newline; NUL] (sec_name s) = true;
  so_short : (String.length (sec_name s) < 1000)%nat;
  so_first : String.prefix "/" (sec_name s) = false;
  so_nonempty : sec_name s <> EmptyString;
  so_lines : Forall zline_ok (sec_lines s);
}.
Definition section_values (s : zsection) : SectionValues := map line_value (sec_lines s).

Section reading.
Context `{BoostLaws}.

Lemma trim_line t : line_ok t -> boost_trim (t +:+ endl) = t.
Proof. intros [_ _ Hs Hn]. by apply (boost_trim_spec EmptyString t endl). Qed.

Lemma prefix_cons c p d s : String.prefix (String c p) (String d s) = if ascii_dec c d then String.prefix p s else false.
Proof. reflexivity. Qed.
Lemma prefix_quoted key t : String.prefix (String quote "/") (quoted key +:+ t) = String.prefix "/" key.
Proof.
  unfold quoted. rewrite !string_cons_app, prefix_cons. destruct (ascii_dec quote quote); [|done].
  destruct key as [|c key]; [done|]. rewrite !string_cons_app, !prefix_cons. destruct (ascii_dec "/" c); [|done].
  by destruct key.
Qed.

Lemma zsp_line_entry l section values data : section <> EmptyString -> zline_ok l ->
  zsp_line (line_text l +:+ endl) (section, Some values, data) = Ok (section, Some (values ++ [line_value l]), data).
Proof.
  intros Hsec [Hl Hk]. unfold zsp_line. rewrite (trim_line _ Hl), boost_starts_with_spec, decide_False by done.
  destruct l as [key value|t]; cbn [line_text line_value] in *.
  - destruct Hk as [Hc Hp]. rewrite prefix_quoted, Hp.
    rewrite break_at_without.
    + rewrite unquote_quoted; [done|]. eapply without_sub; [|exact Hc]. set_solver.
    + unfold quoted. rewrite string_cons_app. apply without_cons. split; [by apply (bool_decide_eq_true_1 (quote ∉ [comma]))|].
      apply without_app. split; [|done]. eapply without_sub; [|exact Hc]. set_solver.
  - destruct Hk as [Hc Hp]. rewrite Hp. by rewrite break_at_none.
Qed.

Lemma zsp_lines_app a b st st' : zsp_lines a st = Ok st' -> zsp_lines (a ++ b) st = zsp_lines b st'.
Proof.
  revert st. induction a as [|l a IH]; intros st; cbn; [by intros [= ->]|]. destruct (zsp_line l st) as [st1|]; [|done]. cbn. apply IH.
Qed.

Lemma zsp_lines_entries ls section values data : section <> EmptyString -> Forall zline_ok ls ->
  zsp_lines (map (fun l => line_text l +:+ endl) ls) (section, Some values, data) =
    Ok (section, Some (values ++ map line_value ls), data).
Proof.
  intros Hsec F. revert values. induction F as [|l ls Hl _ IH]; intros values; [by rewrite app_nil_r|].
  cbn [map zsp_lines]. rewrite zsp_line_entry by done. cbn. rewrite IH. by rewrite <- app_assoc.
Qed.

Lemma stripped_quoted s : stripped (quoted s).
Proof.
  unfold stripped, quoted. split; [done|]. rewrite string_rev_app_distr, string_rev_cons. strsimpl. done.
Qed.

Lemma quoted_ok s : without [newline; NUL] s = true -> (String.length s < 1021)%nat -> line_ok (quoted s).
Proof.
  intros Hc Hl. split; [| |apply stripped_quoted|done].
  - unfold quoted. apply without_app. split; [|done]. apply without_cons. split; [|done].
    by apply (bool_decide_eq_true_1 (quote ∉ [newline; NUL])).
  - unfold quoted. rewrite string_app_length. cbn. lia.
Qed.

Definition section_lines (s : zsection) : list string :=
  quoted (sec_name s) :: map line_text (sec_lines s) ++ [quoted ("/" +:+ sec_name s)].

Lemma section_text_lines s : section_text s = join_lines (section_lines s).
Proof.
  unfold section_text, section_lines. cbn [join_lines foldr]. fold (join_lines (map line_text (sec_lines s) ++ [quoted ("/" +:+ sec_name s)])).
  rewrite join_lines_app. do 2 f_equal. unfold lines_text, join_lines. f_equal.
  induction (sec_lines s) as [|l ls IH]; [done|]. cbn. by rewrite IH.
Qed.

Lemma sections_text_lines ss : sections_text ss = join_lines (concat (map section_lines ss)).
Proof.
  induction ss as [|s ss IH]; [done|]. cbn [map concat]. rewrite join_lines_app, <- IH, <- section_text_lines. done.
Qed.

Lemma section_lines_ok s : section_ok s -> Forall line_ok (section_lines s).
Proof.
  intros [Hn Hs _ _ Hl]. assert (without [newline; NUL] (sec_name s) = true) as Hn' by (eapply without_sub; [|exact Hn]; set_solver).
  constructor; [apply quoted_ok; [done|lia]|]. apply Forall_app. split.
  - apply Forall_map. eapply Forall_impl; [|exact Hl]. by intros l [].
  - constructor; [|constructor]. apply quoted_ok; [|rewrite string_app_length; cbn; lia]. change ("/" +:+ sec_name s) with (String "/" (sec_name s)).
    apply without_cons. split; [|done]. by apply (bool_decide_eq_true_1 ("/"%char ∉ [newline; NUL])).
Qed.

(** a section is added when its end is read *)
Lemma zsp_lines_section s sp data : section_ok s ->
  zsp_lines (map (fun t => t +:+ endl) (section_lines s)) (EmptyString, sp, data) =
    Ok (EmptyString, Some (section_values s), mmap_insert (sec_name s) (Some (section_values s)) data).
Proof.
  intros Hok. pose proof (section_lines_ok s Hok) as Hlines. destruct Hok as [Hn Hs Hf Hne Hl].
  unfold section_lines in *. inversion Hlines as [|? ? Hhead Htail]; subst. apply Forall_app in Htail as [_ Htail].
  inversion Htail as [|? ? Hend _]; subst. cbn [map zsp_lines].
  assert (zsp_line (quoted (sec_name s) +:+ endl) (EmptyString, sp, data) = Ok (sec_name s, Some [], data)) as ->.
  { unfold zsp_line. rewrite (trim_line _ Hhead), boost_starts_with_spec.
    rewrite <- (string_app_nil (quoted _)), prefix_quoted, Hf, string_app_nil. rewrite decide_True by done.
    rewrite unquote_quoted by (eapply without_sub; [|exact Hn]; set_solver). cbn. by rewrite decide_False. }
  cbn [mbind outcome_bind]. rewrite map_app.
  erewrite zsp_lines_app by (rewrite map_map; by apply zsp_lines_entries). cbn [map zsp_lines app].
  unfold zsp_line. rewrite (trim_line _ Hend), boost_starts_with_spec.
  rewrite <- (string_app_nil (quoted _)), prefix_quoted, string_cons_app, prefix_cons.
  destruct (ascii_dec "/" "/"); [|done]. by destruct (sec_name s).
Qed.

(** the sections of a project in [ZSPData] *)
Definition add_sections (data : ZSPDataType) (ss : list zsection) : ZSPDataType :=
  foldl (fun d s => mmap_insert (sec_name s) (Some (section_values s)) d) data ss.

Lemma read_sections_text ss data : Forall section_ok ss -> read_sections (sections_text ss) data = Ok (add_sections data ss).
Proof.
  intros F. unfold read_sections. rewrite sections_text_lines, fgets_lines_join.
  2:{ induction F as [|s ss Hs F IH]; [done|]. cbn [map concat]. apply Forall_app. split; [by apply section_lines_ok|done]. }
  generalize (@None SectionValues) as sp. revert data. induction F as [|s ss Hs F IH]; intros data sp; [done|].
  cbn [map concat]. rewrite map_app. erewrite zsp_lines_app by (by apply zsp_lines_section). apply IH.
Qed.
End reading.

(** ** What zpp2zsp writes can be read *)

Lemma to_string_forall p z : p "-"%char = true -> (forall d, 0 <= d < 10 -> p (digit_chr d) = true) -> str_forall p (to_string z) = true.
Proof.
  intros Hm Hd. unfold to_string. destruct (Z.ltb_spec z 0); [|by apply udec_forall].
  cbn. rewrite Hm. apply udec_forall; [done|lia].
Qed.

Lemma udigits_length base fuel n acc : (String.length (udigits base fuel n acc) <= fuel + String.length acc)%nat.
Proof.
  revert n acc. induction fuel as [|f IH]; intros n acc; cbn [udigits]; [lia|].
  destruct (_ =? 0); [cbn; lia|]. specialize (IH (n / base) (String (digit_chr (n mod base)) acc)). cbn in IH. lia.
Qed.
Lemma to_string_length z : (String.length (to_string z) <= 65)%nat.
Proof.
  unfold to_string, udec. destruct (z <? 0); cbn [String.length];
    [pose proof (udigits_length 10 64 (- z) EmptyString)|pose proof (udigits_length 10 64 z EmptyString)]; cbn [String.length] in *; lia.
Qed.
Lemma to_string_ne z : to_string z <> EmptyString.
Proof.
  unfold to_string. destruct (Z.ltb_spec z 0); [done|]. unfold udec.
  destruct (udigits_head 10 64 z EmptyString) as (d & s & _ & -> & _); [lia..|]. done.
Qed.

(** the characters of numbers *)
Definition numeric (c : ascii) : bool := bool_decide (c = "-"%char) || (digit_val c <? 10).
Lemma to_string_numeric z : str_forall numeric (to_string z) = true.
Proof.
  apply to_string_forall; [done|]. intros d Hd. unfold numeric. rewrite digit_chr_val by lia.
  rewrite (proj2 (Z.ltb_lt _ _)) by lia. apply orb_true_r.
Qed.
Lemma numeric_without l s : forallb (fun c => negb (numeric c)) l = true -> str_forall numeric s = true -> without l s = true.
Proof.
  intros Hl. apply str_forall_mono. intros c Hc. rewrite negb_true_iff, bool_decide_eq_false. intros Hin.
  rewrite forallb_forall in Hl. specialize (Hl c). rewrite Hc in Hl. by discriminate Hl; apply list_elem_of_In.
Qed.

(** the end of a value *)
Definition ends_ok (v : string) : Prop := v <> EmptyString /\ take_while isspace (string_rev v) = EmptyString.
Lemma ends_ok_app a v : ends_ok v -> ends_ok (a +:+ v).
Proof.
  intros [Hn He]. split; [by destruct a; [rewrite string_nil_app|]|]. rewrite string_rev_app_distr.
  destruct (string_rev v) as [|c s] eqn:E.
  - exfalso. apply Hn. by rewrite <- (string_rev_involutive v), E.
  - rewrite string_cons_app. cbn in He |- *. by destruct (isspace c).
Qed.
Lemma ends_ok_quoted s : ends_ok (quoted s).
Proof. split; [done|apply stripped_quoted]. Qed.
Lemma ends_ok_spaceless s : s <> EmptyString -> str_forall (fun c => negb (isspace c)) s = true -> ends_ok s.
Proof.
  intros Hn Hs. split; [done|]. destruct (string_rev s) as [|c t] eqn:E; [done|]. cbn.
  assert (s = string_rev t +:+ String c EmptyString) as Es by (rewrite <- (string_rev_involutive s), E; apply string_rev_cons).
  rewrite Es, str_forall_app in Hs. apply andb_true_iff in Hs as [_ Hs]. cbn in Hs. by destruct (isspace c).
Qed.
Lemma numeric_not_space c : numeric c = true -> isspace c = false.
Proof.
  unfold numeric, isspace, digit_val. intros [->%bool_decide_eq_true|Hc]%orb_true_iff; [done|].
  destruct (Z.leb_spec 48 (chr c)); cbn in *.
  - rewrite orb_false_iff, andb_false_iff, Z.eqb_neq, Z.leb_gt, Z.leb_gt. lia.
  - destruct (97 <=? chr c) eqn:E1; [apply Z.leb_le in E1; lia|]. destruct (65 <=? chr c) eqn:E2; [apply Z.leb_le in E2; lia|done].
Qed.
Lemma ends_ok_number z : ends_ok (to_string z).
Proof.
  apply ends_ok_spaceless; [apply to_string_ne|]. eapply str_forall_mono; [|apply to_string_numeric].
  intros c Hc. by rewrite (numeric_not_space c Hc).
Qed.

Definition key_ok (key : string) : bool :=
  without [quote; backslash; comma; newline; NUL] key && negb (String.prefix "/" key) && (String.length key <? 100)%nat.
Record value_ok (v : string) : Prop := mkValueOk {
  vo_chars : without [newline; NUL] v = true;
  vo_short : (String.length v < 800)%nat;
  vo_ends : ends_ok v;
}.

Lemma pair_ok key value : key_ok key = true -> value_ok value -> zline_ok (Pair key value).
Proof.
  unfold key_ok. rewrite !andb_true_iff, negb_true_iff, Nat.ltb_lt. intros [[Hc Hp] Hl] [Vc Vs Ve]. split.
  - cbn [line_text]. split.
    + apply without_app. split.
      * apply quoted_ok; [|lia]. eapply without_sub; [|exact Hc]. set_solver.
      * apply without_cons. split; [by apply (bool_decide_eq_true_1 (comma ∉ [newline; NUL]))|done].
    + unfold quoted. rewrite !string_app_length. cbn. lia.
    + split; [done|]. change (String comma value) with (String comma EmptyString +:+ value). by apply ends_ok_app, ends_ok_app.
    + done.
  - split; [|done]. eapply without_sub; [|exact Hc]. set_solver.
Qed.

Lemma value_ok_number z : value_ok (to_string z).
Proof.
  split; [|pose proof (to_string_length z); lia|apply ends_ok_number].
  apply (numeric_without [newline; NUL]); [done|apply to_string_numeric].
Qed.
Lemma num_ok key z : key_ok key = true -> zline_ok (num key z).
Proof. intros Hk. apply pair_ok; [done|apply value_ok_number]. Qed.

Lemma bare_ok z : zline_ok (Bare (to_string z)).
Proof.
  destruct (value_ok_number z) as [Vc Vs Ve]. split.
  - split; [done|cbn; lia| |apply Ve]. split; [|apply Ve]. cbn.
    assert (str_forall numeric (to_string z) = true) as Hn by apply to_string_numeric.
    destruct (to_string z) as [|c s] eqn:E; [done|]. cbn.
    cbn in Hn. apply andb_true_iff in Hn as [Hc _]. by rewrite (numeric_not_space c Hc).
  - split.
    + apply (numeric_without [comma]); [done|apply to_string_numeric].
    + assert (without [quote] (to_string z) = true) as Hq by (apply numeric_without; [done|apply to_string_numeric]).
      destruct (to_string z) as [|c s]; [done|]. apply without_cons in Hq as [Hc _]. rewrite prefix_cons.
      destruct (ascii_dec quote c) as [<-|]; [set_solver|done].
Qed.

(** the names zpp2zsp finds or makes up *)
Record name_ok (n : string) : Prop := mkNameOk {
  no_chars : without [quote; backspace; newline; NUL] n = true;
  no_short : (String.length n < 700)%nat;
}.

Lemma value_ok_quoted n : name_ok n -> value_ok (quoted n).
Proof.
  intros [Hc Hs]. split; [|unfold quoted; rewrite string_app_length; cbn; lia|apply ends_ok_quoted].
  apply quoted_ok; [|lia]. eapply without_sub; [|exact Hc]. set_solver.
Qed.
Lemma name_ok_wav n : name_ok n -> (String.length n < 690)%nat -> name_ok (n +:+ ".wav").
Proof.
  intros [Hc _] Hs. split; [by apply without_app|]. rewrite string_app_length. cbn. lia.
Qed.
Lemma name_ok_number t z : without [quote; backspace; newline; NUL] t = true -> (String.length t < 100)%nat -> name_ok (t +:+ to_string z).
Proof.
  intros Ht Hl. split.
  - apply without_app. split; [done|]. apply numeric_without; [done|apply to_string_numeric].
  - rewrite string_app_length. pose proof (to_string_length z). lia.
Qed.
Lemma value_ok_list z v : value_ok v -> (String.length v < 700)%nat -> value_ok (to_string z +:+ String comma v).
Proof.
  intros [Hc _ He] Hs. split.
  - apply without_app. split; [by destruct (value_ok_number z)|]. apply without_cons.
    split; [by apply (bool_decide_eq_true_1 (comma ∉ [newline; NUL]))|done].
  - rewrite string_app_length. cbn. pose proof (to_string_length z). lia.
  - change (String comma v) with (String comma EmptyString +:+ v). by apply ends_ok_app, ends_ok_app.
Qed.

Lemma section_ok_make name ls : key_ok name = true -> name <> EmptyString -> Forall zline_ok ls -> section_ok (mkSection name ls).
Proof.
  unfold key_ok. rewrite !andb_true_iff, negb_true_iff, Nat.ltb_lt. intros [[Hc Hp] Hl] Hn F.
  split; cbn; [|lia|done|done|done]. eapply without_sub; [|exact Hc]. set_solver.
Qed.

Ltac zlines := repeat first [apply Forall_nil_2 | apply Forall_cons_2 | apply Forall_app_2];
  try (apply num_ok; reflexivity).

Lemma sample_lines_ok i n ty fl len a b : name_ok n -> (String.length n < 690)%nat -> Forall zline_ok (sample_lines i n ty fl len a b).
Proof.
  intros Hn Hl. unfold sample_lines. zlines; (apply pair_ok; [reflexivity|]); apply value_ok_quoted; [|by apply name_ok_wav|done].
  by apply (mkNameOk EmptyString eq_refl); cbn; lia.
Qed.

Section generated.
Context (char_signed : bool) (to_utf : string -> string) (data : string).

(** the name of the sample in entry [j] of the table *)
Definition sample_name (j : nat) : outcome (option string) :=
  address ← be24 data (Z.of_nat j * 4 + 1);
  if (0 <? address) && (address <? Z.of_nat (String.length data)) then
    wavEnd ← le24 data (address + 1); name ← info_name to_utf data j wavEnd; Ok (Some name)
  else Ok None.
(** names without quotes and control characters *)
Definition names_ok : Prop := forall j name, (j < 128)%nat -> sample_name j = Ok (Some name) ->
  name_ok name /\ (String.length name < 690)%nat.

Lemma zpp_samples_ok n i ss ws : names_ok -> (i + n <= 128)%nat ->
  zpp_samples to_utf data n i = Ok (ss, ws) -> Forall section_ok ss.
Proof.
  intros Hname. revert i ss ws. induction n as [|n IH]; intros i ss ws Hi; cbn [zpp_samples]; [by intros [= <- <-]|].
  intros (s & Hs & H)%outcome_bind_ok. apply outcome_bind_ok in H as ([ss' ws'] & Hr & H). apply IH in Hr; [|lia].
  destruct s as [[sec w]|]; injection H as <- <-; [|done]. constructor; [|done].
  unfold zpp_sample in Hs. apply outcome_bind_ok in Hs as (ad & Had & Hs). apply outcome_bind_ok in Hs as (st & _ & Hs).
  destruct (_ && _) eqn:Hin; [|done].
  apply outcome_bind_ok in Hs as (? & _ & Hs). apply outcome_bind_ok in Hs as (fl & _ & Hs).
  apply outcome_bind_ok in Hs as (e & He & Hs). apply outcome_bind_ok in Hs as (la & _ & Hs). apply outcome_bind_ok in Hs as (lb & _ & Hs).
  apply outcome_bind_ok in Hs as (nm & Hn & Hs). apply outcome_bind_ok in Hs as (wd & _ & [= <- _]).
  destruct (Hname i nm) as [Hok Hl]; [lia| |]. { unfold sample_name. rewrite Had. cbn. rewrite Hin, He. cbn. by rewrite Hn. }
  apply section_ok_make; [done|done|]. by apply sample_lines_ok.
Qed.

Lemma abl_entries_ok offset i n j ss : abl_entries data offset i n j = Ok ss -> Forall section_ok ss.
Proof.
  revert j ss. induction n as [|n IH]; intros j ss; cbn [abl_entries]; [by intros [= <-]|].
  intros (id & _ & H)%outcome_bind_ok. apply outcome_bind_ok in H as (lv & _ & H). apply outcome_bind_ok in H as (rest & Hr & [= <-]).
  apply IH in Hr. destruct (id =? 0); [done|]. constructor; [|done]. apply section_ok_make; [done|done|]. zlines.
Qed.
Lemma zpp_abl_ok n i ss : zpp_abl char_signed data n i = Ok ss -> Forall section_ok ss.
Proof.
  revert i ss. induction n as [|n IH]; intros i ss; cbn [zpp_abl]; [by intros [= <-]|].
  intros (off & _ & H)%outcome_bind_ok. apply outcome_bind_ok in H as (here & Hh & H).
  apply outcome_bind_ok in H as (rest & Hr & [= <-]). apply Forall_app. split; [|by eapply IH].
  destruct (off =? 0); [by injection Hh as <-|by eapply abl_entries_ok].
Qed.

Lemma sample_entry_ok a b : zline_ok (Pair "SAMPLE" (to_string a +:+ "," +:+ to_string b)).
Proof.
  apply pair_ok; [done|]. change ("," +:+ to_string b) with (String comma (to_string b)).
  apply value_ok_list; [apply value_ok_number|]. pose proof (to_string_length b). lia.
Qed.
Lemma schwelle_entry_ok a b : zline_ok (Pair "SCHWELLE" (to_string a +:+ "," +:+ to_string b +:+ ",64")).
Proof.
  apply pair_ok; [done|]. change ("," +:+ to_string b +:+ ",64") with (String comma (to_string b +:+ String comma (to_string 64))).
  pose proof (to_string_length b). pose proof (to_string_length 64).
  apply value_ok_list; [apply value_ok_list; [apply value_ok_number|lia]|rewrite string_app_length; cbn [String.length]; lia].
Qed.

Lemma first_samples_ok address n k ls : first_samples char_signed data address n k = Ok ls -> Forall zline_ok ls.
Proof.
  revert k ls. induction n as [|n IH]; intros k ls; cbn [first_samples]; [by intros [= <-]|].
  intros (id & _ & H)%outcome_bind_ok. apply outcome_bind_ok in H as (rest & Hr & [= <-]).
  constructor; [apply sample_entry_ok|by eapply IH].
Qed.
Lemma di_steps_ok address stufen n s ls : di_steps_lines char_signed data address stufen n s = Ok ls -> Forall zline_ok ls.
Proof.
  revert s ls. induction n as [|n IH]; intros s ls; cbn [di_steps_lines]; [by intros [= <-]|].
  intros (here & Hh & H)%outcome_bind_ok. apply outcome_bind_ok in H as (rest & Hr & [= <-]).
  apply Forall_app. split; [|by eapply IH]. unfold di_step_lines in Hh.
  apply outcome_bind_ok in Hh as (sw & _ & Hh). apply outcome_bind_ok in Hh as (? & _ & Hh). apply outcome_bind_ok in Hh as (a & _ & Hh).
  apply outcome_bind_ok in Hh as (b & _ & Hh). apply outcome_bind_ok in Hh as (c & _ & [= <-]).
  zlines; first [apply sample_entry_ok | apply schwelle_entry_ok].
Qed.
Lemma di_section_ok i address s : di_section char_signed data i address = Ok s -> section_ok s.
Proof.
  unfold di_section. intros (st & _ & H)%outcome_bind_ok. apply outcome_bind_ok in H as (ty & _ & H).
  apply outcome_bind_ok in H as (? & _ & H). apply outcome_bind_ok in H as (six & Hsix & H).
  apply outcome_bind_ok in H as (more & Hmore & [= <-]). apply section_ok_make; [done|done|]. cbn [app].
  zlines; [|by eapply first_samples_ok|by eapply di_steps_ok].
  apply pair_ok; [done|]. apply value_ok_quoted, name_ok_number; [done|cbn; lia].
Qed.
Lemma zpp_di_ok n i ss : zpp_di char_signed data n i = Ok ss -> Forall section_ok ss.
Proof.
  revert i ss. induction n as [|n IH]; intros i ss; cbn [zpp_di]; [by intros [= <-]|].
  intros (ad & _ & H)%outcome_bind_ok. destruct (ad =? 0); [by injection H as <-|].
  apply outcome_bind_ok in H as (s & Hs & H). apply outcome_bind_ok in H as (rest & Hr & [= <-]).
  constructor; [by eapply di_section_ok|by eapply IH].
Qed.

Lemma slot_lines_ok id schlaege : Forall zline_ok (slot_lines id schlaege).
Proof. unfold slot_lines. apply Forall_map. apply Forall_true. intros k. apply bare_ok. Qed.
Lemma delay_ok d t : delay_text d = Ok t -> zline_ok (Bare t).
Proof.
  unfold delay_text. intros H. repeat (case_match; [injection H as <-|]); [..|done];
    first [apply (bare_ok 120) | apply (bare_ok 140) | apply (bare_ok 150) | apply (bare_ok 0)].
Qed.
Lemma steam_lines_ok schlaege ds pos ls pos' : steam_lines data schlaege ds pos = Ok (ls, pos') -> Forall zline_ok ls.
Proof.
  revert pos ls pos'. induction ds as [|d ds IH]; intros pos ls pos'; cbn [steam_lines]; [by intros [= <- _]|].
  intros (h & _ & H)%outcome_bind_ok. apply outcome_bind_ok in H as (l & _ & H). apply outcome_bind_ok in H as (m & _ & H).
  apply outcome_bind_ok in H as (t & Ht & H). apply outcome_bind_ok in H as ([rest p] & Hr & [= <- _]).
  repeat apply Forall_app_2; try apply slot_lines_ok. constructor; [by eapply delay_ok|by eapply IH].
Qed.
Lemma d_section_ok i address s : d_section data i address = Ok s -> section_ok s.
Proof.
  unfold d_section. intros (sl & _ & H)%outcome_bind_ok. apply outcome_bind_ok in H as ([ds p] & _ & H).
  apply outcome_bind_ok in H as ([ls p'] & Hls & H). apply outcome_bind_ok in H as (n1 & _ & H).
  apply outcome_bind_ok in H as (n2 & _ & H). destruct (_ || _); [done|]. injection H as <-.
  apply section_ok_make; [done|done|]. cbn [app]. zlines; [|by eapply steam_lines_ok].
  apply pair_ok; [done|]. destruct (name_ok_number "unknown-" (Z.of_nat i) eq_refl ltac:(cbn; lia)) as [Hc Hs].
  split.
  - apply without_cons. split; [by apply (bool_decide_eq_true_1 (quote ∉ [newline; NUL]))|]. eapply without_sub; [|exact Hc]. set_solver.
  - cbn [String.length]. lia.
  - apply (ends_ok_app (String quote "unknown-")), ends_ok_number.
Qed.
Lemma zpp_d_ok n i ss : zpp_d char_signed data n i = Ok ss -> Forall section_ok ss.
Proof.
  revert i ss. induction n as [|n IH]; intros i ss; cbn [zpp_d]; [by intros [= <-]|].
  intros (ad & _ & H)%outcome_bind_ok. destruct (ad =? 0); [by injection H as <-|].
  apply outcome_bind_ok in H as (s & Hs & H). apply outcome_bind_ok in H as (rest & Hr & [= <-]).
  constructor; [by eapply d_section_ok|by eapply IH].
Qed.

Lemma zpp_sections_ok ss ws : names_ok ->
  zpp_sections char_signed to_utf data = Ok (ss, ws) -> Forall section_ok ss.
Proof.
  intros Hname. unfold zpp_sections. intros (len & _ & H)%outcome_bind_ok. apply outcome_bind_ok in H as (? & _ & H).
  apply outcome_bind_ok in H as ([sm w] & Hsm & H). apply outcome_bind_ok in H as (abl & Habl & H).
  apply outcome_bind_ok in H as (di & Hdi & H). apply outcome_bind_ok in H as (d & Hd & [= <- <-]).
  repeat apply Forall_app_2; [by eapply zpp_samples_ok; [| |exact Hsm]; [done|lia]|by eapply zpp_abl_ok|by eapply zpp_di_ok|by eapply zpp_d_ok].
Qed.
End generated.

(** ** What the project holds *)

Section multimap.
Context {V : Type}.
Implicit Types (m : smap V).

Lemma mmap_range_cons k k0 (v0 : V) m : mmap_range k ((k0, v0) :: m) = (if decide (k0 = k) then [v0] else []) ++ mmap_range k m.
Proof. unfold mmap_range, filter. cbn. by case_decide. Qed.

Lemma mmap_range_absent k m : Forall (fun x => x <> k) m.*1 -> mmap_range k m = [].
Proof.
  induction m as [|[k0 v0] m IH]; [done|]. intros F. inversion F; subst. rewrite mmap_range_cons, decide_False by done. by apply IH.
Qed.

Lemma mmap_range_insert k k' (v : V) m : mmap_wf m ->
  mmap_range k' (mmap_insert k v m) = mmap_range k' m ++ (if decide (k = k') then [v] else []).
Proof.
  unfold mmap_wf. induction m as [|[k0 v0] m IH]; intros Hs; cbn [mmap_insert].
  { rewrite mmap_range_cons. cbn. by rewrite app_nil_r. }
  inversion Hs as [|? ? Hs' Hall]; subst. destruct (String.compare k k0) eqn:E.
  - rewrite !mmap_range_cons, IH by done. by rewrite app_assoc.
  - rewrite mmap_range_cons. destruct (decide (k = k')) as [->|]; [|by rewrite app_nil_r].
    rewrite (mmap_range_absent k' ((k0, v0) :: m)); [done|]. apply str_lt_leb in E as [Hle Hne]. cbn.
    constructor; [congruence|]. eapply Forall_impl; [|exact Hall]. cbn. intros x Hx ->.
    apply Hne. by apply (anti_symm String.le).
  - rewrite !mmap_range_cons, IH by done. by rewrite app_assoc.
Qed.
End multimap.

Lemma add_sections_wf data ss : mmap_wf data -> mmap_wf (add_sections data ss).
Proof.
  unfold add_sections. revert data. induction ss as [|s ss IH]; intros data Hd; [done|]. cbn. apply IH. by apply mmap_wf_insert.
Qed.

(** the sections with a name, in the order of the file *)
Definition named (k : string) (ss : list zsection) : list SectionValues := section_values <$> filter (fun s => sec_name s = k) ss.

Lemma named_app k a b : named k (a ++ b) = named k a ++ named k b.
Proof. unfold named. by rewrite list.filter_app, fmap_app. Qed.

Lemma add_sections_range k data ss : mmap_wf data ->
  mmap_range k (add_sections data ss) = mmap_range k data ++ map Some (named k ss).
Proof.
  unfold add_sections. revert data. induction ss as [|s ss IH]; intros data Hd; [by rewrite app_nil_r|]. cbn [foldl].
  rewrite IH by (by apply mmap_wf_insert). rewrite mmap_range_insert by done. rewrite <- app_assoc. f_equal.
  unfold named. rewrite filter_cons. by destruct (decide (sec_name s = k)).
Qed.

Lemma from_key_range k (data : ZSPDataType) : mmap_wf data -> exists rest, from_key k data = map (pair k) (mmap_range k data) ++ rest.
Proof.
  unfold mmap_wf. induction data as [|[k0 v0] m IH]; intros Hs; [by exists []|]. cbn [from_key].
  inversion Hs as [|? ? Hs' Hall]; subst. rewrite mmap_range_cons. destruct (decide (k0 = k)) as [->|]; [|by apply IH].
  clear IH Hs. cbn. enough (exists rest, m = map (pair k) (mmap_range k m) ++ rest) as [rest E] by (exists rest; by rewrite E at 1).
  induction m as [|[k1 v1] m IH]; [by exists []|]. inversion Hs' as [|? ? Hs1 Hall1]; subst. inversion Hall as [|? ? Hk Hall']; subst.
  rewrite mmap_range_cons. destruct (decide (k1 = k)) as [->|Hne].
  - destruct (IH Hs1 Hall') as [rest E]. exists rest. cbn. by rewrite E at 1.
  - rewrite mmap_range_absent; [by exists ((k1, v1) :: m)|]. eapply Forall_impl; [|exact Hall1]. cbn. intros x Hx ->.
    apply Hne. by apply (anti_symm String.le).
Qed.

(** ** Samples *)

Lemma uchar_at_range data i z : uchar_at data i = Ok z -> 0 <= z < 256.
Proof.
  unfold uchar_at. intros (c & _ & [= <-])%outcome_bind_ok. unfold chr.
  pose proof (N_ascii_bounded c). lia.
Qed.
Lemma be24_range data i z : be24 data i = Ok z -> 0 <= z < 2^24.
Proof.
  unfold be24. intros (a & Ha & H)%outcome_bind_ok. apply outcome_bind_ok in H as (b & Hb & H).
  apply outcome_bind_ok in H as (c & Hc & [= <-]). apply uchar_at_range in Ha, Hb, Hc. lia.
Qed.
Lemma le24_range data i z : le24 data i = Ok z -> 0 <= z < 2^24.
Proof.
  unfold le24. intros (a & Ha & H)%outcome_bind_ok. apply outcome_bind_ok in H as (b & Hb & H).
  apply outcome_bind_ok in H as (c & Hc & [= <-]). apply uchar_at_range in Ha, Hb, Hc. lia.
Qed.

Lemma to_string_inj a b : is_int32 a -> is_int32 b -> to_string a = to_string b -> a = b.
Proof.
  intros Ha Hb E. apply std_stoi_to_string in Ha, Hb. rewrite E in Ha. congruence.
Qed.
Lemma to_string_not_set z : to_string z <> NOT_SET.
Proof.
  intros E. pose proof (to_string_numeric z) as Hn. by rewrite E in Hn.
Qed.
Lemma stoi_number z : is_int32 z -> stoi (to_string z) = Ok z.
Proof.
  intros Hz. unfold stoi. rewrite decide_False by apply to_string_not_set. by rewrite std_stoi_to_string.
Qed.

Section samples.
Context `{BoostLaws} (to_utf : string -> string) (path data : string).

(** what the image says about sample [j] *)
Definition image_sample (j : nat) : outcome Sample :=
  address ← be24 data (Z.of_nat j * 4 + 1);
  wavEnd ← le24 data (address + 1);
  l1 ← le24 data (address + 4);
  l2 ← le24 data (address + 7);
  name ← info_name to_utf data j wavEnd;
  Ok (mkSample (path +:+ "/" +:+ name +:+ ".wav") NOT_SET (l1 - (address + 10)) (l2 - (address + 10))).

(** sample [j] is in the table of the image *)
Definition has_sample (j : nat) : Prop := exists x, zpp_sample to_utf data j = Ok (Some x).

Lemma zpp_sample_shape j sec w : zpp_sample to_utf data j = Ok (Some (sec, w)) ->
  exists name ty fl len a b, sample_name to_utf data j = Ok (Some name) /\
    sec = mkSection "Sample" (sample_lines j name ty fl len a b) /\ is_int32 a /\ is_int32 b /\
    image_sample j = Ok (mkSample (path +:+ "/" +:+ name +:+ ".wav") NOT_SET a b).
Proof.
  unfold zpp_sample, image_sample, sample_name. intros (ad & Had & Hs)%outcome_bind_ok. apply outcome_bind_ok in Hs as (st & _ & Hs).
  destruct (_ && _) eqn:Hin; [|done].
  apply outcome_bind_ok in Hs as (? & _ & Hs). apply outcome_bind_ok in Hs as (fl & _ & Hs).
  apply outcome_bind_ok in Hs as (e & He & Hs). apply outcome_bind_ok in Hs as (la & Hla & Hs). apply outcome_bind_ok in Hs as (lb & Hlb & Hs).
  apply outcome_bind_ok in Hs as (nm & Hn & Hs). apply outcome_bind_ok in Hs as (wd & _ & [= <- _]).
  exists nm, st, fl, (e - (ad + 10) + 1), (la - (ad + 10)), (lb - (ad + 10)).
  rewrite Had. cbn. rewrite Hin, He. cbn. rewrite Hla. cbn. rewrite Hlb. cbn. rewrite Hn.
  apply be24_range in Had. apply le24_range in Hla, Hlb. unfold is_int32. split_and!; done || lia.
Qed.

(** the section of sample [j] among those of the table *)
Lemma zpp_samples_split n i ss ws j : zpp_samples to_utf data n i = Ok (ss, ws) -> has_sample j -> (i <= j < i + n)%nat ->
  exists sec w l1 l2, zpp_sample to_utf data j = Ok (Some (sec, w)) /\ ss = l1 ++ sec :: l2 /\
    Forall (fun s => exists j' w, (j' < j)%nat /\ zpp_sample to_utf data j' = Ok (Some (s, w))) l1.
Proof.
  intros Hz [[sec w] Hj]. revert i ss ws Hz. induction n as [|n IH]; intros i ss ws; cbn [zpp_samples]; [lia|].
  intros (s & Hs & H1)%outcome_bind_ok Hij. apply outcome_bind_ok in H1 as ([ss' ws'] & Hr & H1).
  destruct (decide (i = j)) as [->|].
  - rewrite Hj in Hs. injection Hs as <-. injection H1 as <- <-. by exists sec, w, [], ss'.
  - destruct (IH _ _ _ Hr) as (sec' & w' & l1 & l2 & E1 & -> & F); [lia|]. destruct s as [[s ws0]|]; injection H1 as <- <-.
    + exists sec', w', (s :: l1), l2. split_and!; [done|done|]. constructor; [|done]. exists i, ws0. split; [lia|done].
    + by exists sec', w', l1, l2.
Qed.

Lemma sample_number i name ty fl len a b : section_get (map line_value (sample_lines i name ty fl len a b)) "NUMMER" = to_string (Z.of_nat i + 1).
Proof. reflexivity. Qed.

(** a sample is found behind sections with other numbers *)
Lemma find_sample_skip number l l' : Forall (fun sp => section_get sp "NUMMER" <> number) l ->
  find_sample path number (map (pair "Sample") (map Some l) ++ l') = find_sample path number l'.
Proof.
  induction 1 as [|sp l Hsp _ IH]; [done|].
  cbn [map app find_sample sp_deref mbind outcome_bind]. rewrite decide_False by done. exact IH.
Qed.

Lemma find_sample_here j name ty fl len a b l : name_ok name -> is_int32 a -> is_int32 b ->
  find_sample path (to_string (Z.of_nat j + 1)) (("Sample", Some (map line_value (sample_lines j name ty fl len a b))) :: l) =
    Ok (mkSample (path +:+ "/" +:+ name +:+ ".wav") NOT_SET a b).
Proof.
  intros [Hc _] Ha Hb. cbn [find_sample sp_deref mbind outcome_bind]. rewrite sample_number, decide_True by done.
  set (sp := map line_value _).
  change (section_get sp "PFAD") with (quoted EmptyString). change (section_get sp "NAME") with (quoted (name +:+ ".wav")).
  change (section_get sp "L1") with (to_string a). change (section_get sp "L2") with (to_string b).
  rewrite (unquote_bs_quoted EmptyString) by done. cbn [mbind outcome_bind].
  rewrite unquote_bs_quoted by (apply without_app; split; [eapply without_sub; [|exact Hc]; set_solver|done]). cbn [mbind outcome_bind].
  rewrite !stoi_number by done. cbn [mbind outcome_bind]. by rewrite replace_all_absent.
Qed.

Lemma zpp_samples_named n i ss ws k : zpp_samples to_utf data n i = Ok (ss, ws) ->
  named k ss = if decide (k = "Sample") then section_values <$> ss else [].
Proof.
  revert i ss ws. induction n as [|n IH]; intros i ss ws; cbn [zpp_samples]; [intros [= <- <-]; by case_decide|].
  intros (s & Hs & H1)%outcome_bind_ok. apply outcome_bind_ok in H1 as ([ss' ws'] & Hr & H1). apply IH in Hr.
  destruct s as [[sec w]|]; injection H1 as <- <-; [|done].
  destruct (zpp_sample_shape _ _ _ Hs) as (nm & ty & fl & len & a & b & _ & -> & _).
  unfold named in *. rewrite list.filter_cons. cbn [sec_name]. case_decide as E1; case_decide as E2; try congruence; cbn; by rewrite Hr.
Qed.

(** the sample with number [j + 1] *)
Lemma sample_found ss ws zdata j :
  names_ok to_utf data -> zpp_samples to_utf data 128 0 = Ok (ss, ws) -> mmap_wf zdata -> mmap_range "Sample" zdata = map Some (section_values <$> ss) ->
  has_sample j -> (j < 128)%nat ->
  getSample path (to_string (Z.of_nat j + 1)) zdata = image_sample j /\ exists s, image_sample j = Ok s.
Proof.
  intros Hname Hz Hwf Hr Hj Hlt. destruct (zpp_samples_split _ _ _ _ j Hz Hj) as (sec & w & l1 & l2 & Hs & -> & F); [lia|].
  destruct (zpp_sample_shape _ _ _ Hs) as (name & ty & fl & len & a & b & Hn & -> & Ha & Hb & Him).
  rewrite Him. split; [|by eexists]. unfold getSample. destruct (from_key_range "Sample" zdata Hwf) as [rest ->].
  rewrite Hr, fmap_app, map_app, map_app, <- app_assoc. rewrite find_sample_skip.
  - apply find_sample_here; [by eapply Hname|done|done].
  - apply Forall_fmap. eapply Forall_impl; [|exact F]. intros s (j' & w' & Hlt' & Hs'). cbn.
    destruct (zpp_sample_shape _ _ _ Hs') as (name' & ty' & fl' & len' & a' & b' & _ & -> & _).
    unfold section_values. cbn [sec_lines]. rewrite sample_number. intros E.
    apply to_string_inj in E; [lia|unfold is_int32; lia..].
Qed.
End samples.

(** ** The parts of the project *)

Lemma named_all k k' ss : Forall (fun s => sec_name s = k) ss -> named k' ss = if decide (k' = k) then section_values <$> ss else [].
Proof.
  intros F. unfold named. induction F as [|s ss Hs _ IH]; [by case_decide|]. rewrite list.filter_cons, Hs.
  destruct (decide (k = k')), (decide (k' = k)); try congruence; cbn; by rewrite IH.
Qed.

Section parts.
Context (char_signed : bool) (to_utf : string -> string) (data : string).

Lemma abl_names offset i n j ss : abl_entries data offset i n j = Ok ss -> Forall (fun s => sec_name s = "Abl") ss.
Proof.
  revert j ss. induction n as [|n IH]; intros j ss; cbn [abl_entries]; [by intros [= <-]|].
  intros (id & _ & H)%outcome_bind_ok. apply outcome_bind_ok in H as (lv & _ & H). apply outcome_bind_ok in H as (rest & Hr & [= <-]).
  apply IH in Hr. destruct (id =? 0); [done|]. by constructor.
Qed.
Lemma zpp_abl_names n i ss : zpp_abl char_signed data n i = Ok ss -> Forall (fun s => sec_name s = "Abl") ss.
Proof.
  revert i ss. induction n as [|n IH]; intros i ss; cbn [zpp_abl]; [by intros [= <-]|].
  intros (off & _ & H)%outcome_bind_ok. apply outcome_bind_ok in H as (here & Hh & H).
  apply outcome_bind_ok in H as (rest & Hr & [= <-]). apply Forall_app. split; [|by eapply IH].
  destruct (off =? 0); [by injection Hh as <-|by eapply abl_names].
Qed.
Lemma di_section_name i address s : di_section char_signed data i address = Ok s -> sec_name s = "DiSet".
Proof.
  unfold di_section. intros (st & _ & H)%outcome_bind_ok. apply outcome_bind_ok in H as (ty & _ & H).
  apply outcome_bind_ok in H as (? & _ & H). apply outcome_bind_ok in H as (six & Hsix & H).
  by apply outcome_bind_ok in H as (more & Hmore & [= <-]).
Qed.
Lemma zpp_di_names n i ss : zpp_di char_signed data n i = Ok ss -> Forall (fun s => sec_name s = "DiSet") ss.
Proof.
  revert i ss. induction n as [|n IH]; intros i ss; cbn [zpp_di]; [by intros [= <-]|].
  intros (ad & _ & H)%outcome_bind_ok. destruct (ad =? 0); [by injection H as <-|].
  apply outcome_bind_ok in H as (s & Hs & H). apply outcome_bind_ok in H as (rest & Hr & [= <-]).
  constructor; [by eapply di_section_name|by eapply IH].
Qed.
Lemma d_section_name i address s : d_section data i address = Ok s -> sec_name s = "DSet".
Proof.
  unfold d_section. intros (sl & _ & H)%outcome_bind_ok. apply outcome_bind_ok in H as ([ds p] & _ & H).
  apply outcome_bind_ok in H as ([ls p'] & Hls & H). apply outcome_bind_ok in H as (n1 & _ & H).
  apply outcome_bind_ok in H as (n2 & _ & H). destruct (_ || _); [done|]. by injection H as <-.
Qed.
Lemma zpp_d_names n i ss : zpp_d char_signed data n i = Ok ss -> Forall (fun s => sec_name s = "DSet") ss.
Proof.
  revert i ss. induction n as [|n IH]; intros i ss; cbn [zpp_d]; [by intros [= <-]|].
  intros (ad & _ & H)%outcome_bind_ok. destruct (ad =? 0); [by injection H as <-|].
  apply outcome_bind_ok in H as (s & Hs & H). apply outcome_bind_ok in H as (rest & Hr & [= <-]).
  constructor; [by eapply d_section_name|by eapply IH].
Qed.

(** the four kinds of sections *)
Lemma zpp_sections_named ss ws : zpp_sections char_signed to_utf data = Ok (ss, ws) ->
  exists sm abl di d, zpp_samples to_utf data 128 0 = Ok (sm, ws) /\ zpp_abl char_signed data 64 0 = Ok abl /\
    zpp_di char_signed data 32 0 = Ok di /\ zpp_d char_signed data 32 0 = Ok d /\ ss = sm ++ abl ++ di ++ d /\
    named "Sample" ss = section_values <$> sm /\ named "Abl" ss = section_values <$> abl /\
    named "DiSet" ss = section_values <$> di /\ named "DSet" ss = section_values <$> d.
Proof.
  unfold zpp_sections. intros (len & _ & H)%outcome_bind_ok. apply outcome_bind_ok in H as (? & _ & H).
  apply outcome_bind_ok in H as ([sm w] & Hsm & H). apply outcome_bind_ok in H as (abl & Habl & H).
  apply outcome_bind_ok in H as (di & Hdi & H). apply outcome_bind_ok in H as (d & Hd & [= <- <-]).
  exists sm, abl, di, d. split_and!; [done..| | | |]; rewrite !named_app, (zpp_samples_named to_utf EmptyString data _ _ _ _ _ Hsm),
    (named_all "Abl" _ abl), (named_all "DiSet" _ di), (named_all "DSet" _ d)
    by (first [by eapply zpp_abl_names | by eapply zpp_di_names | by eapply zpp_d_names]); cbn; by rewrite ?app_nil_r.
Qed.
End parts.

(** ** The speed steps of an engine *)

Lemma c_str_without s : without [NUL] s = true -> c_str s = s.
Proof.
  induction s as [|c s IH]; [done|]. intros [Hc Hs]%without_cons. cbn. destruct (ascii_dec c NUL) as [->|]; [set_solver|]. by rewrite IH.
Qed.
Lemma atoi_number k rest : 0 <= k < 2^31 -> starts_digit 10 rest = false -> atoi (to_string k +:+ rest) = k.
Proof. intros Hk Hr. unfold to_string. rewrite (proj2 (Z.ltb_ge _ _)) by lia. by apply atoi_udec. Qed.

Lemma atoi_number_all k : 0 <= k < 2^31 -> atoi (to_string k) = k.
Proof. intros Hk. rewrite <- (string_app_nil (to_string k)). by apply atoi_number. Qed.
Lemma substring_beyond a b n : String.substring 0 (String.length a + n) (a +:+ b) = a +:+ String.substring 0 n b.
Proof. induction a as [|c a IH]; [done|]. strsimpl. by rewrite IH. Qed.

Definition set_part (r : Z) (s : Sample) (st : DiSoundStepType) : DiSoundStepType :=
  match r with
  | 0 => mkDiStep s (down st) (run st) (limit st)
  | 1 => mkDiStep (up st) (down st) s (limit st)
  | 2 => mkDiStep (up st) s (run st) (limit st)
  | _ => st
  end.

Lemma insert_as_alter {A} (f : A -> A) (l : list A) i x : l !! i = Some x -> <[i:=f x]> l = alter f i l.
Proof.
  revert i. induction l as [|y l IH]; intros [|i] Hx; cbn in *; [done|done|congruence|]. f_equal. by apply IH.
Qed.
Lemma at_step_run {A} (steps : list A) (t : nat) st : steps !! t = Some st -> at_step (Z.of_nat t) steps = Ok st.
Proof. intros Hs. unfold at_step. rewrite (proj2 (Z.ltb_ge _ _)) by lia. by rewrite Nat2Z.id, Hs. Qed.

Section engine.
Context `{BoostLaws} (path : string) (zdata : ZSPDataType) (nsteps : Z).

Lemma di_sample_entry (t : nat) r id s l steps :
  0 <= r < 3 -> Z.of_nat t < nsteps -> (t < length steps)%nat -> (t < 1000)%nat -> getSample path (to_string id) zdata = Ok s ->
  di_entries path zdata nsteps (line_value (Pair "SAMPLE" (to_string (Z.of_nat t * 3 + r) +:+ "," +:+ to_string id)) :: l) steps =
  di_entries path zdata nsteps l (alter (set_part r s) t steps).
Proof.
  intros Hr Ht Hl Hb Hs. cbn [line_value di_entries]. rewrite decide_True by done.
  enough (di_sample path zdata nsteps (to_string (Z.of_nat t * 3 + r) +:+ "," +:+ to_string id) steps = Ok (alter (set_part r s) t steps))
    as -> by (cbn [mbind outcome_bind]; by rewrite decide_False).
  unfold di_sample. change ("," +:+ to_string id) with (String comma (to_string id)).
  rewrite break_at_without by (apply numeric_without; [done|apply to_string_numeric]). rewrite Hs. cbn [mbind outcome_bind].
  rewrite c_str_without by (apply numeric_without; [done|apply to_string_numeric]).
  rewrite atoi_number_all by lia.
  rewrite Z.quot_div_nonneg, Z.rem_mod_nonneg by lia.
  replace ((Z.of_nat t * 3 + r) / 3) with (Z.of_nat t) by (symmetry; rewrite Z.add_comm, Z.div_add, Z.div_small; lia).
  replace ((Z.of_nat t * 3 + r) mod 3) with r by (symmetry; rewrite Z.add_comm, Z.mod_add, Z.mod_small; lia).
  rewrite (proj2 (Z.leb_gt _ _)) by lia. destruct (lookup_lt_is_Some_2 steps t Hl) as [st Hst].
  rewrite (at_step_run _ _ _ Hst). cbn [mbind outcome_bind]. rewrite Nat2Z.id.
  by rewrite <- (insert_as_alter (set_part r s) _ _ _ Hst).
Qed.

Lemma di_schwelle_entry (t : nat) v l steps :
  Z.of_nat t < nsteps -> is_int32 (nsteps + 1) -> (t < length steps)%nat -> (t < 1000)%nat -> 0 <= v < 256 ->
  di_entries path zdata nsteps (line_value (Pair "SCHWELLE" (to_string (Z.of_nat t) +:+ "," +:+ to_string v +:+ ",64")) :: l) steps =
  di_entries path zdata nsteps l (alter (set_limit v) t steps).
Proof.
  intros Ht Hn Hl Hb Hv. cbn [line_value di_entries]. rewrite decide_False by done. cbn [mbind outcome_bind]. rewrite decide_True by done.
  unfold di_schwelle, schwelle_text.
  change ("," +:+ to_string v +:+ ",64") with (String comma (to_string v +:+ String comma "64")).
  assert (forall z, without [comma] (to_string z) = true) as Hc by (intros z; apply numeric_without; [done|apply to_string_numeric]).
  assert (forall z, without [NUL] (to_string z) = true) as Hz by (intros z; apply numeric_without; [done|apply to_string_numeric]).
  rewrite !break_at_without by done. rewrite c_str_without by done.
  rewrite atoi_number_all by lia.
  assert (exists r, String.substring 0 (String.length (to_string (Z.of_nat t)) + 1 + String.length (to_string v))
    (to_string v +:+ String comma "64") = to_string v +:+ r /\ starts_digit 10 r = false /\ without [NUL] r = true) as (r & -> & Hr & Hr0).
  { replace (_ + _ + _)%nat with (String.length (to_string v) + S (String.length (to_string (Z.of_nat t))))%nat by lia.
    rewrite substring_beyond. eexists. split; [done|]. cbn [String.substring].
    by destruct (String.length (to_string (Z.of_nat t))) as [|[|[|]]]. }
  rewrite c_str_without by (by apply without_app). rewrite atoi_number by (done || lia).
  unfold int_add. rewrite (proj2 (int32b_spec _) Hn). cbn [mbind outcome_bind]. rewrite (proj2 (Z.ltb_lt _ _)) by lia.
  destruct (lookup_lt_is_Some_2 steps t Hl) as [st Hst]. rewrite (at_step_run _ _ _ Hst). cbn [mbind outcome_bind]. rewrite Nat2Z.id.
  by rewrite <- (insert_as_alter (set_limit v) _ _ _ Hst).
Qed.

(** *** The tables of an engine in the image *)

Context (char_signed : bool) (data : string) (address stufen : Z) (smp : Z -> Sample).

Definition sample_id (k : Z) : Z := match plain_at char_signed data (address + 5 + k) with Ok z => z | Err _ => 0 end.
Definition schwelle (s : Z) : Z :=
  match uchar_at data (address + 39 + Z.quot (stufen - 1) 10 * 30 + (s - 1) * 2) with Ok z => z | Err _ => 0 end.
Definition sample_line (k : Z) : zline := Pair "SAMPLE" (to_string k +:+ "," +:+ to_string (sample_id k)).
Definition schwelle_line (s : Z) : zline := Pair "SCHWELLE" (to_string s +:+ "," +:+ to_string (schwelle s) +:+ ",64").
Definition triple (k : Z) : list zline := [sample_line k; sample_line (k + 1); sample_line (k + 2)].

Lemma first_samples_lines n k ls : first_samples char_signed data address n k = Ok ls ->
  ls = map (fun j => sample_line (k + Z.of_nat j)) (seq 0 n).
Proof.
  revert k ls. induction n as [|n IH]; intros k ls; cbn [first_samples]; [by intros [= <-]|].
  intros (id & Hid & H1)%outcome_bind_ok. apply outcome_bind_ok in H1 as (rest & Hr & [= <-]). apply IH in Hr as ->.
  assert (id = sample_id k) as -> by (unfold sample_id; rewrite Hid; reflexivity).
  cbn [seq map]. rewrite Z.add_0_r. apply (f_equal (cons (sample_line k))).
  rewrite <- seq_shift, map_map. apply map_ext. intros j. by replace (k + Z.of_nat (S j)) with (k + 1 + Z.of_nat j) by lia.
Qed.

Definition step_block (s : Z) : list zline := schwelle_line s :: triple (s * 3 + 3).

Lemma di_steps_lines_eq n s ls : di_steps_lines char_signed data address stufen n s = Ok ls ->
  ls = concat (map (fun j => step_block (s + Z.of_nat j)) (seq 0 n)).
Proof.
  revert s ls. induction n as [|n IH]; intros s ls; cbn [di_steps_lines]; [by intros [= <-]|].
  intros (here & Hh & H1)%outcome_bind_ok. apply outcome_bind_ok in H1 as (rest & Hr & [= <-]). apply IH in Hr as ->.
  unfold di_step_lines in Hh.
  apply outcome_bind_ok in Hh as (sw & Hsw & Hh). apply outcome_bind_ok in Hh as (? & _ & Hh). apply outcome_bind_ok in Hh as (a & Ha & Hh).
  apply outcome_bind_ok in Hh as (b & Hb & Hh). apply outcome_bind_ok in Hh as (c & Hc & [= <-]).
  cbn [seq map concat]. rewrite Z.add_0_r. apply (f_equal2 app).
  - unfold step_block, schwelle_line, triple, sample_line, schwelle, sample_id. rewrite Hsw.
    replace (address + 5 + (s * 3 + 3)) with (address + 8 + s * 3) by lia.
    replace (address + 5 + (s * 3 + 3 + 1)) with (address + 9 + s * 3) by lia.
    replace (address + 5 + (s * 3 + 3 + 2)) with (address + 10 + s * 3) by lia. rewrite Ha, Hb, Hc.
    replace (s * 3 + 3 + 1) with (s * 3 + 4) by lia. replace (s * 3 + 3 + 2) with (s * 3 + 5) by lia. reflexivity.
  - apply (f_equal (@concat zline)). rewrite <- seq_shift, map_map. apply map_ext. intros j.
    replace (s + Z.of_nat (S j)) with (s + 1 + Z.of_nat j) by lia. reflexivity.
Qed.

(** the samples of step [t] *)
Definition image_step (t : nat) (st : DiSoundStepType) : DiSoundStepType :=
  mkDiStep (smp (sample_id (Z.of_nat t * 3))) (smp (sample_id (Z.of_nat t * 3 + 2))) (smp (sample_id (Z.of_nat t * 3 + 1))) (limit st).

Lemma di_triple (t : nat) l steps :
  Z.of_nat t < nsteps -> (t < length steps)%nat -> (t < 1000)%nat ->
  (forall r, 0 <= r < 3 -> getSample path (to_string (sample_id (Z.of_nat t * 3 + r))) zdata = Ok (smp (sample_id (Z.of_nat t * 3 + r)))) ->
  di_entries path zdata nsteps (map line_value (triple (Z.of_nat t * 3)) ++ l) steps = di_entries path zdata nsteps l (alter (image_step t) t steps).
Proof.
  intros Ht Hl Hb Hg. cbn [triple map app]. unfold sample_line.
  rewrite <- (Z.add_0_r (Z.of_nat t * 3)) at 1 2. rewrite (di_sample_entry t 0 _ _ _ _ ltac:(lia) Ht Hl Hb (Hg 0 ltac:(lia))).
  rewrite (di_sample_entry t 1 _ (smp (sample_id (Z.of_nat t * 3 + 1))))
    by (rewrite ?length_alter; first [lia | exact Hl | exact (Hg 1 ltac:(lia))]).
  rewrite (di_sample_entry t 2 _ (smp (sample_id (Z.of_nat t * 3 + 2))))
    by (rewrite ?length_alter; first [lia | exact Hl | exact (Hg 2 ltac:(lia))]).
  rewrite !list_alter_alter_eq, Z.add_0_r. reflexivity.
Qed.

(** the steps after the thresholds of [1 .. n] were read *)
Definition steps_after (n : nat) : list DiSoundStepType :=
  map (fun t => if (t <=? n + 1)%nat
                then image_step t (mkDiStep Sample0 Sample0 Sample0 (if (1 <=? t)%nat && (t <=? n)%nat then schwelle (Z.of_nat t) else 255))
                else DiSoundStep0) (seq 0 20).

Lemma steps_after_next n : (n + 2 < 20)%nat ->
  alter (image_step (n + 2)) (n + 2)%nat (alter (set_limit (schwelle (Z.of_nat (n + 1)))) (n + 1)%nat (steps_after n)) = steps_after (n + 1).
Proof. intros Hn. do 18 (destruct n as [|n]; [reflexivity|]). lia. Qed.

Lemma snoc_entries {A} (f : nat -> list A) a n : a ++ concat (map f (seq 0 (S n))) = (a ++ concat (map f (seq 0 n))) ++ f n.
Proof. rewrite seq_S, map_app, concat_app, app_assoc. cbn. by rewrite app_nil_r. Qed.

Lemma di_steps_read n l :
  (n < 19)%nat -> Z.of_nat n + 1 < nsteps -> is_int32 (nsteps + 1) -> (forall s, 0 <= schwelle s < 256) ->
  (forall k, 0 <= k < Z.of_nat n * 3 + 6 -> getSample path (to_string (sample_id k)) zdata = Ok (smp (sample_id k))) ->
  di_entries path zdata nsteps
    (map line_value ((triple 0 ++ triple 3) ++ concat (map (fun j => step_block (1 + Z.of_nat j)) (seq 0 n))) ++ l)
    (repeat DiSoundStep0 20) = di_entries path zdata nsteps l (steps_after n).
Proof.
  intros Hn Hb Hi Hs. revert l. induction n as [|n IH]; intros l Hg.
  - cbn [seq map concat]. rewrite app_nil_r, map_app, <- app_assoc.
    rewrite (di_triple 0) by (cbn; (lia || (intros; apply Hg; lia))). rewrite (di_triple 1) by (cbn; (lia || (intros; apply Hg; lia))).
    done.
  - rewrite snoc_entries, map_app, <- app_assoc. rewrite IH; [|lia..|intros k Hk; apply Hg; lia].
    unfold step_block. replace (1 + Z.of_nat n) with (Z.of_nat (n + 1)) by lia. cbn [map app].
    unfold schwelle_line at 1. rewrite di_schwelle_entry; [|lia|done|unfold steps_after; rewrite length_map, length_seq; lia|lia|done].
    replace (Z.of_nat (n + 1) * 3 + 3) with (Z.of_nat (n + 2) * 3) by lia.
    rewrite di_triple; [|lia|rewrite length_alter; unfold steps_after; rewrite length_map, length_seq; lia|lia|intros r Hr; apply Hg; lia].
    rewrite steps_after_next by lia. by rewrite Nat.add_1_r.
Qed.
End engine.

(** ** Loading the project of an image *)

Lemma zpp_di_lookup cs data n i di (j : nat) address :
  zpp_di cs data n i = Ok di -> (j < n)%nat -> be16 cs data (2112 + Z.of_nat (i + j) * 2) = Ok address ->
  (forall k, (k <= j)%nat -> be16 cs data (2112 + Z.of_nat (i + k) * 2) <> Ok 0) ->
  exists l1 s l2, di = l1 ++ s :: l2 /\ di_section cs data (i + j) address = Ok s /\
    Forall (fun s' => exists k a, (k < i + j)%nat /\ di_section cs data k a = Ok s') l1.
Proof.
  revert i di j. induction n as [|n IH]; intros i di j; cbn [zpp_di]; [lia|].
  intros (a & Ha & H)%outcome_bind_ok Hj Hb Hnz. pose proof (Hnz 0%nat ltac:(lia)) as H0. rewrite Nat.add_0_r, Ha in H0.
  destruct (Z.eqb_spec a 0) as [->|]; [done|]. apply outcome_bind_ok in H as (s & Hs & H).
  apply outcome_bind_ok in H as (rest & Hr & [= <-]). destruct j as [|j].
  - rewrite Nat.add_0_r in *. rewrite Ha in Hb. injection Hb as <-. by exists [], s, rest.
  - destruct (IH (S i) rest j Hr) as (l1 & s' & l2 & -> & Hs' & F); [lia|by rewrite <- Nat.add_succ_comm in Hb| |].
    { intros k Hk. rewrite Nat.add_succ_comm. apply Hnz. lia. }
    rewrite <- Nat.add_succ_comm. exists (s :: l1), s', l2. split_and!; [done|done|].
    constructor; [|done]. exists i, a. split; [lia|done].
Qed.

(** an engine section and its values *)
Lemma di_section_values cs data i address s : di_section cs data i address = Ok s ->
  exists stufen typ six more, plain_at cs data address = Ok stufen /\ first_samples cs data address 6 0 = Ok six /\
    di_steps_lines cs data address stufen (Z.to_nat (stufen - 1)) 1 = Ok more /\
    section_values s = [("NUMMER", to_string (Z.of_nat i)); ("NAME", quoted ("unknown-" +:+ to_string (Z.of_nat i)));
      ("STUFEN", to_string stufen); ("TYP", typ)] ++ map line_value (six ++ more) ++ [("PANTOAUS", to_string 0); ("HG_SCHALTWERK", to_string 0)].
Proof.
  unfold di_section. intros (st & Hst & H)%outcome_bind_ok. apply outcome_bind_ok in H as (ty & _ & H).
  apply outcome_bind_ok in H as (? & _ & H). apply outcome_bind_ok in H as (six & Hsix & H).
  apply outcome_bind_ok in H as (more & Hmore & [= <-]). exists st, (to_string ty), six, more. split_and!; [done..|].
  unfold section_values. cbn [sec_lines app map]. rewrite app_assoc, map_app. reflexivity.
Qed.

Lemma getName_quoted sp n : section_get sp "NAME" = quoted n -> without [quote; backspace] n = true -> getName sp = Ok n.
Proof.
  intros E Hn. unfold getName. rewrite E. rewrite decide_True; [by apply unquote_bs_quoted|]. intros Hs.
  assert (deref (quoted n) = deref NOT_SET) as Hd by (by rewrite Hs). vm_compute in Hd. done.
Qed.

Lemma di_name cs data i address s : di_section cs data i address = Ok s -> getName (section_values s) = Ok ("unknown-" +:+ to_string (Z.of_nat i)).
Proof.
  intros (st & ty & six & more & _ & _ & _ & ->)%di_section_values. apply getName_quoted; [reflexivity|].
  apply without_app. split; [done|]. apply numeric_without; [done|apply to_string_numeric].
Qed.

Lemma find_set_skip name l l' : Forall (fun sp => exists n, getName sp = Ok n /\ n <> name) l ->
  find_set name (map Some l ++ l') = find_set name l'.
Proof.
  induction 1 as [|sp l (n & Hn & Hne) _ IH]; [done|]. cbn [map app find_set sp_deref mbind outcome_bind]. rewrite Hn.
  cbn [mbind outcome_bind]. rewrite decide_False by done. exact IH.
Qed.

Lemma string_app_inj a b c : a +:+ b = a +:+ c -> b = c.
Proof. induction a as [|x a IH]; [done|]. rewrite !string_cons_app. intros [= E]. by apply IH. Qed.

Lemma di_entries_other `{B : Boost} path zdata nsteps key v l steps : key <> "SAMPLE" -> key <> "SCHWELLE" ->
  di_entries path zdata nsteps ((key, v) :: l) steps = di_entries path zdata nsteps l steps.
Proof. intros H1 H2. cbn [di_entries]. rewrite decide_False by done. cbn [mbind outcome_bind]. by rewrite decide_False. Qed.

(** the sections of the function sounds *)
Lemma abl_entries_shape data offset i n j ss : abl_entries data offset i n j = Ok ss ->
  Forall (fun s => exists k id lv, (k < j + n)%nat /\ s = abl_section i k id lv /\ 0 < id < 256 /\ 0 <= lv < 256) ss.
Proof.
  revert j ss. induction n as [|n IH]; intros j ss; cbn [abl_entries]; [by intros [= <-]|].
  intros (id & Hid & H)%outcome_bind_ok. apply outcome_bind_ok in H as (lv & Hlv & H). apply outcome_bind_ok in H as (rest & Hr & [= <-]).
  apply IH in Hr. replace (S j + n)%nat with (j + S n)%nat in Hr by lia. apply uchar_at_range in Hid, Hlv.
  destruct (Z.eqb_spec id 0); [done|]. constructor; [|done]. exists j, id, lv. split_and!; done || lia.
Qed.
Lemma zpp_abl_shape cs data n i ss : zpp_abl cs data n i = Ok ss ->
  Forall (fun s => exists i' k id lv, (i' < i + n)%nat /\ (k < 18)%nat /\ s = abl_section i' k id lv /\ 0 < id < 256 /\ 0 <= lv < 256) ss.
Proof.
  revert i ss. induction n as [|n IH]; intros i ss; cbn [zpp_abl]; [by intros [= <-]|].
  intros (off & _ & H)%outcome_bind_ok. apply outcome_bind_ok in H as (here & Hh & H).
  apply outcome_bind_ok in H as (rest & Hr & [= <-]). apply IH in Hr. replace (S i + n)%nat with (i + S n)%nat in Hr by lia.
  apply Forall_app. split; [|done]. destruct (off =? 0); [by injection Hh as <-|]. apply abl_entries_shape in Hh.
  eapply Forall_impl; [|exact Hh]. intros s (k & id & lv & Hk & E). exists i, k, id, lv. split; [lia|]. split; [lia|exact E].
Qed.

Section load.
Context `{BoostLaws} (char_signed : bool) (to_utf : string -> string) (data path : string) (zdata : ZSPDataType).

(** the globals while the function sounds are loaded *)
Definition loading (l : Z) (e : engine) (z : ZSP) : Prop :=
  ZSPData z = zdata /\ soundsetPath z = path /\ exists t, cfg_soundFiles z = Some t /\ lok t = l /\ kind t = e.

Lemma load_abl_run l e z (i k : nat) id lv s : (i < 64)%nat -> (k < 18)%nat -> 0 < id < 256 -> 0 <= lv < 256 ->
  getSample path (to_string id) zdata = Ok s -> loading l e z ->
  exists z', load_abl (Some (section_values (abl_section i k id lv))) z = (Ok tt, z') /\ loading l e z'.
Proof.
  intros Hi Hk Hid Hlv Hs (Hd & Hp & t & Ht & Hl & He). unfold load_abl.
  set (sp := section_values _). change (section_get sp "LOK") with (to_string (Z.of_nat i)).
  change (section_get sp "NUMMER") with (to_string (Z.of_nat k)). change (section_get sp "SAMPLE") with (to_string id).
  change (section_get sp "LAUTST") with (to_string lv).
  rewrite (run_bind _ _ _ z z) by done. rewrite Ht. rewrite (run_bind _ _ _ t z) by done.
  rewrite (run_bind _ _ _ sp z) by done.
  rewrite (run_bind _ _ _ (Z.of_nat i) z) by (apply run_lift, stoi_number; unfold is_int32; lia).
  destruct (_ =? lok t); [|exists z; split; [done|]; split_and!; [done|done|by exists t]].
  rewrite (run_bind _ _ _ (Z.of_nat k) z) by (apply run_lift, stoi_number; unfold is_int32; lia).
  rewrite (proj2 (Z.ltb_ge _ _)), (proj2 (Z.leb_gt CFG_FUNC_SOUND_N _)) by (unfold CFG_FUNC_SOUND_N; lia). cbn [orb].
  rewrite Hd, Hp. rewrite (run_bind _ _ _ s z) by (by apply run_lift).
  set (z1 := mkZSP (ZSPData z) (set_funcSound (Z.to_nat (Z.of_nat k)) s <$> cfg_soundFiles z) (soundsetPath z)).
  rewrite (run_bind _ _ _ tt z1) by done.
  rewrite (run_bind _ _ _ lv z1) by (apply run_lift, stoi_number; unfold is_int32; lia).
  eexists. split; [reflexivity|]. split_and!; [done|done|]. cbn. rewrite Ht. cbn. by eexists.
Qed.

Lemma load_abl_all l e z ss :
  Forall (fun s => exists i k id lv, (i < 64)%nat /\ (k < 18)%nat /\ s = abl_section i k id lv /\ 0 < id < 256 /\ 0 <= lv < 256) ss ->
  Forall (fun s => exists x, getSample path (section_get (section_values s) "SAMPLE") zdata = Ok x) ss ->
  loading l e z -> exists z', iterM load_abl (map Some (section_values <$> ss)) z = (Ok tt, z') /\ loading l e z'.
Proof.
  intros F. revert z. induction F as [|s ss (i & k & id & lv & Hi & Hk & -> & Hid & Hlv) _ IH]; intros z G Hz; [by exists z|].
  inversion G as [|? ? [x Hx] G']; subst. destruct (load_abl_run l e z i k id lv x) as (z1 & E1 & Hz1); try done.
  destruct (IH z1 G' Hz1) as (z2 & E2 & Hz2). exists z2. split; [|done].
  change (iterM load_abl _) with (load_abl (Some (section_values (abl_section i k id lv)));; iterM load_abl (map Some (section_values <$> ss))).
  by rewrite (run_bind _ _ _ _ _ E1).
Qed.

(** the engine of a section *)
Lemma parseDiSet_image (i : nat) address s stufen smp z :
  di_section char_signed data i address = Ok s -> plain_at char_signed data address = Ok stufen -> 1 <= stufen <= 19 -> (i < 32)%nat ->
  (forall k, 0 <= k < stufen * 3 + 3 ->
     getSample path (to_string (sample_id char_signed data address k)) zdata = Ok (smp (sample_id char_signed data address k))) ->
  ZSPData z = zdata -> soundsetPath z = path -> cfg_soundFiles z = None ->
  parseDiSet (section_values s) z = (Ok (new_sound (Z.of_nat i) (DiSoundType (stufen + 1)
    (alter (set_limit 1) 0%nat (steps_after char_signed data address stufen smp (Z.to_nat (stufen - 1)))))), z).
Proof.
  intros Hs Hst Hr Hi Hg Hd Hp Hc. destruct (di_section_values _ _ _ _ _ Hs) as (st & ty & six & more & Hst' & Hsix & Hmore & Hv).
  rewrite Hst in Hst'. injection Hst' as <-. unfold parseDiSet. rewrite (run_bind _ _ _ z z) by done. rewrite Hc. apply run_lift.
  assert (section_get (section_values s) "NUMMER" = to_string (Z.of_nat i) /\ section_get (section_values s) "STUFEN" = to_string stufen)
    as [-> ->] by (by rewrite Hv).
  rewrite !stoi_number by (unfold is_int32; lia). cbn [mbind outcome_bind]. unfold int_add.
  assert (is_int32 (stufen + 1) /\ is_int32 (stufen + 1 + 1)) as [Hi1 Hi2] by (unfold is_int32; lia).
  rewrite (proj2 (int32b_spec _) Hi1). cbn [mbind outcome_bind]. rewrite Hd, Hp, Hv. cbn [app].
  rewrite !di_entries_other by done. apply first_samples_lines in Hsix as ->. apply di_steps_lines_eq in Hmore as ->.
  change (map (fun j => sample_line char_signed data address (0 + Z.of_nat j)) (seq 0 6))
    with (triple char_signed data address 0 ++ triple char_signed data address 3).
  erewrite di_steps_read; [|lia|lia|done| |intros k Hk; apply Hg; lia].
  - rewrite !di_entries_other by done. done.
  - intros k. unfold schwelle. destruct (uchar_at data _) as [c|] eqn:E; [by eapply uchar_at_range|lia].
Qed.
End load.

(** ** Properties *)

Section properties.
Context `{BoostLaws} (char_signed : bool) (to_utf : string -> string) (data : string).

(** what is known of the project after it was read *)
Lemma project_data ss ws : names_ok to_utf data -> zpp_sections char_signed to_utf data = Ok (ss, ws) ->
  exists zdata, read_sections (sections_text ss) [] = Ok zdata /\ mmap_wf zdata /\
    forall k, mmap_range k zdata = map Some (named k ss).
Proof.
  intros Hn Hz. exists (add_sections [] ss). split; [|split].
  - apply read_sections_text. by eapply zpp_sections_ok.
  - apply add_sections_wf. constructor.
  - intros k. rewrite add_sections_range by constructor. done.
Qed.

(** What zpp2zsp writes, loadZSP reads: the sections of the project that
    is generated for any decoder image with plain names are all found again,
    under their names, in their order and with the values that were written. *)
Theorem zpp_project_read ss ws :
  names_ok to_utf data -> zpp_sections char_signed to_utf data = Ok (ss, ws) ->
  exists zdata, read_sections (sections_text ss) [] = Ok zdata /\
    forall k, mmap_range k zdata = map Some (named k ss).
Proof. intros Hn Hz. destruct (project_data ss ws Hn Hz) as (zdata & E & _ & R). by exists zdata. Qed.

(** the samples of an engine are in the table *)
Definition engine_known (address stufen : Z) : Prop := forall k, 0 <= k < stufen * 3 + 3 ->
  1 <= sample_id char_signed data address k <= 128 /\ has_sample to_utf data (Z.to_nat (sample_id char_signed data address k - 1)).
(** so are the function sounds *)
Definition abl_known : Prop := forall abl, zpp_abl char_signed data 64 0 = Ok abl ->
  Forall (fun s => forall i k id lv, s = abl_section i k id lv -> id <= 128 /\ has_sample to_utf data (Z.to_nat (id - 1))) abl.

Definition the_sample (path : string) (id : Z) : Sample :=
  match image_sample to_utf path data (Z.to_nat (id - 1)) with Ok s => s | Err _ => Sample0 end.

Lemma known_sample path sm ws zdata id : names_ok to_utf data -> zpp_samples to_utf data 128 0 = Ok (sm, ws) -> mmap_wf zdata ->
  mmap_range "Sample" zdata = map Some (section_values <$> sm) -> 1 <= id <= 128 -> has_sample to_utf data (Z.to_nat (id - 1)) ->
  getSample path (to_string id) zdata = Ok (the_sample path id) /\
  image_sample to_utf path data (Z.to_nat (id - 1)) = Ok (the_sample path id).
Proof.
  intros Hn Hz Hwf Hr Hid Hs.
  destruct (sample_found to_utf path data sm ws zdata (Z.to_nat (id - 1))) as [E [x Ex]]; [done..|lia|].
  replace (Z.of_nat (Z.to_nat (id - 1)) + 1) with id in E by lia. unfold the_sample. rewrite Ex in *. done.
Qed.

(** the set with the name of engine [j] *)
Lemma find_image_set di (j : nat) address :
  zpp_di char_signed data 32 0 = Ok di -> (j < 32)%nat -> be16 char_signed data (2112 + Z.of_nat j * 2) = Ok address ->
  (forall k, (k <= j)%nat -> be16 char_signed data (2112 + Z.of_nat k * 2) <> Ok 0) ->
  exists s, di_section char_signed data j address = Ok s /\
    find_set ("unknown-" +:+ to_string (Z.of_nat j)) (map Some (section_values <$> di)) = Ok (Some (section_values s)).
Proof.
  intros Hdi Hj Had Hnz. destruct (zpp_di_lookup _ _ _ 0 _ j address Hdi Hj Had Hnz) as (l1 & s & l2 & -> & Hs & Fl1).
  exists s. split; [exact Hs|]. rewrite fmap_app, map_app, find_set_skip.
  - cbn [fmap list_fmap map find_set sp_deref mbind outcome_bind]. rewrite (di_name _ _ _ _ _ Hs). cbn [mbind outcome_bind].
    by rewrite decide_True.
  - apply Forall_fmap. eapply Forall_impl; [|exact Fl1]. intros s' (k & a & Hk & Hs'). cbn. eexists. split; [by eapply di_name|].
    intros E%string_app_inj. apply to_string_inj in E; [lia|unfold is_int32; lia..].
Qed.

(** step [k] of the engine that was read *)
Lemma image_steps_lookup address stufen smp (k : nat) : 1 <= stufen <= 19 -> Z.of_nat k <= stufen ->
  alter (set_limit 1) 0%nat (steps_after char_signed data address stufen smp (Z.to_nat (stufen - 1))) !! k =
  Some (image_step char_signed data address smp k (mkDiStep Sample0 Sample0 Sample0
    (if Z.of_nat k =? 0 then 1 else if Z.of_nat k <? stufen then schwelle data address stufen (Z.of_nat k) else 255))).
Proof.
  intros Hr Hk.
  assert (steps_after char_signed data address stufen smp (Z.to_nat (stufen - 1)) !! k = Some (image_step char_signed data address smp k
    (mkDiStep Sample0 Sample0 Sample0 (if (1 <=? k)%nat && (k <=? Z.to_nat (stufen - 1))%nat then schwelle data address stufen (Z.of_nat k) else 255)))) as Hlk.
  { unfold steps_after. change (map ?f ?l) with (f <$> l). rewrite list_lookup_fmap, lookup_seq_lt by lia. cbn [fmap option_fmap option_map].
    by rewrite (proj2 (Nat.leb_le (0 + k) (Z.to_nat (stufen - 1) + 1))) by lia. }
  destruct k as [|k]; [by rewrite list_lookup_alter_eq, Hlk|]. rewrite list_lookup_alter_ne by done. rewrite Hlk. do 3 f_equal.
  rewrite (proj2 (Z.eqb_neq _ _)) by lia. rewrite (proj2 (Nat.leb_le 1 (S k))) by lia. cbn [andb].
  destruct (Nat.leb_spec (S k) (Z.to_nat (stufen - 1))), (Z.ltb_spec (Z.of_nat (S k)) stufen); done || lia.
Qed.

(** C24: An engine survives the way through the project file: when
    zpp2zsp converted a decoder image and the configuration names its engine
    number j (with 1 to 19 speed levels, all of whose samples are in the image,
    as are the function sounds), then loadZSP returns that engine: each speed
    step up to the last has exactly the three samples the image lists for it,
    with the loop positions of the image, and the threshold of the image (1 for
    standing, 255 for the last step). *)
Theorem zpp_engine_loaded ss ws config files (j : nat) address stufen path0 :
  names_ok to_utf data -> zpp_sections char_signed to_utf data = Ok (ss, ws) -> abl_known ->
  Config_get "soundset" config <> NOT_SET -> files (Config_get "soundset" config) = Some (sections_text ss) ->
  Config_get "sound.name" config = "unknown-" +:+ to_string (Z.of_nat j) -> (j < 32)%nat ->
  (forall k, (k <= j)%nat -> be16 char_signed data (2112 + Z.of_nat k * 2) <> Ok 0) ->
  be16 char_signed data (2112 + Z.of_nat j * 2) = Ok address -> plain_at char_signed data address = Ok stufen -> 1 <= stufen <= 19 ->
  engine_known address stufen ->
  let path := default path0 (dir_of (Config_get "soundset" config)) in
  let sample k := image_sample to_utf path data (Z.to_nat (sample_id char_signed data address k - 1)) in
  exists t z' steps, loadZSP config files (mkZSP [] None path0) = (Ok (Some t), z') /\ lok t = Z.of_nat j /\
    kind t = DiSoundType (stufen + 1) steps /\
    forall s : nat, Z.of_nat s <= stufen -> exists st, steps !! s = Some st /\
      sample (Z.of_nat s * 3) = Ok (up st) /\ sample (Z.of_nat s * 3 + 1) = Ok (run st) /\ sample (Z.of_nat s * 3 + 2) = Ok (down st) /\
      limit st = if Z.of_nat s =? 0 then 1 else if Z.of_nat s <? stufen then schwelle data address stufen (Z.of_nat s) else 255.
Proof.
  intros Hn Hz Hak Hset Hfile Hname Hj Hnz Had Hst Hr Hek path sample.
  destruct (project_data ss ws Hn Hz) as (zdata & Hread & Hwf & Hrange).
  destruct (zpp_sections_named _ _ _ _ _ Hz) as (sm & abl & di & d & Hsm & Habl & Hdi & Hd & _ & Nsm & Nabl & Ndi & Nd).
  pose proof (Hrange "Sample") as Rsm. rewrite Nsm in Rsm.
  assert (forall id, 1 <= id <= 128 -> has_sample to_utf data (Z.to_nat (id - 1)) ->
    getSample path (to_string id) zdata = Ok (the_sample path id) /\ image_sample to_utf path data (Z.to_nat (id - 1)) = Ok (the_sample path id))
    as Hget by (intros id Hid Hs; by eapply known_sample).
  destruct (find_image_set di j address Hdi Hj Had Hnz) as (s & Hs & Hfind). rewrite <- Ndi, <- Hrange, <- Hname in Hfind.
  set (z0 := mkZSP zdata None path).
  set (steps := alter (set_limit 1) 0%nat (steps_after char_signed data address stufen (the_sample path) (Z.to_nat (stufen - 1)))).
  set (t := new_sound (Z.of_nat j) (DiSoundType (stufen + 1) steps)).
  pose proof (parseDiSet_image char_signed data path zdata j address s stufen (the_sample path) z0 Hs Hst Hr Hj) as Hparse.
  destruct (load_abl_all path zdata (Z.of_nat j) (kind t) (mkZSP zdata (Some t) path) abl) as (z1 & Eabl & Hd1 & Hp1 & t1 & Ht1 & Hl1 & Hk1).
  { exact (zpp_abl_shape _ _ _ _ _ Habl). }
  { pose proof (zpp_abl_shape _ _ _ _ _ Habl) as Hsh. specialize (Hak abl Habl). rewrite list.Forall_forall in Hsh, Hak |- *.
    intros x Hx. destruct (Hsh x Hx) as (i & k & id & lv & _ & _ & -> & Hid & _). destruct (Hak _ Hx i k id lv eq_refl) as [Hle Hs'].
    exists (the_sample path id). apply Hget; [lia|done]. }
  { split_and!; [done|done|]. by exists t. }
  exists (override_sounds config t1), (mkZSP (ZSPData z1) (Some (override_sounds config t1)) (soundsetPath z1)), steps. split_and!.
  - unfold loadZSP. rewrite decide_False by done. rewrite (run_bind _ _ _ tt (mkZSP [] None path)) by done. rewrite Hfile.
    rewrite (run_bind _ _ _ (mkZSP [] None path) (mkZSP [] None path)) by done.
    rewrite (run_bind _ _ _ zdata (mkZSP [] None path)) by (by apply run_lift). rewrite (run_bind _ _ _ tt z0) by done.
    rewrite decide_False by (rewrite Hname; discriminate). rewrite (run_bind _ _ _ (Some (section_values s)) z0) by (by apply run_lift).
    rewrite (run_bind _ _ _ tt (mkZSP zdata (Some t) path)).
    2:{ rewrite (run_bind _ _ _ t z0); [done|]. apply Hparse; [|done..]. intros k Hk. destruct (Hek k Hk) as [Hid Hs']. by apply Hget. }
    rewrite (run_bind _ _ _ tt z1) by (by rewrite Hrange, Nabl).
    rewrite (run_bind _ _ _ tt (mkZSP (ZSPData z1) (Some (override_sounds config t1)) (soundsetPath z1))); [done|].
    unfold modify. by rewrite Ht1.
  - exact Hl1.
  - exact Hk1.
  - intros k Hk. eexists. split; [exact (image_steps_lookup address stufen _ k Hr Hk)|].
    assert (forall r, 0 <= r < 3 -> sample (Z.of_nat k * 3 + r) = Ok (the_sample path (sample_id char_signed data address (Z.of_nat k * 3 + r)))) as Hsam.
    { intros r Hr0. destruct (Hek (Z.of_nat k * 3 + r) ltac:(lia)) as [Hid Hs']. by apply Hget. }
    pose proof (Hsam 0 ltac:(lia)) as H0. rewrite Z.add_0_r in H0.
    split_and!; [exact H0|exact (Hsam 1 ltac:(lia))|exact (Hsam 2 ltac:(lia))|done].
Qed.
End properties.

(** ** Steam sets *)

Lemma unquote_open s : without [quote; backspace] s = true ->
  unquote_bs (String quote s) = Err (UB "unquote: iterator past the end").
Proof.
  intros Hs. unfold unquote_bs. cbn [unquote_loop]. destruct (ascii_dec quote quote); [|done].
  induction s as [|c s IH]; [done|]. apply without_cons in Hs as [Hc Hs]. specialize (IH Hs). cbn [unquote_loop].
  destruct (ascii_dec c backspace) as [->|_]; [set_solver|]. destruct (ascii_dec c quote) as [->|_]; [set_solver|]. by rewrite IH.
Qed.

(** the name of a generated steam set has no closing quote: reading it runs
    past the end of the text *)
Lemma dset_name_unreadable data i address s : d_section data i address = Ok s ->
  getName (section_values s) = Err (UB "unquote: iterator past the end").
Proof.
  unfold d_section. intros E. apply outcome_bind_ok in E as (schlaege & _ & E).
  apply outcome_bind_ok in E as ([delays pos] & _ & E). apply outcome_bind_ok in E as ([lines pos'] & _ & E).
  apply outcome_bind_ok in E as (n1 & _ & E). apply outcome_bind_ok in E as (n2 & _ & E).
  destruct (_ || _); [done|]. injection E as <-.
  match goal with |- getName ?v = _ => assert (section_get v "NAME" = String quote ("unknown-" +:+ to_string (Z.of_nat i))) as Hn by reflexivity end.
  unfold getName. rewrite Hn. rewrite decide_True by discriminate. apply unquote_open.
  apply without_app. split; [reflexivity|]. apply numeric_without; [reflexivity|apply to_string_numeric].
Qed.

(** ** A concrete Boost *)

Fixpoint replace_char (c : ascii) (t s : string) : string :=
  match s with
  | EmptyString => EmptyString
  | String d s' => (if ascii_dec d c then t else String d EmptyString) +:+ replace_char c t s'
  end.
Definition sample_boost : Boost := mkBoost trim (fun s p => String.prefix p s)
  (fun s p t => match p with String c EmptyString => replace_char c t s | _ => s end).

Lemma take_while_all p s : take_while p s = s <-> str_forall p s = true.
Proof.
  induction s as [|c s IH]; [done|]. cbn. rewrite andb_true_iff. destruct (p c).
  - rewrite <- IH. split; [by intros [= E]|by intros [_ ->]].
  - split; [done|by intros []].
Qed.
Lemma str_forall_rev p s : str_forall p (string_rev s) = str_forall p s.
Proof.
  induction s as [|c s IH]; [done|]. rewrite string_rev_cons, str_forall_app, IH. cbn. by rewrite andb_true_r, andb_comm.
Qed.
Lemma skip_spaces a s : str_forall isspace a = true -> take_while isspace s = EmptyString -> skip_while isspace (a +:+ s) = s.
Proof.
  intros Ha Hs. rewrite skip_while_forall by done. destruct s as [|c s]; [done|]. cbn in *. by destruct (isspace c).
Qed.

#[export] Instance sample_boost_laws : BoostLaws sample_boost.
Proof.
  split.
  - intros a s b Ha%take_while_all Hb%take_while_all [S1 S2] Hne. cbn. rewrite trim_strip, skip_spaces; [|done|].
    + unfold strtrim. rewrite string_rev_app_distr, skip_spaces; [apply string_rev_involutive|by rewrite str_forall_rev|done].
    + destruct s as [|c s]; [done|]. rewrite string_cons_app. cbn in S1 |- *. by destruct (isspace c).
  - done.
  - intros s c t Hb. cbn. induction s as [|d s IH]; [done|]. cbn in Hb |- *. destruct (ascii_dec d c); [done|].
    destruct (break_at c s) as [[]|]; [done|]. by rewrite IH.
Qed.

#[local] Existing Instance sample_boost.

(** ** A small image: one sample, one engine with one speed level *)

Definition image_byte (i : nat) : nat :=
  match i with
  | 0 => 1 | 1 => 0 | 2 => 10 | 3 => 40
  | 2112 => 10 | 2113 => 16
  | 2576 => 1 | 2581 => 1 | 2582 => 1 | 2583 => 1 | 2584 => 1 | 2585 => 1 | 2586 => 1
  | 2601 => 60 | 2602 => 10 | 2604 => 50 | 2605 => 10 | 2607 => 60 | 2608 => 10
  | 2623 => 2 | 2624 => 70 | 2625 => 48
  | _ => 0
  end%nat.
Definition sample_image : string := foldr (fun i s => String (ascii_of_nat (image_byte i)) s) EmptyString (seq 0 2700).
Definition sample_project : list zsection :=
  match zpp_sections true id sample_image with Ok (ss, _) => ss | Err _ => [] end.
Definition sample_wavs : list (string * string) :=
  match zpp_sections true id sample_image with Ok (_, ws) => ws | Err _ => [] end.
Definition sample_config : Config := [("sound.name", "unknown-0"); ("soundset", "sounds/generated.zsp")].

Lemma sample_names : names_ok id sample_image.
Proof.
  assert (forallb (fun j => match sample_name id sample_image j with
    | Ok (Some n) => without [quote; backspace; newline; NUL] n && (String.length n <? 690)%nat | _ => true end) (seq 0 128) = true) as Hf
    by (vm_compute; reflexivity).
  intros j name Hj Hn. rewrite forallb_forall in Hf. specialize (Hf j). rewrite Hn in Hf.
  assert (In j (seq 0 128)) as Hin by (apply in_seq; lia). specialize (Hf Hin).
  apply andb_true_iff in Hf as [Hc Hl%Nat.ltb_lt]. split; [split; [done|lia]|done].
Qed.
Lemma sample_sections : zpp_sections true id sample_image = Ok (sample_project, sample_wavs).
Proof. vm_compute. reflexivity. Qed.

Lemma zpp_project_read_witness : exists zdata, read_sections (sections_text sample_project) [] = Ok zdata /\
  forall k, mmap_range k zdata = map Some (named k sample_project).
Proof. exact (zpp_project_read true id sample_image sample_project sample_wavs sample_names sample_sections). Defined.

Lemma sample_has : has_sample id sample_image 0.
Proof. eexists. vm_compute. reflexivity. Qed.
Lemma sample_engine_known : engine_known true id sample_image 2576 1.
Proof.
  intros k Hk. assert (k = 0 \/ k = 1 \/ k = 2 \/ k = 3 \/ k = 4 \/ k = 5) as Hc by lia.
  assert (sample_id true sample_image 2576 k = 1) as -> by (destruct Hc as [-> |[-> |[-> |[-> |[-> | ->]]]]]; vm_compute; reflexivity).
  split; [lia|exact sample_has].
Qed.
Lemma sample_abl_known : abl_known true id sample_image.
Proof.
  intros abl Habl. assert (zpp_abl true sample_image 64 0 = Ok []) as E by (vm_compute; reflexivity).
  rewrite E in Habl. injection Habl as <-. constructor.
Qed.

Lemma zpp_engine_loaded_witness :
  exists t z' steps, loadZSP sample_config (fun _ => Some (sections_text sample_project)) (mkZSP [] None EmptyString) = (Ok (Some t), z') /\
    lok t = 0 /\ kind t = DiSoundType 2 steps /\
    exists st, steps !! 1%nat = Some st /\
      up st = mkSample "sounds/F0.wav" NOT_SET 0 10 /\ limit st = 255.
Proof.
  destruct (zpp_engine_loaded true id sample_image sample_project sample_wavs sample_config (fun _ => Some (sections_text sample_project))
    0 2576 1 EmptyString sample_names sample_sections sample_abl_known) as (t & z' & steps & E & Hl & Hk & Hs).
  - by vm_compute.
  - reflexivity.
  - vm_compute. reflexivity.
  - lia.
  - intros k Hk. assert (k = 0%nat) as -> by lia. by vm_compute.
  - vm_compute. reflexivity.
  - vm_compute. reflexivity.
  - lia.
  - exact sample_engine_known.
  - exists t, z', steps. split; [exact E|]. split; [exact Hl|]. split; [exact Hk|].
    destruct (Hs 1%nat ltac:(lia)) as (st & H1 & H2 & _ & _ & H3). exists st. split; [exact H1|]. split; [|exact H3].
    assert (image_sample id "sounds" sample_image 0 = Ok (mkSample "sounds/F0.wav" NOT_SET 0 10)) as Hi by (vm_compute; reflexivity).
    assert (sample_id true sample_image 2576 3 = 1) as Hid by (vm_compute; reflexivity).
    change (Z.of_nat 1 * 3) with 3 in H2. rewrite Hid in H2. change (Z.to_nat (1 - 1)) with 0%nat in H2.
    change (default _ _) with "sounds" in H2. rewrite Hi in H2. by injection H2 as <-.
Defined.
