(* ===== verification/Sound.v ===== *)
(** * bluetoothserver/sound.cpp, reader.h: sounds of the Linux server

    Wav files, resampling, and the thread that plays the engine sound of the
    first locomotive.  What is written to the sound card is the value of a
    turn; what other threads change (the speed in the table, [doRun]) is an
    argument of the turn. *)

From Stdlib Require Import Ascii.
From S2P Require Import Prelude StdMap CString Utils Lokdef Zsp.

(** ** reader.h *)

(** the rest of the file *)
Definition Reader : Type := string.

Definition le_chars (n : nat) (s : string) : Z :=
  foldr (fun c z => chr c + 256 * z) 0 (take n (String.list_ascii_of_string s)).

(** the result of [fread] is not checked: at the end of the file the variable
    keeps the value it never got *)
Definition ReadInt32 (r : Reader) : outcome (Z * Reader) :=
  if (String.length r <? 4)%nat then Err (UB "ReadInt32: ret is not initialised")
  else Ok (wrap32 (le_chars 4 r), String.substring 4 (String.length r - 4) r).
Definition wrap16 (z : Z) : Z := (z + 2^15) mod 2^16 - 2^15.
Definition ReadInt16 (r : Reader) : outcome (Z * Reader) :=
  if (String.length r <? 2)%nat then Err (UB "ReadInt16: ret is not initialised")
  else Ok (wrap16 (le_chars 2 r), String.substring 2 (String.length r - 2) r).
Definition ReadData (len : Z) (r : Reader) : outcome (string * Reader) :=
  if Z.of_nat (String.length r) <? size_t len then Err (Throw "error reading file data")
  else Ok (String.substring 0 (Z.to_nat len) r, String.substring (Z.to_nat len) (String.length r - Z.to_nat len) r).
Definition Seek {A} (skipsize : Z) : outcome A := Err (Abort "not yet implemented").

(** ** Wav files *)

Definition RiffHeader : Z := 1179011410.
Definition Format : Z := 544501094.
Definition Data : Z := 1635017060.

(** [Sound::bits] (8 bit or not known) and [Sound::sample_rate] *)
Record SoundFormat : Type := mkFormat { bits_U8 : bool; sample_rate : Z }.

Record Chunks : Type := mkChunks { c_datasize : Z; c_bitdepth : Z; c_samplerate : Z }.

(** one round of [while(datasize < 0)] *)
Definition wav_chunk (r : Reader) (c : Chunks) : outcome (Reader * Chunks) :=
  '(chunkid, r) ← ReadInt32 r;
  if chunkid =? Format then
    '(formatsize, r) ← ReadInt32 r;
    '(wavFormat, r) ← ReadInt16 r;
    '(channels, r) ← ReadInt16 r;
    '(samplerate, r) ← ReadInt32 r;
    '(bytespersecond, r) ← ReadInt32 r;
    '(formatblockalign, r) ← ReadInt16 r;
    '(bitdepth, r) ← ReadInt16 r;
    if formatsize =? 18 then '(extradata, r) ← ReadInt16 r; Seek extradata
    else Ok (r, mkChunks (c_datasize c) bitdepth samplerate)
  else if chunkid =? RiffHeader then
    '(memsize, r) ← ReadInt32 r;
    '(riffstyle, r) ← ReadInt32 r;
    Ok (r, c)
  else if chunkid =? Data then
    '(datasize, r) ← ReadInt32 r;
    Ok (r, mkChunks datasize (c_bitdepth c) (c_samplerate c))
  else
    '(skipsize, r) ← ReadInt32 r;
    Seek skipsize.

Fixpoint wav_chunks (fuel : nat) (r : Reader) (c : Chunks) : outcome (Reader * Chunks) :=
  if 0 <=? c_datasize c then Ok (r, c)
  else match fuel with
       | O => Err OutOfFuel
       | S fuel' => '(r, c) ← wav_chunk r c; wav_chunks fuel' r c
       end.

(** the mean of two samples, as an [unsigned int] division *)
Definition mean (a b : ascii) : ascii := ascii_of_N ((N_of_ascii a + N_of_ascii b) / 2).

(** [Sound::resampleX2]: the loop over the elements, [out] resized before *)
Definition resample_round (inp : list ascii) (out : list ascii) (i : nat) : list ascii :=
  match inp !! i, inp !! S i with
  | Some a, Some b => <[(i * 2 + 1)%nat:=mean a b]> (<[(i * 2)%nat:=a]> out)
  | _, _ => out
  end.
Definition resampleX2 (inp : list ascii) : outcome (list ascii) :=
  match inp with
  | [] => Err (Abort "in.length() > 0")
  | _ =>
      let n := length inp in
      let out := foldl (resample_round inp) (repeat NUL (n * 2 - 1)) (seq 0 (n - 1)) in
      Ok (match inp !! (n - 1)%nat with Some a => <[((n - 1) * 2)%nat:=a]> out | None => out end)
  end.

(** [Sound::loadWavFile]; [file] is what [Reader] finds under the name, the
    fuel is enough because every round reads at least eight bytes *)
Definition loadWavFile (file : string -> option string) (filename : string) : M SoundFormat string :=
  match file filename with
  | None => throw ("error opening " +:+ filename)
  | Some content =>
      '(r, c) ← lift (wav_chunks (S (String.length content)) content (mkChunks (-1) (-1) (-1)));
      (if c_bitdepth c =? 8 then modify (fun f => mkFormat true (sample_rate f)) else mret tt);;
      '(out, _) ← lift (ReadData (c_datasize c) r);
      f ← get;
      if sample_rate f =? 0 then modify (fun f => mkFormat (bits_U8 f) (c_samplerate c));; mret out
      else if sample_rate f =? c_samplerate c then mret out
      else if negb (int32b (c_samplerate c * 2)) then fail (UB "signed overflow")
      else if sample_rate f =? c_samplerate c * 2 then
        o ← lift (resampleX2 (String.list_ascii_of_string out)); mret (String.string_of_list_ascii o)
      else fail (Abort "invalid samplerate")
  end.

(** [Sample::load] *)
Definition Sample_load (file : string -> option string) (s : Sample) : M SoundFormat Sample :=
  w ← loadWavFile file (fileName s);
  mret (mkSample (fileName s) w (loopStartPos s) (if loopEndPos s =? 0 then Z.of_nat (String.length w) else loopEndPos s)).

Section loading.
Context (file : string -> option string).

Fixpoint mapM_load {A} (f : A -> M SoundFormat A) (l : list A) : M SoundFormat (list A) :=
  match l with
  | [] => mret []
  | x :: l' => y ← f x; ys ← mapM_load f l'; mret (y :: ys)
  end.

(** [DiSoundType::loadSoundFiles], one step *)
Definition load_di_step (s : DiSoundStepType) : M SoundFormat DiSoundStepType :=
  s ← (if sample_set (down s) then
         d ← Sample_load file (down s); r ← Sample_load file (run s); mret (mkDiStep (up s) d r (limit s))
       else mret s);
  if sample_set (up s) then u ← Sample_load file (up s); mret (mkDiStep u (down s) (run s) (limit s)) else mret s.
(** [SteamSoundType::loadSoundFiles], one step *)
Definition load_row (nslots : nat) (row : list Sample) : M SoundFormat (list Sample) :=
  l ← mapM_load (Sample_load file) (take nslots row); mret (l ++ drop nslots row).
Definition load_steam_step (nslots : nat) (s : SteamSoundStepType) : M SoundFormat SteamSoundStepType :=
  c ← mapM_load (load_row nslots) (ch s); mret (mkSteamStep c (ms s)).

(** the virtual [loadSoundFiles]; an index behind the array is not defined *)
Definition load_engine (e : engine) : M SoundFormat engine :=
  match e with
  | DiSoundType nsteps steps =>
      if Z.of_nat (length steps) <? nsteps then fail (UB "steps[step]")
      else l ← mapM_load load_di_step (take (Z.to_nat nsteps) steps); mret (DiSoundType nsteps (l ++ drop (Z.to_nat nsteps) steps))
  | SteamSoundType nsteps nslots steps =>
      if Z.of_nat (length steps) <? nsteps then fail (UB "steps[step]")
      else l ← mapM_load (load_steam_step (Z.to_nat nslots)) (take (Z.to_nat nsteps) steps);
           mret (SteamSoundType nsteps nslots (l ++ drop (Z.to_nat nsteps) steps))
  end.

Definition load_func_sound (s : Sample) : M SoundFormat Sample := if sample_set s then Sample_load file s else mret s.

(** [Sound::loadSoundFiles] *)
Definition loadSoundFiles (soundFilesLoaded : bool) (t : SoundType) : M SoundFormat SoundType :=
  if soundFilesLoaded then mret t
  else
    e ← load_engine (kind t);
    fs ← mapM_load load_func_sound (funcSound t);
    mret (mkSoundType (lok t) fs (funcSoundVolume t) e).
End loading.

(** [Sound::writeSound]: what is handed to the sound card *)
Definition writeSound (data : string) (startpos : Z) : outcome string :=
  if startpos <? 0 then Err (Abort "startpos >= 0")
  else if Z.of_nat (String.length data) <? startpos then Err (Abort "data.length() >= startpos")
  else Ok (String.substring (Z.to_nat startpos) (String.length data - Z.to_nat startpos) data).

(** ** The engine sound *)

(** [currFahrstufe] and the local [lastFahrstufe] *)
Record DiLoop : Type := mkDiLoop { di_last : Z; di_curr : Z }.

(** the first step whose limit is above the speed *)
Fixpoint step_of_speed (nsteps : nat) (i : Z) (steps : list DiSoundStepType) (speed : Z) : outcome (option Z) :=
  match nsteps, steps with
  | O, _ => Ok None
  | S _, [] => Err (UB "steps[i]")
  | S n, s :: steps' => if speed <? limit s then Ok (Some i) else step_of_speed n (i + 1) steps' speed
  end.

(** the condition of the loop *)
Definition di_runs (doRun : bool) (st : DiLoop) : bool := doRun || (0 <=? di_last st).

(** one turn of [diOutloop]: the sample that is written, [None] when it sleeps *)
Definition di_turn (nsteps : Z) (steps : list DiSoundStepType) (doRun : bool) (speed : Z) (st : DiLoop) : outcome (option Sample * DiLoop) :=
  curr ← (if (speed =? 0) && (di_last st =? 0) && negb doRun then Ok (-1)
          else o ← step_of_speed (Z.to_nat nsteps) 0 steps speed; Ok (default (di_curr st) o));
  let last := di_last st in
  if curr =? last then
    if last =? -1 then Ok (None, mkDiLoop last curr)
    else s ← at_step last steps; Ok (Some (run s), mkDiLoop last curr)
  else if curr <? last then s ← at_step last steps; Ok (Some (down s), mkDiLoop (last - 1) curr)
  else s ← at_step (last + 1) steps; Ok (Some (up s), mkDiLoop (last + 1) curr).

(** the loop with the speeds and [doRun] it meets, up to the first condition
    that fails *)
Fixpoint di_outloop (nsteps : Z) (steps : list DiSoundStepType) (env : list (bool * Z)) (st : DiLoop) : outcome (list Sample * DiLoop * bool) :=
  match env with
  | [] => Ok ([], st, false)
  | (doRun, speed) :: env' =>
      if di_runs doRun st then
        '(o, st) ← di_turn nsteps steps doRun speed st;
        '(l, st, ended) ← di_outloop nsteps steps env' st;
        Ok (match o with Some s => s :: l | None => l end, st, ended)
      else Ok ([], st, true)
  end.
(** [int lastFahrstufe=this->currFahrstufe; this->currFahrstufe=0;] *)
Definition di_start (currFahrstufe : Z) : DiLoop := mkDiLoop currFahrstufe 0.

(** *** Steam *)

Record SteamLoop : Type := mkSteamLoop {
  slot : Z; lastSpeed : Z; lastBrake : Z; lastAcc : Z; st_curr : Z;
}.
Definition STEAM_SLOT_NORMAL : nat := 0.
Definition STEAM_SLOT_BRAKE : nat := 1.
Definition STEAM_SLOT_ACC : nat := 2.

Inductive steam_out : Type :=
  | Silence                     (* sleep(1) *)
  | Chuff (sample : Sample).

(** [currSpeed/(256.0) * nsteps], exact in [double], truncated *)
Definition steam_step_of (nsteps speed : Z) : Z := Z.quot (speed * nsteps) 256.

(** the condition of the loop *)
Definition steam_runs (doRun : bool) (st : SteamLoop) : bool := doRun || (0 <=? st_curr st).

(** one turn of [steamOutloop]: the index of the function sound it starts, if
    any, and the sample; [now] is [time(NULL)] *)
Definition steam_turn (nsteps nslots : Z) (steps : list SteamSoundStepType) (now speed : Z) (st : SteamLoop)
    : outcome (option nat * steam_out * SteamLoop) :=
  let curr := steam_step_of nsteps speed in
  let start := if (0 <? lastSpeed st) && (speed =? 0) then Some CFG_FUNC_SOUND_BRAKE
               else if (lastSpeed st =? 0) && (0 <? speed) then Some CFG_FUNC_SOUND_ENTWAESSERN else None in
  let acc := if lastSpeed st <? speed then now else lastAcc st in
  let brake := if lastSpeed st <? speed then lastBrake st else if speed <? lastSpeed st then now else lastBrake st in
  if speed <=? 0 then Ok (start, Silence, mkSteamLoop (slot st) speed brake acc curr)
  else
    let lmh := if now - 2 <? acc then STEAM_SLOT_ACC else if now - 2 <? brake then STEAM_SLOT_BRAKE else STEAM_SLOT_NORMAL in
    s ← at_step curr steps;
    next ← int_add (slot st) 1;
    if nslots =? 0 then Err (UB "% 0")
    else
      row ← at_step (Z.of_nat lmh) (ch s);
      sample ← at_step (Z.rem (slot st) nslots) row;
      Ok (start, Chuff sample, mkSteamLoop next speed brake acc curr).

(** *** Functions *)

Definition SOUND_FUNC_NUM_HORN : nat := 1.
Definition SOUND_FUNC_NUM_WHISTLE : nat := 2.

(** the object, its thread and the two [PlayAsync] of [startPlayFuncSound] *)
Record FahrSound : Type := mkFahrSound {
  soundFiles : option SoundType;
  running : bool;
  fs_doRun : bool;
  currFahrstufe : Z;
  SOUND_FUNC_NUM_ENABLE : Z;
  horn : bool;
  whistle : bool;
}.

Definition func_at (d : lokdef_t) (i : Z) : outcome func_t := at_step i (func d).

(** the index of the function that switches the sound *)
Fixpoint find_enable (n : nat) (i : Z) (fs : list func_t) : outcome (option Z) :=
  match n, fs with
  | O, _ => Ok None
  | S _, [] => Err (UB "func[i]")
  | S n', f :: fs' => if decide (f_name f = "sSound ein/aus") then Ok (Some i) else find_enable n' (i + 1) fs'
  end.

(** [FahrSound::start]; [Thread::start] makes the thread run *)
Definition fahr_start (d : lokdef_t) : M FahrSound unit :=
  s ← get;
  match soundFiles s with
  | None => mret tt
  | Some _ =>
      if (nFunc d <=? Z.of_nat SOUND_FUNC_NUM_HORN) || (nFunc d <=? Z.of_nat SOUND_FUNC_NUM_WHISTLE) || (nFunc d <=? SOUND_FUNC_NUM_ENABLE s)
      then fail (Abort "SOUND_FUNC_NUM_ENABLE invalid!")
      else if running s then mret tt
      else put (mkFahrSound (soundFiles s) true true (currFahrstufe s) (SOUND_FUNC_NUM_ENABLE s) (horn s) (whistle s))
  end.
(** [FahrSound::cancel] *)
Definition fahr_cancel : M FahrSound unit :=
  modify (fun s => mkFahrSound (soundFiles s) (running s) false (-1) (SOUND_FUNC_NUM_ENABLE s) (horn s) (whistle s)).

(** [this->soundFiles->funcSound[i]] as a condition *)
Definition has_func_sound (i : nat) : M FahrSound bool :=
  s ← get;
  match soundFiles s with
  | None => fail (UB "soundFiles is NULL")
  | Some t => match funcSound t !! i with Some x => mret (sample_set x) | None => fail (UB "funcSound[i]") end
  end.
Definition set_horn (s : FahrSound) : FahrSound :=
  mkFahrSound (soundFiles s) (running s) (fs_doRun s) (currFahrstufe s) (SOUND_FUNC_NUM_ENABLE s) true (whistle s).
Definition set_whistle (s : FahrSound) : FahrSound :=
  mkFahrSound (soundFiles s) (running s) (fs_doRun s) (currFahrstufe s) (SOUND_FUNC_NUM_ENABLE s) (horn s) true.
Definition set_enable (i : Z) (s : FahrSound) : FahrSound :=
  mkFahrSound (soundFiles s) (running s) (fs_doRun s) (currFahrstufe s) i (horn s) (whistle s).

(** one of the two function sounds: started when the function is on, the sound
    is not playing and there is a sample *)
Definition play_func (d : lokdef_t) (num idx : nat) (playing : FahrSound -> bool) (set : FahrSound -> FahrSound) : M FahrSound unit :=
  f ← lift (func_at d (Z.of_nat num));
  s ← get;
  if ison f && negb (playing s) then b ← has_func_sound idx; if (b : bool) then modify set else mret tt
  else mret tt.

(** [FahrSound::startPlayFuncSound]; [d] is [lokdef[0]] *)
Definition startPlayFuncSound (d : lokdef_t) : M FahrSound unit :=
  play_func d SOUND_FUNC_NUM_HORN CFG_FUNC_SOUND_HORN horn set_horn;;
  play_func d SOUND_FUNC_NUM_WHISTLE CFG_FUNC_SOUND_ABFAHRT whistle set_whistle;;
  s ← get;
  (if SOUND_FUNC_NUM_ENABLE s <? 0 then
     o ← lift (find_enable (Z.to_nat (nFunc d)) 0 (func d));
     match o with
     | None => fail (Abort "func sSound ein/aus not found")
     | Some i => modify (set_enable i)
     end
   else mret tt);;
  s ← get;
  f ← lift (func_at d (SOUND_FUNC_NUM_ENABLE s));
  if Bool.eqb (ison f) (running s) then mret tt
  else if ison f then fahr_start d else fahr_cancel.

(** [FahrSoundPlayFuncAsyncData::done]: the function is switched off again *)
Definition play_done (num : nat) (d : lokdef_t) : lokdef_t := set_func (alter (set_ison false) num (func d)) d.

(** ** Resampling is interpolation *)

(** between every two samples their mean *)
Fixpoint interpolate (l : list ascii) : list ascii :=
  match l with
  | a :: (b :: _) as l' => a :: mean a b :: interpolate l'
  | _ => l
  end.

Lemma interpolate_length l : l <> [] -> length (interpolate l) = (length l * 2 - 1)%nat.
Proof.
  induction l as [|a l IH]; [done|]. intros _. destruct l as [|b l]; [done|].
  change (interpolate (a :: b :: l)) with (a :: mean a b :: interpolate (b :: l)). cbn [length]. rewrite IH by done. cbn. lia.
Qed.
Lemma interpolate_even l i : interpolate l !! (i * 2)%nat = l !! i.
Proof.
  revert i. induction l as [|a l IH]; intros i; [done|]. destruct l as [|b l].
  - by destruct i as [|i].
  - change (interpolate (a :: b :: l)) with (a :: mean a b :: interpolate (b :: l)). destruct i as [|i]; [done|]. apply IH.
Qed.
Lemma interpolate_odd l i a b : l !! i = Some a -> l !! S i = Some b -> interpolate l !! (i * 2 + 1)%nat = Some (mean a b).
Proof.
  revert i. induction l as [|c l IH]; intros i Ha Hb; [done|]. destruct l as [|d l]; [done|].
  change (interpolate (c :: d :: l)) with (c :: mean c d :: interpolate (d :: l)). destruct i as [|i].
  - by injection Ha as ->; injection Hb as ->.
  - apply IH; done.
Qed.

(** the buffer after [k] rounds *)
Lemma resample_rounds inp k : (k < length inp)%nat ->
  let out := foldl (resample_round inp) (repeat NUL (length inp * 2 - 1)) (seq 0 k) in
  length out = (length inp * 2 - 1)%nat /\ forall j, (j < k * 2)%nat -> out !! j = interpolate inp !! j.
Proof.
  induction k as [|k IH]; intros Hk; cbv zeta; [split; [apply repeat_length|lia]|].
  destruct IH as [Hl Hj]; [lia|]. rewrite seq_S, foldl_app. cbn [foldl Nat.add].
  set (out := foldl _ _ _) in *. unfold resample_round.
  destruct (lookup_lt_is_Some_2 inp k ltac:(lia)) as [a Ha]. destruct (lookup_lt_is_Some_2 inp (S k) ltac:(lia)) as [b Hb].
  rewrite Ha, Hb. split; [by rewrite !length_insert|]. intros j Hlt.
  destruct (decide (j = k * 2 + 1)%nat) as [->|]; [rewrite list_lookup_insert_eq by (rewrite length_insert; lia); by rewrite (interpolate_odd inp k a b)|].
  rewrite list_lookup_insert_ne by lia. destruct (decide (j = k * 2)%nat) as [->|].
  - rewrite list_lookup_insert_eq by lia. by rewrite interpolate_even.
  - rewrite list_lookup_insert_ne by lia. apply Hj. lia.
Qed.

Lemma resample_eq inp : inp <> [] -> resampleX2 inp = Ok (interpolate inp).
Proof.
  intros Hne. assert (0 < length inp)%nat as Hpos by (destruct inp; [done|cbn; lia]).
  destruct (resample_rounds inp (length inp - 1)) as [Hl Hj]; [lia|].
  unfold resampleX2. destruct inp as [|a0 inp0] eqn:Ei; [done|]. rewrite <- Ei in *. f_equal.
  destruct (lookup_lt_is_Some_2 inp (length inp - 1) ltac:(lia)) as [a Ha]. rewrite Ha.
  apply list_eq_same_length with (n := (length inp * 2 - 1)%nat); [by apply interpolate_length|by rewrite length_insert|].
  intros j x y Hlt Hx Hy. destruct (decide (j = (length inp - 1) * 2)%nat) as [->|].
  - rewrite list_lookup_insert_eq in Hx by lia. rewrite interpolate_even in Hy. congruence.
  - rewrite list_lookup_insert_ne in Hx by lia. rewrite Hj in Hx by lia. congruence.
Qed.


