(* ===== verification/SoundProps.v ===== *)
(** * The sounds of the Linux server: loading and playing

    Wav files are read as they were written, the thread of the engine sound
    follows the speed and ends, and it never leaves its tables. *)

From Stdlib Require Import Ascii.
From S2P Require Import Prelude StdMap CString Utils Lokdef Zsp Sound.

(** ** Wav files *)

(** little endian numbers as text *)
Fixpoint chars (n : nat) (z : Z) : string :=
  match n with O => EmptyString | S n' => String (ascii_of_N (Z.to_N (z mod 256))) (chars n' (z / 256)) end.

Lemma chr_of_mod z : chr (ascii_of_N (Z.to_N (z mod 256))) = z mod 256.
Proof.
  pose proof (Z.mod_pos_bound z 256 ltac:(lia)). unfold chr. rewrite N_ascii_embedding by lia. lia.
Qed.
Lemma length_chars n z : String.length (chars n z) = n.
Proof. revert z. induction n as [|n IH]; intros z; [done|]. cbn. by rewrite IH. Qed.
Lemma le_chars_app n z r : le_chars n (chars n z +:+ r) = z mod 256 ^ Z.of_nat n.
Proof.
  unfold le_chars. revert z. induction n as [|n IH]; intros z.
  - cbn. by rewrite Z.mod_1_r.
  - cbn [chars]. rewrite string_cons_app. cbn [String.list_ascii_of_string take foldr]. rewrite IH, chr_of_mod.
    rewrite Nat2Z.inj_succ, Z.pow_succ_r by lia. rewrite Z.rem_mul_r by (try apply Z.pow_pos_nonneg; lia). lia.
Qed.
Lemma substring_drop a r : String.substring (String.length a) (String.length r) (a +:+ r) = r.
Proof. rewrite substring_skip. apply substring_all. Qed.
Lemma substring_end s : String.substring (String.length s) 0 s = EmptyString.
Proof. induction s as [|c s IH]; [done|]. exact IH. Qed.
Lemma substring_chars n z r : String.substring n (n + String.length r - n) (chars n z +:+ r) = r.
Proof. replace (n + _ - n)%nat with (String.length r) by lia. rewrite <- (length_chars n z) at 1. apply substring_drop. Qed.

Lemma ReadInt32_chars z r : is_int32 z -> ReadInt32 (chars 4 z +:+ r) = Ok (z, r).
Proof.
  intros Hz. unfold ReadInt32. rewrite string_app_length, length_chars, (proj2 (Nat.ltb_ge _ _)) by lia.
  rewrite substring_chars, le_chars_app. do 2 f_equal. change (256 ^ Z.of_nat 4) with (2^32). unfold is_int32 in Hz. unfold wrap32.
  rewrite Zplus_mod_idemp_l. rewrite Z.mod_small; lia.
Qed.
Lemma ReadInt16_chars z r : - 2^15 <= z < 2^15 -> ReadInt16 (chars 2 z +:+ r) = Ok (z, r).
Proof.
  intros Hz. unfold ReadInt16. rewrite string_app_length, length_chars, (proj2 (Nat.ltb_ge _ _)) by lia.
  rewrite substring_chars, le_chars_app. do 2 f_equal. change (256 ^ Z.of_nat 2) with (2^16). unfold wrap16.
  rewrite Zplus_mod_idemp_l. rewrite Z.mod_small; lia.
Qed.

(** the three chunks of a wav file with one channel of 8 bits *)
Definition riff_chunk (n : Z) (r : string) : string := chars 4 RiffHeader +:+ chars 4 n +:+ chars 4 1163280727 +:+ r.
Definition format_chunk (rate : Z) (r : string) : string :=
  chars 4 Format +:+ chars 4 16 +:+ chars 2 1 +:+ chars 2 1 +:+ chars 4 rate +:+ chars 4 rate +:+ chars 2 1 +:+ chars 2 8 +:+ r.
Definition data_chunk (data : string) : string := chars 4 Data +:+ chars 4 (Z.of_nat (String.length data)) +:+ data.
Definition wav_file (rate : Z) (data : string) : string :=
  riff_chunk (36 + Z.of_nat (String.length data)) (format_chunk rate (data_chunk data)).

Lemma riff_read n r c : is_int32 n -> wav_chunk (riff_chunk n r) c = Ok (r, c).
Proof.
  intros Hn. unfold wav_chunk, riff_chunk. rewrite ReadInt32_chars by (unfold is_int32, RiffHeader; lia). cbn [mbind outcome_bind].
  change (RiffHeader =? Format) with false. change (RiffHeader =? RiffHeader) with true. cbn iota.
  rewrite ReadInt32_chars by done. cbn [mbind outcome_bind]. by rewrite ReadInt32_chars by (unfold is_int32; lia).
Qed.
Lemma format_read rate r c : is_int32 rate -> wav_chunk (format_chunk rate r) c = Ok (r, mkChunks (c_datasize c) 8 rate).
Proof.
  intros Hr. unfold wav_chunk, format_chunk. rewrite ReadInt32_chars by (unfold is_int32, Format; lia). cbn [mbind outcome_bind].
  change (Format =? Format) with true. cbn iota. rewrite ReadInt32_chars by (unfold is_int32; lia). cbn [mbind outcome_bind].
  rewrite ReadInt16_chars by lia. cbn [mbind outcome_bind]. rewrite ReadInt16_chars by lia. cbn [mbind outcome_bind].
  rewrite ReadInt32_chars by done. cbn [mbind outcome_bind]. rewrite ReadInt32_chars by done. cbn [mbind outcome_bind].
  rewrite ReadInt16_chars by lia. cbn [mbind outcome_bind]. by rewrite ReadInt16_chars by lia.
Qed.
Lemma data_read data c : Z.of_nat (String.length data) < 2^31 ->
  wav_chunk (data_chunk data) c = Ok (data, mkChunks (Z.of_nat (String.length data)) (c_bitdepth c) (c_samplerate c)).
Proof.
  intros Hn. unfold wav_chunk, data_chunk. rewrite ReadInt32_chars by (unfold is_int32, Data; lia). cbn [mbind outcome_bind].
  change (Data =? Format) with false. change (Data =? RiffHeader) with false. change (Data =? Data) with true. cbn iota.
  by rewrite ReadInt32_chars by (unfold is_int32; lia).
Qed.

Lemma wav_file_length rate data : (3 <= S (String.length (wav_file rate data)))%nat.
Proof. unfold wav_file, riff_chunk. rewrite string_app_length, length_chars. lia. Qed.

Lemma wav_file_chunks rate data fuel : is_int32 rate -> 36 + Z.of_nat (String.length data) < 2^31 -> (3 <= fuel)%nat ->
  wav_chunks fuel (wav_file rate data) (mkChunks (-1) (-1) (-1)) = Ok (data, mkChunks (Z.of_nat (String.length data)) 8 rate).
Proof.
  intros Hr Hd Hf. destruct fuel as [|[|[|fuel]]]; [lia..|]. cbn [wav_chunks c_datasize Z.leb Z.compare]. unfold wav_file.
  rewrite riff_read by (unfold is_int32; lia). cbn [mbind outcome_bind wav_chunks c_datasize Z.leb Z.compare].
  rewrite format_read by done. cbn [mbind outcome_bind wav_chunks c_datasize Z.leb Z.compare].
  rewrite data_read by lia. cbn [mbind outcome_bind c_bitdepth c_samplerate].
  destruct fuel; cbn [wav_chunks c_datasize]; by rewrite (proj2 (Z.leb_le 0 _)) by lia.
Qed.

(** every round reads *)
Lemma ReadInt32_shorter r z r' : ReadInt32 r = Ok (z, r') -> (String.length r' < String.length r)%nat.
Proof.
  unfold ReadInt32. destruct (Nat.ltb_spec (String.length r) 4); [done|]. intros [= _ <-].
  rewrite substring_length_rest. lia.
Qed.
Lemma ReadInt16_shorter r z r' : ReadInt16 r = Ok (z, r') -> (String.length r' < String.length r)%nat.
Proof.
  unfold ReadInt16. destruct (Nat.ltb_spec (String.length r) 2); [done|]. intros [= _ <-].
  rewrite substring_length_rest. lia.
Qed.
Lemma wav_chunk_shorter r c r' c' : wav_chunk r c = Ok (r', c') -> (String.length r' < String.length r)%nat.
Proof.
  unfold wav_chunk. intros ([id r0] & H0%ReadInt32_shorter & H)%outcome_bind_ok.
  destruct (_ =? Format); [|destruct (_ =? RiffHeader); [|destruct (_ =? Data)]].
  - apply outcome_bind_ok in H as ([a1 r1] & H1%ReadInt32_shorter & H). apply outcome_bind_ok in H as ([a2 r2] & H2%ReadInt16_shorter & H).
    apply outcome_bind_ok in H as ([a3 r3] & H3%ReadInt16_shorter & H). apply outcome_bind_ok in H as ([a4 r4] & H4%ReadInt32_shorter & H).
    apply outcome_bind_ok in H as ([a5 r5] & H5%ReadInt32_shorter & H). apply outcome_bind_ok in H as ([a6 r6] & H6%ReadInt16_shorter & H).
    apply outcome_bind_ok in H as ([a7 r7] & H7%ReadInt16_shorter & H).
    destruct (_ =? 18); [by apply outcome_bind_ok in H as ([] & _ & H)|]. injection H as <- _. lia.
  - apply outcome_bind_ok in H as ([a1 r1] & H1%ReadInt32_shorter & H). apply outcome_bind_ok in H as ([a2 r2] & H2%ReadInt32_shorter & H).
    injection H as <- _. lia.
  - apply outcome_bind_ok in H as ([a1 r1] & H1%ReadInt32_shorter & H). injection H as <- _. lia.
  - by apply outcome_bind_ok in H as ([] & _ & H).
Qed.
Lemma ReadInt32_fuel r : ReadInt32 r <> Err OutOfFuel.
Proof. unfold ReadInt32. by destruct (_ <? _)%nat. Qed.
Lemma ReadInt16_fuel r : ReadInt16 r <> Err OutOfFuel.
Proof. unfold ReadInt16. by destruct (_ <? _)%nat. Qed.
Lemma bind_fuel {A B} (o : outcome A) (f : A -> outcome B) : o <> Err OutOfFuel -> (forall a, f a <> Err OutOfFuel) -> o ≫= f <> Err OutOfFuel.
Proof. destruct o as [a|e]; [intros _ Hf; apply Hf|]. cbn. congruence. Qed.
Lemma wav_chunk_fuel r c : wav_chunk r c <> Err OutOfFuel.
Proof.
  unfold wav_chunk, Seek. repeat first
    [ apply bind_fuel; [first [apply ReadInt32_fuel | apply ReadInt16_fuel]|]; intros [? ?]
    | match goal with |- context [if ?b then _ else _] => destruct b end | done ].
Qed.

Lemma resample_fuel l : resampleX2 l <> Err OutOfFuel.
Proof. by destruct l. Qed.

Lemma wav_chunks_fuel fuel r c : (String.length r < fuel)%nat -> wav_chunks fuel r c <> Err OutOfFuel.
Proof.
  revert r c. induction fuel as [|fuel IH]; intros r c Hf; [lia|]. cbn [wav_chunks]. destruct (_ <=? _); [done|].
  destruct (wav_chunk r c) as [[r' c']|e] eqn:E; [|intros [= ->]; by apply (wav_chunk_fuel r c)].
  cbn [mbind outcome_bind]. apply IH. apply wav_chunk_shorter in E. lia.
Qed.

(** Loading a wav file ends, whatever the file contains: every round
    of the chunk loop reads on, and the loader returns the samples, throws, or
    stops the program. *)
Theorem wav_reader_total files name f : (loadWavFile files name f).1 <> Err OutOfFuel.
Proof.
  unfold loadWavFile. destruct (files name) as [content|]; [|done]. unfold mbind, M_bind, lift.
  pose proof (wav_chunks_fuel (S (String.length content)) content (mkChunks (-1) (-1) (-1)) ltac:(lia)) as Hc.
  destruct (wav_chunks _ _ _) as [[r c]|e]; [|cbn; congruence].
  assert (forall g : SoundFormat, exists g', (if c_bitdepth c =? 8 then modify (fun f0 => mkFormat true (sample_rate f0)) else mret tt) g = (Ok tt, g')) as Hg
    by (intros g; destruct (_ =? 8); by eexists).
  destruct (Hg f) as [g ->]. unfold ReadData. destruct (_ <? _); [done|]. set (out := String.substring 0 _ r).
  pose proof (resample_fuel (String.list_ascii_of_string out)) as Hs. unfold get.
  repeat match goal with |- context [if ?b then _ else _] => destruct b; [try done|] end; [|done].
  destruct (resampleX2 _) as [o|e]; [done|]. cbn. congruence.
Qed.

(** An 8 bit mono wav file is loaded as it is: its samples are the
    text behind the header, its rate becomes the rate of the program when none
    is set; at half the rate of the program the samples are interpolated, and
    any other rate stops the program. *)
Theorem wav_file_loaded files name rate data f :
  files name = Some (wav_file rate data) -> 0 < rate < 2^30 -> 36 + Z.of_nat (String.length data) < 2^31 -> data <> EmptyString ->
  loadWavFile files name f =
    if sample_rate f =? 0 then (Ok data, mkFormat true rate)
    else if sample_rate f =? rate then (Ok data, mkFormat true (sample_rate f))
    else if sample_rate f =? rate * 2 then
      (Ok (String.string_of_list_ascii (interpolate (String.list_ascii_of_string data))), mkFormat true (sample_rate f))
    else (Err (Abort "invalid samplerate"), mkFormat true (sample_rate f)).
Proof.
  intros Hf Hr Hd Hne. unfold loadWavFile. rewrite Hf. set (f1 := mkFormat true (sample_rate f)).
  erewrite run_bind by (apply run_lift, wav_file_chunks; [unfold is_int32; lia|done|apply wav_file_length]). cbn iota beta.
  change (8 =? 8) with true. cbn iota. rewrite (run_bind _ _ _ tt f1) by done.
  assert (ReadData (Z.of_nat (String.length data)) data = Ok (data, EmptyString)) as Hrd.
  { unfold ReadData, size_t. rewrite Z.mod_small, Nat2Z.id, substring_all by lia. rewrite (proj2 (Z.ltb_ge _ _)) by lia.
    by rewrite Nat.sub_diag, substring_end. }
  rewrite (run_bind _ _ _ _ _ (run_lift _ _ f1 Hrd)). cbn iota beta. rewrite (run_bind _ _ _ f1 f1) by done. cbn [sample_rate f1 c_samplerate].
  destruct (sample_rate f =? 0); [done|]. destruct (sample_rate f =? rate); [done|].
  rewrite (proj2 (int32b_spec (rate * 2))) by (unfold is_int32; lia). cbn [negb].
  destruct (sample_rate f =? rate * 2); [|done].
  assert (resampleX2 (String.list_ascii_of_string data) = Ok (interpolate (String.list_ascii_of_string data))) as Hrs
    by (apply resample_eq; by destruct data).
  by rewrite (run_bind _ _ _ _ _ (run_lift _ _ f1 Hrs)).
Qed.

Lemma wav_file_loaded_witness :
  loadWavFile (fun _ => Some (wav_file 11025 "ace")) "x.wav" (mkFormat false 22050) = (Ok "abcde", mkFormat true 22050).
Proof.
  rewrite (wav_file_loaded (fun _ => Some (wav_file 11025 "ace")) "x.wav" 11025 "ace" (mkFormat false 22050)); [reflexivity|reflexivity|lia|cbn; lia|discriminate].
Defined.

(** ** The engine sound of diesel and electric engines *)

Section di.
Context (nsteps : Z) (steps : list DiSoundStepType) (fits : 0 <= nsteps <= Z.of_nat (length steps)).

(** the step of a speed: the first whose limit is above it *)
Definition target (speed : Z) (t : option nat) : Prop :=
  match t with
  | Some t => Z.of_nat t < nsteps /\ (exists s, steps !! t = Some s /\ speed < limit s) /\
              (forall k s, (k < t)%nat -> steps !! k = Some s -> limit s <= speed)
  | None => forall k s, Z.of_nat k < nsteps -> steps !! k = Some s -> limit s <= speed
  end.

Lemma step_of_speed_spec speed : exists t, step_of_speed (Z.to_nat nsteps) 0 steps speed = Ok (Z.of_nat <$> t) /\ target speed t.
Proof.
  assert (forall n l i, (n <= length l)%nat -> exists t, step_of_speed n (Z.of_nat i) l speed = Ok (Z.of_nat <$> t) /\
    match t with
    | Some t => (i <= t < i + n)%nat /\ (exists s, l !! (t - i)%nat = Some s /\ speed < limit s) /\
                (forall k s, (k < t - i)%nat -> l !! k = Some s -> limit s <= speed)
    | None => forall k s, (k < n)%nat -> l !! k = Some s -> limit s <= speed
    end) as Hgen.
  { clear. induction n as [|n IH]; intros l i Hl; [exists None; split; [done|lia]|].
    destruct l as [|s l]; [cbn in Hl; lia|]. cbn [step_of_speed]. destruct (Z.ltb_spec speed (limit s)).
    - exists (Some i). split; [done|]. rewrite Nat.sub_diag. split_and!; [lia|lia|by exists s|lia].
    - destruct (IH l (S i)) as (t & E & Ht); [cbn in Hl; lia|]. replace (Z.of_nat (S i)) with (Z.of_nat i + 1) in E by lia.
      exists t. split; [exact E|]. destruct t as [t|].
      + destruct Ht as (Hr & (s' & Hs' & Hlt) & Hk). replace (t - i)%nat with (S (t - S i)) by lia. split_and!; [lia|lia|by exists s'|].
        intros [|k] s0 Hk0 Hs0; [by injection Hs0 as <-|]. eapply Hk; [|exact Hs0]. lia.
      + intros [|k] s0 Hk0 Hs0; [by injection Hs0 as <-|]. eapply Ht; [|exact Hs0]. lia. }
  destruct (Hgen (Z.to_nat nsteps) steps 0%nat) as (t & E & Ht); [lia|]. exists t. split; [exact E|]. destruct t as [t|]; cbn.
  - destruct Ht as (Hr & Hs & Hk). rewrite Nat.sub_0_r in *. split_and!; [lia|exact Hs|exact Hk].
  - intros k s Hk. apply Ht. lia.
Qed.

(** the loop is within its tables *)
Definition di_ok (st : DiLoop) : Prop := -1 <= di_last st < nsteps /\ -1 <= di_curr st < nsteps.

Lemma step_exists (i : Z) : 0 <= i < nsteps -> exists s, at_step i steps = Ok s /\ steps !! Z.to_nat i = Some s.
Proof.
  intros Hi. destruct (lookup_lt_is_Some_2 steps (Z.to_nat i)) as [s Hs]; [lia|]. exists s. split; [|done].
  unfold at_step. rewrite (proj2 (Z.ltb_ge _ _)) by lia. by rewrite Hs.
Qed.

(** one turn, with the step it aims at *)
Lemma di_turn_run doRun speed st curr :
  di_ok st -> -1 <= curr < nsteps ->
  (if (speed =? 0) && (di_last st =? 0) && negb doRun then curr = -1
   else step_of_speed (Z.to_nat nsteps) 0 steps speed = Ok (if decide (curr = di_curr st) then None else Some curr) \/
        step_of_speed (Z.to_nat nsteps) 0 steps speed = Ok (Some curr)) ->
  di_turn nsteps steps doRun speed st =
    (if curr =? di_last st then
       if di_last st =? -1 then Ok (None, mkDiLoop (di_last st) curr)
       else s ← at_step (di_last st) steps; Ok (Some (run s), mkDiLoop (di_last st) curr)
     else if curr <? di_last st then s ← at_step (di_last st) steps; Ok (Some (down s), mkDiLoop (di_last st - 1) curr)
     else s ← at_step (di_last st + 1) steps; Ok (Some (up s), mkDiLoop (di_last st + 1) curr)).
Proof.
  intros _ _ Hc. unfold di_turn. destruct (_ && _ && _); [by subst|].
  destruct Hc as [-> | ->]; [|done]. case_decide; by subst.
Qed.

(** the step the loop aims at *)
Lemma di_aim doRun speed st : di_ok st -> exists curr, -1 <= curr < nsteps /\
  (if (speed =? 0) && (di_last st =? 0) && negb doRun then curr = -1
   else step_of_speed (Z.to_nat nsteps) 0 steps speed = Ok (if decide (curr = di_curr st) then None else Some curr) \/
        step_of_speed (Z.to_nat nsteps) 0 steps speed = Ok (Some curr)).
Proof.
  intros [Hl Hc]. destruct (_ && _ && _); [exists (-1); lia|]. destruct (step_of_speed_spec speed) as ([t|] & E & Ht).
  - exists (Z.of_nat t). destruct Ht as [Ht _]. split; [lia|]. right. exact E.
  - exists (di_curr st). split; [lia|]. left. by rewrite decide_True.
Qed.

Lemma di_turn_ok doRun speed st : di_ok st -> exists o st', di_turn nsteps steps doRun speed st = Ok (o, st') /\ di_ok st'.
Proof.
  intros Hok. destruct (di_aim doRun speed st Hok) as (curr & Hcurr & Haim). rewrite (di_turn_run doRun speed st curr Hok Hcurr Haim).
  destruct Hok as [Hl Hc]. destruct (Z.eqb_spec curr (di_last st)) as [->|Hne].
  - destruct (Z.eqb_spec (di_last st) (-1)); [by eexists _, _|].
    destruct (step_exists (di_last st)) as (s & -> & _); [lia|]. cbn. by eexists _, _.
  - destruct (Z.ltb_spec curr (di_last st)).
    + destruct (step_exists (di_last st)) as (s & -> & _); [lia|]. cbn. eexists _, _. split; [done|]. split; cbn; lia.
    + destruct (step_exists (di_last st + 1)) as (s & -> & _); [lia|]. cbn. eexists _, _. split; [done|]. split; cbn; lia.
Qed.

(** The engine sound never leaves its table: whatever speeds and
    switch positions the thread meets, in any order, every turn plays a sample
    of one of the loaded speed steps or sleeps. *)
Theorem engine_sound_safe env st : di_ok st -> exists l st' ended, di_outloop nsteps steps env st = Ok (l, st', ended) /\ di_ok st'.
Proof.
  revert st. induction env as [|[doRun speed] env IH]; intros st Hok; [by exists [], st, false|]. cbn [di_outloop].
  destruct (di_runs doRun st); [|by exists [], st, true].
  destruct (di_turn_ok doRun speed st Hok) as (o & st1 & -> & H1). cbn [mbind outcome_bind].
  destruct (IH st1 H1) as (l & st2 & ended & -> & H2). cbn [mbind outcome_bind]. by eexists _, _, _.
Qed.

(** *** The sound follows the speed *)

Definition step_at (i : Z) : DiSoundStepType := default DiSoundStep0 (steps !! Z.to_nat i).

Lemma at_step_at i : 0 <= i < nsteps -> at_step i steps = Ok (step_at i).
Proof. intros Hi. destruct (step_exists i Hi) as (s & E & Hs). unfold step_at. by rewrite Hs. Qed.

(** a turn that aims at step [t] *)
Lemma di_turn_aims doRun speed last c t :
  (speed =? 0) && (last =? 0) && negb doRun = false -> step_of_speed (Z.to_nat nsteps) 0 steps speed = Ok (Some t) ->
  0 <= t < nsteps -> -1 <= last < nsteps ->
  di_turn nsteps steps doRun speed (mkDiLoop last c) =
    Ok (if t =? last then (Some (run (step_at t)), mkDiLoop t t)
        else if t <? last then (Some (down (step_at last)), mkDiLoop (last - 1) t)
        else (Some (up (step_at (last + 1))), mkDiLoop (last + 1) t)).
Proof.
  intros Hd Ht Hr Hl. unfold di_turn. cbn [di_last di_curr]. rewrite Hd, Ht. cbn [mbind outcome_bind]. change (default c (Some t)) with t.
  destruct (Z.eqb_spec t last) as [->|].
  - rewrite (proj2 (Z.eqb_neq last (-1))) by lia. by rewrite at_step_at by lia.
  - destruct (Z.ltb_spec t last); by rewrite at_step_at by lia.
Qed.

Lemma di_outloop_step doRun speed env st o st' : di_runs doRun st = true -> di_turn nsteps steps doRun speed st = Ok (Some o, st') ->
  di_outloop nsteps steps ((doRun, speed) :: env) st =
    ('(l, st, ended) ← di_outloop nsteps steps env st'; Ok (o :: l, st, ended)).
Proof. intros Hr Ht. cbn [di_outloop]. by rewrite Hr, Ht. Qed.

(** on the way to step [t] *)
Definition on_the_way (last t : Z) : list Sample :=
  if last <=? t then map (fun j => up (step_at (last + 1 + Z.of_nat j))) (seq 0 (Z.to_nat (t - last)))
  else map (fun j => down (step_at (last - Z.of_nat j))) (seq 0 (Z.to_nat (last - t))).

Lemma on_the_way_up last t : last < t -> on_the_way last t = up (step_at (last + 1)) :: on_the_way (last + 1) t.
Proof.
  intros H. unfold on_the_way. rewrite !(proj2 (Z.leb_le _ _)) by lia.
  replace (Z.to_nat (t - last)) with (S (Z.to_nat (t - (last + 1)))) by lia. cbn [seq map]. rewrite Z.add_0_r.
  rewrite <- seq_shift, map_map. f_equal. apply map_ext. intros j. f_equal. f_equal. lia.
Qed.
Lemma on_the_way_down last t : t < last -> on_the_way last t = down (step_at last) :: on_the_way (last - 1) t.
Proof.
  intros H. unfold on_the_way. rewrite (proj2 (Z.leb_gt _ _)) by lia. destruct (Z.leb_spec (last - 1) t).
  - replace (Z.to_nat (last - t)) with 1%nat by lia. replace (Z.to_nat (t - (last - 1))) with 0%nat by lia. cbn. by rewrite Z.sub_0_r.
  - replace (Z.to_nat (last - t)) with (S (Z.to_nat (last - 1 - t))) by lia. cbn [seq map]. rewrite Z.sub_0_r.
    rewrite <- seq_shift, map_map. f_equal. apply map_ext. intros j. f_equal. f_equal. lia.
Qed.

Lemma follow_runs speed t m : step_of_speed (Z.to_nat nsteps) 0 steps speed = Ok (Some t) -> 0 <= t < nsteps ->
  forall n last c, n = Z.to_nat (Z.abs (t - last)) -> -1 <= last < nsteps ->
  di_outloop nsteps steps (repeat (true, speed) (n + S m)) (mkDiLoop last c) =
    Ok (on_the_way last t ++ repeat (run (step_at t)) (S m), mkDiLoop t t, false).
Proof.
  intros Hs Ht. assert (forall st, di_runs true st = true) as Hrun by done.
  induction n as [|n IH]; intros last c Hn Hl.
  - assert (last = t) as -> by lia. replace (on_the_way t t) with (@nil Sample) by (unfold on_the_way; by rewrite Z.leb_refl, Z.sub_diag).
    clear Hn. revert c. induction m as [|m IH]; intros c.
    + cbn [repeat Nat.add]. rewrite (di_outloop_step true speed [] _ (run (step_at t)) (mkDiLoop t t)); [done|done|].
      rewrite (di_turn_aims true speed t c t) by first [apply andb_false_r | done | lia]. by rewrite Z.eqb_refl.
    + cbn [repeat Nat.add app]. rewrite (di_outloop_step true speed _ _ (run (step_at t)) (mkDiLoop t t)); [|done|].
      2:{ rewrite (di_turn_aims true speed t c t) by first [apply andb_false_r | done | lia]. by rewrite Z.eqb_refl. }
      specialize (IH t). cbn [repeat Nat.add app] in IH. by rewrite IH.
  - cbn [Nat.add repeat]. destruct (Z.lt_trichotomy last t) as [Hlt|[->|Hgt]]; [|lia|].
    + rewrite (di_outloop_step true speed _ _ (up (step_at (last + 1))) (mkDiLoop (last + 1) t)); [|done|].
      2:{ rewrite (di_turn_aims true speed last c t) by first [apply andb_false_r | done | lia].
          by rewrite (proj2 (Z.eqb_neq _ _)), (proj2 (Z.ltb_ge _ _)) by lia. }
      rewrite (IH (last + 1) t) by lia. by rewrite (on_the_way_up last t) by lia.
    + rewrite (di_outloop_step true speed _ _ (down (step_at last)) (mkDiLoop (last - 1) t)); [|done|].
      2:{ rewrite (di_turn_aims true speed last c t) by first [apply andb_false_r | done | lia].
          by rewrite (proj2 (Z.eqb_neq _ _)), (proj2 (Z.ltb_lt _ _)) by lia. }
      rewrite (IH (last - 1) t) by lia. by rewrite (on_the_way_down last t) by lia.
Qed.

(** The engine sound of the Linux server follows the speed: while
    the sound is on and the speed stays below the limit of step [t] and not
    below those of the lower steps, the thread plays the up samples (or the
    down samples) of all steps in between in order, one per turn, and then the
    run sample of step [t] for as long as the speed stays. *)
Theorem engine_loop_follows speed (t : nat) last c m :
  target speed (Some t) -> -1 <= last < nsteps ->
  di_outloop nsteps steps (repeat (true, speed) (Z.to_nat (Z.abs (Z.of_nat t - last)) + S m)) (mkDiLoop last c) =
    Ok (on_the_way last (Z.of_nat t) ++ repeat (run (step_at (Z.of_nat t))) (S m), mkDiLoop (Z.of_nat t) (Z.of_nat t), false).
Proof.
  intros Ht Hl. destruct (step_of_speed_spec speed) as (t' & E & Ht').
  assert (t' = Some t) as ->.
  { destruct Ht as (Hn & (s & Hs & Hlt) & Hk). destruct t' as [t'|]; cbn in Ht'.
    - destruct Ht' as (Hn' & (s' & Hs' & Hlt') & Hk'). f_equal. destruct (Nat.lt_trichotomy t t') as [H|[H|H]]; [|done|].
      + specialize (Hk' t s H Hs). lia.
      + specialize (Hk t' s' H Hs'). lia.
    - specialize (Ht' t s Hn Hs). lia. }
  apply follow_runs; [exact E|destruct Ht; lia|done|done].
Qed.

(** Switched off, the engine sound of a standing locomotive ends:
    from step [k] the thread plays the down samples of steps [k] to 0, one per
    turn, and then leaves its loop with step -1, from where it can be started
    again. *)
Theorem engine_loop_ends (k : nat) c s0 :
  Z.of_nat k < nsteps -> steps !! 0%nat = Some s0 -> 0 < limit s0 ->
  di_outloop nsteps steps (repeat (false, 0) (k + 2)) (mkDiLoop (Z.of_nat k) c) =
    Ok (on_the_way (Z.of_nat k) (-1), mkDiLoop (-1) (-1), true).
Proof.
  intros Hk Hs0 Hl0. assert (step_of_speed (Z.to_nat nsteps) 0 steps 0 = Ok (Some 0)) as Hs.
  { destruct (Z.to_nat nsteps) eqn:E; [lia|]. destruct steps as [|s l]; [done|]. injection Hs0 as ->. cbn [step_of_speed].
    by rewrite (proj2 (Z.ltb_lt _ _)). }
  revert c. induction k as [|k IH]; intros c.
  - cbn [Nat.add repeat]. rewrite (di_outloop_step false 0 _ _ (down (step_at 0)) (mkDiLoop (-1) (-1))); [|done|].
    2:{ unfold di_turn. cbn [di_last di_curr]. cbn [Z.eqb andb negb mbind outcome_bind Z.ltb Z.compare Z.of_nat].
        by rewrite at_step_at by lia. }
    rewrite on_the_way_down by lia. done.
  - change (repeat (false, 0) (S k + 2)) with ((false, 0) :: repeat (false, 0) (k + 2)).
    rewrite (di_outloop_step false 0 _ _ (down (step_at (Z.of_nat (S k)))) (mkDiLoop (Z.of_nat k) 0)).
    + rewrite IH by lia. rewrite (on_the_way_down (Z.of_nat (S k)) (-1)) by lia.
      by replace (Z.of_nat (S k) - 1) with (Z.of_nat k) by lia.
    + unfold di_runs. cbn [orb di_last]. apply Z.leb_le. lia.
    + rewrite (di_turn_aims false 0 (Z.of_nat (S k)) c 0) by first [done | lia].
      rewrite (proj2 (Z.eqb_neq _ _)), (proj2 (Z.ltb_lt _ _)) by lia.
      by replace (Z.of_nat (S k) - 1) with (Z.of_nat k) by lia.
Qed.

(** When no limit is above the speed, the step is not changed: a locomotive
    that reaches full speed at once keeps the sound of the step before. *)
Lemma full_speed_keeps_step speed last : target speed None -> 0 <= last < nsteps ->
  di_turn nsteps steps true speed (mkDiLoop last last) = Ok (Some (run (step_at last)), mkDiLoop last last).
Proof.
  intros Ht Hl. destruct (step_of_speed_spec speed) as (t & E & Ht').
  assert (t = None) as ->.
  { destruct t as [t|]; [|done]. destruct Ht' as (Hn & (s & Hs & Hlt) & _). specialize (Ht t s Hn Hs). lia. }
  unfold di_turn. cbn [di_last di_curr]. rewrite andb_false_r, E. cbn [mbind outcome_bind fmap option_fmap option_map].
  change (default last None) with last. rewrite Z.eqb_refl, (proj2 (Z.eqb_neq last (-1))) by lia. by rewrite at_step_at.
Qed.
End di.

(** an engine with three steps *)
Definition named_sample (n : string) : Sample := mkSample n n 0 0.
Definition sample_steps : list DiSoundStepType :=
  [mkDiStep (named_sample "start") (named_sample "stop") (named_sample "idle") 1;
   mkDiStep (named_sample "F0-F1") (named_sample "F1-F0") (named_sample "F1") 100;
   mkDiStep (named_sample "F1-F2") (named_sample "F2-F1") (named_sample "F2") 255].
Lemma sample_steps_fit : 0 <= 3 <= Z.of_nat (length sample_steps).
Proof. cbn. lia. Qed.

Lemma engine_sound_safe_witness : exists l st' ended,
  di_outloop 3 sample_steps [(true, 120); (false, 255); (true, -7)] (di_start (-1)) = Ok (l, st', ended) /\ di_ok 3 st'.
Proof. apply (engine_sound_safe 3 sample_steps sample_steps_fit). split; cbn; lia. Defined.

Lemma engine_loop_follows_witness :
  di_outloop 3 sample_steps (repeat (true, 120) 5) (di_start (-1)) =
    Ok (map named_sample ["start"; "F0-F1"; "F1-F2"; "F2"; "F2"], mkDiLoop 2 2, false).
Proof.
  refine (engine_loop_follows 3 sample_steps sample_steps_fit 120 2 (-1) 0 1 _ _); [|lia].
  split_and!; [lia|by eexists|]. intros [|[|k]] s Hk Hs; [injection Hs as <-; cbn; lia|injection Hs as <-; cbn; lia|lia].
Defined.

Lemma engine_loop_ends_witness :
  di_outloop 3 sample_steps (repeat (false, 0) 4) (mkDiLoop 2 2) =
    Ok (map named_sample ["F2-F1"; "F1-F0"; "stop"], mkDiLoop (-1) (-1), true).
Proof.
  exact (engine_loop_ends 3 sample_steps sample_steps_fit 2 2
    (mkDiStep (named_sample "start") (named_sample "stop") (named_sample "idle") 1) ltac:(lia) eq_refl ltac:(cbn; lia)).
Defined.
