(* ===== verification/SoundCard.v ===== *)
(** * bluetoothserver/sound.cpp: the sound card

    The life of a [Sound] object (opening and setting up the ALSA device,
    writing, closing, the destructor), what plays through it ([PlayAsyncData],
    the boiler and the electric motor loops), and the master volume.  ALSA is
    a parameter: what its calls return.  Handles are numbered, so that using
    a handle that is closed is an error with no defined behaviour.  [float]
    arithmetic is IEEE binary32, with the operations of SpecFloat. *)

From Stdlib Require Import Ascii SpecFloat.
From S2P Require Import Prelude StdMap CString Utils Lokdef Zsp Sound.

(** ** The ALSA device *)

(** the calls of [setup_alsa] whose result is checked *)
Inductive alsa_call : Type :=
  | hw_params_any | set_rate_near | set_channels | set_periods | set_buffer_size_near | hw_params
  | sw_params_current | set_avail_min | set_start_threshold | sw_params.

(** what the library answers; [writes] for every call of [writeSound] *)
Record write_env : Type := mkWrite {
  we_xrun : bool;      (** the state is XRUN or SUSPENDED *)
  we_prepare : Z;
  we_writei : Z;
  we_recover : Z;
}.
Record Alsa : Type := mkAlsa { rc_open : Z; rc_setup : alsa_call -> Z; writes : nat -> write_env }.

(** the open handles, the next one, what was played, and the statics of the class *)
Record Card : Type := mkCard {
  opened : list nat;
  next_handle : nat;
  played : list string;
  n_writes : nat;
  soundObjects : Z;
  config_freed : bool;
}.
Definition card0 : Card := mkCard [] 0 [] 0 0 false.

Definition set_opened l c := mkCard l (next_handle c) (played c) (n_writes c) (soundObjects c) (config_freed c).

(** a [Sound] object: its handle *)
Definition Snd : Type := Card * option nat.
Definition on_card {A} (m : M Card A) : M Snd A := zoom fst (fun c s => (c, s.2)) m.

Definition with_open {A} (what : string) (h : nat) (m : M Card A) : M Card A :=
  c ← get; if decide (h ∈ opened c) then m else fail (UB what).

Definition snd_pcm_close (h : nat) : M Card unit :=
  with_open "snd_pcm_close" h (modify (fun c => set_opened (filter (.≠ h) (opened c)) c)).
Definition snd_pcm_drain (h : nat) : M Card unit := with_open "snd_pcm_drain" h (mret tt).

Section alsa.
Context (alsa : Alsa).

(** a call that fails ends the set-up; most of them close the device before *)
Definition setup_calls : list (alsa_call * bool) :=
  [(hw_params_any, true); (set_rate_near, true); (set_channels, true); (set_periods, true);
   (set_buffer_size_near, true); (hw_params, true); (sw_params_current, false); (set_avail_min, false);
   (set_start_threshold, true); (sw_params, false)].
Fixpoint setup_from (l : list (alsa_call * bool)) (h : nat) : M Card Z :=
  match l with
  | [] => mret 0
  | (call, closes) :: l' =>
      if rc_setup alsa call <? 0 then (if closes : bool then snd_pcm_close h else mret tt);; mret (-1)
      else setup_from l' h
  end.
Definition setup_alsa (h : nat) : M Card Z := setup_from setup_calls h.

(** [Sound::init]; [known] tells whether the format of the samples is set *)
Definition Sound_init (known : bool) : M Snd unit :=
  h ← gets snd;
  match h : option nat with
  | Some _ => throw "sound already initialized"
  | None =>
      if negb known then throw "Sound::init() sound format not set"
      else if rc_open alsa <? 0 then throw "Sound::init() Playback open error"
      else
        c ← gets fst;
        put (mkCard (next_handle c :: opened c) (S (next_handle c)) (played c) (n_writes c) (soundObjects c) (config_freed c),
             Some (next_handle c));;
        rc ← on_card (setup_alsa (next_handle c));
        if rc <? 0 then throw "error in setup_alsa" else mret tt
  end.

Definition Sound_close (waitDone : bool) : M Snd unit :=
  h ← gets snd;
  match h with
  | None => mret tt
  | Some h =>
      on_card ((if waitDone then snd_pcm_drain h else mret tt);; snd_pcm_close h);;
      modify (fun s => (s.1, None))
  end.

Definition Sound_destruct : M Snd unit :=
  Sound_close true;;
  on_card (modify (fun c => if soundObjects c =? 0
    then mkCard (opened c) (next_handle c) (played c) (n_writes c) (soundObjects c) true else c)).

(** [{ Sound sound; body }]: an exception runs the destructor too *)
Definition with_sound {A} (body : M Snd A) : M Card A := fun c =>
  let c := mkCard (opened c) (next_handle c) (played c) (n_writes c) (soundObjects c + 1) (config_freed c) in
  match body (c, None) with
  | (Ok a, s) => let '(r, s') := Sound_destruct s in (match r with Ok _ => Ok a | Err e => Err e end, s'.1)
  | (Err (Throw what), s) => let '(r, s') := Sound_destruct s in (match r with Ok _ => Err (Throw what) | Err e => Err e end, s'.1)
  | (Err e, s) => (Err e, s.1)
  end.

(** ** Writing *)

Definition EPIPE : Z := 32.
Definition EBADFD : Z := 77.
Definition ESTRPIPE : Z := 86.

(** the frames the device took are played; a frame is one byte *)
Definition snd_pcm_writei (d : string) (c : Card) : Card :=
  let frames := we_writei (writes alsa (n_writes c)) in
  mkCard (opened c) (next_handle c) (played c ++ (if 0 <? frames then [String.substring 0 (Z.to_nat frames) d] else []))
    (S (n_writes c)) (soundObjects c) (config_freed c).

Definition Sound_write (data : string) (startpos : Z) : M Snd Z :=
  d ← lift (writeSound data startpos);
  h ← gets snd;
  match h with
  | None => fail (UB "snd_pcm_status(NULL)")
  | Some h =>
      e ← on_card (with_open "snd_pcm_status" h (gets (fun c => writes alsa (n_writes c))));
      if we_xrun e && (we_prepare e <? 0) then fail (Abort "Can't recovery from underrun, prepare failed")
      else
        on_card (modify (snd_pcm_writei d));;
        let frames := we_writei e in
        if (frames =? - EPIPE) || (frames =? - EBADFD) || (frames =? - ESTRPIPE) then mret frames
        else if frames <? 0 then mret (we_recover e)
        else mret frames
  end.

(** [PlayAsyncData::run]; [true] when [done()] is reached *)
Definition play_async_run (known : bool) (wav : string) : M Card bool :=
  with_sound (Sound_init known;; Sound_write wav 0;; Sound_close true;; mret true).

(** [BoilSteamOutLoop::run], cancelled in round [n]: [testcancel] leaves by an
    exception, what is behind the loop is never reached *)
Fixpoint boil_rounds (boil : Sample) (n : nat) : M Snd unit :=
  w ← lift (loop boil);
  Sound_write w 0;;
  match n with O => throw "canceled" | S n' => boil_rounds boil n' end.
Definition boil_run (known : bool) (boil : Sample) (n : nat) : M Card unit :=
  if negb (sample_set boil) then mret tt
  else with_sound (Sound_init known;; w ← lift (loopStart boil); Sound_write w 0;; boil_rounds boil n).
End alsa.
Arguments setup_alsa : simpl never.

(** ** binary32 *)

Definition f32 (z : Z) : spec_float := binary_normalize 24 128 z 0 false.
Definition f32_add := SFadd 24 128.
Definition f32_sub := SFsub 24 128.
Definition f32_mul := SFmul 24 128.
Definition f32_div := SFdiv 24 128.

(** [(float) (a / b)] of the [double] quotient *)
Definition f32_quotient (a b : Z) : spec_float :=
  match SFdiv 53 1024 (binary_normalize 53 1024 a 0 false) (binary_normalize 53 1024 b 0 false) with
  | S754_finite s m e => binary_normalize 24 128 (cond_Zopp s (Zpos m)) e s
  | f => f
  end.

(** conversion to an integer; there is none for infinities and NaN *)
Definition trunc (f : spec_float) : outcome Z :=
  match f with
  | S754_zero _ => Ok 0
  | S754_finite s m e => Ok (cond_Zopp s (if 0 <=? e then Zpos m * 2 ^ e else Zpos m / 2 ^ (- e)))
  | _ => Err (UB "float to integer")
  end.

(** ** The electric motor *)

(** the sample, quieter at low speed *)
Definition emotor_level (speed b : Z) : Z := u8 (Z.quot ((b - 0x80) * speed) 255 + 0x80).

(** the loop over the input: [skip] and the output so far *)
Definition emotor_round (nextWavSpeed : spec_float) (st : spec_float * list Z) (x : Z * Z) : spec_float * list Z :=
  let '(skip, out) := st in
  if SFleb (f32 1) skip then (f32_sub skip (f32 1), out)
  else (f32_add skip nextWavSpeed, out ++ [emotor_level x.1 x.2]).

(** one round of [while(true)]; [speeds] is what [lokdef[0].currspeed] holds
    whenever it is read: for the test, for the factor, for every sample.  The result
    is what is written, nothing while the locomotive stands, and [loopPlayPos] *)
Definition emotor_turn (sample_rate : Z) (speeds : nat -> Z) (orgWav : list Z) (loopPlayPos : Z) : outcome (option (list Z) * Z) :=
  if speeds 0%nat <? 5 then Ok (None, loopPlayPos)
  else
    let nextWavSpeed := f32_quotient (speeds 1%nat) 255 in
    let inSamples := Z.min (Z.quot sample_rate 3) (Z.of_nat (length orgWav) - loopPlayPos) in
    let chunk := take (Z.to_nat inSamples) (drop (Z.to_nat loopPlayPos) orgWav) in
    let out := (foldl (emotor_round nextWavSpeed) (f32 0, []) (imap (fun i b => (speeds (2 + i)%nat, b)) chunk)).2 in
    match length out with
    | O => Err (Throw "basic_string::resize")
    | S n =>
        let pos := loopPlayPos + inSamples in
        Ok (Some (take n out), if Z.of_nat (length orgWav) <=? pos then 0 else pos)
    end.

(** ** The master volume *)

Record mixer_elem : Type := mkElem { me_active : bool; me_min : Z; me_max : Z; me_volume : Z }.

Fixpoint first_active (l : list mixer_elem) : option nat :=
  match l with
  | [] => None
  | e :: l' => if me_active e then Some 0%nat else S <$> first_active l'
  end.

Definition calc_volume (range volume : Z) : outcome Z := trunc (f32_div (f32_mul (f32 range) (f32 volume)) (f32 255)).
Definition volume_of (range value : Z) : outcome Z := trunc (f32_div (f32_mul (f32 value) (f32 255)) (f32 range)).

Arguments calc_volume : simpl never.
Arguments volume_of : simpl never.

Section mixer.
Context (rc_open rc_attach : Z).

Definition master : M (list mixer_elem) (nat * mixer_elem) :=
  if negb (rc_open =? 0) then fail (Abort "snd_mixer_open")
  else if negb (rc_attach =? 0) then fail (Abort "snd_mixer_attach")
  else
    l ← get;
    match first_active l with
    | None => fail (Abort "snd_mixer_find_selem")
    | Some i => match l !! i with Some e => mret (i, e) | None => fail (UB "elem") end
    end.

Definition setMasterVolume (volume : Z) : M (list mixer_elem) unit :=
  '(i, e) ← master;
  calcVolume ← lift (calc_volume (me_max e - me_min e) volume);
  modify (fun l => <[i := mkElem (me_active e) (me_min e) (me_max e) (calcVolume + me_min e)]> l).

Definition getMasterVolume : M (list mixer_elem) Z :=
  '(i, e) ← master;
  lift (volume_of (me_max e - me_min e) (me_volume e - me_min e)).
End mixer.

(** ** Handles are opened and closed once *)

Fixpoint first_failure (alsa : Alsa) (l : list (alsa_call * bool)) : option (alsa_call * bool) :=
  match l with
  | [] => None
  | (call, closes) :: l' => if rc_setup alsa call <? 0 then Some (call, closes) else first_failure alsa l'
  end.

Lemma setup_from_spec alsa l h c : setup_from alsa l h c =
  match first_failure alsa l with
  | None => (Ok 0, c)
  | Some (_, false) => (Ok (-1), c)
  | Some (_, true) => (snd_pcm_close h;; mret (-1)) c
  end.
Proof. induction l as [|[call []] l IH]; cbn; [done| |]; destruct (rc_setup alsa call <? 0); done. Qed.

(** handles are numbered upwards *)
Definition fresh (c : Card) : Prop := Forall (fun h => h < next_handle c)%nat (opened c).

(** the object has its handle, and beside it the handles [l] are open *)
Definition owns (l : list nat) (s : Snd) : Prop :=
  fresh s.1 /\ match s.2 with None => opened s.1 = l | Some h => h ∉ l /\ opened s.1 = h :: l end.

(** an exception leaves the object in order, an abort ends the process; nothing
    undefined happens *)
Definition or_throws {S} (P : S -> Prop) (e : exn) (s : S) : Prop :=
  match e with Throw _ => P s | Abort _ => True | _ => False end.

Lemma filter_own (h : nat) l : h ∉ l -> filter (.≠ h) (h :: l) = l.
Proof.
  intros Hh. rewrite filter_cons_False by (intros H; by apply H). clear -Hh. induction l as [|x l IH]; [done|].
  rewrite filter_cons_True by set_solver. f_equal. apply IH. set_solver.
Qed.

Lemma close_owns b l s : owns l s -> wp (Sound_close b) (fun _ s' => owns l s' /\ s'.2 = None) (fun _ _ => False) s.
Proof.
  destruct s as [c [h|]]; intros [Hf Ho]; cbn in *; [|done]. destruct Ho as [Hh Ho].
  unfold wp, Sound_close, mbind, M_bind, gets, on_card, zoom. cbn.
  assert (h ∈ opened c) as Hin by (rewrite Ho; set_solver).
  unfold snd_pcm_drain, snd_pcm_close, with_open, mbind, M_bind, get.
  destruct b; cbn; rewrite ?(decide_True _ _ Hin); cbn; rewrite ?(decide_True _ _ Hin); cbn;
    rewrite Ho, filter_own by done; (split; [|done]); (split; [|done]); unfold fresh in *; cbn; rewrite Ho in Hf; by apply Forall_cons_1 in Hf as [_ ?].
Qed.

Lemma destruct_owns l s : owns l s -> wp Sound_destruct (fun _ s' => opened s'.1 = l /\ fresh s'.1) (fun _ _ => False) s.
Proof.
  intros Ho. unfold Sound_destruct. apply wp_bind. eapply wp_mono; [by apply close_owns| |done].
  intros [] [c h] [[Hf Ho'] Hn]. cbn in *. subst h. unfold wp, on_card, zoom, modify. cbn. by destruct (soundObjects c =? 0).
Qed.

Lemma with_sound_owns {A} (body : M Snd A) l (c : Card) : fresh c -> opened c = l ->
  (forall c', fresh c' -> opened c' = l -> wp body (fun _ => owns l) (or_throws (owns l)) (c', None)) ->
  wp (with_sound body) (fun _ c' => opened c' = l /\ fresh c') (or_throws (fun c' => opened c' = l /\ fresh c')) c.
Proof.
  intros Hf Ho Hb. unfold wp, with_sound.
  specialize (Hb (mkCard (opened c) (next_handle c) (played c) (n_writes c) (soundObjects c + 1) (config_freed c)) Hf Ho). unfold wp in Hb.
  destruct (body _) as [[a|[what|what|what|]] s]; cbn in Hb; try done.
  - pose proof (destruct_owns l s Hb) as Hd. unfold wp in Hd. by destruct (Sound_destruct s) as [[[]|e] s'].
  - pose proof (destruct_owns l s Hb) as Hd. unfold wp in Hd. by destruct (Sound_destruct s) as [[[]|e] s'].
Qed.

Section handles.
Context (alsa : Alsa) (Hset : forall call, first_failure alsa setup_calls <> Some (call, true)).

Lemma init_owns known l s : owns l s -> s.2 = None ->
  wp (Sound_init alsa known) (fun _ s' => owns l s' /\ exists h, s'.2 = Some h) (or_throws (owns l)) s.
Proof.
  destruct s as [c h]. intros [Hf Ho] Hn. cbn in *. subst h. unfold wp, Sound_init, mbind, M_bind, gets. cbn.
  destruct (negb known); [done|]. destruct (rc_open alsa <? 0); [done|].
  cbn. unfold on_card, zoom. cbn. unfold setup_alsa. rewrite setup_from_spec.
  assert (owns l (mkCard (next_handle c :: opened c) (S (next_handle c)) (played c) (n_writes c) (soundObjects c) (config_freed c), Some (next_handle c))) as Hown.
  { unfold owns, fresh in *. cbn. split.
    - constructor; [lia|]. eapply Forall_impl; [|exact Hf]. cbn. lia.
    - split; [|by rewrite Ho]. intros Hin. rewrite <- Ho in Hin. apply (proj1 (list.Forall_forall _ _) Hf) in Hin. lia. }
  destruct (first_failure alsa setup_calls) as [[call []]|] eqn:E; [by destruct (Hset call)| |]; cbn; [done|]. split; [done|by eexists].
Qed.

Lemma write_owns data pos l s h : owns l s -> s.2 = Some h ->
  wp (Sound_write alsa data pos) (fun _ s' => owns l s' /\ s'.2 = Some h) (or_throws (owns l)) s.
Proof.
  clear Hset. destruct s as [c h']. intros [Hf Ho] Hn. cbn in *. subst h'. destruct Ho as [Hh Ho].
  unfold wp, Sound_write, mbind, M_bind, lift.
  destruct (writeSound data pos) as [d|e] eqn:Ew.
  2:{ unfold writeSound in Ew. by repeat case_match; simplify_eq. }
  cbn. unfold on_card, zoom, with_open, mbind, M_bind, get, gets. cbn.
  rewrite decide_True by (rewrite Ho; set_solver). cbn.
  destruct (we_xrun (writes alsa (n_writes c)) && (we_prepare (writes alsa (n_writes c)) <? 0)); [done|]. cbn.
  assert (owns l (snd_pcm_writei alsa d c, Some h)) as Hown by done.
  destruct (_ || _ || _); [done|]. by destruct (we_writei (writes alsa (n_writes c)) <? 0).
Qed.

Lemma boil_rounds_owns boil n l s h : owns l s -> s.2 = Some h ->
  wp (boil_rounds alsa boil n) (fun _ s' => owns l s') (or_throws (owns l)) s.
Proof.
  revert s. induction n as [|n IH]; intros s Ho Hh; cbn [boil_rounds]; apply wp_bind, wp_lift; intros w.
  1,3: intros _; apply wp_bind; (eapply wp_mono; [by apply (write_owns _ _ l s h)| |done]); intros fr s' [Ho' Hh'].
  - done.
  - by apply IH.
  - intros E. unfold loop, loaded, substr in E. cbn in E. unfold mbind, outcome_bind in E. by repeat case_match; simplify_eq.
  - intros E. unfold loop, loaded, substr in E. cbn in E. unfold mbind, outcome_bind in E. by repeat case_match; simplify_eq.
Qed.
End handles.

(** C30: Every device a sound thread opens is closed again exactly once: playing
    a function sound, and the boiler until it is cancelled, leave the handles
    as they were, whether they return or leave by an exception, whatever ALSA
    answers to opening and writing and unless its set-up fails in a call that
    closes the device; no closed handle is used. *)
Theorem sound_released alsa known wav boil n c :
  (forall call, first_failure alsa setup_calls <> Some (call, true)) -> fresh c ->
  let kept := fun c' => opened c' = opened c /\ fresh c' in
  wp (play_async_run alsa known wav) (fun _ => kept) (or_throws kept) c /\
  wp (boil_run alsa known boil n) (fun _ => kept) (or_throws kept) c.
Proof.
  intros Hset Hf kept. split.
  - apply with_sound_owns; [done..|]. intros c' Hf' Ho. apply wp_bind.
    eapply wp_mono; [by apply (init_owns alsa Hset known (opened c))| |done]. intros [] s [Hown (h & Hh)].
    apply wp_bind. eapply wp_mono; [by apply (write_owns alsa _ _ (opened c) s h)| |done]. intros fr s' [Hown' _].
    apply wp_bind. eapply wp_mono; [by apply (close_owns true (opened c))| |done]. by intros [] s'' [Ho'' _].
  - unfold boil_run. destruct (negb (sample_set boil)); [done|].
    apply with_sound_owns; [done..|]. intros c' Hf' Ho. apply wp_bind.
    eapply wp_mono; [by apply (init_owns alsa Hset known (opened c))| |done]. intros [] s [Hown (h & Hh)].
    apply wp_bind, wp_lift; [intros w _|].
    2:{ intros e E. unfold loopStart, loaded, substr in E. cbn in E. unfold mbind, outcome_bind in E. by repeat case_match; simplify_eq. }
    apply wp_bind. eapply wp_mono; [by apply (write_owns alsa _ _ (opened c) s h)| |done]. intros fr s' [Hown' Hh'].
    by eapply boil_rounds_owns.
Qed.

(** a device that answers well *)
Definition sample_alsa : Alsa := mkAlsa 0 (fun _ => 0) (fun _ => mkWrite false 0 1000 0).
Lemma sound_released_witness :
  wp (play_async_run sample_alsa true "abc") (fun _ c' => opened c' = [] /\ fresh c') (or_throws (fun c' => opened c' = [] /\ fresh c')) card0.
Proof. apply (sound_released sample_alsa true "abc" Sample0 0 card0); [intros call; vm_compute; discriminate|constructor]. Defined.

(** When the set-up of the device fails in a call that closes it, [init] keeps
    the handle: the destructor drains and closes it again. *)
Theorem failed_setup_closes_twice alsa wav c call :
  first_failure alsa setup_calls = Some (call, true) -> 0 <= rc_open alsa -> fresh c ->
  (play_async_run alsa true wav c).1 = Err (UB "snd_pcm_drain").
Proof.
  intros Hfail Ho Hf. unfold play_async_run, with_sound.
  assert (next_handle c ∉ opened c) as Hn.
  { intros Hin. apply (proj1 (list.Forall_forall _ _) Hf) in Hin. lia. }
  unfold mbind at 1, M_bind at 1. unfold Sound_init. unfold mbind at 1, M_bind at 1, gets at 1. cbn [snd].
  cbn [negb]. rewrite (proj2 (Z.ltb_ge _ _) Ho). unfold mbind at 1, M_bind at 1, gets at 1. cbn [fst].
  unfold mbind at 1, M_bind at 1, put. unfold mbind at 1, M_bind at 1, on_card at 1, zoom at 1. cbn [fst snd next_handle].
  unfold setup_alsa. rewrite setup_from_spec, Hfail.
  unfold snd_pcm_close, with_open, mbind, M_bind, get. cbn [opened]. rewrite decide_True by set_solver. cbn [modify mret M_ret set_opened opened].
  change (-1 <? 0) with true. cbn [throw fail].
  unfold Sound_destruct, Sound_close, mbind, M_bind, gets. cbn [snd]. unfold on_card, zoom, snd_pcm_drain, with_open, mbind, M_bind, get. cbn [fst opened modify].
  rewrite filter_own by done. cbn [opened set_opened]. by rewrite decide_False by done.
Qed.

(** a device without the sampling rate *)
Definition sample_refusing : Alsa :=
  mkAlsa 0 (fun call => match call with set_channels => -22 | _ => 0 end) (fun _ => mkWrite false 0 1000 0).
Lemma failed_setup_closes_twice_witness : (play_async_run sample_refusing true "abc" card0).1 = Err (UB "snd_pcm_drain").
Proof. apply (failed_setup_closes_twice sample_refusing "abc" card0 set_channels); [vm_compute; reflexivity|vm_compute; discriminate|constructor]. Defined.

(** The boiler: its start and then its loop are played until it is cancelled; the
    end of the sample, which the code has behind the loop, never is.  The
    global configuration of ALSA is never freed, because [soundObjects] only
    counts upwards. *)
Example boiler_never_ends :
  let boil := mkSample "boil.wav" "aabbbc" 2 5 in
  boil_run sample_alsa true boil 2 card0 =
    (Err (Throw "canceled"), mkCard [] 1 ["aa"; "bbb"; "bbb"; "bbb"] 4 1 false) /\ loopEnd boil = Ok "c".
Proof. vm_compute. done. Qed.

(** ** The electric motor *)

Lemma emotor_level_exact speed b : 0 <= speed <= 255 -> 0 <= b <= 255 ->
  emotor_level speed b = 128 + Z.quot ((b - 128) * speed) 255.
Proof.
  intros Hs Hb. unfold emotor_level. change 0x80 with 128. rewrite u8_id; [lia|].
  destruct (Z.le_ge_cases 128 b) as [H|H].
  - assert (0 <= Z.quot ((b - 128) * speed) 255) by (apply Z.quot_pos; nia).
    assert (Z.quot ((b - 128) * speed) 255 < 128) by (apply Z.quot_lt_upper_bound; nia). lia.
  - replace ((b - 128) * speed) with (- ((128 - b) * speed)) by lia. rewrite Z.quot_opp_l by lia.
    assert (0 <= Z.quot ((128 - b) * speed) 255) by (apply Z.quot_pos; nia).
    assert (Z.quot ((128 - b) * speed) 255 <= 128) by (apply Z.quot_le_upper_bound; nia). lia.
Qed.

Section emotor.
Context (next : spec_float).

(** every input gives at most one sample, and the first one always does *)
Lemma emotor_rounds_length l st :
  (length st.2 <= length (foldl (emotor_round next) st l).2 <= length st.2 + length l)%nat.
Proof.
  revert st. induction l as [|x l IH]; intros [skip out]; cbn [foldl length]; [cbn; lia|].
  specialize (IH (emotor_round next (skip, out) x)). unfold emotor_round in *.
  destruct (SFleb (f32 1) skip); cbn [fst snd] in *; rewrite ?length_app in IH; cbn [length] in IH; lia.
Qed.

Lemma emotor_rounds_first x l :
  (1 <= length (foldl (emotor_round next) (f32 0, []) (x :: l)).2 <= length (x :: l))%nat.
Proof.
  cbn [foldl]. unfold emotor_round at 2 4. change (SFleb (f32 1) (f32 0)) with false. cbn iota.
  pose proof (emotor_rounds_length l (f32_add (f32 0) next, [] ++ [emotor_level x.1 x.2])) as H. cbn in H |- *. lia.
Qed.
End emotor.

Lemma emotor_turn_safe rate speeds w pos : 3 <= rate -> 0 <= pos < Z.of_nat (length w) ->
  exists out pos', emotor_turn rate speeds w pos = Ok (out, pos') /\ 0 <= pos' < Z.of_nat (length w) /\
    match out with
    | None => pos' = pos /\ speeds 0%nat < 5
    | Some o => (Z.of_nat (length o) < Z.min (rate / 3) (Z.of_nat (length w) - pos))
    end.
Proof.
  intros Hr Hp. unfold emotor_turn. destruct (Z.ltb_spec (speeds 0%nat) 5) as [H5|H5]; [by exists None, pos|].
  rewrite Z.quot_div_nonneg by lia. set (n := Z.min (rate / 3) (Z.of_nat (length w) - pos)).
  assert (1 <= rate / 3) by (apply Z.div_le_lower_bound; lia).
  set (chunk := take (Z.to_nat n) (drop (Z.to_nat pos) w)).
  assert (length chunk = Z.to_nat n) as Hc by (unfold chunk; rewrite length_take, length_drop; lia).
  set (ins := imap _ chunk). assert (length ins = Z.to_nat n) as Hi by (unfold ins; rewrite length_imap; done).
  destruct ins as [|x l]; [cbn in Hi; lia|].
  pose proof (emotor_rounds_first (f32_quotient (speeds 1%nat) 255) x l) as Hl. rewrite Hi in Hl.
  destruct (length (foldl _ _ (x :: l)).2) as [|m] eqn:Em; [lia|].
  eexists _, _. split; [reflexivity|]. split; [destruct (Z.leb_spec (Z.of_nat (length w)) (pos + n)); lia|].
  rewrite length_take, Em. lia.
Qed.

(** the loop for as long as the list of speeds goes *)
Fixpoint emotor_loop (rate : Z) (turns : list (nat -> Z)) (w : list Z) (pos : Z) : outcome Z :=
  match turns with
  | [] => Ok pos
  | speeds :: turns' => '(_, pos') ← emotor_turn rate speeds w pos; emotor_loop rate turns' w pos'
  end.

(** The motor loop never ends by itself: with a sound that is not empty it reads
    inside the sound, whatever the speeds are and however they change meanwhile. *)
Theorem emotor_runs rate turns w : 3 <= rate -> w <> [] ->
  exists pos, emotor_loop rate turns w 0 = Ok pos /\ 0 <= pos < Z.of_nat (length w).
Proof.
  intros Hr Hw. enough (forall start, 0 <= start < Z.of_nat (length w) ->
    exists pos, emotor_loop rate turns w start = Ok pos /\ 0 <= pos < Z.of_nat (length w)) as H by (apply H; destruct w; cbn; [done|lia]).
  induction turns as [|speeds turns IH]; intros pos Hp; [by exists pos|].
  destruct (emotor_turn_safe rate speeds w pos Hr Hp) as (out & pos' & E & Hp' & _).
  destruct (IH pos' Hp') as (p & E' & Hp''). exists p. split; [|done]. cbn [emotor_loop]. rewrite E. exact E'.
Qed.

Lemma emotor_runs_witness : exists pos, emotor_loop 22050 [(fun _ => 255); (fun _ => 0); (fun i => Z.of_nat i)] [128; 200; 50] 0 = Ok pos /\ 0 <= pos < 3.
Proof. apply (emotor_runs 22050 _ [128; 200; 50]); [lia|discriminate]. Defined.

(** An empty loop (equal loop positions) ends the thread with an exception. *)
Example empty_motor_throws : emotor_turn 22050 (fun _ => 100) [] 0 = Err (Throw "basic_string::resize").
Proof. vm_compute. reflexivity. Qed.

(** At full speed every second sample is left out, at full volume; slowly nearly
    all are heard, quietly.  The last one is cut off. *)
Example motor_full : emotor_turn 22050 (fun _ => 255) [0; 1; 2; 3; 4; 5; 6; 7; 8] 0 = Ok (Some [0; 2; 4; 6], 0).
Proof. vm_compute. reflexivity. Qed.
Example motor_slow : emotor_turn 22050 (fun _ => 51) (repeat 228 9) 0 = Ok (Some (repeat 148 7), 0).
Proof. vm_compute. reflexivity. Qed.

(** ** The volume *)

(** ranges of real mixers: 5, 6 and 7 bits, a USB card, software volume, the
    Raspberry Pi, PulseAudio *)
Definition mixer_ranges : list Z := [31; 63; 64; 87; 127; 151; 255; 10639; 65535; 65536].

Lemma volumes_checked : forallb (fun r => forallb (fun v => let v := Z.of_nat v in
    match calc_volume r v with
    | Ok x => match volume_of r x with Ok y => (v - 255 / r - 1 <=? y) && (y <=? v) && (0 <=? x) && (x <=? r) | _ => false end
    | _ => false
    end) (seq 0 256)) mixer_ranges = true.
Proof. vm_compute. reflexivity. Qed.

Lemma first_active_insert l i e e' : first_active l = Some i -> l !! i = Some e -> me_active e' = me_active e ->
  first_active (<[i:=e']> l) = Some i.
Proof.
  revert i. induction l as [|x l IH]; intros i Hf Hi He; [done|]. cbn in *. destruct (me_active x) eqn:Ex.
  - simplify_eq. cbn in *. simplify_eq. cbn. by rewrite He, Ex.
  - destruct (first_active l) as [j|] eqn:Ej; [|done]. cbn in Hf. simplify_eq. cbn [lookup list_lookup] in Hi. change (<[S j:=e']> (x :: l)) with (x :: <[j:=e']> l). cbn [first_active]. rewrite Ex.
    by rewrite (IH j eq_refl Hi He).
Qed.

(** The volume that is set is the volume that is read, up to one step of the
    mixer and one for rounding downwards, and it is within the range of the
    mixer; only the first active element changes. *)
Theorem volume_kept l i e v : first_active l = Some i -> l !! i = Some e -> In (me_max e - me_min e) mixer_ranges -> 0 <= v <= 255 ->
  exists x, setMasterVolume 0 0 v l = (Ok tt, <[i := mkElem (me_active e) (me_min e) (me_max e) x]> l) /\ me_min e <= x <= me_max e /\
  exists v', getMasterVolume 0 0 (<[i := mkElem (me_active e) (me_min e) (me_max e) x]> l) =
      (Ok v', <[i := mkElem (me_active e) (me_min e) (me_max e) x]> l) /\
    v - 255 / (me_max e - me_min e) - 1 <= v' <= v.
Proof.
  intros Hf Hi Hr Hv. pose proof volumes_checked as Hc. rewrite forallb_forall in Hc. specialize (Hc _ Hr). rewrite forallb_forall in Hc.
  specialize (Hc (Z.to_nat v)). rewrite in_seq in Hc. specialize (Hc ltac:(lia)). cbv zeta in Hc. rewrite Z2Nat.id in Hc by lia.
  destruct (calc_volume (me_max e - me_min e) v) as [x|] eqn:Ex; [|done].
  destruct (volume_of (me_max e - me_min e) x) as [y|] eqn:Ey; [|done].
  rewrite !andb_true_iff, !Z.leb_le in Hc. destruct Hc as [[[H1 H2] H3] H4].
  exists (x + me_min e). split; [|split; [lia|]].
  - unfold setMasterVolume, master, mbind, M_bind, get. cbn. rewrite Hf, Hi. cbn. by rewrite Ex.
  - exists y. split; [|lia]. set (e' := mkElem (me_active e) (me_min e) (me_max e) (x + me_min e)).
    assert (first_active (<[i:=e']> l) = Some i) as Hf' by (by eapply first_active_insert).
    assert (<[i:=e']> l !! i = Some e') as Hi' by (apply list_lookup_insert_eq; by eapply lookup_lt_Some).
    unfold getMasterVolume, master, mbind, M_bind, get. cbn [negb Z.eqb]. rewrite Hf', Hi'. cbn.
    by replace (x + me_min e - me_min e) with x by lia; rewrite Ey.
Qed.

Definition sample_mixer : list mixer_elem := [mkElem false 0 1 1; mkElem true (-10239) 400 0; mkElem true 0 31 7].
Lemma volume_kept_witness : exists x, setMasterVolume 0 0 200 sample_mixer = (Ok tt, <[1%nat := mkElem true (-10239) 400 x]> sample_mixer) /\
  exists v', getMasterVolume 0 0 (<[1%nat := mkElem true (-10239) 400 x]> sample_mixer) = (Ok v', <[1%nat := mkElem true (-10239) 400 x]> sample_mixer) /\ 199 <= v' <= 200.
Proof.
  destruct (volume_kept sample_mixer 1 (mkElem true (-10239) 400 0) 200) as (x & H1 & _ & v' & H2 & H3);
    [reflexivity|reflexivity|vm_compute; tauto|lia|].
  exists x. split; [exact H1|]. exists v'. split; [exact H2|]. change (255 / _) with 0 in H3. lia.
Defined.

(** Reading the volume and setting it again makes the sound quieter. *)
Example volume_drifts :
  let at_ v := [mkElem true 0 65536 v] in
  setMasterVolume 0 0 3 (at_ 0) = (Ok tt, at_ 771) /\ getMasterVolume 0 0 (at_ 771) = (Ok 2, at_ 771) /\
  setMasterVolume 0 0 2 (at_ 771) = (Ok tt, at_ 514) /\ getMasterVolume 0 0 (at_ 514) = (Ok 1, at_ 514).
Proof. repeat split; vm_compute; reflexivity. Qed.
