(* ===== verification/Hardware.v ===== *)
(** * bluetoothserver/Hardware.h: what the client threads ask of the drivers *)

From S2P Require Import Prelude StdMap CString Utils Lokdef.

(** A driver keeps its own state [H]; it reads the locomotive table and may
    change it.  [client] is the id the calling thread has registered
    ([utils::getThreadClientID]). *)
Class Hardware (H : Type) : Type := {
  sendLoco (addr_index : Z) (emergencyStop : bool) : M (list lokdef_t * H) unit;
  fullstop (client : Z) (stopAll emergencyStop : bool) : M (list lokdef_t * H) unit;
  pwrOn : M (list lokdef_t * H) unit;
  pwrOff : M (list lokdef_t * H) unit;
  getPowerState : M (list lokdef_t * H) bool;
  clientConnected : M (list lokdef_t * H) unit;
  clientDisconnected (all : bool) : M (list lokdef_t * H) unit;
  sendPOM (addr cv value : Z) : M (list lokdef_t * H) Z;
  sendPOMBit (addr cv bitNr : Z) (value : bool) : M (list lokdef_t * H) Z;
}.

Definition CV_CV_SOUND_VOL : Z := -10.
Definition CV_CV_BAT : Z := -20.
Definition CV_CV_WIFI_CLIENT_SWITCH : Z := -30.
Definition CV_MANUFACTURER : Z := 8.
Definition CV_SOUND_VOL : Z := 266.
Definition CV_SOUND_VOL_MOTOR : Z := 267.
Definition CV_SOUND_VOL_HORN : Z := 268.
Definition CV_BAT : Z := 500.
Definition CV_BAT_RAW : Z := 501.
Definition CV_WIFI_CLIENT_SWITCH : Z := 510.

(** ** The invariant of the locomotive table *)

(** the speeds and directions the drivers are made for *)
Record lok_ok (d : lokdef_t) : Prop := mkLokOk {
  ok_wf : lok_wf d;
  ok_speed : -255 <= currspeed d <= 255;
}.

(** the table of a running server whose locomotives have these addresses *)
Record table_ok (addrs : list Z) (t : list lokdef_t) : Prop := mkTableOk {
  ok_addrs : map addr (locos t) = addrs;
  ok_term : terminated t;
  ok_loks : Forall lok_ok (locos t);
}.

(** the accesses to the tables of the server that would leave them *)
Definition table_faults : list string :=
  ["lokdef[i]"; "lastStatus[i]"; "changedAddrIndex[i]"; "func[j]"; "func[funcNr]"; "func[i]"].
(** a failure that is not such an access *)
Definition table_safe (e : exn) : Prop :=
  match e with UB w => w ∉ table_faults | _ => True end.

Definition safe_result {A} (o : outcome A) : Prop :=
  match o with Ok _ => True | Err e => table_safe e end.

(** closes [table_safe (UB w)] for a text [w] *)
Ltac solve_safe := apply (bool_decide_eq_true_1 (_ ∉ _)); vm_compute; reflexivity.

Lemma overflow_safe : table_safe (UB "signed overflow").
Proof. solve_safe. Qed.

Lemma safe_bind {A B} (o : outcome A) (f : A -> outcome B) :
  safe_result o -> (forall a, safe_result (f a)) -> safe_result (o ≫= f).
Proof. destruct o; [|done]. intros _ Hf. apply Hf. Qed.

(** What the drivers promise: they keep the table in order and do not leave
    it. *)
Definition driver_ok {H A} (addrs : list Z) (c : M (list lokdef_t * H) A) : Prop :=
  keeps (fun w => table_ok addrs w.1) table_safe c (fun _ => True).

Class HardwareLaws (H : Type) `{Hardware H} : Prop := {
  sendLoco_ok addrs i e : 0 <= i < Z.of_nat (length addrs) -> driver_ok addrs (sendLoco i e);
  fullstop_ok addrs c a e : driver_ok addrs (fullstop c a e);
  pwrOn_ok addrs : driver_ok addrs pwrOn;
  pwrOff_ok addrs : driver_ok addrs pwrOff;
  getPowerState_ok addrs : driver_ok addrs getPowerState;
  clientConnected_ok addrs : driver_ok addrs clientConnected;
  clientDisconnected_ok addrs a : driver_ok addrs (clientDisconnected a);
  sendPOM_ok addrs a c v : driver_ok addrs (sendPOM a c v);
  sendPOMBit_ok addrs a c b v : driver_ok addrs (sendPOMBit a c b v);
}.

(** ** Updating the table *)

Lemma locos_insert t i d d' :
  locos t !! i = Some d -> addr d' = addr d -> locos (<[i:=d']> t) = <[i:=d']> (locos t).
Proof.
  revert i. induction t as [|e t IH]; intros i; [done|]. cbn.
  destruct (Z.eqb_spec (addr e) 0) as [|Hne]; [done|]. destruct i as [|i]; cbn.
  - intros [= ->] ->. by rewrite (proj2 (Z.eqb_neq _ _)).
  - intros L E. rewrite (proj2 (Z.eqb_neq _ _)) by done. f_equal. by apply IH.
Qed.

Lemma terminated_insert t i d d' :
  t !! i = Some d -> addr d' = addr d -> terminated t -> terminated (<[i:=d']> t).
Proof.
  intros L E (e & He & H0). apply list_elem_of_lookup in He as [j Hj].
  destruct (decide (i = j)) as [->|Hne].
  - exists d'. split; [|congruence]. apply list_elem_of_lookup. exists j.
    apply list_lookup_insert_eq. by eapply lookup_lt_Some.
  - exists e. split; [|done]. apply list_elem_of_lookup. exists j. by rewrite list_lookup_insert_ne.
Qed.

(** changing one locomotive within its bounds keeps the table *)
Lemma table_ok_insert addrs t i d d' :
  table_ok addrs t -> locos t !! i = Some d -> addr d' = addr d -> lok_ok d' ->
  table_ok addrs (<[i:=d']> t).
Proof.
  intros [A T L] Hi E Hok. pose proof (locos_insert t i d d' Hi E) as Hl. split.
  - rewrite Hl. rewrite <- A.
    change (addr <$> <[i:=d']> (locos t) = addr <$> locos t). rewrite list_fmap_insert, E.
    apply list_insert_id. by rewrite list_lookup_fmap, Hi.
  - destruct (locos_lookup _ _ _ Hi). by eapply terminated_insert.
  - rewrite Hl. by apply Forall_insert.
Qed.

Lemma table_ok_index addrs t i :
  table_ok addrs t -> (0 <= i < Z.of_nat (length addrs)) ->
  exists d, locos t !! Z.to_nat i = Some d /\ lok_ok d.
Proof.
  intros [A T L] Hi. assert (length (locos t) = length addrs) as Hlen by (by rewrite <- A, length_map).
  destruct (lookup_lt_is_Some_2 (locos t) (Z.to_nat i)) as [d Hd]; [lia|].
  exists d. split; [done|]. by eapply Forall_lookup_1 in L.
Qed.

Lemma table_ok_getAddrIndex addrs t a i :
  table_ok addrs t -> getAddrIndex a t = Ok i ->
  0 <= i < Z.of_nat (length addrs) /\ exists d, locos t !! Z.to_nat i = Some d /\ addr d = a /\ lok_ok d.
Proof.
  intros [A T L] E. destruct (getAddrIndex_ok a t i T E) as (Hi & d & Hd & Ha).
  assert (length (locos t) = length addrs) as Hlen by (by rewrite <- A, length_map).
  pose proof (lookup_lt_Some _ _ _ Hd). split; [lia|]. exists d. split_and!; [done..|].
  by eapply Forall_lookup_1 in L.
Qed.

Lemma lok_ok_at_rest d : lok_wf d -> at_rest d -> lok_ok d.
Proof. intros W (E & _). split; [done|lia]. Qed.
