(* ===== verification/ParseExpr.v ===== *)
(** * bluetoothserver/ParseExpr.cpp: conditions for the output pins

    The condition language of the pin configuration, evaluated against
    direction, speed and the function keys. *)

From Stdlib Require Import Ascii.
From S2P Require Import Prelude StdMap CString MessageLayout Utils Lokdef.

(** [class ParseExpr]: the speed seen last and the times it went up and down *)
Record ParseExpr : Type := mkParse { pe_speed : Z; lastAccel : Z; lastBrake : Z }.
Definition ParseExpr0 : ParseExpr := mkParse 0 0 0.

(** [bool currentFunc[MAX_NFUNC]]; an element nobody wrote is indeterminate *)
Definition func_array : Type := list (option bool).

Section getResult.
(** [time(NULL)] while the expression is evaluated *)
Context (now : Z).

Definition read_func (f : func_array) (k : nat) : outcome bool :=
  match f !! k with
  | Some (Some b) => Ok b
  | Some None => Err (UB "currentFunc: indeterminate value")
  | None => Err (UB "currentFunc[k]")
  end.

(** [expr.find(")", from)] *)
Definition find_close (expr : string) (from : nat) : option nat := String.index from ")" expr.

Definition str_truth (b : bool) : Z := Z.b2z b.
Definition nonzero (z : Z) : bool := negb (z =? 0).

(** the speed bookkeeping in front of the keywords *)
Definition track_speed (speed : Z) (s : ParseExpr) : ParseExpr :=
  if pe_speed s =? speed then s
  else mkParse speed (if pe_speed s <? speed then now else lastAccel s)
                     (if speed <? pe_speed s then now else lastBrake s).

(** the keywords; [&&] reads the function only when its left side holds *)
Definition dir_and_F0 (d : bool) (f : func_array) (k : bool) : outcome Z :=
  if d then b ← read_func f 0; Ok (str_truth (b && k)) else Ok 0.

Definition keyword (expr : string) (dir speed : Z) (f : func_array) (s : ParseExpr) : outcome Z :=
  let after t := Ok (str_truth (now - t <? lastAccel s)) in
  let braked t := Ok (str_truth (now - t <? lastBrake s)) in
  if decide (expr = "dir") then Ok dir
  else if decide (expr = "!dir") then Ok (str_truth (negb (nonzero dir)))
  else if decide (expr = "dir && F0") then dir_and_F0 (nonzero dir) f true
  else if decide (expr = "!dir && F0") then dir_and_F0 (negb (nonzero dir)) f true
  else if decide (expr = "dir && F0 && speed") then dir_and_F0 (nonzero dir) f (nonzero speed)
  else if decide (expr = "!dir && F0 && speed") then dir_and_F0 (negb (nonzero dir)) f (nonzero speed)
  else if decide (expr = "dir && F0 && !speed") then dir_and_F0 (nonzero dir) f (negb (nonzero speed))
  else if decide (expr = "!dir && F0 && !speed") then dir_and_F0 (negb (nonzero dir)) f (negb (nonzero speed))
  else if decide (expr = "speed") then Ok speed
  else if decide (expr = "!speed") then Ok (str_truth (negb (nonzero speed)))
  else if decide (expr = "accel+5s") then after 5
  else if decide (expr = "accel+10s") then after 10
  else if decide (expr = "accel+15s") then after 15
  else if decide (expr = "brake+5s") then braked 5
  else if decide (expr = "brake+10s") then braked 10
  else if decide (expr = "brake+15s") then braked 15
  else if decide (expr = "0") then Ok 0
  else if decide (expr = "1") then Ok 1
  else Err (Throw ("invalid expression " +:+ dquote +:+ expr +:+ dquote)).

(** an expression that does not start with a parenthesis *)
Definition atom (expr : string) (dir speed : Z) (f : func_array) : M ParseExpr Z :=
  match expr with
  | String "F" (String c EmptyString) =>
      if (48 <=? chr c) && (chr c <=? 57)
      then lift (b ← read_func f (Z.to_nat (chr c - 48)); Ok (str_truth b))
      else modify (track_speed speed);; s ← get; lift (keyword expr dir speed f s)
  | _ => modify (track_speed speed);; s ← get; lift (keyword expr dir speed f s)
  end.

(** the split of [(A) && (B)] and [(A) || (B)]: whether it is [&&], and the
    two sides *)
Definition split_binary (expr : string) : outcome (bool * string * string) :=
  match find_close expr 1 with
  | None => Err (Throw ("invalid expressionA " +:+ dquote +:+ expr +:+ dquote))
  | Some exprA_end =>
      let exprA := String.substring 1 (exprA_end - 1) expr in
      let op := String.substring exprA_end 6 expr in
      is_and ← (if decide (op = ") && (") then Ok true
                else if decide (op = ") || (") then Ok false
                else Err (Throw ("invalid binary operator " +:+ dquote +:+ expr +:+ dquote +:+ " at " +:+ dquote
                       +:+ String.substring exprA_end (String.length expr) expr +:+ dquote)));
      let exprB_start := (exprA_end + 6)%nat in
      match find_close expr exprB_start with
      | None => Err (Throw ("invalid expressionB " +:+ dquote +:+ expr +:+ dquote))
      | Some exprB_end => Ok (is_and, exprA, String.substring exprB_start (exprB_end - exprB_start) expr)
      end
  end.

Fixpoint getResult_fuel (fuel : nat) (expr : string) (dir speed : Z) (f : func_array) : M ParseExpr Z :=
  match expr with
  | String "(" _ =>
      match fuel with
      | O => fail OutOfFuel
      | S fuel' =>
          '(is_and, exprA, exprB) ← lift (split_binary expr);
          a ← getResult_fuel fuel' exprA dir speed f;
          b ← getResult_fuel fuel' exprB dir speed f;
          mret (str_truth (if (is_and : bool) then nonzero a && nonzero b else nonzero a || nonzero b))
      end
  | _ => atom expr dir speed f
  end.

(** both sides are shorter than the whole: the length is enough fuel
    ([getResult_total]) *)
Definition getResult (expr : string) (dir speed : Z) (f : func_array) : M ParseExpr Z :=
  getResult_fuel (String.length expr) expr dir speed f.
End getResult.

(** ** Termination *)

Lemma substring_length_le n k s : (String.length (String.substring n k s) <= String.length s - n)%nat.
Proof.
  revert n k. induction s as [|c s IH]; intros [|n] [|k]; cbn; try lia.
  - specialize (IH O k). lia.
  - specialize (IH n O). lia.
  - specialize (IH n (S k)). lia.
Qed.

Lemma split_binary_shorter expr is_and a b :
  expr <> EmptyString -> split_binary expr = Ok (is_and, a, b) ->
  (String.length a < String.length expr)%nat /\ (String.length b < String.length expr)%nat.
Proof.
  intros Hne. unfold split_binary. destruct (find_close expr 1) as [e|]; [|done].
  intros H. apply outcome_bind_ok in H as (i & _ & H).
  destruct (find_close expr (e + 6)) as [e2|]; [|done]. injection H as _ <- <-.
  assert (String.length expr <> O) by (by destruct expr).
  pose proof (substring_length_le 1 (e - 1) expr). pose proof (substring_length_le (e + 6) (e2 - (e + 6)) expr). lia.
Qed.

(** a case analysis on the first character that keeps the atoms in one piece *)
Lemma getResult_fuel_eq now fuel expr dir speed f :
  getResult_fuel now fuel expr dir speed f =
  if decide (deref expr = "("%char) then
    match fuel with
    | O => fail OutOfFuel
    | S fuel' =>
        '(is_and, exprA, exprB) ← lift (split_binary expr);
        a ← getResult_fuel now fuel' exprA dir speed f;
        b ← getResult_fuel now fuel' exprB dir speed f;
        mret (str_truth (if (is_and : bool) then nonzero a && nonzero b else nonzero a || nonzero b))
    end
  else atom now expr dir speed f.
Proof.
  destruct fuel, expr as [|[[] [] [] [] [] [] [] []] expr]; reflexivity.
Qed.

Lemma getResult_fuel_enough now n m expr dir speed f s :
  (String.length expr <= n)%nat -> (String.length expr <= m)%nat ->
  getResult_fuel now n expr dir speed f s = getResult_fuel now m expr dir speed f s.
Proof.
  revert m expr s. induction n as [|n IH]; intros m expr s Hn Hm; rewrite !getResult_fuel_eq;
    (case_decide as D; [|done]); (assert (expr <> EmptyString) as Hne by (by eapply deref_ne)).
  - destruct expr; [done|cbn in Hn; lia].
  - destruct m as [|m]; [destruct expr; [done|cbn in Hm; lia]|].
    unfold mbind, M_bind, lift. destruct (split_binary expr) as [[[i a] b]|] eqn:E; [|done].
    destruct (split_binary_shorter _ _ _ _ Hne E). rewrite (IH m a s) by lia.
    destruct (getResult_fuel now m a dir speed f s) as [[va|] s1]; [|done].
    by rewrite (IH m b s1) by lia.
Qed.

Lemma keyword_fuel now e dir speed f st : keyword now e dir speed f st <> Err OutOfFuel.
Proof.
  unfold keyword. repeat case_decide; try done; unfold dir_and_F0, read_func;
    (destruct (nonzero dir); cbn; try done; destruct f as [|[] ?]; done).
Qed.

Lemma atom_fuel now e dir speed f s : (atom now e dir speed f s).1 <> Err OutOfFuel.
Proof.
  assert (forall s, ((modify (track_speed now speed);; st ← get; lift (keyword now e dir speed f st)) s).1
            <> Err OutOfFuel) as Hk.
  { intros s'. apply keyword_fuel. }
  unfold atom. repeat (case_match; try apply Hk).
  unfold lift. cbn. destruct (read_func f _) as [|x] eqn:E; [done|]. unfold read_func in E.
  cbn. intros [= ->]. repeat case_match; done.
Qed.

Lemma getResult_fuel_ok now n expr dir speed f s :
  (String.length expr <= n)%nat -> (getResult_fuel now n expr dir speed f s).1 <> Err OutOfFuel.
Proof.
  revert expr s. induction n as [|n IH]; intros expr s Hn; rewrite getResult_fuel_eq;
    (case_decide as D; [|apply atom_fuel]); (assert (expr <> EmptyString) as Hne by (by eapply deref_ne)).
  - destruct expr; [done|cbn in Hn; lia].
  - unfold mbind, M_bind, lift. destruct (split_binary expr) as [[[i a] b]|e] eqn:E.
    + destruct (split_binary_shorter _ _ _ _ Hne E).
      pose proof (IH a s ltac:(lia)) as Ha. destruct (getResult_fuel now n a dir speed f s) as [[va|] s1]; [|done].
      pose proof (IH b s1 ltac:(lia)) as Hb. by destruct (getResult_fuel now n b dir speed f s1) as [[vb|] s2].
    + cbn. intros [= ->]. unfold split_binary in E. repeat (case_match; simplify_eq; try done).
Qed.

(** ** Binary expressions *)

Definition no_close (c : ascii) : bool := negb (bool_decide (c = ")"%char)).

Lemma index0_cons c s :
  String.index 0 ")" (String c s) = if decide (c = ")"%char) then Some O else S <$> String.index 0 ")" s.
Proof. destruct c as [[] [] [] [] [] [] [] []]; cbn; try reflexivity; by destruct s. Qed.

Lemma no_close_cons c s : str_forall no_close (String c s) = true <-> c <> ")"%char /\ str_forall no_close s = true.
Proof. cbn. rewrite andb_true_iff. unfold no_close. by rewrite negb_true_iff, bool_decide_eq_false. Qed.

Lemma index_zero_skip a t : str_forall no_close a = true -> String.index 0 ")" (a +:+ String ")" t) = Some (String.length a).
Proof.
  induction a as [|c a IH]; intros H; rewrite ?string_nil_app, ?string_cons_app, index0_cons; [done|].
  apply no_close_cons in H as [Hc Ha]. by rewrite decide_False, IH.
Qed.

Lemma index_skip p a t :
  str_forall no_close a = true ->
  String.index (String.length p) ")" (p +:+ (a +:+ String ")" t)) = Some (String.length p + String.length a)%nat.
Proof.
  intros Ha. induction p as [|c p IH]; [rewrite string_nil_app; by apply index_zero_skip|].
  rewrite string_cons_app. cbn [String.length String.index]. by rewrite IH.
Qed.

(** a string either has no closing parenthesis or splits at the first one *)
Lemma split_close s : str_forall no_close s = true \/ exists a t, s = a +:+ String ")" t /\ str_forall no_close a = true.
Proof.
  induction s as [|c s IH]; [by left|]. destruct (decide (c = ")"%char)) as [->|Hc].
  - right. by exists EmptyString, s.
  - destruct IH as [IH|(a & t & -> & IH)].
    + left. by apply no_close_cons.
    + right. exists (String c a), t. split; [done|]. by apply no_close_cons.
Qed.

Lemma find_close_none s n : str_forall no_close s = true -> find_close s n = None.
Proof.
  unfold find_close. revert n. induction s as [|c s IH]; intros n H; [by destruct n|].
  apply no_close_cons in H as [Hc Hs]. destruct n; [by rewrite index0_cons, decide_False, IH|].
  cbn. by rewrite IH.
Qed.

Lemma find_close_first a t : str_forall no_close a = true ->
  find_close (String "(" (a +:+ String ")" t)) 1 = Some (S (String.length a)).
Proof. intros Ha. exact (index_skip "(" a t Ha). Qed.

Lemma substring_inside c a t : String.substring 1 (S (String.length a) - 1) (String c (a +:+ t)) = a.
Proof.
  replace (S (String.length a) - 1)%nat with (String.length a) by lia.
  transitivity (String.substring 0 (String.length a) (a +:+ t)); [|apply substring_prefix].
  cbn. by destruct (String.length a).
Qed.

(** the left side ends at the first closing parenthesis *)
Lemma split_binary_left a t i a' b :
  str_forall no_close a = true -> split_binary (String "(" (a +:+ String ")" t)) = Ok (i, a', b) -> a' = a.
Proof.
  intros Ha. unfold split_binary. rewrite find_close_first by done. intros H.
  apply outcome_bind_ok in H as (k & _ & H).
  destruct (find_close _ (S (String.length a) + 6)); [|done]. injection H as _ <- _. exact (substring_inside "(" a (String ")" t)).
Qed.

Definition op_text (is_and : bool) : string := if is_and then ") && (" else ") || (".

Lemma split_binary_eq i a b t :
  str_forall no_close a = true -> str_forall no_close b = true ->
  split_binary (String "(" (a +:+ (op_text i +:+ (b +:+ String ")" t)))) = Ok (i, a, b).
Proof.
  intros Ha Hb. set (e := String "(" _).
  assert (exists u, e = String "(" (a +:+ String ")" u)) as [u Eu] by (subst e; destruct i; eexists; reflexivity).
  assert (find_close e 1 = Some (S (String.length a))) as E1 by (rewrite Eu; by apply find_close_first).
  assert (e = (String "(" a) +:+ (op_text i +:+ (b +:+ String ")" t))) as E2 by (by rewrite string_cons_app).
  assert (String.substring 1 (S (String.length a) - 1) e = a) as E3 by apply substring_inside.
  assert (String.substring (S (String.length a)) 6 e = op_text i) as E4.
  { rewrite E2. change (S (String.length a)) with (String.length (String "(" a)). rewrite substring_skip.
    replace 6%nat with (String.length (op_text i)) by (by destruct i). apply substring_prefix. }
  assert (e = (String "(" a +:+ op_text i) +:+ (b +:+ String ")" t)) as E5 by (rewrite E2; apply string_app_assoc).
  assert (S (String.length a) + 6 = String.length (String "(" a +:+ op_text i))%nat as E6
    by (rewrite string_app_length; by destruct i).
  unfold split_binary. rewrite E1, E3, E4.
  assert ((if decide (op_text i = ") && (") then Ok true
           else if decide (op_text i = ") || (") then Ok false
           else Err (Throw ("invalid binary operator " +:+ dquote +:+ e +:+ dquote +:+ " at " +:+ dquote
                  +:+ String.substring (S (String.length a)) (String.length e) e +:+ dquote))) = Ok i) as -> by (by destruct i).
  cbn [mbind outcome_bind]. rewrite E6. unfold find_close. rewrite E5 at 1. rewrite index_skip by done.
  f_equal. f_equal. rewrite E5, substring_skip.
  replace (_ + String.length b - _)%nat with (String.length b) by lia. apply substring_prefix.
Qed.

(** ** What an expression can end with *)

(** every function that can be named has a value *)
Definition func_ready (f : func_array) : Prop := forall k, (k < 10)%nat -> exists b, f !! k = Some (Some b).

Lemma func_ready_check f :
  forallb (fun k => match f !! k with Some (Some _) => true | _ => false end) (seq 0 10) = true -> func_ready f.
Proof.
  intros H k Hk. rewrite forallb_forall in H. specialize (H k). rewrite in_seq in H.
  destruct (f !! k) as [[b|]|]; [by exists b|discriminate H; lia..].
Qed.

Definition value_or_throw {A} (o : outcome A) : Prop :=
  match o with Ok _ => True | Err (Throw _) => True | Err _ => False end.

Lemma read_func_ready f k : func_ready f -> (k < 10)%nat -> exists b, read_func f k = Ok b.
Proof. intros Hf Hk. unfold read_func. destruct (Hf k Hk) as [b ->]. by exists b. Qed.

Lemma keyword_ready now e dir speed f st : func_ready f -> value_or_throw (keyword now e dir speed f st).
Proof.
  intros Hf. destruct (read_func_ready f 0 Hf ltac:(lia)) as [b Hb].
  unfold keyword, dir_and_F0. rewrite Hb. repeat case_decide; try done; by destruct (nonzero dir).
Qed.

Lemma atom_ready now e dir speed f s : func_ready f -> value_or_throw (atom now e dir speed f s).1.
Proof.
  intros Hf.
  assert (forall s, value_or_throw
            ((modify (track_speed now speed);; st ← get; lift (keyword now e dir speed f st)) s).1) as Hk.
  { intros s'. by apply keyword_ready. }
  unfold atom. repeat (case_match; try apply Hk).
  match goal with H : (_ && _) = true |- _ => apply andb_true_iff in H as [Hlo%Z.leb_le Hhi%Z.leb_le] end.
  match goal with |- context [read_func f ?k] => destruct (read_func_ready f k Hf ltac:(lia)) as [v ->] end. done.
Qed.

Lemma getResult_fuel_ready now n expr dir speed f s :
  func_ready f -> (String.length expr <= n)%nat -> value_or_throw (getResult_fuel now n expr dir speed f s).1.
Proof.
  intros Hf. revert expr s. induction n as [|n IH]; intros expr s Hn; rewrite getResult_fuel_eq;
    (case_decide as D; [|by apply atom_ready]); (assert (expr <> EmptyString) as Hne by (by eapply deref_ne)).
  - destruct expr; [done|cbn in Hn; lia].
  - unfold mbind, M_bind, lift. destruct (split_binary expr) as [[[i a] b]|e] eqn:E.
    + destruct (split_binary_shorter _ _ _ _ Hne E).
      pose proof (IH a s ltac:(lia)) as Ha. destruct (getResult_fuel now n a dir speed f s) as [[va|] s1]; [|done].
      pose proof (IH b s1 ltac:(lia)) as Hb. by destruct (getResult_fuel now n b dir speed f s1) as [[vb|] s2].
    + cbn. unfold split_binary in E. repeat (case_match; simplify_eq/=; try done).
Qed.

(** whether an expression is valid depends on its text alone *)
Definition valid_expr (expr : string) : Prop :=
  forall now dir speed f s, func_ready f -> exists v, (getResult now expr dir speed f s).1 = Ok v.

Lemma keyword_valid now now' e dir dir' speed speed' f f' st st' v :
  func_ready f' -> keyword now e dir speed f st = Ok v -> exists v', keyword now' e dir' speed' f' st' = Ok v'.
Proof.
  intros Hf. destruct (read_func_ready f' 0 Hf ltac:(lia)) as [b Hb].
  unfold keyword, dir_and_F0. rewrite Hb.
  repeat (case_decide; [intros _; first [by eexists | destruct (nonzero dir'); by eexists]|]). done.
Qed.

Lemma atom_valid now now' e dir dir' speed speed' f f' s s' v :
  func_ready f' -> (atom now e dir speed f s).1 = Ok v -> exists v', (atom now' e dir' speed' f' s').1 = Ok v'.
Proof.
  intros Hf.
  assert (forall v, ((modify (track_speed now speed);; st ← get; lift (keyword now e dir speed f st)) s).1 = Ok v ->
    exists v', ((modify (track_speed now' speed');; st ← get; lift (keyword now' e dir' speed' f' st)) s').1 = Ok v') as Hk.
  { intros w. by apply keyword_valid. }
  unfold atom. repeat (case_match; try apply Hk). intros _.
  match goal with H : (_ && _) = true |- _ => apply andb_true_iff in H as [Hlo%Z.leb_le Hhi%Z.leb_le] end.
  match goal with |- context [read_func f' ?k] => destruct (read_func_ready f' k Hf ltac:(lia)) as [w ->] end. by eexists.
Qed.

Lemma getResult_valid now expr dir speed f s v :
  (getResult now expr dir speed f s).1 = Ok v -> valid_expr expr.
Proof.
  unfold getResult. intros H now' dir' speed' f' s' Hf'. unfold getResult.
  generalize dependent s'. revert H. generalize (String.length expr) at 1 2 as n. intros n.
  revert expr s v. induction n as [|n IH]; intros expr s v Hok s'; revert Hok; rewrite !getResult_fuel_eq;
    (case_decide; [|by apply atom_valid]); [done|].
  unfold mbind, M_bind, lift. destruct (split_binary expr) as [[[i a] b]|]; [|done].
  destruct (getResult_fuel now n a dir speed f s) as [[va|] s1] eqn:Ea; [|done].
  destruct (getResult_fuel now n b dir speed f s1) as [[vb|] s2] eqn:Eb; [|done]. intros _.
  destruct (IH a s va ltac:(by rewrite Ea) s') as [va' Ha].
  destruct (getResult_fuel now' n a dir' speed' f' s') as [[?|] s1'] eqn:Ea'; [|done].
  destruct (IH b s1 vb ltac:(by rewrite Eb) s1') as [vb' Hb].
  destruct (getResult_fuel now' n b dir' speed' f' s1') as [[?|] s2'] eqn:Eb'; [|done]. by eexists.
Qed.

(** ** Theorems *)

(** Every expression, whatever its text, is evaluated in finitely many steps
    (the fuel [getResult] uses never runs out) and ends with a value or with
    the C++ exception for an invalid expression, provided the ten functions an
    expression can name have been written. *)
Theorem getResult_total now expr dir speed f s :
  func_ready f -> value_or_throw (getResult now expr dir speed f s).1.
Proof. intros Hf. by apply getResult_fuel_ready. Qed.

Lemma getResult_total_witness : value_or_throw (getResult 100 "(F3) && (accel+5s)" 1 20 (replicate 10 (Some true)) ParseExpr0).1.
Proof. apply getResult_total, func_ready_check. reflexivity. Defined.

(** [(A) && (B)] and [(A) || (B)] evaluate both sides, the left one first and
    both even when the left one decides, and combine their truth; text behind
    the second closing parenthesis is ignored, so that a third operand has no
    effect. *)
Theorem binary_semantics now (is_and : bool) a b rest dir speed f s :
  str_forall no_close a = true -> str_forall no_close b = true ->
  getResult now ("(" +:+ (a +:+ ((if is_and then ") && (" else ") || (") +:+ (b +:+ (")" +:+ rest))))) dir speed f s =
  (va ← getResult now a dir speed f; vb ← getResult now b dir speed f;
   mret (str_truth (if is_and then nonzero va && nonzero vb else nonzero va || nonzero vb))) s.
Proof.
  intros Ha Hb. change (if is_and then ") && (" else ") || (") with (op_text is_and).
  rewrite !string_cons_app, !string_nil_app. pose proof (split_binary_eq is_and a b rest Ha Hb) as E.
  unfold getResult. set (e := String "(" _) in *. rewrite getResult_fuel_eq, decide_True by done.
  destruct (split_binary_shorter e _ _ _ ltac:(done) E) as [La Lb].
  destruct (String.length e) as [|n] eqn:En; [lia|].
  unfold mbind, M_bind, lift. rewrite E. rewrite (getResult_fuel_enough now n (String.length a) a) by lia.
  destruct (getResult_fuel now (String.length a) a dir speed f s) as [[va|] s1]; [|done].
  by rewrite (getResult_fuel_enough now n (String.length b) b) by lia.
Qed.

Lemma binary_semantics_witness :
  (getResult 100 "(F3) && (F1) && (0)" 1 20 (replicate 10 (Some true)) ParseExpr0).1 = Ok 1.
Proof.
  pose proof (binary_semantics 100 true "F3" "F1" " && (0)" 1 20 (replicate 10 (Some true)) ParseExpr0 eq_refl eq_refl) as H.
  etransitivity; [exact (f_equal fst H)|reflexivity].
Defined.

(** Binary expressions do not nest: an expression whose left side starts with
    a parenthesis is refused, because the left side is cut at the first
    closing parenthesis. *)
Theorem nested_refused now t dir speed f s :
  exists msg, getResult now ("((" +:+ t) dir speed f s = (Err (Throw msg), s).
Proof.
  rewrite !string_cons_app, string_nil_app. unfold getResult.
  rewrite getResult_fuel_eq, decide_True by done. cbn [String.length].
  unfold mbind, M_bind, lift. destruct (split_binary (String "(" (String "(" t))) as [[[i a] b]|x] eqn:E.
  - assert (a = String "(" (String.substring 1 (String.length a - 1) a) /\ find_close a 1 = None) as [Ha Hn].
    { destruct (split_close (String "(" t)) as [Hc|(a' & u & Et & Hc)].
      - unfold split_binary in E. rewrite find_close_none in E; [done|]. by apply no_close_cons.
      - rewrite Et in E. apply split_binary_left in E as ->; [|done]. split; [|by apply find_close_none].
        destruct a' as [|c a']; [discriminate Et|]. injection Et as <- _.
        pose proof (substring_inside "(" a' EmptyString) as Hs. rewrite string_app_nil in Hs. cbn [String.length]. by rewrite Hs. }
    rewrite getResult_fuel_eq. rewrite decide_True by (by rewrite Ha).
    unfold split_binary at 1. rewrite Hn. by eexists.
  - unfold split_binary in E. repeat (case_match; simplify_eq/=; try by eexists).
Qed.

Lemma track_speed_again now now' speed s :
  track_speed now' speed (track_speed now speed s) = track_speed now speed s.
Proof.
  assert (pe_speed (track_speed now speed s) = speed) as E.
  { unfold track_speed. destruct (Z.eqb_spec (pe_speed s) speed); done. }
  unfold track_speed at 1. by rewrite E, Z.eqb_refl.
Qed.

(** the six timed keywords *)
Definition timed (accel : bool) (t : Z) : string :=
  (if accel then "accel+" else "brake+") +:+ (if t =? 5 then "5s" else if t =? 10 then "10s" else "15s").

(** [accel+Ns] holds from the evaluation that saw the speed rise until less
    than N seconds have passed, and [brake+Ns] likewise for a falling speed;
    evaluating again at the same speed does not restart the interval. *)
Theorem timed_window now now' (accel : bool) t dir dir' speed f f' s :
  In t [5; 10; 15] -> (if accel then pe_speed s < speed else speed < pe_speed s) ->
  exists s', getResult now (timed accel t) dir speed f s = (Ok 1, s') /\
    getResult now' (timed accel t) dir' speed f' s' = (Ok (Z.b2z (now' - now <? t)), s').
Proof.
  intros Ht Hs. exists (track_speed now speed s).
  assert (forall t, 0 < t -> now - t <? now = true) as Hnow by (intros; apply Z.ltb_lt; lia).
  assert (forall t, (now' - t <? now) = (now' - now <? t)) as Hnow'.
  { intros x. apply eq_bool_prop_intro. rewrite !Is_true_true, !Z.ltb_lt. lia. }
  assert (lastAccel (track_speed now speed s) = if accel then now else lastAccel (track_speed now speed s)) as Ha.
  { destruct accel; [|done]. unfold track_speed. rewrite (proj2 (Z.eqb_neq _ _)) by lia. cbn. by rewrite (proj2 (Z.ltb_lt _ _) Hs). }
  assert (lastBrake (track_speed now speed s) = if accel then lastBrake (track_speed now speed s) else now) as Hb.
  { destruct accel; [done|]. unfold track_speed. rewrite (proj2 (Z.eqb_neq _ _)) by lia. cbn. by rewrite (proj2 (Z.ltb_lt _ _) Hs). }
  assert (forall k t, In t [5; 10; 15] -> forall d g st,
            getResult k (timed accel t) d speed g st =
            (Ok (Z.b2z (k - t <? (if accel then lastAccel else lastBrake) (track_speed k speed st))), track_speed k speed st)) as Hr.
  { intros k u Hu d g st. destruct accel; cbn in Hu; destruct Hu as [<-|[<-|[<-|[]]]]; reflexivity. }
  assert (0 < t) as Ht0 by (cbn in Ht; lia).
  rewrite !Hr, track_speed_again by done. destruct accel; rewrite ?Ha, ?Hb, (Hnow t Ht0), Hnow'; done.
Qed.

Lemma timed_window_witness : exists s',
  getResult 100 "accel+10s" 1 20 [] ParseExpr0 = (Ok 1, s') /\
  getResult 111 "accel+10s" 1 20 [] s' = (Ok 0, s').
Proof. apply (timed_window 100 111 true 10 1 1 20 [] [] ParseExpr0); [cbn; tauto|cbn; lia]. Defined.
