(* ===== verification/Platine.v ===== *)
(** * bluetoothserver/USBPlatine.{h,cpp}: the base class of the motor drivers

    [USBPlatine] implements the driver interface on top of five operations its
    subclasses supply; here the subclass is the class [Platine].  The build
    without ALSA is modelled. *)

From S2P Require Import Prelude StdMap CString Utils Lokdef Hardware ParseExpr.

(** the virtual functions a subclass supplies; [P] is the state it adds *)
Class Platine (P : Type) : Type := {
  setPWM (f_speed : Z) : M P unit;
  setDir (dir : Z) : M P unit;
  setFunction (nFunc : Z) (func : func_array) : M P unit;
  commit : M P unit;
  platine_fullstop (stopAll emergencyStop : bool) : M P unit;
}.

(** [class USBPlatine] with the subclass object; the limits of the power
    monitor are indeterminate until they are configured *)
Record USBPlatine (P : Type) : Type := mkUSB {
  powerMonitorVoltageFile : string;
  powerMonitoringVoltageMin : option Z;
  powerMonitoringVoltageMax : option Z;
  platine : P;
}.
Arguments mkUSB {P}.
Arguments powerMonitorVoltageFile {P}.
Arguments powerMonitoringVoltageMin {P}.
Arguments powerMonitoringVoltageMax {P}.
Arguments platine {P}.

(** [config.get(key)], converted by [std::stoi] when it is set *)
Definition config_int (config : Config) (key : string) : outcome (option Z) :=
  let v := Config_get key config in
  if decide (v = NOT_SET) then Ok None else '(n, _) ← std_stoi 10 v; Ok (Some n).

(** the constructor; [writeFile] is the file system.  The subclass object is
    constructed afterwards. *)
Definition USBPlatine_new {P} (config : Config) (writeFile : string -> string -> outcome unit) (p : P)
    : outcome (USBPlatine P) :=
  let voltageFile := Config_get "powerMonitor.voltage.file" config in
  if decide (voltageFile = NOT_SET) then Ok (mkUSB EmptyString None None p)
  else
    let initFile := Config_get "powerMonitor.init.file" config in
    let initValue := Config_get "powerMonitor.init.value" config in
    (if decide (initFile = NOT_SET) then Ok tt else writeFile initFile initValue);;
    min ← config_int config "powerMonitor.voltage.min";
    max ← config_int config "powerMonitor.voltage.max";
    Ok (mkUSB voltageFile min max p).

(** [for(int j=0; j < nFunc; j++) func[j]=lokdef[i].func[j].ison;] into an
    uninitialised array *)
Fixpoint copy_func (k j : nat) (fs : list func_t) (func : func_array) : outcome func_array :=
  match k with
  | O => Ok func
  | S k' =>
      match fs !! j with
      | None => Err (UB "func[j]")
      | Some f =>
          if decide (j < length func)%nat then copy_func k' (S j) fs (<[j:=Some (ison f)]> func)
          else Err (UB "func[MAX_NFUNC]")
      end
  end.

(** [abs] *)
Definition c_abs (z : Z) : outcome Z := if z =? - 2^31 then Err (UB "abs") else Ok (Z.abs z).

(** [int] arithmetic: overflow and division by zero have no defined behaviour *)
Definition int_op (z : Z) : outcome Z := if int32b z then Ok z else Err (UB "signed overflow").
Definition int_div (a b : Z) : outcome Z :=
  if b =? 0 then Err (UB "division by zero") else int_op (Z.quot a b).

(** [unsigned char pwm = f_speed*(full - start)/255 + start] in [double]
    arithmetic.  Product and difference are exact; where the quotient is not an
    integer its distance to one is at least 1/255, far above the rounding
    errors, so the conversion yields the truncated exact value.  A value that
    an [unsigned char] cannot hold has no defined conversion. *)
Definition scale_pwm (f_speed start full : Z) : outcome Z :=
  let v := Z.quot (f_speed * (full - start) + 255 * start) 255 in
  if (0 <=? v) && (v <=? 255) then Ok v else Err (UB "double to unsigned char").

(** what is passed to [setPWM] *)
Definition loco_speed (d : lokdef_t) : outcome Z :=
  a_speed ← c_abs (currspeed d); Ok (if a_speed <? 5 then 0 else a_speed).

(** [USBPlatine::sendLoco] over a state [W] with the locomotive table in it and
    the operations of the subclass; none of them changes [currdir], which the
    code reads after [setFunction] *)
Section sendLoco.
Context {W : Type} (table : W -> list lokdef_t).
Context (setFunction' : Z -> func_array -> M W unit) (setDir' setPWM' : Z -> M W unit).
Context (fullstop' : bool -> bool -> M W unit) (commit' : M W unit).

Definition platine_sendLoco (addr_index : Z) (emergencyStop : bool) : M W unit :=
  if addr_index <? 0 then fail (Abort "addr_index >= 0")
  else
    t ← gets table;
    match t !! Z.to_nat addr_index with
    | None => fail (UB "lokdef[i]")
    | Some d =>
        f_speed ← lift (loco_speed d);
        func ← lift (copy_func (Z.to_nat (nFunc d)) 0 (Lokdef.func d) (repeat None (Z.to_nat MAX_NFUNC)));
        let dir := if currdir d <? 0 then 1 else 0 in
        setFunction' (nFunc d) func;;
        (if emergencyStop then fullstop' true true
         else setDir' dir;; setPWM' f_speed);;
        commit'
    end.
End sendLoco.

Section USBPlatine.
Context {P : Type} `{Platine P}.
Context (readFile : string -> outcome string).

(** calls of the subclass *)
Definition on_platine {A} (c : M P A) : M (list lokdef_t * USBPlatine P) A :=
  zoom (fun w => platine w.2)
       (fun p w => (w.1, mkUSB (powerMonitorVoltageFile w.2) (powerMonitoringVoltageMin w.2) (powerMonitoringVoltageMax w.2) p)) c.

Definition usb_sendLoco : Z -> bool -> M (list lokdef_t * USBPlatine P) unit :=
  platine_sendLoco fst (fun n f => on_platine (setFunction n f)) (fun d => on_platine (setDir d))
    (fun v => on_platine (setPWM v)) (fun a e => on_platine (platine_fullstop a e)) (on_platine commit).

Definition read_limit (o : option Z) : outcome Z :=
  match o with Some z => Ok z | None => Err (UB "powerMonitoringVoltage: indeterminate value") end.

Definition usb_sendPOM (addr cv value : Z) : M (list lokdef_t * USBPlatine P) Z :=
  if cv =? CV_MANUFACTURER then mret 15
  else
    this ← gets snd;
    if decide (powerMonitorVoltageFile this = EmptyString) then mret (-1)
    else if cv =? CV_CV_BAT then mret CV_BAT
    else if cv =? CV_BAT then
      voltage ← lift (readFile (powerMonitorVoltageFile this));
      '(i, _) ← lift (std_stoi 10 voltage);
      min ← lift (read_limit (powerMonitoringVoltageMin this));
      num ← lift (int_op (i - min));
      num ← lift (int_op (num * 255));
      max ← lift (read_limit (powerMonitoringVoltageMax this));
      range ← lift (int_op (max - min));
      lift (int_div num range)
    else mret (-1).

#[export] Instance USBPlatine_hardware : Hardware (USBPlatine P) := {
  sendLoco := usb_sendLoco;
  fullstop client stopAll emergencyStop := on_platine (platine_fullstop stopAll emergencyStop);
  pwrOn := mret tt;
  pwrOff := on_platine (setDir 0);
  getPowerState := mret true;
  clientConnected := mret tt;
  clientDisconnected all := mret tt;
  sendPOM := usb_sendPOM;
  sendPOMBit addr cv bitNr value := mret 0;
}.

(** ** The interface the client threads rely on *)

(** a subclass does not touch the tables of the server *)
Definition platine_ok {A} (c : M P A) : Prop := forall p, safe_result (c p).1.

Class PlatineLaws : Prop := {
  setPWM_ok v : platine_ok (setPWM v);
  setDir_ok d : platine_ok (setDir d);
  setFunction_ok n f : platine_ok (setFunction n f);
  commit_ok : platine_ok commit;
  platine_fullstop_ok a e : platine_ok (platine_fullstop a e);
}.

Context (readFile_safe : forall f, safe_result (readFile f)).
Context `{!PlatineLaws}.

Lemma on_platine_ok {A} addrs (c : M P A) : platine_ok c -> driver_ok addrs (on_platine c).
Proof.
  intros Hc w Hw. unfold on_platine, zoom. specialize (Hc (platine w.2)).
  destruct (c (platine w.2)) as [[a|e] p]; cbn in *; split; auto.
Qed.

Lemma copy_func_safe k j fs a : (j + k <= length fs)%nat -> safe_result (copy_func k j fs a).
Proof.
  revert j a. induction k as [|k IH]; intros j f Hl; [done|]. cbn.
  destruct (fs !! j) eqn:E; [|apply lookup_ge_None in E; lia].
  case_decide; [apply IH; lia|]. solve_safe.
Qed.

Lemma loco_speed_safe d : safe_result (loco_speed d).
Proof. unfold loco_speed, c_abs. destruct (_ =? _); [solve_safe|done]. Qed.

Lemma driver_lift addrs {A} (o : outcome A) : safe_result o -> driver_ok (H:=USBPlatine P) addrs (lift o).
Proof. intros Ho. apply keeps_lift; [done|]. by intros e ->. Qed.

Lemma usb_sendLoco_ok addrs i e : 0 <= i < Z.of_nat (length addrs) -> driver_ok addrs (usb_sendLoco i e).
Proof.
  intros Hi w Hw. unfold usb_sendLoco, platine_sendLoco. rewrite (proj2 (Z.ltb_ge _ _)) by lia.
  destruct (table_ok_index addrs w.1 i Hw Hi) as (d & Hd & Hok).
  destruct (locos_lookup _ _ _ Hd) as [Ht _]. rewrite (run_bind _ _ _ w.1 w) by done. rewrite Ht.
  revert w Hw Hd Ht. assert (driver_ok addrs
    (f_speed ← lift (loco_speed d);
     func ← lift (copy_func (Z.to_nat (nFunc d)) 0 (Lokdef.func d) (repeat None (Z.to_nat MAX_NFUNC)));
     on_platine (setFunction (nFunc d) func);;
     (if e then on_platine (platine_fullstop true true)
      else on_platine (setDir (if currdir d <? 0 then 1 else 0));; on_platine (setPWM f_speed));;
     on_platine commit)) as Hk; [|intros w Hw _ _; exact (Hk w Hw)].
  eapply keeps_bind; [apply driver_lift, loco_speed_safe|]. intros v _.
  eapply keeps_bind; [apply driver_lift, copy_func_safe; destruct Hok as [[W1 W2] _]; rewrite W2; lia|]. intros f _.
  apply keeps_seq; [apply on_platine_ok, setFunction_ok|].
  apply keeps_seq; [|apply on_platine_ok, commit_ok].
  destruct e; [apply on_platine_ok, platine_fullstop_ok|].
  apply keeps_seq; apply on_platine_ok; [apply setDir_ok|apply setPWM_ok].
Qed.

Lemma int_op_safe z : safe_result (int_op z).
Proof. unfold int_op. destruct (int32b z); [done|apply overflow_safe]. Qed.

Lemma std_stoi_safe b s : safe_result (std_stoi b s).
Proof. unfold std_stoi. by repeat case_match. Qed.

Lemma usb_sendPOM_ok addrs a cv v : driver_ok addrs (usb_sendPOM a cv v).
Proof.
  unfold usb_sendPOM. destruct (cv =? CV_MANUFACTURER); [by apply keeps_ret|].
  eapply keeps_bind; [by apply (keeps_gets _ _ _ (fun _ => True))|]. intros this _.
  case_decide; [by apply keeps_ret|]. destruct (cv =? CV_CV_BAT); [by apply keeps_ret|].
  destruct (cv =? CV_BAT); [|by apply keeps_ret].
  eapply keeps_bind; [apply driver_lift, readFile_safe|]. intros voltage _.
  eapply keeps_bind; [apply driver_lift, std_stoi_safe|]. intros [i r] _.
  assert (forall o, safe_result (read_limit o)) as Hlim by (intros []; [done|solve_safe]).
  eapply keeps_bind; [apply driver_lift, Hlim|]. intros min _.
  eapply keeps_bind; [apply driver_lift, int_op_safe|]. intros n _.
  eapply keeps_bind; [apply driver_lift, int_op_safe|]. intros n' _.
  eapply keeps_bind; [apply driver_lift, Hlim|]. intros max _.
  eapply keeps_bind; [apply driver_lift, int_op_safe|]. intros n'' _.
  apply driver_lift. unfold int_div. destruct (_ =? 0); [solve_safe|apply int_op_safe].
Qed.

#[export] Instance USBPlatine_laws : HardwareLaws (USBPlatine P).
Proof.
  split; intros; cbn; try (by apply keeps_ret).
  - by apply usb_sendLoco_ok.
  - apply on_platine_ok, platine_fullstop_ok.
  - apply on_platine_ok, setDir_ok.
  - apply usb_sendPOM_ok.
Qed.
End USBPlatine.
Arguments PlatineLaws P {_}.

Lemma platine_ok_bind {P A B} (c : M P A) (f : A -> M P B) :
  platine_ok c -> (forall a, platine_ok (f a)) -> platine_ok (c ≫= f).
Proof.
  intros Hc Hf p. specialize (Hc p). unfold mbind, M_bind. destruct (c p) as [[a|e] p']; [apply Hf|done].
Qed.

Lemma scale_pwm_safe f a b : safe_result (scale_pwm f a b).
Proof. unfold scale_pwm. destruct (_ && _); [done|solve_safe]. Qed.

(** a motor range within 0..255 gives every speed its place in the range *)
Lemma scale_pwm_between f start full :
  0 <= f <= 255 -> 0 <= start <= 255 -> 0 <= full <= 255 ->
  exists v, scale_pwm f start full = Ok v /\ Z.min start full <= v <= Z.max start full.
Proof.
  intros Hf Hs Hfull. unfold scale_pwm. set (n := f * (full - start) + 255 * start).
  assert (255 * Z.min start full <= n <= 255 * Z.max start full) as Hn by (unfold n; nia).
  rewrite Z.quot_div_nonneg by lia.
  assert (Z.min start full <= n / 255 <= Z.max start full) as Hd.
  { split; [apply Z.div_le_lower_bound; lia|]. apply Z.div_le_upper_bound; lia. }
  exists (n / 255). split; [|done].
  by rewrite (proj2 (Z.leb_le _ _)), (proj2 (Z.leb_le _ _)) by lia.
Qed.

Lemma scale_pwm_mono f g start full v w :
  0 <= f <= g -> g <= 255 -> 0 <= start <= full -> full <= 255 ->
  scale_pwm f start full = Ok v -> scale_pwm g start full = Ok w -> v <= w.
Proof.
  intros Hf Hg Hs Hfull. unfold scale_pwm. destruct (_ && _); [|done]. intros [= <-].
  destruct (_ && _); [|done]. intros [= <-].
  rewrite !Z.quot_div_nonneg by nia. apply Z.div_le_mono; nia.
Qed.

(** the emergency stop of [sendLoco]: functions, the stop of the subclass, and
    the subclass commits *)
Lemma usb_sendLoco_stop {P} `{Platine P} i t (u : USBPlatine P) d func :
  0 <= i -> t !! Z.to_nat i = Some d -> currspeed d <> - 2^31 ->
  copy_func (Z.to_nat (nFunc d)) 0 (Lokdef.func d) (repeat None (Z.to_nat MAX_NFUNC)) = Ok func ->
  usb_sendLoco i true (t, u) =
  on_platine (setFunction (nFunc d) func;; platine_fullstop true true;; commit) (t, u).
Proof.
  intros Hi Hd Hs Hf. unfold usb_sendLoco, platine_sendLoco. rewrite (proj2 (Z.ltb_ge _ _)) by lia.
  rewrite (run_bind _ _ _ t (t, u)) by done. rewrite Hd.
  unfold loco_speed, c_abs. rewrite (proj2 (Z.eqb_neq _ _)) by done. rewrite Hf.
  unfold on_platine, zoom, mbind, M_bind, lift. cbn.
  destruct (setFunction (nFunc d) func (platine u)) as [[[]|e] p1]; cbn; [|done].
  destruct (platine_fullstop true true p1) as [[[]|e] p2]; cbn; [|done].
  by destruct (commit p2) as [[[]|e] p3].
Qed.

Lemma usb_sendLoco_drive {P} `{Platine P} i t (u : USBPlatine P) d func v :
  0 <= i -> t !! Z.to_nat i = Some d -> loco_speed d = Ok v ->
  copy_func (Z.to_nat (nFunc d)) 0 (Lokdef.func d) (repeat None (Z.to_nat MAX_NFUNC)) = Ok func ->
  usb_sendLoco i false (t, u) =
  on_platine (setFunction (nFunc d) func;; setDir (if currdir d <? 0 then 1 else 0);; setPWM v;; commit) (t, u).
Proof.
  intros Hi Hd Hs Hf. unfold usb_sendLoco, platine_sendLoco. rewrite (proj2 (Z.ltb_ge _ _)) by lia.
  rewrite (run_bind _ _ _ t (t, u)) by done. rewrite Hd, Hs, Hf.
  unfold on_platine, zoom, mbind, M_bind, lift. cbn.
  destruct (setFunction (nFunc d) func (platine u)) as [[[]|e] p1]; cbn; [|done].
  destruct (setDir _ p1) as [[[]|e] p2]; cbn; [|done].
  destruct (setPWM v p2) as [[[]|e] p3]; cbn; [|done].
  by destruct (commit p3) as [[[]|e] p4].
Qed.

(** a locomotive of the table is copied completely *)
Lemma copy_func_ok k j fs a :
  (j + k <= length fs)%nat -> (j + k <= length a)%nat ->
  exists a', copy_func k j fs a = Ok a' /\ length a' = length a /\
    forall i, a' !! i = if decide (j <= i < j + k)%nat then (Some ∘ ison) <$> fs !! i else a !! i.
Proof.
  revert j a. induction k as [|k IH]; intros j a Hf Ha.
  - exists a. split_and!; [done..|]. intros i. by rewrite decide_False by lia.
  - cbn. destruct (lookup_lt_is_Some_2 fs j) as [f Hj]; [lia|]. rewrite Hj, decide_True by lia.
    destruct (IH (S j) (<[j:=Some (ison f)]> a)) as (a' & E & L & Hl); [lia|rewrite length_insert; lia|].
    exists a'. rewrite length_insert in L. split_and!; [done..|]. intros i. rewrite Hl.
    destruct (decide (i = j)) as [->|Hne].
    + rewrite decide_False, decide_True by lia. rewrite list_lookup_insert_eq by lia. by rewrite Hj.
    + rewrite list_lookup_insert_ne by done. destruct (decide (S j <= i < S j + k)%nat), (decide (j <= i < j + S k)%nat); done || lia.
Qed.

Lemma lookup_repeat {A} (x : A) n k : (k < n)%nat -> repeat x n !! k = Some x.
Proof. revert k. induction n as [|n IH]; intros [|k] Hk; cbn; try lia; [done|]. apply IH. lia. Qed.

(** the function array [sendLoco] passes on: the functions of the locomotive,
    the rest indeterminate *)
Lemma loco_func_array d : lok_wf d ->
  exists func, copy_func (Z.to_nat (nFunc d)) 0 (Lokdef.func d) (repeat None (Z.to_nat MAX_NFUNC)) = Ok func /\
    length func = Z.to_nat MAX_NFUNC /\
    forall k, (k < Z.to_nat MAX_NFUNC)%nat -> func !! k =
      if decide (Z.of_nat k < nFunc d) then (Some ∘ ison) <$> Lokdef.func d !! k else Some None.
Proof.
  intros [W1 W2]. destruct (copy_func_ok (Z.to_nat (nFunc d)) 0 (Lokdef.func d) (repeat None (Z.to_nat MAX_NFUNC)))
    as (a & E & L & Hl); [lia|rewrite repeat_length; lia|].
  rewrite repeat_length in L. exists a. split_and!; [done..|]. intros k Hk. rewrite Hl.
  destruct (decide (0 <= k < 0 + Z.to_nat (nFunc d))%nat), (decide (Z.of_nat k < nFunc d)); try lia; [done|].
  by apply lookup_repeat.
Qed.

(** a locomotive with ten functions, for the examples *)
Definition sample_lok (speed dir : Z) : lokdef_t :=
  mkLok 3 F_DEC28 "V100" 10 (repeat (mkFunc "light" false true EmptyString) 32) speed dir false EmptyString 0.

Lemma sample_lok_ok speed dir : -255 <= speed <= 255 -> lok_ok (sample_lok speed dir).
Proof. intros Hs. split; [split; [done|reflexivity]|exact Hs]. Qed.
