(* ===== verification/K8055.v ===== *)
(** * bluetoothserver/K8055.{h,cpp}: the Velleman K8055 board

    The board library is an external project; what the driver asks of it is
    recorded in order.  Its return codes are only printed. *)

From S2P Require Import Prelude StdMap CString Utils Lokdef Hardware ParseExpr Platine.

Inductive k8055_call : Type :=
  | set_all_digital (d : Z)
  | set_all_analog (a1 a2 : Z)
  | get_all_input.

(** [class K8055]; the constructor leaves [dir] and [pwm] indeterminate *)
Record K8055 : Type := mkK8055 {
  k_dir : option Z;
  k_pwm : option Z;
  k_calls : list k8055_call;
}.

(** [k8055_open_device] returned [rc] *)
Definition K8055_new (rc : Z) : outcome K8055 :=
  if rc =? 0 then Ok (mkK8055 None None [])
  else Err (Throw ("error open velleman device (" +:+ to_string rc +:+ ")")).

Definition k_call (c : k8055_call) : M K8055 unit :=
  modify (fun k => mkK8055 (k_dir k) (k_pwm k) (k_calls k ++ [c])).

Definition write_output (a1 a2 d : Z) : M K8055 unit :=
  k_call (set_all_digital (u8 d));; k_call (set_all_analog (u8 a1) (u8 a2)).
Definition read_input : M K8055 unit := k_call get_all_input.

Definition k_setPWM (f_speed : Z) : M K8055 unit :=
  pwm ← lift (if 0 <? f_speed then scale_pwm f_speed 180 128 else Ok 0);
  modify (fun k => mkK8055 (k_dir k) (Some pwm) (k_calls k)).

Definition k_setDir (dir : Z) : M K8055 unit :=
  modify (fun k => mkK8055 (Some (u8 dir)) (k_pwm k) (k_calls k)).

Definition k_member (o : option Z) : outcome Z :=
  match o with Some v => Ok v | None => Err (UB "K8055: indeterminate value") end.

Definition k_commit : M K8055 unit :=
  k ← get;
  pwm ← lift (k_member (k_pwm k));
  let ia1 := 255 - pwm in
  let ia2 := 0 in
  dir ← lift (k_member (k_dir k));
  let id8 := if dir <? 0 then 64 else 32 in
  write_output ia1 ia2 id8;;
  read_input;;
  write_output ia1 ia2 id8.

Definition k_fullstop (stopAll emergencyStop : bool) : M K8055 unit := write_output 0 0 3.

#[export] Instance K8055_platine : Platine K8055 := {
  setPWM := k_setPWM;
  setDir := k_setDir;
  setFunction nFunc func := mret tt;
  commit := k_commit;
  platine_fullstop := k_fullstop;
}.

#[export] Instance K8055_laws : PlatineLaws K8055.
Proof.
  split; intros; intros k; cbn; try done.
  - unfold k_setPWM, mbind, M_bind, lift. destruct (0 <? v); [|done].
    pose proof (scale_pwm_safe v 180 128). by destruct (scale_pwm v 180 128).
  - unfold k_commit, get, mbind, M_bind, lift. destruct (k_pwm k), (k_dir k); (done || solve_safe).
Qed.

(** ** Theorems *)

(** the calls of one commit with output [a1] *)
Definition k_committed (a1 : Z) : list k8055_call :=
  [set_all_digital 32; set_all_analog a1 0; get_all_input; set_all_digital 32; set_all_analog a1 0].

Lemma write_output_run a1 a2 d k :
  write_output a1 a2 d k =
  (Ok tt, mkK8055 (k_dir k) (k_pwm k) (k_calls k ++ [set_all_digital (u8 d); set_all_analog (u8 a1) (u8 a2)])).
Proof. unfold write_output, k_call, mbind, M_bind, modify. cbn -[u8]. by rewrite <- app_assoc. Qed.

Lemma k_commit_run k pwm dir :
  k_pwm k = Some pwm -> 0 <= pwm <= 255 -> k_dir k = Some dir -> 0 <= dir ->
  k_commit k = (Ok tt, mkK8055 (k_dir k) (k_pwm k) (k_calls k ++ k_committed (255 - pwm))).
Proof.
  intros Hp Hr Hd Hd0. unfold k_commit. rewrite (run_bind _ _ _ k k) by done.
  rewrite (run_bind _ _ _ pwm k) by (by rewrite Hp). rewrite (run_bind _ _ _ dir k) by (by rewrite Hd).
  rewrite (proj2 (Z.ltb_ge dir 0)) by lia. erewrite run_bind by apply write_output_run.
  erewrite run_bind by done. rewrite write_output_run. cbn [k_dir k_pwm k_calls].
  rewrite !(u8_id (255 - pwm)) by lia. unfold k_committed. by rewrite <- !app_assoc.
Qed.

(** Driving a locomotive: the board gets the analog value [255] for a speed
    below 5 and a value between 77 and 127 that grows with the speed
    otherwise; the digital outputs are 0x20 for both directions. *)
Theorem k8055_drive i t (u : USBPlatine K8055) d :
  0 <= i -> t !! Z.to_nat i = Some d -> lok_ok d ->
  exists a1 u', usb_sendLoco i false (t, u) = (Ok tt, (t, u')) /\
    k_calls (platine u') = k_calls (platine u) ++ k_committed a1 /\
    (if Z.abs (currspeed d) <? 5 then a1 = 255
     else a1 = 255 - (45900 - 52 * Z.abs (currspeed d)) / 255 /\ 77 <= a1 <= 127).
Proof.
  intros Hi Hd [W Hs]. destruct (loco_func_array d W) as (fa & Hfa & _).
  assert (loco_speed d = Ok (if Z.abs (currspeed d) <? 5 then 0 else Z.abs (currspeed d))) as Hv.
  { unfold loco_speed, c_abs. by rewrite (proj2 (Z.eqb_neq _ _)) by lia. }
  rewrite (usb_sendLoco_drive i t u d fa _ Hi Hd Hv Hfa).
  set (v := if _ <? 5 then 0 else _).
  assert (exists pwm, (if 0 <? v then scale_pwm v 180 128 else Ok 0) = Ok pwm /\ 0 <= pwm <= 255 /\
            (if Z.abs (currspeed d) <? 5 then pwm = 0
             else pwm = (45900 - 52 * Z.abs (currspeed d)) / 255 /\ 128 <= pwm <= 178)) as (pwm & Hpwm & Hr & Hcase).
  { subst v. destruct (Z.ltb_spec (Z.abs (currspeed d)) 5) as [|H5]; [by exists 0|].
    rewrite (proj2 (Z.ltb_lt _ _)) by lia. set (a := Z.abs (currspeed d)) in *.
    assert (128 <= (45900 - 52 * a) / 255 <= 178) as Hq.
    { split; [apply Z.div_le_lower_bound; lia|]. apply Z.lt_succ_r. apply Z.div_lt_upper_bound; lia. }
    exists ((45900 - 52 * a) / 255). split; [|lia]. unfold scale_pwm.
    replace (a * (128 - 180) + 255 * 180) with (45900 - 52 * a) by lia.
    rewrite Z.quot_div_nonneg by lia.
    by rewrite (proj2 (Z.leb_le _ _)), (proj2 (Z.leb_le _ _)) by lia. }
  exists (255 - pwm).
  eexists. split; [|split].
  - unfold on_platine, zoom. cbn [platine setFunction setDir setPWM commit K8055_platine fst snd].
    unfold k_setDir, k_setPWM, lift. unfold mbind, M_bind at 1. cbn. rewrite Hpwm. cbn.
    erewrite k_commit_run; [reflexivity|done|lia|done|destruct (_ <? 0); vm_compute; discriminate].
  - done.
  - destruct (_ <? 5); lia.
Qed.

Definition sample_k8055 : USBPlatine K8055 := mkUSB EmptyString None None (mkK8055 (Some 0) (Some 150) []).

Lemma k8055_drive_witness : exists a1 u',
  usb_sendLoco 0 false ([sample_lok 100 (-1); lokdef0], sample_k8055) = (Ok tt, ([sample_lok 100 (-1); lokdef0], u')) /\
  k_calls (platine u') = k_committed a1 /\ 77 <= a1 <= 127.
Proof.
  destruct (k8055_drive 0 [sample_lok 100 (-1); lokdef0] sample_k8055 (sample_lok 100 (-1))) as (a1 & u' & H1 & H2 & H3);
    [lia|done|by apply sample_lok_ok|].
  exists a1, u'. split; [exact H1|]. split; [exact H2|]. apply H3.
Defined.

(** The emergency stop does not hold: [fullstop] zeroes the outputs but not
    the stored speed, and the commit that follows puts the speed of the last
    ordinary command back on the motor output. *)
Theorem k8055_emergency_undone i t (u : USBPlatine K8055) d pwm dir :
  0 <= i -> t !! Z.to_nat i = Some d -> lok_ok d ->
  k_pwm (platine u) = Some pwm -> 0 <= pwm <= 255 -> k_dir (platine u) = Some dir -> 0 <= dir ->
  exists u', usb_sendLoco i true (t, u) = (Ok tt, (t, u')) /\
    k_calls (platine u') = k_calls (platine u) ++ [set_all_digital 3; set_all_analog 0 0] ++ k_committed (255 - pwm) /\
    k_pwm (platine u') = Some pwm.
Proof.
  intros Hi Hd [W Hs] Hp Hr Hdir Hdir0. destruct (loco_func_array d W) as (fa & Hfa & _).
  rewrite (usb_sendLoco_stop i t u d fa Hi Hd ltac:(lia) Hfa).
  eexists. split; [|split].
  - unfold on_platine, zoom. cbn [platine setFunction platine_fullstop commit K8055_platine fst snd].
    erewrite run_bind by done. unfold k_fullstop. erewrite run_bind by apply write_output_run.
    erewrite k_commit_run; [reflexivity|done..].
  - cbn [platine k_calls]. by rewrite <- app_assoc.
  - done.
Qed.

Lemma k8055_emergency_undone_witness : exists u',
  usb_sendLoco 0 true ([sample_lok 0 1; lokdef0], sample_k8055) = (Ok tt, ([sample_lok 0 1; lokdef0], u')) /\
  list.last (k_calls (platine u')) = Some (set_all_analog 105 0).
Proof.
  destruct (k8055_emergency_undone 0 [sample_lok 0 1; lokdef0] sample_k8055 (sample_lok 0 1) 150 0) as (u' & H1 & H2 & H3);
    [lia|done|by apply sample_lok_ok|done|lia|done|lia|].
  exists u'. split; [exact H1|]. rewrite H2. reflexivity.
Defined.
