(* ===== verification/USBDigispark.v ===== *)
(** * bluetoothserver/USBDigispark.{h,cpp}: the motor on a Digispark board

    The driver writes a command into a buffer; a second thread sends the
    buffer to the board over USB.  The steps of the two threads are
    interleaved: each accesses the shared buffer and counters in one piece
    (they hold [mut] while they do). *)

From Stdlib Require Import Ascii.
From S2P Require Import Prelude StdMap CString Utils Lokdef Hardware ParseExpr Platine.

(** [class USBDigispark] and the globals it shares with the comm thread.
    [dg_wire] is what was sent to the board, one element per buffer. *)
Record Digispark : Type := mkDigi {
  dg_dir : Z;
  dg_pwm : Z;
  dg_motorStart : Z;
  dg_x : Z;
  dg_y : Z;
  dg_commBuffer : string;
  dg_forceRead : bool;
  dg_wire : list string;
}.

Definition dg_command (c : ascii) (arg : string) : string := String c (arg +:+ String newline EmptyString).

Definition sendCmd (cmd : string) : M Digispark unit :=
  s ← get;
  x ← lift (int_op (dg_x s + 1));
  put (mkDigi (dg_dir s) (dg_pwm s) (dg_motorStart s) x (dg_y s) cmd (dg_forceRead s) (dg_wire s)).

Definition dg_setPWM (f_speed : Z) : M Digispark unit :=
  s ← get;
  pwm ← lift (if 0 <? f_speed then scale_pwm f_speed (dg_motorStart s) 128 else Ok 0);
  if dg_pwm s =? pwm then mret tt
  else
    sendCmd (dg_command "M" (hex02 pwm));;
    modify (fun s => mkDigi (dg_dir s) pwm (dg_motorStart s) (dg_x s) (dg_y s) (dg_commBuffer s) (dg_forceRead s) (dg_wire s)).

Definition dg_setDir (dir : Z) : M Digispark unit :=
  s ← get;
  if dg_dir s =? u8 dir then mret tt
  else
    sendCmd (dg_command "D" (to_string (u8 dir)));;
    modify (fun s => mkDigi (u8 dir) (dg_pwm s) (dg_motorStart s) (dg_x s) (dg_y s) (dg_commBuffer s) (dg_forceRead s) (dg_wire s)).

(** what happens while it waits for the comm thread is steps of that thread *)
Definition dg_fullstop (stopAll emergencyStop : bool) : M Digispark unit := dg_setPWM 0.

(** one turn of [startCommThread]; [usb] tells whether the transfers succeed.
    Reading from the board only prints. *)
Definition comm_turn (usb : bool) : M Digispark unit :=
  s ← get;
  if (dg_x s <=? dg_y s) || dg_forceRead s then
    put (mkDigi (dg_dir s) (dg_pwm s) (dg_motorStart s) (dg_x s) (dg_y s) (dg_commBuffer s) false (dg_wire s))
  else if usb then
    put (mkDigi (dg_dir s) (dg_pwm s) (dg_motorStart s) (dg_x s) (dg_y s + 1) (dg_commBuffer s) true
           (dg_wire s ++ [dg_commBuffer s]))
  else fail (Abort "error writing to usb device").

(** the constructor after the device was opened *)
Definition Digispark_init (config : Config) : outcome Digispark :=
  motorStart ← stoi (Config_get "digispark.motorStart" config);
  match (sendCmd (dg_command "V" EmptyString);; dg_setPWM 0) (mkDigi 0 0 motorStart 0 0 EmptyString false []) with
  | (Ok _, s) => Ok s
  | (Err e, _) => Err e
  end.

#[export] Instance Digispark_platine : Platine Digispark := {
  setPWM := dg_setPWM;
  setDir := dg_setDir;
  setFunction nFunc func := mret tt;
  commit := mret tt;
  platine_fullstop := dg_fullstop;
}.

Lemma sendCmd_ok cmd : platine_ok (sendCmd cmd).
Proof.
  intros s. unfold sendCmd, get, lift, put, mbind, M_bind. pose proof (int_op_safe (dg_x s + 1)).
  by destruct (int_op (dg_x s + 1)).
Qed.

Lemma dg_setPWM_ok v : platine_ok (dg_setPWM v).
Proof.
  unfold dg_setPWM. apply platine_ok_bind; [done|]. intros s. apply platine_ok_bind.
  { intros s'. unfold lift. cbn. destruct (0 <? v); [apply scale_pwm_safe|done]. }
  intros pwm. destruct (_ =? pwm); [done|]. by apply platine_ok_bind; [apply sendCmd_ok|].
Qed.

#[export] Instance Digispark_laws : PlatineLaws Digispark.
Proof.
  split; intros; try done.
  - apply dg_setPWM_ok.
  - cbn. unfold dg_setDir. apply platine_ok_bind; [done|]. intros s.
    destruct (_ =? _); [done|]. by apply platine_ok_bind; [apply sendCmd_ok|].
  - apply dg_setPWM_ok.
Qed.

(** ** What the board has been told *)

(** the last command with this letter *)
Fixpoint last_cmd (c : ascii) (dflt : string) (wire : list string) : string :=
  match wire with
  | [] => dflt
  | w :: wire' => last_cmd c (if decide (deref w = c) then w else dflt) wire'
  end.

Definition told_speed (s : Digispark) : string := last_cmd "M" (dg_command "M" "00") (dg_wire s).
Definition told_dir (s : Digispark) : string := last_cmd "D" (dg_command "D" "0") (dg_wire s).

(** everything was sent and the board knows the speed and direction the
    driver believes it told it *)
Definition in_sync (s : Digispark) : Prop :=
  dg_x s = dg_y s /\ told_speed s = dg_command "M" (hex02 (dg_pwm s)) /\ told_dir s = dg_command "D" (to_string (dg_dir s)).

Lemma last_cmd_app c dflt wire w :
  last_cmd c dflt (wire ++ [w]) = if decide (deref w = c) then w else last_cmd c dflt wire.
Proof. revert dflt. induction wire as [|v wire IH]; intros dflt; [done|]. cbn. apply IH. Qed.

(** ** Draining *)

Definition comm_turns (n : nat) : M Digispark unit := iterM (fun _ => comm_turn true) (seq 0 n).

Lemma iterM_seq {S} (c : M S unit) i n : iterM (fun _ : nat => c) (seq i n) = iterM (fun _ => c) (seq 0 n).
Proof.
  revert i. induction n as [|n IH]; intros i; [done|]. cbn. unfold mbind, M_bind.
  by rewrite (IH (Datatypes.S i)), (IH 1%nat).
Qed.

Lemma comm_turns_S n s : comm_turns (S n) s = (comm_turn true;; comm_turns n) s.
Proof. unfold comm_turns. cbn. by rewrite (iterM_seq _ 1). Qed.

(** The comm thread sends the buffer once for every command that was written,
    whatever the buffer held when the earlier ones were. *)
Lemma comm_turns_drain n k s :
  dg_x s = dg_y s + Z.of_nat k -> (2 * k + (if dg_forceRead s then 1 else 0) <= n)%nat ->
  exists s', comm_turns n s = (Ok tt, s') /\
    dg_wire s' = dg_wire s ++ repeat (dg_commBuffer s) k /\ dg_x s' = dg_x s /\ dg_y s' = dg_x s /\
    dg_dir s' = dg_dir s /\ dg_pwm s' = dg_pwm s /\ dg_motorStart s' = dg_motorStart s.
Proof.
  revert k s. induction n as [|n IH]; intros k s Hx Hn.
  - assert (k = O) as -> by lia. exists s. cbn. rewrite app_nil_r. split_and!; done || lia.
  - rewrite comm_turns_S. unfold comm_turn, get. unfold mbind, M_bind at 1 2.
    destruct ((dg_x s <=? dg_y s) || dg_forceRead s) eqn:E; cbn [put].
    + apply (IH k (mkDigi _ _ _ _ _ _ _ _)); cbn; [done|].
      destruct (dg_forceRead s); [lia|]. rewrite orb_false_r in E. apply Z.leb_le in E. lia.
    + apply orb_false_iff in E as [E F]. apply Z.leb_gt in E. destruct k as [|k]; [lia|].
      destruct (IH k (mkDigi (dg_dir s) (dg_pwm s) (dg_motorStart s) (dg_x s) (dg_y s + 1) (dg_commBuffer s) true
                        (dg_wire s ++ [dg_commBuffer s]))) as (s' & R & W & H3 & H4 & H5 & H6 & H7); cbn in *; [lia|lia|].
      exists s'. rewrite <- app_assoc in W. split_and!; done.
Qed.

(** an ordinary speed command or direction command *)
Inductive dg_op : Type :=
  | SpeedOp (f_speed : Z)
  | DirOp (dir : Z).
Definition dg_do (o : dg_op) : M Digispark unit :=
  match o with SpeedOp v => setPWM v | DirOp d => setDir d end.
Definition op_ok (o : dg_op) : Prop := match o with SpeedOp v => 0 <= v <= 255 | DirOp d => 0 <= d <= 1 end.

Lemma sendCmd_run cmd s : is_int32 (dg_x s + 1) ->
  sendCmd cmd s = (Ok tt, mkDigi (dg_dir s) (dg_pwm s) (dg_motorStart s) (dg_x s + 1) (dg_y s) cmd (dg_forceRead s) (dg_wire s)).
Proof.
  intros Hx. unfold sendCmd, int_op. rewrite (run_bind _ _ _ s s) by done.
  rewrite (run_bind _ _ _ (dg_x s + 1) s); [done|]. by rewrite (proj2 (int32b_spec _)).
Qed.

(** what is kept between the commands *)
Definition dg_ready (s : Digispark) (room : Z) : Prop :=
  in_sync s /\ 0 <= dg_motorStart s <= 255 /\ 0 <= dg_x s /\ dg_x s + room < 2^31.

Lemma idle_ready n s room : dg_ready s room -> (1 <= n)%nat ->
  exists s', comm_turns n s = (Ok tt, s') /\ dg_ready s' room /\ dg_wire s' = dg_wire s /\ dg_pwm s' = dg_pwm s /\ dg_dir s' = dg_dir s.
Proof.
  intros ((Hxy & Hs & Hd) & Hm & Hx) Hn.
  destruct (comm_turns_drain n 0 s) as (s' & R & W & E1 & E2 & E3 & E4 & E5); [lia|destruct (dg_forceRead s); lia|].
  cbn in W. rewrite app_nil_r in W. exists s'. unfold dg_ready, in_sync, told_speed, told_dir.
  rewrite W, E1, E2, E3, E4, E5. done.
Qed.

(** a written command is drained; [s1] is the state behind [sendCmd] *)
Lemma sent_ready n s s1 room :
  dg_ready s (room + 1) -> 0 <= room -> (3 <= n)%nat ->
  dg_x s1 = dg_x s + 1 -> dg_y s1 = dg_y s -> dg_wire s1 = dg_wire s -> dg_motorStart s1 = dg_motorStart s ->
  (dg_commBuffer s1 = dg_command "M" (hex02 (dg_pwm s1)) /\ dg_dir s1 = dg_dir s \/
   dg_commBuffer s1 = dg_command "D" (to_string (dg_dir s1)) /\ dg_pwm s1 = dg_pwm s) ->
  exists s', comm_turns n s1 = (Ok tt, s') /\ dg_ready s' room /\ dg_wire s' = dg_wire s ++ [dg_commBuffer s1] /\
    dg_pwm s' = dg_pwm s1 /\ dg_dir s' = dg_dir s1.
Proof.
  intros ((Hxy & Hs & Hd) & Hm & Hx) Hroom Hn E1 E2 E3 E4 Hc.
  destruct (comm_turns_drain n 1 s1) as (s' & R & W & F1 & F2 & F3 & F4 & F5); [lia|destruct (dg_forceRead s1); lia|].
  exists s'. rewrite E3 in W. split_and!; [done| |done|done|done].
  unfold dg_ready, in_sync, told_speed, told_dir in *. cbn in W. rewrite W, F1, F2, F3, F4, F5, E4, !last_cmd_app.
  destruct Hc as [[Hb Hk]|[Hb Hk]]; rewrite Hb, ?Hk; cbn [deref dg_command];
    rewrite ?(decide_True_pi eq_refl); split_and!; try done; lia.
Qed.

(** the commands of the driver *)
Inductive board_cmd : string -> Prop :=
  | cmd_M p : 0 <= p <= 255 -> board_cmd (dg_command "M" (hex02 p))
  | cmd_D d : 0 <= d <= 1 -> board_cmd (dg_command "D" (to_string d))
  | cmd_V : board_cmd (dg_command "V" EmptyString).
Definition dg_fits (s : Digispark) : Prop := 0 <= dg_pwm s <= 255 /\ 0 <= dg_dir s <= 1.

(** Commands that the comm thread sends before the next one is given (three of
    its turns are enough) keep the board and the driver in step. *)
Lemma op_ready o n s room :
  dg_ready s (room + 1) -> 0 <= room -> op_ok o -> (3 <= n)%nat ->
  exists s' l, (dg_do o;; comm_turns n) s = (Ok tt, s') /\ dg_ready s' room /\ dg_wire s' = dg_wire s ++ l /\
    Forall board_cmd l /\ (dg_fits s -> dg_fits s').
Proof.
  intros Hr Hroom Ho Hn. pose proof Hr as (_ & Hm & Hx).
  assert (exists s' l, comm_turns n s = (Ok tt, s') /\ dg_ready s' room /\ dg_wire s' = dg_wire s ++ l /\ Forall board_cmd l /\ (dg_fits s -> dg_fits s')) as Hsame.
  { destruct (idle_ready n s (room + 1) Hr) as (s' & R & R' & W & P & D); [lia|]. exists s', []. rewrite app_nil_r. unfold dg_fits. rewrite P, D.
    split_and!; try done. destruct R' as (? & ? & ? & ?). split_and!; try done; lia. }
  assert (is_int32 (dg_x s + 1)) as Hi by (unfold is_int32; lia).
  destruct o as [v|d]; cbn in *.
  - assert (exists pwm, (if 0 <? v then scale_pwm v (dg_motorStart s) 128 else Ok 0) = Ok pwm /\ 0 <= pwm <= 255) as (pwm & Hp & Hb).
    { destruct (0 <? v); [|by exists 0; split; [|lia]]. destruct (scale_pwm_between v (dg_motorStart s) 128) as (p & E & B); try lia.
      exists p. split; [done|lia]. }
    destruct (Z.eqb_spec (dg_pwm s) pwm) as [Heq|Hne].
    + erewrite run_bind; [exact Hsame|]. unfold dg_setPWM. rewrite (run_bind _ _ _ s s) by done.
      rewrite (run_bind _ _ _ pwm s) by (unfold lift; by rewrite Hp). by rewrite (proj2 (Z.eqb_eq _ _)).
    + erewrite run_bind; [|unfold dg_setPWM; rewrite (run_bind _ _ _ s s) by done;
        rewrite (run_bind _ _ _ pwm s) by (unfold lift; by rewrite Hp);
        rewrite (proj2 (Z.eqb_neq _ _)) by done; erewrite run_bind by (by apply sendCmd_run); reflexivity].
      edestruct (sent_ready n s) as (s' & R & R' & W & P & D); [done|done|done|..|exists s'; eexists; split_and!; [done|done|exact W| |]]; try reflexivity.
      * by left.
      * constructor; [by apply (cmd_M pwm)|constructor].
      * intros [_ ?]. unfold dg_fits. by rewrite P, D.
  - destruct (Z.eqb_spec (dg_dir s) (u8 d)) as [Heq|Hne].
    + erewrite run_bind; [exact Hsame|]. unfold dg_setDir. rewrite (run_bind _ _ _ s s) by done.
      by rewrite (proj2 (Z.eqb_eq _ _)).
    + erewrite run_bind; [|unfold dg_setDir; rewrite (run_bind _ _ _ s s) by done;
        rewrite (proj2 (Z.eqb_neq _ _)) by done; erewrite run_bind by (by apply sendCmd_run); reflexivity].
      edestruct (sent_ready n s) as (s' & R & R' & W & P & D); [done|done|done|..|exists s'; eexists; split_and!; [done|done|exact W| |]]; try reflexivity.
      * by right.
      * cbn. rewrite u8_id by lia. constructor; [by apply (cmd_D d)|constructor].
      * intros [? _]. unfold dg_fits. rewrite P, D. cbn. rewrite u8_id by lia. done.
Qed.

Lemma ops_ready ops : forall s, dg_ready s (Z.of_nat (length ops)) -> Forall (fun on => op_ok on.1 /\ (3 <= on.2)%nat) ops ->
  exists s' l, iterM (fun on => dg_do on.1;; comm_turns on.2) ops s = (Ok tt, s') /\ in_sync s' /\ dg_wire s' = dg_wire s ++ l /\
    Forall board_cmd l /\ (dg_fits s -> dg_fits s').
Proof.
  induction ops as [|[o n] ops IH]; intros s Hr Hops.
  - exists s, []. rewrite app_nil_r. split_and!; try done. apply Hr.
  - apply Forall_cons_1 in Hops as [[Ho Hn] Hops]. cbn [length] in Hr.
    destruct (op_ready o n s (Z.of_nat (length ops))) as (s1 & l1 & R & R1 & W1 & C1 & F1); [|lia|done|done|].
    { by replace (Z.of_nat (length ops) + 1) with (Z.of_nat (S (length ops))) by lia. }
    destruct (IH s1 R1 Hops) as (s2 & l2 & R2 & Hsync & W2 & C2 & F2). exists s2, (l1 ++ l2). cbn [iterM fst snd].
    split_and!; [by erewrite run_bind by exact R|done|by rewrite W2, W1, app_assoc|by apply Forall_app|auto].
Qed.

(** ** Theorems *)

(** Speed and direction commands that are given slowly enough (the comm
    thread takes at least three turns after each) leave the board with exactly
    the speed and direction the driver believes in, however long the sequence
    is. *)
Theorem digispark_in_sync ops s :
  dg_ready s (Z.of_nat (length ops)) -> Forall (fun on => op_ok on.1 /\ (3 <= on.2)%nat) ops ->
  exists s', iterM (fun on => dg_do on.1;; comm_turns on.2) ops s = (Ok tt, s') /\ in_sync s'.
Proof. intros Hr Hops. destruct (ops_ready ops s Hr Hops) as (s' & l & R & Hsync & _). by exists s'. Qed.

Definition sample_digispark : Digispark := mkDigi 0 0 70 0 0 EmptyString false [].

Lemma sample_digispark_ready room : 0 <= room < 2^31 -> dg_ready sample_digispark room.
Proof. intros Hr. repeat split; try done. cbn. lia. Qed.

Lemma digispark_in_sync_witness :
  exists s', iterM (fun on => dg_do on.1;; comm_turns on.2) [(SpeedOp 255, 3%nat); (DirOp 1, 4%nat); (SpeedOp 0, 3%nat)]
               sample_digispark = (Ok tt, s') /\ in_sync s'.
Proof.
  apply digispark_in_sync; [apply sample_digispark_ready; cbn; lia|].
  repeat constructor; cbn; lia.
Defined.

(** Commands overwrite each other: when the comm thread takes no turn between
    stopping and changing the direction, the stop is lost.  The driver records
    speed 0, the board never hears of it (only the direction is sent, twice),
    and another stop sends nothing since the driver believes the motor stands. *)
Theorem digispark_stop_lost s dir n :
  dg_ready s 2 -> dg_pwm s <> 0 -> 0 <= dir <= 255 -> dir <> dg_dir s -> (5 <= n)%nat ->
  exists s', (setPWM 0;; setDir dir;; setPWM 0;; comm_turns n) s = (Ok tt, s') /\
    dg_pwm s' = 0 /\ told_speed s' = told_speed s /\ told_dir s' = dg_command "D" (to_string dir) /\
    platine_fullstop true true s' = (Ok tt, s').
Proof.
  intros ((Hxy & Hs & Hd) & Hm & Hx) Hp Hdir Hne Hn.
  set (s1 := mkDigi (dg_dir s) 0 (dg_motorStart s) (dg_x s + 1) (dg_y s) (dg_command "M" "00") (dg_forceRead s) (dg_wire s)).
  set (s2 := mkDigi dir 0 (dg_motorStart s) (dg_x s + 1 + 1) (dg_y s) (dg_command "D" (to_string dir)) (dg_forceRead s) (dg_wire s)).
  assert (setPWM 0 s = (Ok tt, s1)) as R1.
  { cbn. unfold dg_setPWM. rewrite (run_bind _ _ _ s s) by done. rewrite (run_bind _ _ _ 0 s) by done.
    rewrite (proj2 (Z.eqb_neq _ _)) by done. erewrite run_bind by (apply sendCmd_run; unfold is_int32; lia). reflexivity. }
  assert (setDir dir s1 = (Ok tt, s2)) as R2.
  { cbn. unfold dg_setDir. rewrite (run_bind _ _ _ s1 s1) by done. rewrite u8_id by lia.
    rewrite (proj2 (Z.eqb_neq _ _)) by (cbn; congruence). erewrite run_bind by (apply sendCmd_run; unfold is_int32; cbn; lia). reflexivity. }
  assert (forall s, dg_pwm s = 0 -> dg_setPWM 0 s = (Ok tt, s)) as R3.
  { intros s' E. unfold dg_setPWM. rewrite (run_bind _ _ _ s' s') by done. rewrite (run_bind _ _ _ 0 s') by done. by rewrite E. }
  destruct (comm_turns_drain n 2 s2) as (s' & R & W & F1 & F2 & F3 & F4 & F5); [cbn; lia|destruct (dg_forceRead s2); lia|].
  exists s'. split; [|split_and!].
  - erewrite run_bind by exact R1. erewrite run_bind by exact R2. erewrite run_bind by (by apply R3). exact R.
  - done.
  - unfold told_speed. rewrite W. change (repeat (dg_commBuffer s2) 2) with ([dg_commBuffer s2] ++ [dg_commBuffer s2]).
    by rewrite (app_assoc (dg_wire s2)), !last_cmd_app.
  - unfold told_dir. rewrite W. change (repeat (dg_commBuffer s2) 2) with ([dg_commBuffer s2] ++ [dg_commBuffer s2]).
    by rewrite (app_assoc (dg_wire s2)), !last_cmd_app.
  - by apply R3.
Qed.

Lemma digispark_stop_lost_witness :
  exists s', (setPWM 0;; setDir 1;; setPWM 0;; comm_turns 5)
               (mkDigi 0 128 70 1 1 (dg_command "M" "80") false [dg_command "M" "80"]) = (Ok tt, s') /\
    dg_pwm s' = 0 /\ told_speed s' = dg_command "M" "80".
Proof.
  destruct (digispark_stop_lost (mkDigi 0 128 70 1 1 (dg_command "M" "80") false [dg_command "M" "80"]) 1 5)
    as (s' & R & P & T & _); [repeat split; done|done|lia|done|lia|].
  exists s'. split; [exact R|]. split; [exact P|]. exact T.
Defined.
