(* ===== verification/Boards.v ===== *)
(** * What the sketches of the motor boards share

    digispark/putzlok/putzlok.ino and arduino/monster_shield/monster_shield.ino
    take commands like M80 or D1, a line each, from a serial line and drive a
    motor.  Calls of the pin functions are recorded; the answers on the serial
    line are left out, and so are delays. *)

From Stdlib Require Import Ascii.
From S2P Require Import Prelude StdMap CString Utils Lokdef Hardware ParseExpr Platine USBDigispark.

Inductive pin_call : Type :=
  | analogWrite (pin value : Z)
  | digitalWrite (pin : Z) (value : bool).

(** an [int] operation on the AVR *)
Definition int16_op (z : Z) : outcome Z := if (- 2^15 <=? z) && (z <? 2^15) then Ok z else Err (UB "signed overflow").

(** [hex2val], the same in both sketches; [char] is signed and holds -1 *)
Definition hex2val (c : ascii) : Z :=
  let v := Z.of_nat (nat_of_ascii c) in
  if (48 <=? v) && (v <=? 57) then v - 48
  else if (97 <=? v) && (v <=? 102) then v - 97 + 10
  else -1.

(** the characters of a command *)
Definition chars (s : string) : list ascii := String.list_ascii_of_string s.

Lemma digit_heard v : 0 <= v < 16 -> hex2val (digit_chr v) = v /\ digit_chr v <> newline.
Proof.
  intros Hv. rewrite <- (Z2Nat.id v) by lia. assert (Z.to_nat v < 16)%nat as Hn by lia. revert Hn. generalize (Z.to_nat v). intros n Hn.
  do 16 (destruct n as [|n]; [by vm_compute|]). lia.
Qed.
