(* ===== verification/Putzlok.v ===== *)
(** * digispark/putzlok/putzlok.ino: the firmware of the Digispark board

    The build with CABLIGHT and DEBUG_FLICKER_IN_STOP, as the file has it; [int]
    has 16 bits, the counter of the flicker is the only one that can leave them. *)

From Stdlib Require Import Ascii.
From S2P Require Import Prelude StdMap CString Utils Lokdef Hardware ParseExpr Platine USBDigispark Boards.

(** ** The sketch *)

(** the globals; [pins] holds the calls so far, the last first *)
Record Board : Type := mkBoard {
  line : list ascii;
  pos : nat;                    (* unsigned *)
  target_pwm : Z;
  pwm_hw : Z;
  dir : Z;
  debugloop : Z;
  usbError : Z;
  pins : list pin_call;
}.
Definition Board0 (p : list pin_call) : Board := mkBoard (repeat zero 20) 0%nat 0 0 0 0 0 p.

Section updates.
Context (b : Board).
Definition with_line l p := mkBoard l p (target_pwm b) (pwm_hw b) (dir b) (debugloop b) (usbError b) (pins b).
Definition with_target t := mkBoard (line b) (pos b) t (pwm_hw b) (dir b) (debugloop b) (usbError b) (pins b).
Definition with_hw v := mkBoard (line b) (pos b) (target_pwm b) v (dir b) (debugloop b) (usbError b) (pins b).
Definition with_dir d := mkBoard (line b) (pos b) (target_pwm b) (pwm_hw b) d (debugloop b) (usbError b) (pins b).
Definition with_debugloop n := mkBoard (line b) (pos b) (target_pwm b) (pwm_hw b) (dir b) n (usbError b) (pins b).
Definition with_usbError n := mkBoard (line b) (pos b) (target_pwm b) (pwm_hw b) (dir b) (debugloop b) n (pins b).
Definition with_pin c := mkBoard (line b) (pos b) (target_pwm b) (pwm_hw b) (dir b) (debugloop b) (usbError b) (c :: pins b).
End updates.

Definition pin (c : pin_call) : M Board unit := modify (fun b => with_pin b c).

(** [setup()], also after a reset: the globals have their initial values *)
Definition setup : M Board unit :=
  modify (fun b => Board0 (pins b));;
  pin (analogWrite 1 10);;
  pin (digitalWrite 5 true);;
  pin (digitalWrite 5 false);;
  pin (analogWrite 1 0).

Definition line_at (i : nat) : M Board ascii :=
  b ← get; match line b !! i with Some c => mret c | None => fail (UB "line[i]") end.
Definition line_set (i : nat) (c : ascii) : M Board unit :=
  b ← get;
  if (i <? length (line b))%nat then put (with_line b (<[i:=c]> (line b)) (pos b)) else fail (UB "line[i]").
Definition set_pos (n : nat) : M Board unit := modify (fun b => with_line b (line b) n).

Definition processCmd : M Board bool :=
  b ← get;
  c0 ← line_at 0;
  if (pos b =? 4)%nat && bool_decide (c0 = "M"%char) then
    h1 ← line_at 1;
    if hex2val h1 <? 0 then mret false
    else
      h2 ← line_at 2;
      if hex2val h2 <? 0 then mret false
      else modify (fun b => with_target b (Z.shiftl (hex2val h1) 4 + hex2val h2));; mret true
  else if (pos b =? 3)%nat && bool_decide (c0 = "D"%char) then
    d ← line_at 1;
    if decide (d = "0"%char) then pin (digitalWrite 5 false);; modify (fun b => with_dir b 0);; mret true
    else if decide (d = "1"%char) then pin (digitalWrite 5 true);; modify (fun b => with_dir b 1);; mret true
    else mret false
  else mret ((pos b =? 2)%nat && (bool_decide (c0 = "Q"%char) || bool_decide (c0 = "V"%char))).

(** the body of the reading loop *)
Definition receive (c : ascii) : M Board unit :=
  b ← get;
  if (pos b <? 20)%nat then
    line_set (pos b) c;;
    set_pos (S (pos b));;
    c' ← line_at (pos b);
    if decide (c' = newline) then line_set (pos b) zero;; processCmd;; set_pos 0 else mret tt
  else set_pos 0.

Definition setCablight : M Board unit :=
  b ← get;
  if pwm_hw b =? 0 then
    if dir b =? 0 then pin (digitalWrite 0 false) else pin (digitalWrite 2 false)
  else pin (digitalWrite 0 true);; pin (digitalWrite 2 true).

(** the motor follows the target by one *)
Definition follow_target : M Board unit :=
  b ← get;
  if pwm_hw b <? target_pwm b then
    modify (fun b => with_hw b (pwm_hw b + 1));; pin (analogWrite 1 (pwm_hw b + 1));; setCablight
  else if target_pwm b <? pwm_hw b then
    modify (fun b => with_hw b (pwm_hw b - 1));; pin (analogWrite 1 (pwm_hw b - 1));; setCablight
  else mret tt.

(** [DEBUG_FLICKER_IN_STOP] *)
Definition flicker : M Board unit :=
  b ← get;
  if pwm_hw b =? 0 then
    n ← lift (int16_op (debugloop b + 1));
    modify (fun b => with_debugloop b n);;
    pin (analogWrite 1 (if Z.rem n 10 =? 0 then 1 else 0))
  else mret tt.

(** [loop()]: [usb] tells whether [usbDeviceAddr] is set, [rx] is what
    [DigiUSB] has received; [resetFunc()] restarts the sketch *)
Definition loop (usb : bool) (rx : list ascii) : M Board unit :=
  b ← get;
  if negb usb && (20 <? usbError b) then
    iterM (fun _ => pin (analogWrite 1 1);; pin (analogWrite 1 0)) (seq 0 4);; setup
  else
    (if usb then modify (fun b => with_usbError b 0)
     else modify (fun b => with_usbError b (usbError b + 1));; pin (analogWrite 1 0));;
    flicker;;
    follow_target;;
    iterM receive rx.

(** ** What holds of it *)


Record board_ok (b : Board) : Prop := mkOk {
  bo_line : length (line b) = 20%nat;
  bo_pos : (pos b <= 20)%nat;
  bo_target : 0 <= target_pwm b <= 255;
  bo_hw : 0 <= pwm_hw b <= 255;
  bo_dir : dir b = 0 \/ dir b = 1;
  bo_usb : 0 <= usbError b <= 21;
  bo_debug : 0 <= debugloop b < 2^15;
}.

(** the part of the state that commands read and write *)
Definition input (b : Board) : list ascii * nat * Z * Z := (line b, pos b, target_pwm b, dir b).
Definition outer (b : Board) : Z * Z * Z := (pwm_hw b, debugloop b, usbError b).
Definition board_of (i : list ascii * nat * Z * Z) : Board := let '(l, p, t, d) := i in mkBoard l p t 0 d 0 0 [].
Definition hear (i : list ascii * nat * Z * Z) (c : ascii) : list ascii * nat * Z * Z := input (receive c (board_of i)).2.

Lemma hex2val_range c : -1 <= hex2val c <= 15.
Proof. unfold hex2val. cbv zeta. repeat case_match; lia. Qed.

Lemma processCmd_run b : board_ok b -> exists r b', processCmd b = (Ok r, b') /\ board_ok b' /\ outer b' = outer b /\ pos b' = pos b /\
  input b' = input (processCmd (board_of (input b))).2.
Proof.
  intros Hb. pose proof Hb as [L P T W D U G]. destruct b as [l p t hw d dl ue ps]. cbn in *.
  destruct l as [|l0 [|l1 [|l2 l]]]; try done. unfold processCmd, line_at, pin, mbind, M_bind, get, modify, mret, M_ret. cbn -[hex2val Z.shiftl andb bool_decide Nat.eqb].
  pose proof (hex2val_range l1). pose proof (hex2val_range l2).
  destruct ((p =? 4)%nat && bool_decide (l0 = "M"%char)); [|destruct ((p =? 3)%nat && bool_decide (l0 = "D"%char))]; cbn -[hex2val Z.shiftl andb bool_decide Nat.eqb].
  - destruct (Z.ltb_spec (hex2val l1) 0); [|cbn -[hex2val Z.shiftl]; destruct (Z.ltb_spec (hex2val l2) 0)].
    all: eexists _, _; split; [reflexivity|]; split_and!; try done.
    split; cbn -[hex2val Z.shiftl]; try done; try lia. rewrite Z.shiftl_mul_pow2 by done. lia.
  - destruct (decide (l1 = "0"%char)); [|destruct (decide (l1 = "1"%char))].
    all: eexists _, _; split; [reflexivity|]; split_and!; try done; split; cbn; auto.
  - eexists _, _. split; [reflexivity|]. split_and!; done.
Qed.

Lemma receive_run c b : board_ok b -> exists b', receive c b = (Ok tt, b') /\ board_ok b' /\ outer b' = outer b /\ input b' = hear (input b) c.
Proof.
  intros Hb. pose proof Hb as [L P T W D U G]. destruct b as [l p t hw d dl ue ps]. cbn in *.
  unfold hear, receive, line_set, line_at, set_pos, mbind, M_bind, get, put, modify, mret, M_ret. cbn -[processCmd Nat.ltb].
  destruct (Nat.ltb_spec p 20); cbn -[processCmd Nat.ltb].
  - rewrite (proj2 (Nat.ltb_lt p (length l))) by lia. cbn -[processCmd Nat.ltb].
    rewrite list_lookup_insert_eq by lia. destruct (decide (c = newline)).
    + cbn -[processCmd Nat.ltb]. rewrite length_insert, (proj2 (Nat.ltb_lt p (length l))) by lia. cbn -[processCmd Nat.ltb].
      edestruct (processCmd_run (mkBoard (<[p:=zero]> (<[p:=c]> l)) (S p) t hw d dl ue ps)) as (r & b' & E & [] & O & Q & I).
      { split; cbn; try done; rewrite ?length_insert; lia. }
      unfold with_line. cbn -[processCmd Nat.ltb]. unfold input in I. cbn -[processCmd Nat.ltb] in I. rewrite E.
      edestruct (processCmd_run (mkBoard (<[p:=zero]> (<[p:=c]> l)) (S p) t 0 d 0 0 [])) as (r' & b'' & E' & _ & _ & _ & _).
      { split; cbn; try done; rewrite ?length_insert; lia. }
      rewrite E' in I |- *. eexists. split; [reflexivity|]. split_and!; [split; cbn; (done || lia)|done|]. cbn in I |- *. unfold input in *. cbn in *. congruence.
    + eexists. split; [reflexivity|]. split_and!; try done. split; cbn; try done; rewrite ?length_insert; lia.
  - eexists. split; [reflexivity|]. split_and!; try done. split; cbn; try done. lia.
Qed.

Lemma receive_all_run rx : forall b, board_ok b ->
  exists b', iterM receive rx b = (Ok tt, b') /\ board_ok b' /\ outer b' = outer b /\ input b' = foldl hear (input b) rx.
Proof.
  induction rx as [|c rx IH]; intros b Hb; [by exists b|]. destruct (receive_run c b Hb) as (b1 & E & H1 & O1 & I1).
  destruct (IH b1 H1) as (b2 & E2 & H2 & O2 & I2). exists b2. cbn [iterM]. rewrite (run_bind _ _ _ _ _ E). cbn [foldl]. rewrite <- I1.
  split_and!; try done. congruence.
Qed.

(** the speed after a turn *)
Definition closer (target hw : Z) : Z := if hw <? target then hw + 1 else if target <? hw then hw - 1 else hw.

Lemma setCablight_run b : exists b', setCablight b = (Ok tt, b') /\ (board_ok b -> board_ok b') /\ input b' = input b /\ outer b' = outer b.
Proof.
  unfold setCablight. rewrite (run_bind _ _ _ b b) by done. destruct (pwm_hw b =? 0); [destruct (dir b =? 0)|].
  all: eexists; (split; [reflexivity|]); split_and!; try done; intros []; by split.
Qed.

(** one turn, connected or not, unless the sketch restarts *)
Lemma loop_run usb rx b : board_ok b -> (pwm_hw b = 0 -> debugloop b + 1 < 2^15) -> usb = true \/ usbError b <= 20 ->
  exists b', loop usb rx b = (Ok tt, b') /\ board_ok b' /\ input b' = foldl hear (input b) rx /\
    pwm_hw b' = closer (target_pwm b) (pwm_hw b) /\ debugloop b' = (if pwm_hw b =? 0 then debugloop b + 1 else debugloop b) /\
    usbError b' = (if usb then 0 else usbError b + 1).
Proof.
  intros Hb Hd Hu. pose proof Hb as [L P T W D U G]. unfold loop. rewrite (run_bind _ _ _ b b) by done.
  replace (negb usb && (20 <? usbError b)) with false by (destruct usb; cbn; lia).
  assert (exists b1, ((if usb then modify (fun b => with_usbError b 0) else modify (fun b => with_usbError b (usbError b + 1));; pin (analogWrite 1 0)) b) = (Ok tt, b1)
    /\ board_ok b1 /\ input b1 = input b /\ pwm_hw b1 = pwm_hw b /\ debugloop b1 = debugloop b /\ usbError b1 = (if usb then 0 else usbError b + 1)) as (b1 & E1 & H1 & I1 & W1 & D1 & U1).
  { destruct usb; eexists; (split; [reflexivity|]); split_and!; try done; split; cbn; done || lia. }
  rewrite (run_bind _ _ _ _ _ E1).
  assert (exists b2, flicker b1 = (Ok tt, b2) /\ board_ok b2 /\ input b2 = input b1 /\ pwm_hw b2 = pwm_hw b1 /\ debugloop b2 = (if pwm_hw b =? 0 then debugloop b + 1 else debugloop b) /\ usbError b2 = usbError b1)
    as (b2 & E2 & H2 & I2 & W2 & D2 & U2).
  { unfold flicker. rewrite (run_bind _ _ _ b1 b1) by done. rewrite W1. destruct (Z.eqb_spec (pwm_hw b) 0) as [Z0|]; [|by exists b1].
    specialize (Hd Z0). unfold int16_op. rewrite D1. replace ((- 2^15 <=? debugloop b + 1) && (debugloop b + 1 <? 2^15)) with true by lia.
    eexists. split; [reflexivity|]. split_and!; try done. destruct H1. split; cbn; done || lia. }
  rewrite (run_bind _ _ _ _ _ E2).
  assert (exists b3, follow_target b2 = (Ok tt, b3) /\ board_ok b3 /\ input b3 = input b2 /\ pwm_hw b3 = closer (target_pwm b) (pwm_hw b) /\ debugloop b3 = debugloop b2 /\ usbError b3 = usbError b2)
    as (b3 & E3 & H3 & I3 & W3 & D3 & U3).
  { assert (target_pwm b2 = target_pwm b) as T2 by (unfold input in *; congruence).
    unfold follow_target, setCablight, closer. rewrite (run_bind _ _ _ b2 b2) by done. rewrite T2, W2, W1.
    destruct (Z.ltb_spec (pwm_hw b) (target_pwm b)); [|destruct (Z.ltb_spec (target_pwm b) (pwm_hw b)); [|exists b2; split_and!; try done; congruence]].
    - destruct (setCablight_run (with_pin (with_hw b2 (pwm_hw b + 1)) (analogWrite 1 (pwm_hw b + 1)))) as (b3 & E3 & H3 & I3 & O3). injection O3 as Q1 Q2 Q3.
      exists b3. split_and!; [unfold mbind, M_bind, modify, pin; cbn; by rewrite W2, W1| |done..]. apply H3. destruct H2. split; cbn; done || lia.
    - destruct (setCablight_run (with_pin (with_hw b2 (pwm_hw b - 1)) (analogWrite 1 (pwm_hw b - 1)))) as (b3 & E3 & H3 & I3 & O3). injection O3 as Q1 Q2 Q3.
      exists b3. split_and!; [unfold mbind, M_bind, modify, pin; cbn; by rewrite W2, W1| |done..]. apply H3. destruct H2. split; cbn; done || lia. }
  rewrite (run_bind _ _ _ _ _ E3). destruct (receive_all_run rx b3 H3) as (b4 & E4 & H4 & O4 & I4). exists b4.
  injection O4 as Q1 Q2 Q3. split_and!; try done; congruence.
Qed.

(** ** Turns *)

Definition turns (rxs : list (list ascii)) : M Board unit := iterM (loop true) rxs.

Lemma closer_range t hw : 0 <= t <= 255 -> 0 <= hw <= 255 -> 0 <= closer t hw <= 255.
Proof. unfold closer. repeat case_match; lia. Qed.

(** connected turns: the input is heard as if it came in one piece *)
Lemma turns_run rxs : forall b, board_ok b -> debugloop b + Z.of_nat (length rxs) < 2^15 ->
  exists b', turns rxs b = (Ok tt, b') /\ board_ok b' /\ input b' = foldl hear (input b) (concat rxs) /\
    debugloop b' <= debugloop b + Z.of_nat (length rxs).
Proof.
  induction rxs as [|rx rxs IH]; intros b Hb Hd; cbn [length] in Hd.
  - exists b. split_and!; try done. cbn. lia.
  - destruct (loop_run true rx b Hb) as (b1 & E1 & H1 & I1 & W1 & D1 & U1); [lia|by left|].
    destruct (IH b1 H1) as (b2 & E2 & H2 & I2 & D2); [rewrite D1; case_match; lia|].
    exists b2. unfold turns. cbn [iterM]. rewrite (run_bind _ _ _ _ _ E1). split_and!; try done.
    + by rewrite I2, I1, <- foldl_app.
    + cbn [length]. rewrite D1 in D2. case_match; lia.
Qed.

(** quiet turns: the exact speed *)
Definition ramped (target hw n : Z) : Z := if hw <=? target then Z.min target (hw + n) else Z.max target (hw - n).
Lemma quiet_run n : forall b, board_ok b -> debugloop b + Z.of_nat n < 2^15 ->
  exists b', turns (repeat [] n) b = (Ok tt, b') /\ board_ok b' /\ input b' = input b /\ pwm_hw b' = ramped (target_pwm b) (pwm_hw b) (Z.of_nat n).
Proof.
  induction n as [|n IH]; intros b Hb Hd.
  - exists b. split_and!; try done. unfold ramped. case_match; lia.
  - destruct (loop_run true [] b Hb) as (b1 & E1 & H1 & I1 & W1 & D1 & U1); [lia|by left|]. cbn in I1.
    destruct (IH b1 H1) as (b2 & E2 & H2 & I2 & W2); [rewrite D1; case_match; lia|].
    exists b2. unfold turns in *. cbn [repeat iterM]. rewrite (run_bind _ _ _ _ _ E1). split_and!; [done|done|congruence|].
    assert (target_pwm b1 = target_pwm b) as T1 by (unfold input in I1; congruence). rewrite W2, W1, T1. unfold ramped, closer.
    repeat case_match; lia.
Qed.

(** ** Commands *)


Lemma hear_char l p t d c : (p < 20)%nat -> length l = 20%nat -> c <> newline -> hear (l, p, t, d) c = (<[p:=c]> l, S p, t, d).
Proof.
  intros Hp Hl Hc. unfold hear, receive, line_set, line_at, set_pos, mbind, M_bind, get, put, modify, mret, M_ret. cbn -[processCmd Nat.ltb].
  rewrite (proj2 (Nat.ltb_lt p 20)) by lia. cbn -[processCmd Nat.ltb]. rewrite (proj2 (Nat.ltb_lt p (length l))) by lia. cbn -[processCmd Nat.ltb].
  rewrite list_lookup_insert_eq by lia. by rewrite decide_False.
Qed.
Definition input_ok (i : list ascii * nat * Z * Z) : Prop := board_ok (board_of i).
Lemma hear_newline l p t d : (p < 20)%nat -> input_ok (l, p, t, d) ->
  hear (l, p, t, d) newline = let '(l', _, t', d') := input (processCmd (mkBoard (<[p:=zero]> l) (S p) t 0 d 0 0 [])).2 in (l', 0%nat, t', d').
Proof.
  intros Hp Hi. pose proof Hi as [Hl _ Ht _ Hd _ _]. cbn in Hl, Ht, Hd.
  unfold hear, receive, line_set, line_at, set_pos, mbind, M_bind, get, put, modify, mret, M_ret. cbn -[processCmd Nat.ltb].
  rewrite (proj2 (Nat.ltb_lt p 20)) by lia. cbn -[processCmd Nat.ltb]. rewrite (proj2 (Nat.ltb_lt p (length l))) by lia. cbn -[processCmd Nat.ltb].
  rewrite list_lookup_insert_eq by lia. rewrite decide_True by done. cbn -[processCmd Nat.ltb]. rewrite length_insert, (proj2 (Nat.ltb_lt p (length l))) by lia. cbn -[processCmd Nat.ltb].
  rewrite list_insert_insert_eq. unfold with_line. cbn -[processCmd Nat.ltb].
  edestruct (processCmd_run (mkBoard (<[p:=zero]> l) (S p) t 0 d 0 0 [])) as (r & b' & E & _).
  { split; cbn; rewrite ?length_insert; done || lia. }
  by rewrite E.
Qed.

Lemma line_at_run i b c : line b !! i = Some c -> line_at i b = (Ok c, b).
Proof. intros Hc. unfold line_at. rewrite (run_bind _ _ _ b b) by done. by rewrite Hc. Qed.
Lemma processCmd_M b h1 h2 r : line b = "M"%char :: h1 :: h2 :: r -> pos b = 4%nat -> 0 <= hex2val h1 -> 0 <= hex2val h2 ->
  processCmd b = (Ok true, with_target b (Z.shiftl (hex2val h1) 4 + hex2val h2)).
Proof.
  intros Hl Hp H1 H2. unfold processCmd. rewrite (run_bind _ _ _ b b) by done.
  rewrite (run_bind _ _ _ "M"%char b) by (apply line_at_run; by rewrite Hl). rewrite Hp. cbn [Nat.eqb andb]. rewrite bool_decide_true by done. cbn [andb].
  rewrite (run_bind _ _ _ h1 b) by (apply line_at_run; by rewrite Hl). replace (hex2val h1 <? 0) with false by lia.
  rewrite (run_bind _ _ _ h2 b) by (apply line_at_run; by rewrite Hl). by replace (hex2val h2 <? 0) with false by lia.
Qed.
Lemma processCmd_D b (d : bool) r : line b = "D"%char :: (if d then "1"%char else "0"%char) :: r -> pos b = 3%nat ->
  processCmd b = (Ok true, with_dir (with_pin b (digitalWrite 5 d)) (Z.b2z d)).
Proof.
  intros Hl Hp. unfold processCmd. rewrite (run_bind _ _ _ b b) by done.
  rewrite (run_bind _ _ _ "D"%char b) by (apply line_at_run; by rewrite Hl). rewrite Hp. cbn [Nat.eqb andb]. rewrite bool_decide_true by done.
  rewrite (run_bind _ _ _ (if d then "1"%char else "0"%char) b) by (apply line_at_run; by rewrite Hl). by destruct d.
Qed.

Lemma hear_M l t d p : input_ok (l, 0%nat, t, d) -> 0 <= p <= 255 ->
  exists l', foldl hear (l, 0%nat, t, d) (chars (dg_command "M" (hex02 p))) = (l', 0%nat, p, d) /\ input_ok (l', 0%nat, p, d).
Proof.
  intros Hi Hp. pose proof Hi as [Hl _ Ht _ Hd _ _]. cbn in Hl, Ht, Hd. unfold hex02. rewrite u8_id by lia.
  pose proof (Z.div_mod p 16 ltac:(done)) as Hdm. pose proof (Z.mod_pos_bound p 16 eq_refl) as Hm.
  destruct (digit_heard (p / 16)) as [V1 N1]; [lia|]. destruct (digit_heard (p mod 16)) as [V2 N2]; [lia|].
  change (chars (dg_command "M" _)) with ["M"%char; digit_chr (p / 16); digit_chr (p mod 16); newline]. cbn [foldl].
  rewrite hear_char, hear_char, hear_char by (rewrite ?length_insert; done || lia).
  rewrite hear_newline; [|lia|split; cbn; rewrite ?length_insert; done || lia].
  do 4 (destruct l as [|? l]; [done|]). erewrite processCmd_M; [|reflexivity|reflexivity|lia|lia].
  rewrite V1, V2, Z.shiftl_mul_pow2 by done. replace (p / 16 * 2 ^ 4 + p mod 16) with p by lia.
  eexists. split; [reflexivity|]. split; cbn -[digit_chr Z.div Z.modulo]; done || lia.
Qed.
Lemma hear_D l t d0 d : input_ok (l, 0%nat, t, d0) -> 0 <= d <= 1 ->
  exists l', foldl hear (l, 0%nat, t, d0) (chars (dg_command "D" (to_string d))) = (l', 0%nat, t, d) /\ input_ok (l', 0%nat, t, d).
Proof.
  intros Hi Hd. pose proof Hi as [Hl _ Ht _ Hd0 _ _]. cbn in Hl, Ht, Hd0. assert (exists v : bool, d = Z.b2z v) as [v ->].
  { destruct (Z.eq_dec d 0) as [->|]; [by exists false|]. exists true. cbn. lia. }
  replace (chars (dg_command "D" (to_string (Z.b2z v)))) with ["D"%char; if v then "1"%char else "0"%char; newline] by (by destruct v). cbn [foldl].
  rewrite hear_char, hear_char by (rewrite ?length_insert; (done || lia || by destruct v)).
  rewrite hear_newline; [|lia|split; cbn; rewrite ?length_insert; done || lia].
  do 3 (destruct l as [|? l]; [done|]). erewrite processCmd_D; [|reflexivity|reflexivity].
  eexists. split; [reflexivity|]. split; cbn; try done; try lia.
Qed.
Lemma hear_V l t d : input_ok (l, 0%nat, t, d) ->
  exists l', foldl hear (l, 0%nat, t, d) (chars (dg_command "V" EmptyString)) = (l', 0%nat, t, d) /\ input_ok (l', 0%nat, t, d).
Proof.
  intros Hi. pose proof Hi as [Hl _ Ht _ Hd _ _]. cbn in Hl, Ht, Hd. change (chars _) with ["V"%char; newline]. cbn [foldl].
  rewrite hear_char by (done || lia). rewrite hear_newline; [|lia|split; cbn; rewrite ?length_insert; done || lia].
  do 2 (destruct l as [|? l]; [done|]). eexists. split; [reflexivity|]. split; cbn; done || lia.
Qed.

(** the speed and the direction of the last commands *)
Lemma hear_wire wire : forall l t d, input_ok (l, 0%nat, t, d) -> Forall board_cmd wire ->
  exists l' t' d', foldl hear (l, 0%nat, t, d) (concat (map chars wire)) = (l', 0%nat, t', d') /\ input_ok (l', 0%nat, t', d') /\
    dg_command "M" (hex02 t') = last_cmd "M" (dg_command "M" (hex02 t)) wire /\
    dg_command "D" (to_string d') = last_cmd "D" (dg_command "D" (to_string d)) wire.
Proof.
  induction wire as [|w wire IH]; intros l t d Hi Hw; [by exists l, t, d|]. apply Forall_cons_1 in Hw as [Hc Hw].
  cbn [map concat last_cmd]. rewrite foldl_app. destruct Hc as [p Hp|d1 Hd|].
  - destruct (hear_M l t d p Hi Hp) as (l1 & -> & H1). destruct (IH l1 p d H1 Hw) as (l' & t' & d' & E & H' & EM & ED). exists l', t', d'. by split_and!.
  - destruct (hear_D l t d d1 Hi Hd) as (l1 & -> & H1). destruct (IH l1 t d1 H1 Hw) as (l' & t' & d' & E & H' & EM & ED). exists l', t', d'. by split_and!.
  - destruct (hear_V l t d Hi) as (l1 & -> & H1). destruct (IH l1 t d H1 Hw) as (l' & t' & d' & E & H' & EM & ED). exists l', t', d'. by split_and!.
Qed.

Lemma hex02_inj p q : 0 <= p <= 255 -> 0 <= q <= 255 -> hex02 p = hex02 q -> p = q.
Proof.
  intros Hp Hq. unfold hex02. rewrite !u8_id by lia.
  pose proof (Z.div_mod p 16 ltac:(done)). pose proof (Z.mod_pos_bound p 16 eq_refl). pose proof (Z.div_mod q 16 ltac:(done)). pose proof (Z.mod_pos_bound q 16 eq_refl).
  destruct (digit_heard (p / 16)) as [V1 _]; [lia|]. destruct (digit_heard (p mod 16)) as [V2 _]; [lia|].
  destruct (digit_heard (q / 16)) as [V3 _]; [lia|]. destruct (digit_heard (q mod 16)) as [V4 _]; [lia|].
  intros E. injection E as E1 E2. apply (f_equal hex2val) in E1, E2. rewrite V1, V3 in E1. rewrite V2, V4 in E2. lia.
Qed.

Definition started : Board := (setup (Board0 [])).2.
Lemma started_ok : board_ok started.
Proof. change started with (mkBoard (repeat zero 20) 0%nat 0 0 0 0 0 (pins started)). split; cbn; (done || lia). Qed.

(** ** Theorems *)

(** C37: Whatever arrives on the serial line, in whatever pieces, the sketch of
    the Digispark board never writes or reads outside its line buffer and keeps
    target and speed within 0..255, connected or not, restarts included; only the counter of
    the flicker leaves its 16 bits, after 2^15 turns without a restart. *)
Theorem firmware_safe (l : list (bool * list ascii)) b :
  board_ok b -> debugloop b + Z.of_nat (length l) < 2^15 ->
  exists b', iterM (fun x => loop x.1 x.2) l b = (Ok tt, b') /\ board_ok b'.
Proof.
  revert b. induction l as [|[usb rx] l IH]; intros b Hb Hd; [by exists b|]. cbn [length] in Hd.
  assert (exists b1, loop usb rx b = (Ok tt, b1) /\ board_ok b1 /\ debugloop b1 <= debugloop b + 1) as (b1 & E1 & H1 & D1).
  { destruct (decide (usb = true \/ usbError b <= 20)) as [Hu|Hu].
    - destruct (loop_run usb rx b Hb) as (b1 & E1 & H1 & _ & _ & D1 & _); [lia|done|]. exists b1. split_and!; try done. rewrite D1. case_match; lia.
    - destruct Hb. destruct usb; [by destruct Hu; left|]. unfold loop. rewrite (run_bind _ _ _ b b) by done.
      replace (negb false && (20 <? usbError b)) with true by (cbn; lia).
      eexists. split; [reflexivity|]. split; [split; cbn; (done || lia || auto)|cbn; lia]. }
  cbn [iterM fst snd]. rewrite (run_bind _ _ _ _ _ E1). apply IH; [done|lia].
Qed.

Lemma firmware_safe_witness :
  exists b', iterM (fun x => loop x.1 x.2) [(true, repeat "x"%char 50); (false, chars (dg_command "M" "7f"))] started = (Ok tt, b') /\ board_ok b'.
Proof. apply (firmware_safe [(true, repeat "x"%char 50); (false, chars (dg_command "M" "7f"))]); [apply started_ok|vm_compute; reflexivity]. Defined.

(** ** What the pins show *)

(** the last value written to a pin; [pins] has the last call first *)
Fixpoint last_analog (p : Z) (cs : list pin_call) : option Z :=
  match cs with
  | [] => None
  | analogWrite q v :: cs' => if q =? p then Some v else last_analog p cs'
  | _ :: cs' => last_analog p cs'
  end.
Fixpoint last_digital (p : Z) (cs : list pin_call) : option bool :=
  match cs with
  | [] => None
  | digitalWrite q v :: cs' => if q =? p then Some v else last_digital p cs'
  | _ :: cs' => last_digital p cs'
  end.

(** the direction pin has the level of the direction and the motor pin the duty
    the sketch believes in; the motor that stands is flickered with duty 1 *)
Definition shows_on_pins (hw d : Z) (cs : list pin_call) : Prop :=
  last_digital 5 cs = Some (d =? 1) /\
  exists x, last_analog 1 cs = Some x /\ (x = hw \/ hw = 0 /\ x = 1).
Definition driven (b : Board) : Prop := shows_on_pins (pwm_hw b) (dir b) (pins b).

Lemma driven_setCablight : preserves driven setCablight.
Proof. intros b Hb. unfold setCablight, mbind, M_bind, get. destruct (pwm_hw b =? 0); [destruct (dir b =? 0)|]; exact Hb. Qed.

Lemma driven_flicker : preserves driven flicker.
Proof.
  intros b [D (x & Hx & Hor)]. unfold flicker, mbind, M_bind, get. destruct (Z.eqb_spec (pwm_hw b) 0) as [E|]; [|split; eauto].
  unfold lift. destruct (int16_op _) as [n|]; [|split; eauto]. split; [done|]. cbn. rewrite E.
  destruct (Z.rem n 10 =? 0); eexists; split; [reflexivity|by right|reflexivity|by left].
Qed.

Lemma driven_follow : preserves driven follow_target.
Proof.
  intros b Hb. pose proof Hb as [D _]. unfold follow_target. unfold mbind at 1, M_bind at 1, get.
  destruct (pwm_hw b <? target_pwm b); [|destruct (target_pwm b <? pwm_hw b); [|exact Hb]].
  all: unfold pin, modify; unfold mbind, M_bind; apply driven_setCablight; split; [exact D|]; cbn; eauto.
Qed.

Lemma driven_processCmd : preserves driven processCmd.
Proof.
  assert (forall i, preserves driven (line_at i)) as Hl.
  { intros i b Hb. unfold line_at, mbind, M_bind, get. by destruct (line b !! i). }
  unfold processCmd. apply preserves_bind; [apply preserves_get|]. intros b0. apply preserves_bind; [apply Hl|]. intros c0.
  apply preserves_if; [|apply preserves_if; [|apply preserves_ret]].
  - apply preserves_bind; [apply Hl|]. intros h1. apply preserves_if; [apply preserves_ret|].
    apply preserves_bind; [apply Hl|]. intros h2. apply preserves_if; [apply preserves_ret|].
    apply preserves_bind; [by apply preserves_modify|]. intros _. apply preserves_ret.
  - apply preserves_bind; [apply Hl|]. intros d. repeat case_decide; [| |apply preserves_ret].
    all: intros b [_ Hb]; split; [reflexivity|exact Hb].
Qed.

Lemma driven_receive c : preserves driven (receive c).
Proof.
  assert (forall i c, preserves driven (line_set i c)) as Hs.
  { intros i x b Hb. unfold line_set, mbind, M_bind, get, put, fail. by destruct (_ <? _)%nat. }
  assert (forall n, preserves driven (set_pos n)) as Hp by (intros n; by apply preserves_modify).
  unfold receive. apply preserves_bind; [apply preserves_get|]. intros b0. apply preserves_if; [|apply Hp].
  apply preserves_bind; [apply Hs|]. intros _. apply preserves_bind; [apply Hp|]. intros _. apply preserves_bind.
  { intros b Hb. unfold line_at, mbind, M_bind, get. by destruct (line b !! _). }
  intros c'. case_decide; [|apply preserves_ret]. apply preserves_bind; [apply Hs|]. intros _.
  apply preserves_bind; [apply driven_processCmd|]. intros _. apply Hp.
Qed.

(** turns with the USB port connected keep the pins in step *)
Lemma driven_turns rxs : preserves driven (turns rxs).
Proof.
  apply preserves_iterM. intros rx. unfold loop. apply preserves_bind; [apply preserves_get|]. intros b. cbn [negb andb].
  apply preserves_bind; [by apply preserves_modify|]. intros _. apply preserves_bind; [apply driven_flicker|]. intros _.
  apply preserves_bind; [apply driven_follow|]. intros _. apply preserves_iterM. intros c. apply driven_receive.
Qed.

Lemma started_driven : driven started.
Proof. split; [reflexivity|]. exists 0. split; [reflexivity|by left]. Qed.

(** C17: Driver, USB line and board composed: any sequence of speed and direction
    commands given to the driver, whose comm thread takes three turns after each,
    is sent, cut into arbitrary pieces over the turns of the board, with the USB
    port connected throughout and fewer than 2^15 - 255 turns since the start.
    After 255 more turns without input the last write to the motor pin is the
    duty the driver believes in (the flicker writes 0 or 1 to a motor that
    stands), and the last write to the direction pin its direction. *)
Theorem driver_moves_motor ops s rxs :
  dg_ready s (Z.of_nat (length ops)) -> dg_fits s -> Forall board_cmd (dg_wire s) ->
  Forall (fun on => op_ok on.1 /\ (3 <= on.2)%nat) ops -> Z.of_nat (length rxs) < 2^15 - 255 ->
  exists s', iterM (fun on => dg_do on.1;; comm_turns on.2) ops s = (Ok tt, s') /\
    (concat rxs = concat (map chars (dg_wire s')) ->
     exists b, turns (rxs ++ repeat [] 255) started = (Ok tt, b) /\ pwm_hw b = dg_pwm s' /\ dir b = dg_dir s' /\
       shows_on_pins (dg_pwm s') (dg_dir s') (pins b)).
Proof.
  intros Hr Hf Hw Hops Hn. destruct (ops_ready ops s Hr Hops) as (s' & l & R & (_ & HM & HD) & W & C & F). specialize (F Hf). exists s'. split; [done|]. intros Hrx.
  assert (Forall board_cmd (dg_wire s')) as Hw' by (rewrite W; by apply Forall_app).
  destruct (turns_run rxs started started_ok) as (b1 & E1 & H1 & I1 & D1); [change (debugloop started) with 0; lia|]. change (debugloop started) with 0 in D1.
  destruct (hear_wire (dg_wire s') (repeat zero 20) 0 0) as (l' & t' & d' & Eh & Hi & EM & ED); [split; cbn; (done || lia || auto)|done|].
  change (input started) with (repeat zero 20, 0%nat, 0, 0) in I1. rewrite Hrx, Eh in I1.
  destruct (quiet_run 255 b1 H1) as (b2 & E2 & H2 & I2 & W2); [lia|].
  assert (turns (rxs ++ repeat [] 255) started = (Ok tt, b2)) as Et.
  { unfold turns in *. rewrite iterM_app. by rewrite (run_bind _ _ _ _ _ E1). }
  pose proof (driven_turns (rxs ++ repeat [] 255) started started_driven) as Hp. rewrite Et in Hp. cbn [snd] in Hp. unfold driven in Hp.
  enough (pwm_hw b2 = dg_pwm s' /\ dir b2 = dg_dir s') as [Hw2 Hd2] by (exists b2; rewrite Hw2, Hd2 in Hp; by split_and!).
  split.
  - unfold input in I1. injection I1 as _ _ T1 _. rewrite W2. destruct Hi as [_ _ Ht _ _ _ _]. cbn in Ht.
    unfold told_speed in HM. change (dg_command "M" (hex02 0)) with (dg_command "M" "00") in EM. rewrite HM in EM.
    assert (t' = dg_pwm s') as <-. { apply hex02_inj; [done|apply F|]. injection EM as E1' E2'. unfold hex02. by rewrite E1', E2'. }
    destruct H1. unfold ramped. rewrite T1. case_match; lia.
  - unfold input in I1, I2. injection I1 as _ _ _ D1'. injection I2 as _ _ _ D2'. rewrite D2', D1'.
    destruct Hi as [_ _ _ _ Hd _ _]. cbn in Hd. unfold told_dir in HD. change (dg_command "D" (to_string 0)) with (dg_command "D" "0") in ED. rewrite HD in ED.
    destruct F as [_ Fd]. assert (dg_dir s' = 0 \/ dg_dir s' = 1) as [E|E] by lia; rewrite E in ED |- *; destruct Hd as [->| ->]; done.
Qed.

Lemma driver_moves_motor_witness :
  let ops := [(SpeedOp 255, 3%nat); (DirOp 1, 3%nat)] in
  exists s', iterM (fun on => dg_do on.1;; comm_turns on.2) ops sample_digispark = (Ok tt, s') /\
    (concat [chars "M8"; chars (String "0" (String newline "D1")); [newline]] = concat (map chars (dg_wire s')) ->
     exists b, turns ([chars "M8"; chars (String "0" (String newline "D1")); [newline]] ++ repeat [] 255) started = (Ok tt, b) /\
       pwm_hw b = dg_pwm s' /\ dir b = dg_dir s' /\ shows_on_pins (dg_pwm s') (dg_dir s') (pins b)).
Proof.
  apply (driver_moves_motor [(SpeedOp 255, 3%nat); (DirOp 1, 3%nat)]).
  - apply sample_digispark_ready. cbn. lia.
  - split; cbn; lia.
  - constructor.
  - repeat constructor; cbn; lia.
  - cbn. lia.
Defined.
(** in that example the pieces are what the driver sent *)
Example driver_moves_motor_pieces :
  let s' := (iterM (fun on => dg_do on.1;; comm_turns on.2) [(SpeedOp 255, 3%nat); (DirOp 1, 3%nat)] sample_digispark).2 in
  concat [chars "M8"; chars (String "0" (String newline "D1")); [newline]] = concat (map chars (dg_wire s')) /\ dg_pwm s' = 128.
Proof. vm_compute. done. Qed.

(** ** What goes wrong *)

(** a board that stands for 2^15 turns overflows the counter of its flicker *)
Example flicker_overflows : (turns (repeat [] (Z.to_nat 32768)) started).1 = Err (UB "signed overflow").
Proof. vm_compute. reflexivity. Qed.

(** a moment without USB switches the motor off; when the connection is back
    the sketch believes that the motor still runs *)
Example glitch_leaves_motor_off :
  let b := (turns ([chars (dg_command "M" "40")] ++ repeat [] 64) started).2 in
  let b' := ((loop false [];; loop true []) b).2 in
  pwm_hw b' = 64 /\ head (pins b') = Some (analogWrite 1 0).
Proof. vm_compute. done. Qed.

(** a line of more than 20 characters loses the first character behind it *)
Example long_line_swallows :
  target_pwm (turns [repeat "x"%char 20 ++ chars (dg_command "M" "40")] started).2 = 0.
Proof. vm_compute. reflexivity. Qed.

