(* ===== verification/MonsterShield.v ===== *)
(** * arduino/monster_shield/monster_shield.ino: the firmware of the motor shield *)

From Stdlib Require Import Ascii.
From S2P Require Import Prelude StdMap CString Utils Lokdef Hardware ParseExpr Platine USBDigispark Boards.

(** ** The sketch *)

Definition CW : Z := 1.
Definition CCW : Z := 2.
Record Board : Type := mkBoard { line : string; target_pwm : Z; dir : Z; pins : list pin_call }.
Definition Board0 : Board := mkBoard EmptyString 0 CW [].

Definition pin (c : pin_call) : M Board unit := modify (fun b => mkBoard (line b) (target_pwm b) (dir b) (c :: pins b)).
Definition set_line (s : string) : M Board unit := modify (fun b => mkBoard s (target_pwm b) (dir b) (pins b)).

(** [motorGo]; [inApin], [inBpin] and [pwmpin] *)
Definition motorGo (motor direct pwm : Z) : M Board unit :=
  if motor <=? 1 then
    let inA := if motor =? 0 then 7 else 4 in
    let inB := if motor =? 0 then 8 else 9 in
    let pwmpin := if motor =? 0 then 5 else 6 in
    if direct <=? 4 then
      pin (digitalWrite inA (direct <=? 1));;
      pin (digitalWrite inB ((direct =? 0) || (direct =? 2)));;
      pin (analogWrite pwmpin pwm)
    else mret tt
  else mret tt.

(** [String::operator[]] gives 0 behind the end *)
Definition char_at (i : nat) (s : string) : ascii := match String.get i s with Some c => c | None => zero end.

Definition processCmd : M Board bool :=
  b ← get;
  let len := String.length (line b) in
  (if bool_decide (len <> O) && bool_decide (char_at (len - 1) (line b) = "013"%char)
   then set_line (String.substring 0 (len - 1) (line b)) else mret tt);;
  b ← get;
  if String.prefix "M" (line b) then
    if negb (String.length (line b) =? 3)%nat then mret false
    else
      let c1 := hex2val (char_at 1 (line b)) in
      let c2 := hex2val (char_at 2 (line b)) in
      if c1 <? 0 then mret false
      else if c2 <? 0 then mret false
      else
        modify (fun b => mkBoard (line b) (Z.shiftl c1 4 + c2) (dir b) (pins b));;
        b ← get;
        motorGo 0 (dir b) (target_pwm b);; mret true
  else if String.prefix "D" (line b) then
    modify (fun b => mkBoard (line b) (target_pwm b) (if decide (char_at 1 (line b) = "0"%char) then CW else CCW) (pins b));;
    b ← get;
    motorGo 0 (dir b) (target_pwm b);; mret true
  else mret (bool_decide (line b = "Q") || bool_decide (line b = "V")).

(** [loop()] up to its return, for a character that was received *)
Definition loop (c : ascii) : M Board unit :=
  if decide (c = newline) then processCmd;; set_line EmptyString
  else modify (fun b => mkBoard (line b +:+ String c EmptyString) (target_pwm b) (dir b) (pins b)).

(** ** What holds of it *)


(** the motor pins show the target speed and the direction *)
Definition motor_set (b : Board) : Prop := exists p,
  pins b = analogWrite 5 (target_pwm b) :: digitalWrite 8 (dir b =? CCW) :: digitalWrite 7 (dir b =? CW) :: p.
Record shield_ok (t d : Z) (b : Board) : Prop := mkShield {
  sh_line : line b = EmptyString;
  sh_target : target_pwm b = t;
  sh_dir : dir b = if d =? 0 then CW else CCW;
}.

Lemma motorGo_run b : dir b = CW \/ dir b = CCW -> exists b', motorGo 0 (dir b) (target_pwm b) b = (Ok tt, b') /\
  line b' = line b /\ target_pwm b' = target_pwm b /\ dir b' = dir b /\ motor_set b'.
Proof. intros Hd. destruct b as [l t d ps]. cbn in Hd. destruct Hd as [->| ->]; eexists; (split; [cbv; reflexivity|]); split_and!; try done; by eexists. Qed.

Lemma loop_chars l : forall b, Forall (fun c => c <> newline) l ->
  iterM loop l b = (Ok tt, mkBoard (line b +:+ String.string_of_list_ascii l) (target_pwm b) (dir b) (pins b)).
Proof.
  induction l as [|c l IH]; intros b Hl.
  - cbn. destruct b. cbn. by rewrite string_app_nil.
  - apply Forall_cons_1 in Hl as [Hc Hl]. cbn [iterM]. erewrite run_bind by (unfold loop; by rewrite decide_False). rewrite IH by done. cbn. by rewrite <- string_app_assoc.
Qed.

Lemma loop_newline b r b' : processCmd b = (Ok r, b') -> loop newline b = (Ok tt, mkBoard EmptyString (target_pwm b') (dir b') (pins b')).
Proof. intros E. unfold loop. rewrite decide_True by done. by rewrite (run_bind _ _ _ _ _ E). Qed.

(** a line without a carriage return *)
Lemma processCmd_plain b : char_at (String.length (line b) - 1) (line b) <> "013"%char -> forall r b',
  (if String.prefix "M" (line b) then
     if negb (String.length (line b) =? 3)%nat then mret false
     else
       let c1 := hex2val (char_at 1 (line b)) in
       let c2 := hex2val (char_at 2 (line b)) in
       if c1 <? 0 then mret false else if c2 <? 0 then mret false
       else modify (fun b => mkBoard (line b) (Z.shiftl c1 4 + c2) (dir b) (pins b));; b ← get; motorGo 0 (dir b) (target_pwm b);; mret true
   else if String.prefix "D" (line b) then
     modify (fun b => mkBoard (line b) (target_pwm b) (if decide (char_at 1 (line b) = "0"%char) then CW else CCW) (pins b));;
     b ← get; motorGo 0 (dir b) (target_pwm b);; mret true
   else mret (bool_decide (line b = "Q") || bool_decide (line b = "V"))) b = (Ok r, b') -> processCmd b = (Ok r, b').
Proof.
  intros Hc r b' E. unfold processCmd. rewrite (run_bind _ _ _ b b) by done. rewrite (bool_decide_false (char_at _ _ = _)) by done. rewrite andb_false_r.
  rewrite (run_bind _ _ _ tt b) by done. by rewrite (run_bind _ _ _ b b) by done.
Qed.

Lemma line_run l b r b' : line b = EmptyString -> Forall (fun c => c <> newline) l ->
  processCmd (mkBoard (String.string_of_list_ascii l) (target_pwm b) (dir b) (pins b)) = (Ok r, b') ->
  iterM loop (l ++ [newline]) b = (Ok tt, mkBoard EmptyString (target_pwm b') (dir b') (pins b')).
Proof.
  intros Hb Hl E. rewrite iterM_app, (run_bind _ _ _ _ _ (loop_chars l b Hl)). rewrite Hb.
  cbn [iterM]. by rewrite (run_bind _ _ _ _ _ (loop_newline _ _ _ E)).
Qed.

(** a speed, a direction *)
Lemma shield_M b p : line b = EmptyString -> dir b = CW \/ dir b = CCW -> 0 <= p <= 255 ->
  exists b', iterM loop (chars (dg_command "M" (hex02 p))) b = (Ok tt, b') /\ line b' = EmptyString /\ target_pwm b' = p /\ dir b' = dir b /\ motor_set b'.
Proof.
  intros Hl Hd Hp. unfold hex02. rewrite u8_id by lia. pose proof (Z.div_mod p 16 ltac:(done)) as Hdm. pose proof (Z.mod_pos_bound p 16 eq_refl) as Hm.
  destruct (digit_heard (p / 16)) as [V1 N1]; [lia|]. destruct (digit_heard (p mod 16)) as [V2 N2]; [lia|].
  set (h1 := digit_chr (p / 16)) in *. set (h2 := digit_chr (p mod 16)) in *.
  destruct (motorGo_run (mkBoard (String "M" (String h1 (String h2 EmptyString))) p (dir b) (pins b)) Hd) as (b' & E & _ & T' & D' & (q & S')).
  cbn -[motorGo] in E. exists (mkBoard EmptyString (target_pwm b') (dir b') (pins b')). split; [|split_and!; try done; by exists q].
  change (chars _) with (["M"%char; h1; h2] ++ [newline]). apply (line_run _ _ true); [done|by repeat constructor|].
  apply processCmd_plain; [cbn; intros E3; rewrite E3 in V2; assert (hex2val "013"%char = -1) by reflexivity; lia|].
  cbn -[hex2val motorGo Z.shiftl]. rewrite V1, V2. replace (p / 16 <? 0) with false by lia. replace (p mod 16 <? 0) with false by lia.
  rewrite Z.shiftl_mul_pow2 by done. replace (p / 16 * 2 ^ 4 + p mod 16) with p by lia.
  unfold mbind, M_bind, modify, get. cbn -[motorGo]. by rewrite E.
Qed.
Lemma shield_D b (v : bool) : line b = EmptyString ->
  exists b', iterM loop (chars (dg_command "D" (to_string (Z.b2z v)))) b = (Ok tt, b') /\ line b' = EmptyString /\ target_pwm b' = target_pwm b /\
    dir b' = (if v then CCW else CW) /\ motor_set b'.
Proof.
  intros Hl. destruct (motorGo_run (mkBoard (String "D" (String (if v then "1" else "0") EmptyString)) (target_pwm b) (if v then CCW else CW) (pins b))) as (b' & E & _ & T' & D' & (q & S')).
  { cbn. destruct v; auto. }
  cbn -[motorGo] in E. exists (mkBoard EmptyString (target_pwm b') (dir b') (pins b')). split; [|split_and!; try done; by exists q].
  replace (chars _) with (["D"%char; if v then "1"%char else "0"%char] ++ [newline]) by (by destruct v). apply (line_run _ _ true); [done|destruct v; by repeat constructor|].
  apply processCmd_plain; [by destruct v|]. unfold mbind, M_bind, modify, get. destruct v; cbn -[motorGo decide]; [rewrite decide_False by done|rewrite decide_True by done]; by rewrite E.
Qed.
Lemma shield_V b : line b = EmptyString -> iterM loop (chars (dg_command "V" EmptyString)) b = (Ok tt, b).
Proof. intros Hl. destruct b as [l t d p]. cbn in Hl. subst l. reflexivity. Qed.

(** The sketch of the motor shield follows the same commands: for every
    sequence of commands of the driver it ends with the speed and the direction of
    the last ones, and unless nothing was commanded its motor pins show them. *)
Theorem shield_follows wire : Forall board_cmd wire ->
  exists b v, iterM loop (concat (map chars wire)) Board0 = (Ok tt, b) /\ 0 <= target_pwm b <= 255 /\
    dg_command "M" (hex02 (target_pwm b)) = last_cmd "M" (dg_command "M" "00") wire /\
    dir b = (if v : bool then CCW else CW) /\ dg_command "D" (to_string (Z.b2z v)) = last_cmd "D" (dg_command "D" "0") wire /\
    (motor_set b \/ pins b = []).
Proof.
  intros Hw. change (dg_command "M" "00") with (dg_command "M" (hex02 (target_pwm Board0))). change (dg_command "D" "0") with (dg_command "D" (to_string (Z.b2z false))).
  enough (forall b v, line b = EmptyString -> 0 <= target_pwm b <= 255 -> dir b = (if v : bool then CCW else CW) -> motor_set b \/ pins b = [] ->
    exists b' v', iterM loop (concat (map chars wire)) b = (Ok tt, b') /\ 0 <= target_pwm b' <= 255 /\
      dg_command "M" (hex02 (target_pwm b')) = last_cmd "M" (dg_command "M" (hex02 (target_pwm b))) wire /\
      dir b' = (if v' : bool then CCW else CW) /\ dg_command "D" (to_string (Z.b2z v')) = last_cmd "D" (dg_command "D" (to_string (Z.b2z v))) wire /\
      (motor_set b' \/ pins b' = [])) as Hgen by (apply Hgen; [done|cbn; lia|done|by right]).
  induction Hw as [|w wire Hc _ IH]; intros b v Hl Ht Hd Hs; [by exists b, v|]. cbn [map concat last_cmd]. rewrite iterM_app.
  destruct Hc as [p Hp|d Hdd|].
  - destruct (shield_M b p Hl) as (b1 & E & L1 & T1 & D1 & S1); [rewrite Hd; destruct v; auto|done|]. rewrite (run_bind _ _ _ _ _ E).
    cbn [deref dg_command]. rewrite decide_True, decide_False by done. rewrite <- T1. apply IH; [done|lia|congruence|by left].
  - assert (exists v1 : bool, d = Z.b2z v1) as [v1 ->] by (destruct (Z.eq_dec d 0) as [->|]; [by exists false|exists true; cbn; lia]).
    destruct (shield_D b v1 Hl) as (b1 & E & L1 & T1 & D1 & S1). rewrite (run_bind _ _ _ _ _ E). cbn [deref dg_command]. rewrite decide_False, decide_True by done.
    rewrite <- T1. apply IH; [done|by rewrite T1|done|by left].
  - rewrite (run_bind _ _ _ _ _ (shield_V b Hl)). cbn [deref dg_command]. rewrite !decide_False by done. by apply IH.
Qed.

Lemma shield_follows_witness :
  exists b v, iterM loop (concat (map chars [dg_command "M" (hex02 200); dg_command "D" (to_string 1)])) Board0 = (Ok tt, b) /\ 0 <= target_pwm b <= 255 /\
    dg_command "M" (hex02 (target_pwm b)) = dg_command "M" "c8" /\
    dir b = (if v : bool then CCW else CW) /\ dg_command "D" (to_string (Z.b2z v)) = dg_command "D" "1" /\ (motor_set b \/ pins b = []).
Proof. apply (shield_follows [dg_command "M" (hex02 200); dg_command "D" (to_string 1)]). repeat constructor; lia. Defined.

(** the direction of a running motor is reversed at full speed *)
Example shield_reverses_running :
  pins (iterM loop (concat (map chars [dg_command "M" "ff"; dg_command "D" "1"])) Board0).2 =
    [analogWrite 5 255; digitalWrite 8 true; digitalWrite 7 false; analogWrite 5 255; digitalWrite 8 false; digitalWrite 7 true].
Proof. vm_compute. reflexivity. Qed.
