(* ===== verification/RaspiPWM.v ===== *)
(** * bluetoothserver/RaspiPWM.{h,cpp}: motor and outputs on the pins of a Raspberry Pi

    The build with wiringPi is modelled; the calls into that library are
    recorded in order.  [rp_clock] is what [time(NULL)] returns; it stands
    still while the driver works.  The function thread commits once a second
    under the same mutex as the clients' commits. *)

From Stdlib Require Import Ascii.
From S2P Require Import Prelude StdMap CString Utils Lokdef Hardware ParseExpr Platine.

Inductive pin_call : Type :=
  | pinMode (pin : Z)
  | pwmWrite (pin value : Z)
  | digitalWrite (pin : Z) (value : bool)
  | softPwmCreate (pin value range : Z)
  | softPwmWrite (pin value : Z)
  | softPwmStop (pin : Z)
  | ledWrite (on : bool).

(** [struct PinCtl] *)
Record PinCtl : Type := mkPinCtl {
  function : string;
  lastState : bool;
  pin_pwm : Z;
  maxTime : Z;
  lastChangeTime : Z;
}.

(** [class RaspiPWM] with the globals [cfg_pinPWM] and [parseExpr]; [rp_pins]
    is the multimap in iteration order *)
Record RaspiPWM : Type := mkRaspi {
  rp_dir : Z;
  rp_pwm : Z;
  motorStart : Z;
  motorFullSpeed : Z;
  motorFullSpeedBoost : Z;
  fRaspiLed : bool;
  raspiLedToggle : Z;
  currentFunc : func_array;
  rp_nFunc : Z;
  rp_pins : list (Z * PinCtl);
  rp_expr : ParseExpr;
  cfg_pinPWM : Z;
  rp_clock : Z;
  rp_calls : list pin_call;
}.

Section updates.
Context (r : RaspiPWM).
Definition with_dir d := mkRaspi d (rp_pwm r) (motorStart r) (motorFullSpeed r) (motorFullSpeedBoost r) (fRaspiLed r) (raspiLedToggle r) (currentFunc r) (rp_nFunc r) (rp_pins r) (rp_expr r) (cfg_pinPWM r) (rp_clock r) (rp_calls r).
Definition with_pwm p := mkRaspi (rp_dir r) p (motorStart r) (motorFullSpeed r) (motorFullSpeedBoost r) (fRaspiLed r) (raspiLedToggle r) (currentFunc r) (rp_nFunc r) (rp_pins r) (rp_expr r) (cfg_pinPWM r) (rp_clock r) (rp_calls r).
Definition with_motor s f b := mkRaspi (rp_dir r) (rp_pwm r) s f b (fRaspiLed r) (raspiLedToggle r) (currentFunc r) (rp_nFunc r) (rp_pins r) (rp_expr r) (cfg_pinPWM r) (rp_clock r) (rp_calls r).
Definition with_led b t := mkRaspi (rp_dir r) (rp_pwm r) (motorStart r) (motorFullSpeed r) (motorFullSpeedBoost r) b t (currentFunc r) (rp_nFunc r) (rp_pins r) (rp_expr r) (cfg_pinPWM r) (rp_clock r) (rp_calls r).
Definition with_func n f := mkRaspi (rp_dir r) (rp_pwm r) (motorStart r) (motorFullSpeed r) (motorFullSpeedBoost r) (fRaspiLed r) (raspiLedToggle r) f n (rp_pins r) (rp_expr r) (cfg_pinPWM r) (rp_clock r) (rp_calls r).
Definition with_pins p := mkRaspi (rp_dir r) (rp_pwm r) (motorStart r) (motorFullSpeed r) (motorFullSpeedBoost r) (fRaspiLed r) (raspiLedToggle r) (currentFunc r) (rp_nFunc r) p (rp_expr r) (cfg_pinPWM r) (rp_clock r) (rp_calls r).
Definition with_expr e := mkRaspi (rp_dir r) (rp_pwm r) (motorStart r) (motorFullSpeed r) (motorFullSpeedBoost r) (fRaspiLed r) (raspiLedToggle r) (currentFunc r) (rp_nFunc r) (rp_pins r) e (cfg_pinPWM r) (rp_clock r) (rp_calls r).
Definition with_pinPWM p := mkRaspi (rp_dir r) (rp_pwm r) (motorStart r) (motorFullSpeed r) (motorFullSpeedBoost r) (fRaspiLed r) (raspiLedToggle r) (currentFunc r) (rp_nFunc r) (rp_pins r) (rp_expr r) p (rp_clock r) (rp_calls r).
Definition with_call c := mkRaspi (rp_dir r) (rp_pwm r) (motorStart r) (motorFullSpeed r) (motorFullSpeedBoost r) (fRaspiLed r) (raspiLedToggle r) (currentFunc r) (rp_nFunc r) (rp_pins r) (rp_expr r) (cfg_pinPWM r) (rp_clock r) (rp_calls r ++ [c]).
End updates.

Definition pin_do (c : pin_call) : M RaspiPWM unit := modify (fun r => with_call r c).

(** ** The motor *)

(** the value [setPWM] computes *)
Definition motor_pwm (f_speed : Z) (r : RaspiPWM) : outcome Z :=
  if 0 <? f_speed then
    boost ← (if f_speed =? 255 then read_func (currentFunc r) 9 else Ok false);
    if (boost : bool) then Ok (u8 (motorFullSpeedBoost r))
    else scale_pwm f_speed (motorStart r) (motorFullSpeed r)
  else Ok 0.

Definition rp_setPWM (f_speed : Z) : M RaspiPWM unit :=
  r ← get;
  pwm ← lift (motor_pwm f_speed r);
  (if rp_pwm r =? pwm then mret tt
   else pin_do (pwmWrite (cfg_pinPWM r) pwm);; modify (fun r => with_pwm r pwm));;
  (if fRaspiLed r then
     let t := raspiLedToggle r in
     (if Z.testbit t 0 then pin_do (ledWrite (Z.testbit t 1)) else mret tt);;
     t' ← lift (int_op (t + 1));
     modify (fun r => with_led r true t')
   else mret tt).

Definition rp_setDir (dir : Z) : M RaspiPWM unit :=
  modify (fun r => with_dir r (u8 dir)).

Definition rp_setFunction (nFunc : Z) (func : func_array) : M RaspiPWM unit :=
  modify (fun r => with_func r nFunc func).

Definition rp_fullstop (stopAll emergencyStop : bool) : M RaspiPWM unit := rp_setPWM 0.

(** ** The output pins *)

(** a [PinCtl] of the multimap, by position *)
Definition pin_at (it : nat) : M RaspiPWM (Z * PinCtl) :=
  r ← get;
  match rp_pins r !! it with Some p => mret p | None => fail (UB "pins: iterator") end.
Definition pin_upd (it : nat) (f : PinCtl -> PinCtl) : M RaspiPWM unit :=
  modify (fun r => with_pins r (alter (fun kp => (kp.1, f kp.2)) it (rp_pins r))).
Definition set_lastState (b : bool) (p : PinCtl) : PinCtl :=
  mkPinCtl (function p) b (pin_pwm p) (maxTime p) (lastChangeTime p).
Definition set_lastChange (t : Z) (p : PinCtl) : PinCtl :=
  mkPinCtl (function p) (lastState p) (pin_pwm p) (maxTime p) t.

(** [parseExpr->getResult(function, this->dir, this->pwm, this->currentFunc)] *)
Definition eval_pin (expr : string) : M RaspiPWM bool :=
  r ← get;
  let '(o, e) := getResult (rp_clock r) expr (rp_dir r) (rp_pwm r) (currentFunc r) (rp_expr r) in
  modify (fun r => with_expr r e);;
  v ← lift o;
  mret (nonzero v).

(** the [do ... while] over the entries of one pin: returns the position
    behind them, [pinCtl] and [value]; there are at most as many turns as
    entries *)
Fixpoint commit_entries (k : nat) (pin : Z) (it pinCtl : nat) (value : bool) : M RaspiPWM (nat * nat * bool) :=
  match k with
  | O => fail OutOfFuel
  | S k' =>
      '(_, p) ← pin_at it;
      on ← eval_pin (function p);
      '(pinCtl, value) ←
        (if (on : bool) then mret (it, true)
         else
           (if lastState p then
              (if pin_pwm p =? 100 then pin_do (digitalWrite pin value) else pin_do (softPwmStop pin));;
              pin_upd it (set_lastState false);;
              pin_upd pinCtl (set_lastState false)
            else mret tt);;
           mret (pinCtl, value));
      r ← get;
      match rp_pins r !! S it with
      | Some (key, _) => if key =? pin then commit_entries k' pin (S it) pinCtl value else mret (S it, pinCtl, value)
      | None => mret (S it, pinCtl, value)
      end
  end.

(** the body of the outer loop at [it]: returns the next position *)
Definition commit_pin (force : bool) (it : nat) : M RaspiPWM nat :=
  '(pin, _) ← pin_at it;
  n ← gets (fun r => length (rp_pins r));
  '(next, ctl, value) ← commit_entries (n - it) pin it it false;
  '(_, p) ← pin_at ctl;
  now ← gets rp_clock;
  (if force || negb (eqb value (lastState p)) then
     (if pin_pwm p =? 100 then pin_do (digitalWrite pin value)
      else if (value : bool) then
        pin_do (softPwmCreate pin (pin_pwm p) 100);; pin_do (softPwmWrite pin (pin_pwm p))
      else mret tt);;
     pin_upd ctl (fun p => set_lastChange now (set_lastState value p))
   else if negb (maxTime p =? 0) && value && eqb value (lastState p)
           && (Z.shiftr now 1 =? Z.shiftr (lastChangeTime p + maxTime p) 1)
   then pin_do (digitalWrite pin false)
   else mret tt);;
  mret next.

Fixpoint commit_loop (k : nat) (force : bool) (it : nat) : M RaspiPWM unit :=
  n ← gets (fun r => length (rp_pins r));
  if decide (it < n)%nat then
    match k with
    | O => fail OutOfFuel
    | S k' => next ← commit_pin force it; commit_loop k' force next
    end
  else mret tt.

(** every turn handles at least one entry, so their number is enough *)
Definition rp_commit (force : bool) : M RaspiPWM unit :=
  n ← gets (fun r => length (rp_pins r)); commit_loop n force 0.

#[export] Instance RaspiPWM_platine : Platine RaspiPWM := {
  setPWM := rp_setPWM;
  setDir := rp_setDir;
  setFunction := rp_setFunction;
  commit := rp_commit false;
  platine_fullstop := rp_fullstop;
}.

(** ** Start *)

(** [pins.insert(pair)] *)
Fixpoint pins_insert (pin : Z) (p : PinCtl) (l : list (Z * PinCtl)) : list (Z * PinCtl) :=
  match l with
  | [] => [(pin, p)]
  | (k, q) :: l' => if pin <? k then (pin, p) :: l else (k, q) :: pins_insert pin p l'
  end.

Definition std_stoi' (s : string) : outcome Z := '(n, _) ← std_stoi 10 s; Ok n.

(** the body of the loop over the configuration *)
Definition init_entry (config : Config) (kv : string * string) : M RaspiPWM unit :=
  let '(first, second) := kv in
  let prefix := "wiringpi.pin." in
  if negb (startsWith_cstr first prefix) then mret tt
  else
    pin ← lift (std_stoi' (String.substring (String.length prefix) (String.length first) first));
    if bool_decide (prefix +:+ to_string pin = first) || bool_decide ((prefix +:+ to_string pin) +:+ ".a" = first) then
      if decide (second = "pwm") then modify (fun r => with_pinPWM r pin)
      else
        r ← get;
        let '(o, e) := getResult (rp_clock r) second 0 0 (currentFunc r) (rp_expr r) in
        modify (fun r => with_expr r e);;
        lift o;;
        pin_do (pinMode pin);;
        conf_pwm ← lift (config_int config (first +:+ ".pwm"));
        pwm ← (match conf_pwm with
               | None => mret 100
               | Some pwm => if (pwm <? 0) || (100 <? pwm) then fail (Abort "only 0-100 allowed") else mret pwm
               end);
        conf_maxtime ← lift (config_int config (first +:+ ".maxtime"));
        let maxTime := default 0 conf_maxtime in
        modify (fun r => with_pins r (pins_insert pin (mkPinCtl second false pwm maxTime 0) (rp_pins r)))
    else mret tt.

(** [init()]; [led] tells whether the LED file could be opened *)
Definition rp_init (config : Config) (led : bool) : M RaspiPWM unit :=
  let tmp := Config_get "digispark.motorStart" config in
  if decide (tmp = NOT_SET) then fail (Abort "digispark.motorStart missing")
  else
    start ← lift (stoi tmp);
    r ← get;
    let full := Config_get "digispark.motorFullSpeed" config in
    full ← (if decide (full = NOT_SET) then mret (motorFullSpeed r) else lift (stoi full));
    let boost := Config_get "digispark.motorFullSpeedBoost" config in
    boost ← (if decide (boost = NOT_SET) then mret start else lift (stoi boost));
    modify (fun r => with_motor r start full boost);;
    iterM (init_entry config) config;;
    modify (fun r => with_led r led (raspiLedToggle r));;
    rp_setPWM 0;;
    rp_setDir 0;;
    rp_commit true.

(** the members before [init()] *)
Definition RaspiPWM0 (now : Z) : RaspiPWM :=
  mkRaspi (-1) (-1) 70 255 255 false 0 (Some true :: repeat (Some false) 31) 0 [] ParseExpr0 1 now [].

Definition RaspiPWM_new (config : Config) (led : bool) (now : Z) : outcome RaspiPWM :=
  match rp_init config led (RaspiPWM0 now) with
  | (Ok _, r) => Ok r
  | (Err e, _) => Err e
  end.

(** ** Every commit ends and stays inside the pin table *)

Definition functions (r : RaspiPWM) : list string := (fun kp : Z * PinCtl => function kp.2) <$> rp_pins r.

Section commit.
(** the expressions and functions a commit evaluates, and what evaluating them
    can throw *)
Context (fns : list string) (fa : func_array) (E : exn -> Prop).
Context (eval_fault : forall now fn dir speed st e,
  fn ∈ fns -> (getResult now fn dir speed fa st).1 = Err e -> E e).

Abbreviation I := (fun r : RaspiPWM => functions r = fns /\ currentFunc r = fa).
Abbreviation runs c Q := (keeps I E c Q).
Abbreviation runs_ c := (runs c (fun _ => True)).

Lemma functions_length r : functions r = fns -> length (rp_pins r) = length fns.
Proof. intros <-. unfold functions. by rewrite length_fmap. Qed.

Lemma runs_modify (g : RaspiPWM -> RaspiPWM) :
  (forall r, functions (g r) = functions r) -> (forall r, currentFunc (g r) = currentFunc r) -> runs_ (modify g).
Proof. intros H1 H2. apply keeps_modify; [|done]. intros r [Hf Ha]. by rewrite H1, H2. Qed.

Lemma runs_pin_do c : runs_ (pin_do c).
Proof. by apply runs_modify. Qed.

Lemma runs_pin_upd it f : (forall p, function (f p) = function p) -> runs_ (pin_upd it f).
Proof.
  intros Hf. apply runs_modify; [|done]. intros r. unfold functions. cbn [rp_pins with_pins].
  apply list_eq. intros j. rewrite !list_lookup_fmap.
  destruct (decide (it = j)) as [->|]; [rewrite list_lookup_alter_eq|by rewrite list_lookup_alter_ne].
  destruct (rp_pins r !! j); [|done]. cbn. by rewrite Hf.
Qed.

Lemma runs_get : runs get (fun r => functions r = fns /\ currentFunc r = fa).
Proof. by intros r Hr. Qed.

Lemma runs_pin_at it : (it < length fns)%nat -> runs (pin_at it) (fun kp => function kp.2 ∈ fns).
Proof.
  intros Hit. unfold pin_at. eapply keeps_bind; [apply runs_get|]. intros r [Hf Ha].
  destruct (rp_pins r !! it) as [kp|] eqn:L.
  - apply keeps_ret. rewrite <- Hf. apply list_elem_of_fmap. exists kp. split; [done|]. by eapply list_elem_of_lookup_2.
  - apply lookup_ge_None in L. rewrite (functions_length r Hf) in L. lia.
Qed.

Lemma runs_eval fn : fn ∈ fns -> runs_ (eval_pin fn).
Proof.
  intros Hfn. unfold eval_pin. eapply keeps_bind; [apply runs_get|]. intros r [Hf Ha]. rewrite Ha.
  destruct (getResult _ _ _ _ _ _) as [o e'] eqn:G.
  apply keeps_seq; [by apply runs_modify|].
  eapply keeps_bind; [|intros v _; by apply keeps_ret].
  apply (keeps_lift _ _ _ (fun _ => True)); [done|]. intros x ->. eapply eval_fault; [exact Hfn|]. by rewrite G.
Qed.

Lemma runs_entries k pin it ctl value :
  (it + k = length fns)%nat -> (0 < k)%nat -> (ctl < length fns)%nat ->
  runs (commit_entries k pin it ctl value)
       (fun res => (it < res.1.1 <= length fns)%nat /\ (res.1.2 < length fns)%nat).
Proof.
  revert it ctl value. induction k as [|k IH]; intros it ctl value Hk Hpos Hctl; [lia|]. cbn [commit_entries].
  eapply keeps_bind; [apply runs_pin_at; lia|]. intros [key p] Hp.
  eapply keeps_bind; [by apply runs_eval|]. intros on _.
  eapply (keeps_bind _ _ _ _ (fun cv => (cv.1 < length fns)%nat)).
  { destruct on; [apply keeps_ret; cbn; lia|]. apply keeps_seq; [|by apply keeps_ret].
    destruct (lastState p); [|by apply keeps_ret].
    apply keeps_seq; [destruct (_ =? 100); apply runs_pin_do|].
    by apply keeps_seq; apply runs_pin_upd. }
  intros [ctl' value'] Hctl'. cbn in Hctl'.
  eapply keeps_bind; [apply runs_get|]. intros r [Hf Ha]. pose proof (functions_length r Hf) as Hlen.
  destruct (rp_pins r !! S it) as [[key' p']|] eqn:L; [|apply keeps_ret; cbn; lia].
  apply lookup_lt_Some in L. destruct (key' =? pin); [|apply keeps_ret; cbn; lia].
  eapply keeps_mono; [apply IH; lia|]. intros res. cbn. lia.
Qed.

Lemma runs_commit_pin force it : (it < length fns)%nat -> runs (commit_pin force it) (fun next => (it < next <= length fns)%nat).
Proof.
  intros Hit. unfold commit_pin. eapply keeps_bind; [by apply runs_pin_at|]. intros [pin p0] _.
  eapply (keeps_bind _ _ _ _ (fun n => n = length fns)).
  { apply keeps_gets. intros r [Hf _]. by apply functions_length. }
  intros n ->. eapply keeps_bind; [apply runs_entries; lia|]. intros [[next ctl] value] [Hn Hc]. cbn in Hn, Hc.
  eapply keeps_bind; [by apply runs_pin_at|]. intros [key p] _.
  eapply keeps_bind; [by apply (keeps_gets _ _ _ (fun _ => True))|]. intros now _.
  apply keeps_seq; [|by apply keeps_ret].
  destruct (force || _).
  - apply keeps_seq; [|by apply runs_pin_upd].
    destruct (_ =? 100); [apply runs_pin_do|]. destruct value; [|by apply keeps_ret].
    apply keeps_seq; apply runs_pin_do.
  - destruct (_ && _); [apply runs_pin_do|by apply keeps_ret].
Qed.

Lemma runs_commit force : runs_ (rp_commit force).
Proof.
  unfold rp_commit. eapply (keeps_bind _ _ _ _ (fun n => n = length fns)).
  { apply keeps_gets. intros r [Hf _]. by apply functions_length. }
  intros n ->. cut (forall k it, (length fns <= it + k)%nat -> runs_ (commit_loop k force it)); [intros Hc; apply Hc; lia|].
  induction k as [|k IH]; intros it Hk; cbn [commit_loop];
    (eapply (keeps_bind _ _ _ _ (fun n => n = length fns));
      [apply keeps_gets; intros r [Hf _]; by apply functions_length|]; intros n ->; case_decide; [|by apply keeps_ret]); [lia|].
  eapply keeps_bind; [by apply runs_commit_pin|]. intros next Hn. cbn in Hn. apply IH. lia.
Qed.
End commit.

(** ** The driver laws *)

Lemma read_func_safe f k : safe_result (read_func f k).
Proof. unfold read_func. repeat case_match; (done || solve_safe). Qed.

Lemma keyword_safe now e dir speed f st : safe_result (keyword now e dir speed f st).
Proof.
  unfold keyword, dir_and_F0. repeat case_decide; try done;
    (destruct (nonzero dir); cbn; try done; by apply safe_bind; [apply read_func_safe|]).
Qed.

Lemma atom_safe now e dir speed f s : safe_result (atom now e dir speed f s).1.
Proof.
  assert (forall s, safe_result
            ((modify (track_speed now speed);; st ← get; lift (keyword now e dir speed f st)) s).1) as Hk.
  { intros s'. apply keyword_safe. }
  unfold atom. repeat (case_match; try apply Hk). by apply safe_bind; [apply read_func_safe|].
Qed.

Lemma getResult_fuel_safe now n expr dir speed f s : safe_result (getResult_fuel now n expr dir speed f s).1.
Proof.
  revert expr s. induction n as [|n IH]; intros expr s; rewrite getResult_fuel_eq; (case_decide as D; [|apply atom_safe]); [done|].
  unfold mbind, M_bind, lift. destruct (split_binary expr) as [[[i a] b]|e] eqn:E.
  - pose proof (IH a s) as Ha. destruct (getResult_fuel now n a dir speed f s) as [[va|] s1]; [|done].
    pose proof (IH b s1) as Hb. by destruct (getResult_fuel now n b dir speed f s1) as [[vb|] s2].
  - unfold split_binary in E. repeat (case_match; simplify_eq/=; try done).
Qed.

Lemma motor_pwm_safe f r : safe_result (motor_pwm f r).
Proof.
  unfold motor_pwm. destruct (0 <? f); [|done]. apply safe_bind.
  - destruct (f =? 255); [apply read_func_safe|done].
  - intros []; [done|apply scale_pwm_safe].
Qed.

Lemma rp_setPWM_ok v : platine_ok (rp_setPWM v).
Proof.
  unfold rp_setPWM. apply platine_ok_bind; [done|]. intros r.
  apply platine_ok_bind; [intros ?; apply motor_pwm_safe|]. intros pwm.
  apply platine_ok_bind; [by destruct (_ =? pwm)|]. intros _. destruct (fRaspiLed r); [|done].
  apply platine_ok_bind; [by destruct (Z.testbit _ 0)|]. intros _.
  apply platine_ok_bind; [intros ?; apply int_op_safe|done].
Qed.

#[export] Instance RaspiPWM_laws : PlatineLaws RaspiPWM.
Proof.
  split; intros; try done; try apply rp_setPWM_ok. intros r. cbn.
  pose proof (runs_commit (functions r) (currentFunc r) table_safe) as Hk.
  specialize (Hk (fun now fn dir speed st e _ H => ltac:(pose proof (getResult_fuel_safe now (String.length fn) fn dir speed (currentFunc r) st) as Hs; unfold getResult in H; by rewrite H in Hs)) false r (conj eq_refl eq_refl)).
  by destruct (rp_commit false r) as [[[]|e] r']; destruct Hk.
Qed.

(** ** Theorems *)

(** [init] tests every expression it finds ("test ob parsebar"): once the
    driver is constructed, no commit fails any more, whatever speed, direction
    and functions it is told, as long as the ten functions an expression can
    name have values.  In particular the commit loop terminates. *)
Definition checked (r : RaspiPWM) : Prop := Forall valid_expr (functions r).

Lemma pins_insert_functions pin p l :
  Forall valid_expr ((fun kp : Z * PinCtl => function kp.2) <$> l) -> valid_expr (function p) ->
  Forall valid_expr ((fun kp : Z * PinCtl => function kp.2) <$> pins_insert pin p l).
Proof.
  intros Hl Hp. induction l as [|[k q] l IH]; cbn; [by repeat constructor|].
  cbn in Hl. apply Forall_cons_1 in Hl as [Hq Hl]. destruct (pin <? k); cbn; repeat constructor; auto.
Qed.

Abbreviation checks c Q := (keeps checked (fun _ => True) c Q).

Lemma checks_modify (g : RaspiPWM -> RaspiPWM) : (forall r, functions (g r) = functions r) -> checks (modify g) (fun _ => True).
Proof. intros Hg. apply keeps_modify; [|done]. intros r. unfold checked. by rewrite Hg. Qed.

Lemma checks_pure {A} (c : M RaspiPWM A) : (forall r, (c r).2 = r) -> checks c (fun _ => True).
Proof. intros Hc r Hr. specialize (Hc r). destruct (c r) as [[] r']; cbn in Hc; by subst. Qed.

Lemma checks_init_entry config kv : checks (init_entry config kv) (fun _ => True).
Proof.
  unfold init_entry. destruct kv as [first second]. destruct (negb _); [by apply keeps_ret|].
  eapply keeps_bind; [by apply checks_pure|]. intros pin _. destruct (_ || _); [|by apply keeps_ret].
  case_decide; [by apply checks_modify|].
  eapply keeps_bind; [by apply checks_pure|]. intros r _.
  destruct (getResult _ _ _ _ _ _) as [o e] eqn:G. apply keeps_seq; [by apply checks_modify|].
  eapply (keeps_bind _ _ _ _ (fun _ => valid_expr second)).
  { apply keeps_lift; [|done]. intros v ->. eapply getResult_valid. by rewrite G. }
  intros _ Hv. apply keeps_seq; [by apply checks_modify|].
  eapply keeps_bind; [by apply checks_pure|]. intros conf_pwm _.
  eapply keeps_bind; [apply checks_pure; intros r'; by repeat case_match|]. intros pwm _.
  eapply keeps_bind; [by apply checks_pure|]. intros conf_max _.
  apply keeps_modify; [|done]. intros r' Hr'. by apply pins_insert_functions.
Qed.

Lemma checks_setPWM v : checks (rp_setPWM v) (fun _ => True).
Proof.
  unfold rp_setPWM. eapply keeps_bind; [by apply checks_pure|]. intros r _.
  eapply keeps_bind; [by apply checks_pure|]. intros pwm _. apply keeps_seq.
  { destruct (_ =? pwm); [by apply keeps_ret|]. apply keeps_seq; by apply checks_modify. }
  destruct (fRaspiLed r); [|by apply keeps_ret]. apply keeps_seq.
  { destruct (Z.testbit _ 0); [by apply checks_modify|by apply keeps_ret]. }
  eapply keeps_bind; [by apply checks_pure|]. intros t _. by apply checks_modify.
Qed.

Lemma checks_commit force : checks (rp_commit force) (fun _ => True).
Proof.
  intros r Hr. pose proof (runs_commit (functions r) (currentFunc r) (fun _ => True) ltac:(done) force r (conj eq_refl eq_refl)) as Hk.
  destruct (rp_commit force r) as [[[]|e] r']; destruct Hk as [[Hf _] _]; (split; [|done]); unfold checked; by rewrite Hf.
Qed.

(** A configuration that is accepted cannot fail later: the constructor has
    evaluated every pin expression once, and whatever direction, speed and
    functions are set afterwards, committing the outputs returns. *)
Theorem init_checks_expressions config led now r r' force :
  RaspiPWM_new config led now = Ok r ->
  functions r' = functions r -> func_ready (currentFunc r') ->
  exists r'', rp_commit force r' = (Ok tt, r'') /\ functions r'' = functions r.
Proof.
  intros Hnew Hf Hr.
  assert (checked r) as Hc.
  { unfold RaspiPWM_new in Hnew. assert (checks (rp_init config led) (fun _ => True)) as Hk.
    { unfold rp_init. case_decide; [by apply keeps_fail|].
      eapply keeps_bind; [by apply checks_pure|]. intros start _.
      eapply keeps_bind; [by apply checks_pure|]. intros r0 _.
      eapply keeps_bind; [apply checks_pure; intros; by case_decide|]. intros full _.
      eapply keeps_bind; [apply checks_pure; intros; by case_decide|]. intros boost _.
      apply keeps_seq; [by apply checks_modify|].
      apply keeps_seq; [apply keeps_iterM; intros kv _; apply checks_init_entry|].
      apply keeps_seq; [by apply checks_modify|].
      apply keeps_seq; [apply checks_setPWM|]. apply keeps_seq; [by apply checks_modify|]. apply checks_commit. }
    specialize (Hk (RaspiPWM0 now) (Forall_nil_2 _)). destruct (rp_init config led (RaspiPWM0 now)) as [[[]|] r0]; [|done].
    injection Hnew as <-. apply Hk. }
  pose proof (runs_commit (functions r') (currentFunc r') (fun _ => False)) as Hk.
  assert (forall now fn dir speed st e, fn ∈ functions r' ->
            (getResult now fn dir speed (currentFunc r') st).1 = Err e -> False) as Hfault.
  { intros now' fn dir speed st e Hfn He. rewrite Hf in Hfn. unfold checked in Hc. rewrite list.Forall_forall in Hc.
    destruct (Hc fn Hfn now' dir speed (currentFunc r') st Hr) as [v Hv]. by rewrite Hv in He. }
  specialize (Hk Hfault force r' (conj eq_refl eq_refl)).
  destruct (rp_commit force r') as [[[]|e] r'']; destruct Hk as [[Hk1 Hk2] Hk3]; [|done].
  exists r''. split; [done|]. congruence.
Qed.

Definition sample_config : Config :=
  [("digispark.motorFullSpeed", "200"); ("digispark.motorStart", "70");
   ("wiringpi.pin.17", "!dir && F0"); ("wiringpi.pin.18", "pwm");
   ("wiringpi.pin.4", "F0"); ("wiringpi.pin.4.a", "F1")].
Definition sample_raspi : RaspiPWM :=
  match RaspiPWM_new sample_config true 1000 with Ok r => r | Err _ => RaspiPWM0 0 end.

Lemma init_checks_expressions_witness :
  exists r'', rp_commit false (with_pwm sample_raspi 120) = (Ok tt, r'') /\ functions r'' = functions sample_raspi.
Proof.
  refine (init_checks_expressions sample_config true 1000 sample_raspi (with_pwm sample_raspi 120) false _ _ _);
    [vm_compute; reflexivity|vm_compute; reflexivity|].
  apply func_ready_check. vm_compute. reflexivity.
Defined.

(** ** The levels of the pins *)

Inductive pin_level : Type := PinOff | PinOn | PinSoft (pwm : Z).

(** what a call does to the level of [pin] *)
Definition call_level (pin : Z) (lv : pin_level) (c : pin_call) : pin_level :=
  match c with
  | digitalWrite q b => if q =? pin then (if b then PinOn else PinOff) else lv
  | softPwmCreate q v _ => if q =? pin then PinSoft v else lv
  | softPwmStop q => if q =? pin then PinOff else lv
  | _ => lv
  end.
Definition level (calls : list pin_call) (pin : Z) : pin_level := foldl (call_level pin) PinOff calls.

Definition expected (p : PinCtl) (v : bool) : pin_level :=
  if v then (if pin_pwm p =? 100 then PinOn else PinSoft (pin_pwm p)) else PinOff.

(** one expression per pin, nothing switched off after a time, and the levels
    are what the driver remembers *)
Record pins_ok (r : RaspiPWM) : Prop := mkPinsOk {
  pk_nodup : NoDup (rp_pins r).*1;
  pk_time k p : (k, p) ∈ rp_pins r -> maxTime p = 0;
  pk_level k p : (k, p) ∈ rp_pins r -> level (rp_calls r) k = expected p (lastState p);
}.

(** the values of all expressions, evaluated in the order of the pins *)
Fixpoint eval_all (r : RaspiPWM) (fns : list string) : M ParseExpr (list bool) :=
  match fns with
  | [] => mret []
  | fn :: fns' =>
      v ← getResult (rp_clock r) fn (rp_dir r) (rp_pwm r) (currentFunc r);
      vs ← eval_all r fns';
      mret (nonzero v :: vs)
  end.

Definition other_pin (pin : Z) (c : pin_call) : Prop := forall lv q, q <> pin -> call_level q lv c = lv.

Lemma level_app calls cs pin : level (calls ++ cs) pin = foldl (call_level pin) (level calls pin) cs.
Proof. unfold level. by rewrite foldl_app. Qed.

Lemma level_other calls cs pin q : Forall (other_pin pin) cs -> q <> pin -> level (calls ++ cs) q = level calls q.
Proof.
  intros Hcs Hq. rewrite level_app. generalize (level calls q). induction Hcs as [|c cs Hc Hcs IH]; intros lv; [done|].
  cbn. by rewrite Hc.
Qed.

(** the calls one pin with one expression causes *)
Definition pin_calls (force : bool) (pin : Z) (p : PinCtl) (v : bool) : list pin_call :=
  (if negb v && lastState p then [if pin_pwm p =? 100 then digitalWrite pin false else softPwmStop pin] else []) ++
  (if force || (v && negb (lastState p)) then
     if pin_pwm p =? 100 then [digitalWrite pin v]
     else if v then [softPwmCreate pin (pin_pwm p) 100; softPwmWrite pin (pin_pwm p)] else []
   else []).

Lemma pin_calls_other force pin p v : Forall (other_pin pin) (pin_calls force pin p v).
Proof.
  assert (forall b, other_pin pin (digitalWrite pin b)) as H1
    by (intros b lv q Hq; cbn; by rewrite (proj2 (Z.eqb_neq _ _))).
  assert (forall v w, other_pin pin (softPwmCreate pin v w)) as H2
    by (intros x w lv q Hq; cbn; by rewrite (proj2 (Z.eqb_neq _ _))).
  assert (other_pin pin (softPwmStop pin)) as H3 by (intros lv q Hq; cbn; by rewrite (proj2 (Z.eqb_neq _ _))).
  unfold pin_calls. apply Forall_app. split.
  - destruct (_ && _); [|done]. destruct (_ =? 100); auto.
  - destruct (_ || _); [|done]. destruct (_ =? 100); [auto|]. destruct v; [|done]. repeat constructor; done.
Qed.

Lemma pin_calls_level force pin p v :
  foldl (call_level pin) (expected p (lastState p)) (pin_calls force pin p v) = expected p v.
Proof.
  unfold pin_calls, expected. destruct v, (lastState p), force, (pin_pwm p =? 100); cbn; by rewrite ?Z.eqb_refl.
Qed.

Lemma alter_middle {A} (f : A -> A) pre x rest : alter f (length pre) (pre ++ x :: rest) = pre ++ f x :: rest.
Proof. rewrite alter_app_r_alt by lia. by rewrite Nat.sub_diag. Qed.

(** the state after one pin was handled *)
Definition pin_done (r : RaspiPWM) (pins : list (Z * PinCtl)) (e : ParseExpr) (cs : list pin_call) : RaspiPWM :=
  mkRaspi (rp_dir r) (rp_pwm r) (motorStart r) (motorFullSpeed r) (motorFullSpeedBoost r) (fRaspiLed r)
    (raspiLedToggle r) (currentFunc r) (rp_nFunc r) pins e (cfg_pinPWM r) (rp_clock r) (rp_calls r ++ cs).

Lemma pin_at_run r it kp : rp_pins r !! it = Some kp -> pin_at it r = (Ok kp, r).
Proof. intros L. unfold pin_at. rewrite (run_bind _ _ _ r r) by done. by rewrite L. Qed.

Lemma eval_pin_run r fn z e :
  getResult (rp_clock r) fn (rp_dir r) (rp_pwm r) (currentFunc r) (rp_expr r) = (Ok z, e) ->
  eval_pin fn r = (Ok (nonzero z), with_expr r e).
Proof. intros G. unfold eval_pin. rewrite (run_bind _ _ _ r r) by done. by rewrite G. Qed.

Lemma commit_entries_single k r pre pin p rest z e :
  rp_pins r = pre ++ (pin, p) :: rest -> pin ∉ rest.*1 ->
  getResult (rp_clock r) (function p) (rp_dir r) (rp_pwm r) (currentFunc r) (rp_expr r) = (Ok z, e) ->
  let v := nonzero z in
  commit_entries (S k) pin (length pre) (length pre) false r =
  (Ok (S (length pre), length pre, v),
   pin_done r (pre ++ (pin, if v then p else set_lastState false p) :: rest) e
     (if negb v && lastState p then [if pin_pwm p =? 100 then digitalWrite pin false else softPwmStop pin] else [])).
Proof.
  intros Hp Hrest G v. cbn [commit_entries].
  rewrite (run_bind _ _ _ (pin, p) r) by (apply pin_at_run; rewrite Hp; apply list_lookup_middle; done).
  erewrite run_bind by (by apply eval_pin_run). fold v.
  assert (forall r' x, rp_pins r' = pre ++ x :: rest -> forall ctl val,
    (r0 ← get; match rp_pins r0 !! S (length pre) with
               | Some (key, _) => if key =? pin then commit_entries k pin (S (length pre)) ctl val else mret (S (length pre), ctl, val)
               | None => mret (S (length pre), ctl, val) end) r' = (Ok (S (length pre), ctl, val), r')) as Hend.
  { intros r' x Hr' ctl val. rewrite (run_bind _ _ _ r' r') by done. rewrite Hr'.
    change (x :: rest) with ([x] ++ rest). rewrite app_assoc, lookup_app_r by (rewrite length_app; cbn; lia).
    rewrite length_app, Nat.add_1_r. rewrite Nat.sub_diag. destruct rest as [|[key q] rest]; [done|]. cbn.
    rewrite (proj2 (Z.eqb_neq _ _)); [done|]. intros ->. cbn in Hrest. set_solver. }
  destruct v; cbn [negb andb].
  - rewrite (run_bind _ _ _ (length pre, true) (with_expr r e)) by done.
    rewrite (Hend _ (pin, p)) by done. unfold pin_done. rewrite app_nil_r, <- Hp. by destruct r.
  - destruct (lastState p) eqn:Hl.
    + set (c := if pin_pwm p =? 100 then digitalWrite pin false else softPwmStop pin).
      rewrite (run_bind _ _ _ (length pre, false) (pin_done r (pre ++ (pin, set_lastState false p) :: rest) e [c])).
      { by rewrite (Hend _ (pin, set_lastState false p)). }
      subst c. unfold pin_done. destruct r; cbn in *. subst. unfold mbind, M_bind.
      destruct (pin_pwm p =? 100); cbn; unfold pin_upd, modify, with_pins; cbn; by rewrite !alter_middle.
    + rewrite (run_bind _ _ _ (length pre, false) (with_expr r e)) by done.
      rewrite (Hend _ (pin, p)) by done. unfold pin_done. rewrite app_nil_r.
      assert (set_lastState false p = p) as -> by (destruct p; cbn in *; by subst). rewrite <- Hp. by destruct r.
Qed.

Lemma pin_upd_middle r pre pin p rest f :
  rp_pins r = pre ++ (pin, p) :: rest ->
  pin_upd (length pre) f r = (Ok tt, with_pins r (pre ++ (pin, f p) :: rest)).
Proof. intros Hp. unfold pin_upd, modify. by rewrite Hp, alter_middle. Qed.

(** one turn of the outer loop for a pin with one expression *)
Lemma commit_pin_single force r pre pin p rest z e :
  rp_pins r = pre ++ (pin, p) :: rest -> pin ∉ rest.*1 -> maxTime p = 0 ->
  getResult (rp_clock r) (function p) (rp_dir r) (rp_pwm r) (currentFunc r) (rp_expr r) = (Ok z, e) ->
  exists p', commit_pin force (length pre) r =
    (Ok (S (length pre)), pin_done r (pre ++ (pin, p') :: rest) e (pin_calls force pin p (nonzero z))) /\
    function p' = function p /\ lastState p' = nonzero z /\ pin_pwm p' = pin_pwm p /\ maxTime p' = 0.
Proof.
  intros Hp Hrest Ht G. unfold commit_pin.
  rewrite (run_bind _ _ _ (pin, p) r) by (apply pin_at_run; rewrite Hp; apply list_lookup_middle; done).
  rewrite (run_bind _ _ _ (length (rp_pins r)) r) by done.
  replace (length (rp_pins r) - length pre)%nat with (S (length rest)) by (rewrite Hp, length_app; cbn; lia).
  erewrite run_bind by (by apply commit_entries_single).
  cbv beta iota zeta. set (v := nonzero z). set (q := if v then p else set_lastState false p).
  set (r1 := pin_done r _ e _).
  rewrite (run_bind _ _ _ (pin, q) r1) by (apply pin_at_run; apply list_lookup_middle; done).
  rewrite (run_bind _ _ _ (rp_clock r1) r1) by done.
  assert (pin_pwm q = pin_pwm p /\ maxTime q = 0 /\ function q = function p) as (Q1 & Q2 & Q3) by (subst q; by destruct v).
  rewrite Q1, Q2. cbn [negb andb Z.eqb].
  assert (negb (eqb v (lastState q)) = v && negb (lastState p)) as ->.
  { subst q. by destruct v, (lastState p) eqn:Hl; cbn; rewrite ?Hl. }
  unfold pin_calls. fold v. destruct (force || (v && negb (lastState p))) eqn:Hw.
  - exists (set_lastChange (rp_clock r1) (set_lastState v q)). split; [|by subst q; destruct v].
    erewrite run_bind; [reflexivity|].
    destruct (pin_pwm p =? 100); [|destruct v]; repeat (erewrite run_bind by reflexivity);
      erewrite pin_upd_middle by reflexivity; unfold r1, pin_done, with_pins, with_call; cbn; rewrite <- ?app_assoc, ?app_nil_r; done.
  - exists q. split_and!; [|done|subst q; destruct force, v, (lastState p) eqn:Hl; done|done|done].
    unfold r1. rewrite app_nil_r. done.
Qed.

Lemma eval_all_ext r r' fns : rp_clock r' = rp_clock r -> rp_dir r' = rp_dir r -> rp_pwm r' = rp_pwm r ->
  currentFunc r' = currentFunc r -> eval_all r' fns = eval_all r fns.
Proof. intros E1 E2 E3 E4. induction fns as [|fn fns IH]; [done|]. cbn. by rewrite E1, E2, E3, E4, IH. Qed.

Lemma pins_ok_done force r pre pin p p' rest v e :
  rp_pins r = pre ++ (pin, p) :: rest -> pins_ok r -> lastState p' = v -> pin_pwm p' = pin_pwm p -> maxTime p' = 0 ->
  pins_ok (pin_done r (pre ++ (pin, p') :: rest) e (pin_calls force pin p v)).
Proof.
  intros Hp [Hn Ht Hl] Hs Hpwm Htime. unfold pin_done. split; cbn [rp_pins rp_calls].
  - rewrite fmap_app, fmap_cons. rewrite Hp, fmap_app, fmap_cons in Hn. exact Hn.
  - intros k q Hq. apply elem_of_app in Hq as [Hq|Hq]; [|apply elem_of_cons in Hq as [[= -> ->]|Hq]]; [|done|].
    + apply (Ht k). rewrite Hp. set_solver.
    + apply (Ht k). rewrite Hp. set_solver.
  - rewrite Hp, fmap_app, fmap_cons in Hn. apply list.NoDup_app in Hn as (_ & Hn1 & Hn2). apply list.NoDup_cons in Hn2 as [Hn2 _].
    assert (forall k q, k <> pin -> (k, q) ∈ rp_pins r ->
              level (rp_calls r ++ pin_calls force pin p v) k = expected q (lastState q)) as Hother.
    { intros k q Hk Hq. rewrite level_other with (pin := pin) by (done || apply pin_calls_other). by apply Hl. }
    intros k q Hq. apply elem_of_app in Hq as [Hq|Hq]; [|apply elem_of_cons in Hq as [[= -> ->]|Hq]].
    + apply Hother; [|rewrite Hp; set_solver]. intros ->. apply (Hn1 pin); [|set_solver].
      apply list_elem_of_fmap. by exists (pin, q).
    + rewrite level_app, (Hl pin p) by (rewrite Hp; set_solver). rewrite pin_calls_level. unfold expected. by rewrite Hs, Hpwm.
    + apply Hother; [|rewrite Hp; set_solver]. intros ->. apply Hn2. apply list_elem_of_fmap. by exists (pin, q).
Qed.

Lemma commit_loop_end k force r : commit_loop k force (length (rp_pins r)) r = (Ok tt, r).
Proof. destruct k; cbn [commit_loop]; rewrite (run_bind _ _ _ (length (rp_pins r)) r) by done; by rewrite decide_False by lia. Qed.

(** the loop from the pins behind [pre] on *)
Lemma commit_loop_levels force k rest r pre e vs :
  rp_pins r = pre ++ rest -> pins_ok r -> (length rest <= k)%nat ->
  eval_all r ((fun kp => function kp.2) <$> rest) (rp_expr r) = (Ok vs, e) ->
  exists rest' cs, commit_loop k force (length pre) r = (Ok tt, pin_done r (pre ++ rest') e cs) /\
    pins_ok (pin_done r (pre ++ rest') e cs) /\ rest'.*1 = rest.*1 /\ (lastState ∘ snd) <$> rest' = vs /\
    (pin_pwm ∘ snd) <$> rest' = (pin_pwm ∘ snd) <$> rest.
Proof.
  revert k r pre e vs. induction rest as [|[pin p] rest IH]; intros k r pre e vs Hp Hok Hk Hev.
  - exists [], []. cbn in Hev. injection Hev as <- <-.
    assert (pin_done r (pre ++ []) (rp_expr r) [] = r) as Hr by (unfold pin_done; rewrite <- Hp, app_nil_r; by destruct r).
    rewrite Hr. split_and!; try done. rewrite <- (commit_loop_end k force r), Hp, app_nil_r. done.
  - destruct k as [|k]; [cbn in Hk; lia|].
    cbn [fmap list_fmap eval_all snd] in Hev. unfold mbind, M_bind in Hev.
    destruct (getResult _ (function p) _ _ _ _) as [[z|] e1] eqn:G; [|done].
    destruct (eval_all r _ e1) as [[vs'|] e2] eqn:Ev; [|done]. injection Hev as <- <-.
    pose proof (pk_nodup _ Hok) as Hn. rewrite Hp, fmap_app, fmap_cons in Hn.
    apply list.NoDup_app in Hn as (_ & _ & Hn). apply list.NoDup_cons in Hn as [Hn _].
    destruct (commit_pin_single force r pre pin p rest z e1 Hp Hn) as (p' & R & F1 & F2 & F3 & F4); [|done|].
    { apply (pk_time _ Hok pin). rewrite Hp. set_solver. }
    pose proof (pins_ok_done force r pre pin p p' rest _ e1 Hp Hok F2 F3 F4) as Hok1.
    set (r1 := pin_done r _ e1 _) in *.
    destruct (IH k r1 (pre ++ [(pin, p')]) e2 vs') as (rest' & cs & R' & Hok' & K1 & K2 & K3); [|done|cbn in Hk; lia| |].
    { unfold r1. cbn. by rewrite <- app_assoc. }
    { by rewrite (eval_all_ext r r1). }
    exists ((pin, p') :: rest'), (pin_calls force pin p (nonzero z) ++ cs).
    assert (pin_done r (pre ++ (pin, p') :: rest') e2 (pin_calls force pin p (nonzero z) ++ cs) =
            pin_done r1 ((pre ++ [(pin, p')]) ++ rest') e2 cs) as ->.
    { unfold r1, pin_done. cbn. by rewrite <- !app_assoc. }
    split_and!; [|done|cbn; by rewrite K1|cbn; by rewrite K2, F2|cbn; by rewrite K3, F3].
    cbn [commit_loop]. rewrite (run_bind _ _ _ (length (rp_pins r)) r) by done.
    rewrite decide_True by (rewrite Hp, length_app; cbn; lia). erewrite run_bind by exact R.
    rewrite <- R'. f_equal. rewrite length_app. cbn. lia.
Qed.

(** a commit brings every pin to the value of its expression and changes
    nothing else *)
Lemma commit_levels_kept force r vs e :
  pins_ok r -> eval_all r (functions r) (rp_expr r) = (Ok vs, e) ->
  exists pins cs, rp_commit force r = (Ok tt, pin_done r pins e cs) /\ pins_ok (pin_done r pins e cs) /\
    forall i pin p v, rp_pins r !! i = Some (pin, p) -> vs !! i = Some v ->
      level (rp_calls r ++ cs) pin = expected p v.
Proof.
  intros Hok Hev. unfold rp_commit. rewrite (run_bind _ _ _ (length (rp_pins r)) r) by done.
  destruct (commit_loop_levels force (length (rp_pins r)) (rp_pins r) r [] e vs) as (pins & cs & R & Hok' & K1 & K2 & K3); [done..|].
  exists pins, cs. split; [exact R|]. split; [exact Hok'|]. intros i pin p v Hi Hv.
  rewrite <- K2, list_lookup_fmap in Hv. destruct (pins !! i) as [[pin' p']|] eqn:Hp'; [|done]. injection Hv as <-.
  assert (pin' = pin) as ->.
  { pose proof (f_equal (.!! i) K1) as H. cbn in H. rewrite !list_lookup_fmap, Hi, Hp' in H. cbn in H. congruence. }
  assert (pin_pwm p' = pin_pwm p) as Hpwm.
  { pose proof (f_equal (.!! i) K3) as H. cbn in H. rewrite !list_lookup_fmap, Hi, Hp' in H. cbn in H. congruence. }
  pose proof (pk_level _ Hok' pin p' ltac:(by eapply list_elem_of_lookup_2)) as Hl. cbn [rp_calls pin_done] in Hl. rewrite Hl. cbn.
  unfold expected. by rewrite Hpwm.
Qed.

Lemma eval_all_valid r fns st : Forall valid_expr fns -> func_ready (currentFunc r) ->
  exists vs e, eval_all r fns st = (Ok vs, e) /\ length vs = length fns.
Proof.
  intros Hv Hf. revert st. induction Hv as [|fn fns Hfn Hv IH]; intros st; [by exists [], st|]. cbn.
  destruct (Hfn (rp_clock r) (rp_dir r) (rp_pwm r) (currentFunc r) st Hf) as [v Ev].
  unfold mbind, M_bind. destruct (getResult _ fn _ _ _ _) as [[v'|] e1]; [|done].
  destruct (IH e1) as (vs & e & -> & Hl). exists (nonzero v' :: vs), e. cbn. by rewrite Hl.
Qed.

(** the motor output changes, the pins do not *)
Lemma setPWM_run f r v :
  motor_pwm f r = Ok v -> 0 <= raspiLedToggle r < 2^31 - 1 ->
  exists t cs, rp_setPWM f r = (Ok tt,
    mkRaspi (rp_dir r) v (motorStart r) (motorFullSpeed r) (motorFullSpeedBoost r) (fRaspiLed r) t (currentFunc r)
      (rp_nFunc r) (rp_pins r) (rp_expr r) (cfg_pinPWM r) (rp_clock r) (rp_calls r ++ cs)) /\
    (forall lv q, foldl (call_level q) lv cs = lv) /\
    (rp_pwm r <> v -> exists cs', cs = pwmWrite (cfg_pinPWM r) v :: cs').
Proof.
  intros Hv Ht. unfold rp_setPWM. rewrite (run_bind _ _ _ r r) by done.
  rewrite (run_bind _ _ _ v r) by (by apply run_lift).
  set (cs1 := if rp_pwm r =? v then [] else [pwmWrite (cfg_pinPWM r) v]).
  rewrite (run_bind _ _ _ tt (mkRaspi (rp_dir r) v (motorStart r) (motorFullSpeed r) (motorFullSpeedBoost r) (fRaspiLed r)
    (raspiLedToggle r) (currentFunc r) (rp_nFunc r) (rp_pins r) (rp_expr r) (cfg_pinPWM r) (rp_clock r) (rp_calls r ++ cs1))).
  2:{ subst cs1. destruct (Z.eqb_spec (rp_pwm r) v) as [<-|]; [|done]. rewrite app_nil_r. by destruct r. }
  assert (rp_pwm r <> v -> exists cs', cs1 = pwmWrite (cfg_pinPWM r) v :: cs') as Hc.
  { intros Hne. exists []. subst cs1. by rewrite (proj2 (Z.eqb_neq _ _)). }
  assert (forall lv q, foldl (call_level q) lv cs1 = lv) as Hl by (intros; subst cs1; by destruct (_ =? _)).
  destruct (fRaspiLed r) eqn:Hled; [|by exists (raspiLedToggle r), cs1].
  set (cs2 := if Z.testbit (raspiLedToggle r) 0 then [ledWrite (Z.testbit (raspiLedToggle r) 1)] else []).
  assert (int_op (raspiLedToggle r + 1) = Ok (raspiLedToggle r + 1)) as Hi.
  { unfold int_op. rewrite (proj2 (int32b_spec _)); [done|]. unfold is_int32. lia. }
  exists (raspiLedToggle r + 1), (cs1 ++ cs2). split_and!.
  - cbv zeta. rewrite app_assoc. subst cs2. destruct (Z.testbit _ 0); rewrite ?app_nil_r;
      (erewrite run_bind by reflexivity; rewrite (run_bind _ _ _ (raspiLedToggle r + 1) _) by (by apply run_lift); reflexivity).
  - intros lv q. rewrite foldl_app, Hl. subst cs2. by destruct (Z.testbit _ 0).
  - intros Hne. destruct (Hc Hne) as [cs' ->]. by eexists.
Qed.

(** the driver while the server runs *)
Record raspi_ok (r : RaspiPWM) : Prop := mkRaspiOk {
  ro_pins : pins_ok r;
  ro_checked : checked r;
  ro_motor : 0 <= motorStart r <= 255 /\ 0 <= motorFullSpeed r <= 255;
  ro_led : 0 <= raspiLedToggle r < 2^31 - 1;
}.

Lemma motor_pwm_ok f r : 0 <= f <= 255 -> raspi_ok r -> func_ready (currentFunc r) -> exists v, motor_pwm f r = Ok v.
Proof.
  intros Hf Hr Hfn. unfold motor_pwm. destruct (Z.ltb_spec 0 f); [|by eexists].
  destruct (read_func_ready (currentFunc r) 9 Hfn ltac:(lia)) as [b Hb]. rewrite Hb.
  destruct (scale_pwm_between f (motorStart r) (motorFullSpeed r)) as (v & Hv & _); [lia|apply Hr..|].
  destruct (f =? 255); [|by exists v]. cbn. destruct b; by eexists.
Qed.

Lemma loco_func_ready d fa : lok_wf d -> 10 <= nFunc d ->
  (forall k, (k < Z.to_nat MAX_NFUNC)%nat -> fa !! k =
      if decide (Z.of_nat k < nFunc d) then (Some ∘ ison) <$> Lokdef.func d !! k else Some None) ->
  func_ready fa.
Proof.
  intros [W1 W2] Hn Hk k Hk10. unfold MAX_NFUNC in *. rewrite Hk by lia. rewrite decide_True by lia.
  destruct (lookup_lt_is_Some_2 (Lokdef.func d) k) as [f ->]; [lia|]. by eexists.
Qed.

(** C12: Driving a locomotive that has ten functions, without an emergency stop,
    sets motor and outputs to what the command asks for: the direction and the
    scaled speed are stored and the changed speed is written to the PWM pin, and
    every pin shows the value its expression has for the new direction, speed
    and functions.  This is for a configuration in which no pin has two
    expressions, no pin is switched off after a time, the expressions were
    accepted by the constructor, and motorStart and motorFullSpeed are in
    0..255, and a driver that remembers the levels of its pins correctly before
    the call (it does so again afterwards).  A pin with several expressions does
    not show their disjunction: [shared_pin_goes_dark]. *)
Theorem sendLoco_sets_outputs i t (u : USBPlatine RaspiPWM) d :
  0 <= i -> t !! Z.to_nat i = Some d -> lok_ok d -> 10 <= nFunc d -> raspi_ok (platine u) ->
  let r := platine u in
  exists v u' vs e, usb_sendLoco i false (t, u) = (Ok tt, (t, u')) /\
    let r' := platine u' in
    let f_speed := if Z.abs (currspeed d) <? 5 then 0 else Z.abs (currspeed d) in
    motor_pwm f_speed r' = Ok v /\ rp_pwm r' = v /\ rp_dir r' = (if currdir d <? 0 then 1 else 0) /\
    (forall k, Z.of_nat k < nFunc d -> currentFunc r' !! k = (Some ∘ ison) <$> Lokdef.func d !! k) /\
    (rp_pwm r <> v -> pwmWrite (cfg_pinPWM r) v ∈ rp_calls r') /\
    eval_all r' (functions r) (rp_expr r) = (Ok vs, e) /\ length vs = length (rp_pins r) /\
    (forall k pin p b, rp_pins r !! k = Some (pin, p) -> vs !! k = Some b -> level (rp_calls r') pin = expected p b) /\
    pins_ok r'.
Proof.
  intros Hi Hd [W Hs] Hn Hr r.
  destruct (loco_func_array d W) as (fa & Hfa & _ & Hfk). pose proof (loco_func_ready d fa W Hn Hfk) as Hready.
  assert (loco_speed d = Ok (if Z.abs (currspeed d) <? 5 then 0 else Z.abs (currspeed d))) as Hv.
  { unfold loco_speed, c_abs. by rewrite (proj2 (Z.eqb_neq _ _)) by lia. }
  rewrite (usb_sendLoco_drive i t u d fa _ Hi Hd Hv Hfa). set (f_speed := if _ <? 5 then 0 else _).
  set (dir := if currdir d <? 0 then 1 else 0).
  set (r1 := with_dir (with_func r (nFunc d) fa) dir).
  assert (raspi_ok r1) as Hr1 by (destruct Hr as [[A B C] D F G]; split; [split; [exact A|exact B|exact C]|exact D|exact F|exact G]).
  destruct (motor_pwm_ok f_speed r1) as [v Hm]; [subst f_speed; destruct (Z.ltb_spec (Z.abs (currspeed d)) 5); lia|done|done|].
  destruct (setPWM_run f_speed r1 v Hm (ro_led _ Hr1)) as (tg & cs & R1 & Hlv & Hw).
  set (r2 := mkRaspi _ v _ _ _ _ tg _ _ _ _ _ _ _) in R1.
  assert (pins_ok r2) as Hp2.
  { destruct (ro_pins _ Hr) as [K1 K2 K3]. split; [done|done|]. intros k p Hk.
    change (level (rp_calls r ++ cs) k = expected p (lastState p)). rewrite level_app, Hlv. by apply K3. }
  destruct (eval_all_valid r2 (functions r) (rp_expr r) (ro_checked _ Hr) Hready) as (vs & e & Hev & Hlen).
  destruct (commit_levels_kept false r2 vs e Hp2 Hev) as (pins & cs' & R3 & Hok3 & Hlev).
  eexists v, _, vs, e. split.
  { unfold on_platine, zoom. cbn [platine setFunction setDir setPWM commit RaspiPWM_platine fst snd].
    rewrite (run_bind _ _ _ tt (with_func r (nFunc d) fa)) by done.
    rewrite (run_bind _ _ _ tt r1) by (unfold rp_setDir, modify; subst dir r1; by destruct (currdir d <? 0)).
    erewrite run_bind by exact R1. rewrite R3. reflexivity. }
  cbv zeta. cbn [platine]. split_and!; try done.
  - intros k Hk. cbn. destruct W as [W1 W2]. rewrite Hfk by lia. by rewrite decide_True.
  - intros Hne. destruct (Hw Hne) as [cs'' Hcs]. cbn. subst cs. set_solver.
  - by rewrite (eval_all_ext r2).
  - rewrite Hlen. unfold functions. by rewrite length_fmap.
Qed.

(** the sample driver with one expression per pin *)
Definition sample_config1 : Config :=
  [("digispark.motorFullSpeed", "200"); ("digispark.motorStart", "70");
   ("wiringpi.pin.17", "!dir && F0"); ("wiringpi.pin.18", "pwm"); ("wiringpi.pin.4", "F1");
   ("wiringpi.pin.4.pwm", "20")].
Definition sample_raspi1 : RaspiPWM :=
  match RaspiPWM_new sample_config1 true 1000 with Ok r => r | Err _ => RaspiPWM0 0 end.

Lemma sample_raspi1_ok : raspi_ok sample_raspi1.
Proof.
  split.
  - split; [apply (bool_decide_eq_true_1 (NoDup _)); vm_compute; reflexivity|..];
      intros k p Hk; vm_compute in Hk; repeat (apply elem_of_cons in Hk as [[= -> ->]|Hk]; [vm_compute; reflexivity|]);
      by apply elem_of_nil in Hk.
  - assert (functions sample_raspi1 = ["F1"; "!dir && F0"]) as E by (vm_compute; reflexivity).
    unfold checked. rewrite E. clear E.
    repeat constructor; eapply (getResult_valid 0 _ 0 0 (repeat (Some false) 10) ParseExpr0); vm_compute; reflexivity.
  - split; split; vm_compute; discriminate.
  - split; [vm_compute; discriminate|vm_compute; reflexivity].
Qed.

Lemma sendLoco_sets_outputs_witness : exists v u' vs e,
  usb_sendLoco 0 false ([sample_lok 100 (-1); lokdef0], mkUSB EmptyString None None sample_raspi1)
    = (Ok tt, ([sample_lok 100 (-1); lokdef0], u')) /\
  rp_pwm (platine u') = v /\ rp_dir (platine u') = 1 /\
  eval_all (platine u') (functions sample_raspi1) (rp_expr sample_raspi1) = (Ok vs, e).
Proof.
  destruct (sendLoco_sets_outputs 0 [sample_lok 100 (-1); lokdef0] (mkUSB EmptyString None None sample_raspi1)
              (sample_lok 100 (-1))) as (v & u' & vs & e & R & H).
  - lia.
  - reflexivity.
  - by apply sample_lok_ok.
  - vm_compute. discriminate.
  - apply sample_raspi1_ok.
  - cbv zeta in H. cbn [platine] in H. destruct H as (_ & H1 & H2 & _ & _ & H3 & _).
    exists v, u', vs, e. split; [exact R|]. split; [exact H1|]. split; [exact H2|exact H3].
Defined.

(** The speeds of a locomotive are spread over the range of the motor: a
    standing locomotive gives 0, the others a value between the start and the
    full speed value that does not fall when the speed rises; speed 255 gives
    exactly the full speed value unless F9 is on. *)
Theorem motor_range r f g :
  0 <= motorStart r <= motorFullSpeed r -> motorFullSpeed r <= 255 ->
  read_func (currentFunc r) 9 = Ok false -> 0 <= f <= g -> g <= 255 ->
  exists v w, motor_pwm f r = Ok v /\ motor_pwm g r = Ok w /\ v <= w <= motorFullSpeed r /\
    (f = 0 -> v = 0) /\ (0 < f -> motorStart r <= v) /\ (g = 255 -> w = motorFullSpeed r).
Proof.
  intros Hs Hfull H9 Hf Hg.
  assert (forall f, 0 < f <= 255 -> motor_pwm f r = scale_pwm f (motorStart r) (motorFullSpeed r)) as Hm.
  { intros x Hx. unfold motor_pwm. rewrite (proj2 (Z.ltb_lt _ _)) by lia. rewrite H9. by destruct (x =? 255). }
  assert (motor_pwm 0 r = Ok 0) as H0 by done.
  assert (scale_pwm 255 (motorStart r) (motorFullSpeed r) = Ok (motorFullSpeed r)) as H255.
  { unfold scale_pwm. replace (255 * (motorFullSpeed r - motorStart r) + 255 * motorStart r) with (motorFullSpeed r * 255) by lia.
    rewrite Z.quot_mul by lia. by rewrite (proj2 (Z.leb_le _ _)), (proj2 (Z.leb_le _ _)) by lia. }
  destruct (scale_pwm_between f (motorStart r) (motorFullSpeed r)) as (v & Hv & Bv); [lia..|].
  destruct (scale_pwm_between g (motorStart r) (motorFullSpeed r)) as (w & Hw & Bw); [lia..|].
  assert (g = 255 -> w = motorFullSpeed r) as Hfin by (intros ->; congruence).
  destruct (Z.eq_dec g 0) as [->|Hg0]; [assert (f = 0) as -> by lia; exists 0, 0; split_and!; intros; done || lia|].
  destruct (Z.eq_dec f 0) as [->|Hf0].
  - exists 0, w. rewrite (Hm g) by lia. split_and!; intros; done || lia || auto.
  - exists v, w. rewrite (Hm f), (Hm g) by lia.
    assert (v <= w) by (eapply (scale_pwm_mono f g); [..|exact Hv|exact Hw]; lia).
    split_and!; intros; done || lia || auto.
Qed.

Lemma motor_range_witness : exists v w, motor_pwm 100 sample_raspi1 = Ok v /\ motor_pwm 255 sample_raspi1 = Ok w /\ v <= w <= 200.
Proof.
  destruct (motor_range sample_raspi1 100 255) as (v & w & Hv & Hw & Hb & _);
    [split; vm_compute; discriminate|vm_compute; discriminate|vm_compute; reflexivity|lia|lia|].
  exists v, w. split; [exact Hv|]. split; [exact Hw|]. exact Hb.
Defined.

(** Without "digispark.motorFullSpeedBoost" in the configuration, F9 at full
    speed gives the slowest speed of the motor instead of the fastest. *)
Lemma boost_unset_is_slowest :
  Config_get "digispark.motorFullSpeedBoost" sample_config1 = NOT_SET /\
  motor_pwm 255 (with_func sample_raspi1 10 (repeat (Some true) 32)) = Ok 70 /\
  motor_pwm 254 (with_func sample_raspi1 10 (repeat (Some true) 32)) = Ok 199.
Proof. vm_compute. done. Qed.

(** Two expressions for one pin are not the "or" the documentation promises:
    with F0 for pin 4 and F1 for pin 4.a, switching on F0, then F1, then F0 off
    again leaves the pin dark although F1 is on. *)
Lemma shared_pin_goes_dark :
  let keys f0 f1 := rp_setFunction 10 (Some f0 :: Some f1 :: repeat (Some false) 30);; rp_commit false in
  let r2 := ((keys true false;; keys true true) sample_raspi).2 in
  let r3 := (keys false true r2).2 in
  level (rp_calls r2) 4 = PinOn /\ level (rp_calls r3) 4 = PinOff /\
  (getResult 1000 "(F0) || (F1)" (rp_dir r3) (rp_pwm r3) (currentFunc r3) (rp_expr r3)).1 = Ok 1.
Proof. vm_compute. done. Qed.

(** [sendLoco] leaves the functions a locomotive does not have indeterminate,
    and the driver reads F9 at full speed: a locomotive with fewer than ten
    functions has no defined behaviour there. *)
Theorem few_functions_undefined i t (u : USBPlatine RaspiPWM) d :
  0 <= i -> t !! Z.to_nat i = Some d -> lok_ok d -> nFunc d <= 9 -> Z.abs (currspeed d) = 255 ->
  (usb_sendLoco i false (t, u)).1 = Err (UB "currentFunc: indeterminate value").
Proof.
  intros Hi Hd [W Hs] Hn Ha. destruct (loco_func_array d W) as (fa & Hfa & _ & Hfk).
  assert (loco_speed d = Ok 255) as Hv.
  { unfold loco_speed, c_abs. rewrite (proj2 (Z.eqb_neq _ _)) by lia. by rewrite Ha. }
  rewrite (usb_sendLoco_drive i t u d fa _ Hi Hd Hv Hfa).
  unfold on_platine, zoom. cbn [platine setFunction setDir setPWM commit RaspiPWM_platine fst snd].
  erewrite run_bind by done. erewrite run_bind by done.
  assert (fa !! 9%nat = Some None) as H9 by (rewrite Hfk by (vm_compute; lia); by rewrite decide_False by lia).
  erewrite run_bind_err; [reflexivity|]. unfold rp_setPWM. erewrite run_bind by done.
  erewrite run_bind_err; [reflexivity|]. unfold motor_pwm, lift. cbn [Z.ltb Z.compare Z.eqb Pos.eqb].
  unfold read_func. cbn [currentFunc with_dir with_func]. rewrite H9. reflexivity.
Qed.

Lemma few_functions_undefined_witness :
  (usb_sendLoco 0 false ([mkLok 3 0 "V100" 4 (repeat func0 32) 255 1 false EmptyString 0; lokdef0],
                         mkUSB EmptyString None None sample_raspi1)).1 = Err (UB "currentFunc: indeterminate value").
Proof.
  refine (few_functions_undefined 0 _ _ (mkLok 3 0 "V100" 4 (repeat func0 32) 255 1 false EmptyString 0) _ _ _ _ _);
    [lia|reflexivity| |vm_compute; discriminate|reflexivity].
  split; [split; [vm_compute; discriminate|reflexivity]|vm_compute; split; discriminate].
Defined.
