(* ===== verification/Srcp.v ===== *)
(** * bluetoothserver/srcp.{h,cpp}: digital locomotives behind an srcpd

    Commands are lines of text; the daemon answers each with a line.  The
    daemon is another program: [answer] gives what one [read()] returns after
    a command, [None] when the connection fails. *)

From Stdlib Require Import Ascii.
From S2P Require Import Prelude StdMap CString Utils Lokdef Hardware ParseExpr Platine.

(** ** Replies *)

Inductive SRCPReplyCodeType : Type := INFO | OK | ERROR.

Record SRCPReply : Type := mkReply {
  reply_type : SRCPReplyCodeType;
  reply_code : Z;
  reply_message : string;
}.

Definition isdigit (c : ascii) : bool := (48 <=? chr c) && (chr c <=? 57).
Definition skip_digits (s : string) : string := skip_while isdigit s.
Definition skip_sign (s : string) : string := (scan_sign s).2.

(** what [%lf] leaves; the value (the time stamp) is never used.  Decimal
    notation only. *)
Definition scan_lf (s : string) : option string :=
  let s := skip_sign (skip_while isspace s) in
  let int_rest := skip_digits s in
  let frac_rest := if ascii_dec (deref int_rest) "." then skip_digits (advance int_rest) else int_rest in
  if isdigit (deref s) || (isdigit (deref (advance int_rest)) && bool_decide (deref int_rest = "."%char)) then
    if ascii_dec (deref frac_rest) "e" then
      let e := skip_sign (advance frac_rest) in
      if isdigit (deref e) then Some (skip_digits e) else None
    else if ascii_dec (deref frac_rest) "E" then
      let e := skip_sign (advance frac_rest) in
      if isdigit (deref e) then Some (skip_digits e) else None
    else Some frac_rest
  else None.

(** [%d] *)
Definition scan_d (s : string) : option (Z * string) :=
  '(v, rest) ← strtol 10 s; Some (wrap32 (long_clamp v), rest).

(** [%m[^\n]] after blanks *)
Definition scan_line (s : string) : option string :=
  let m := take_while (fun c => negb (bool_decide (c = newline))) (skip_while isspace s) in
  if decide (m = EmptyString) then None else Some m.

Definition reply_class (code : Z) : SRCPReplyCodeType :=
  if 500 <=? code then ERROR
  else if 400 <=? code then ERROR
  else if 200 <=? code then OK
  else if 100 <=? code then INFO
  else ERROR.

(** the constructor; a member that [sscanf] did not set is used all the same *)
Definition SRCPReply_new (message : string) : outcome SRCPReply :=
  match scan_lf (c_str message) with
  | None => Err (UB "SRCPReply: indeterminate value")
  | Some rest =>
      match scan_d rest with
      | None => Err (UB "SRCPReply: indeterminate value")
      | Some (code, rest) =>
          match scan_line rest with
          | None => Err (UB "SRCPReply: indeterminate value")
          | Some m => Ok (mkReply (reply_class code) code m)
          end
      end
  end.

(** ** The session *)

Section SRCP.
Context {D : Type} (answer : string -> D -> option string * D).

(** [class SRCP] with the static [powered]; [srcp_sent] are the lines written *)
Record SRCP : Type := mkSRCP {
  srcp_daemon : D;
  srcp_sent : list string;
  powered : bool;
}.

(** [sendMessage] with [readReply] *)
Definition srcp_sendMessage (message : string) : M SRCP SRCPReply := fun s =>
  let '(r, d) := answer message (srcp_daemon s) in
  (match r with
   | None => Err (Abort "error reading reply")
   | Some buffer =>
       if decide (buffer = EmptyString) then Err (Abort "error reading reply")
       else if decide (String.length buffer < 1024)%nat then SRCPReply_new buffer
       else Err (UB "buffer[n]")
   end, mkSRCP d (srcp_sent s ++ [message]) (powered s)).

Definition set_powered (b : bool) : M SRCP unit := modify (fun s => mkSRCP (srcp_daemon s) (srcp_sent s) b).

Definition srcp_pwrOn : M SRCP unit := srcp_sendMessage "SET 1 POWER ON";; set_powered true.
Definition srcp_pwrOff : M SRCP unit := srcp_sendMessage "SET 1 POWER OFF";; set_powered false.

(** the constructor after [connect] *)
Definition must_ok (message : string) : M SRCP unit :=
  reply ← srcp_sendMessage message;
  match reply_type reply with OK => mret tt | _ => fail (Abort "error setting protocol") end.
Definition SRCP_connect : M SRCP unit :=
  must_ok "SET PROTOCOL SRCP 0.8";;
  must_ok "SET CONNECTIONMODE SRCP COMMAND";;
  must_ok "GO";;
  srcp_pwrOn.

Definition dec (z : Z) : string := to_string z.
(** [snprintf] into a buffer of [n] characters with the terminator *)
Definition trunc (n : nat) (s : string) : string := String.substring 0 (n - 1) s.

Definition init_text (addr nFahrstufen nFunc : Z) : string :=
  trunc 1024 ("INIT 1 GL " +:+ (dec addr +:+ (" N " +:+ (dec (if addr <? 128 then 1 else 2) +:+ (" " +:+
    (dec nFahrstufen +:+ (" " +:+ dec nFunc))))))).
Definition sendLocoInit (addr nFahrstufen nFunc : Z) : M SRCP SRCPReply :=
  srcp_sendMessage (init_text addr nFahrstufen nFunc).

(** the functions behind the command, one [snprintf] each *)
Fixpoint func_text (k i : nat) (func : func_array) (buf : string) : outcome string :=
  match k with
  | O => Ok buf
  | S k' =>
      b ← read_func func i;
      func_text k' (S i) func (trunc 255 (buf +:+ (if (b : bool) then " 1" else " 0")))
  end.
Definition speed_text (addr dir nFahrstufen speed nFunc : Z) (func : func_array) : outcome string :=
  func_text (Z.to_nat nFunc) 0 func
    (trunc 255 ("SET 1 GL " +:+ (dec addr +:+ (" " +:+ (dec dir +:+ (" " +:+ (dec speed +:+ (" " +:+ (dec nFahrstufen +:+ " "))))))))).
Definition sendLocoSpeed (addr dir nFahrstufen speed nFunc : Z) (func : func_array) : M SRCP SRCPReply :=
  text ← lift (speed_text addr dir nFahrstufen speed nFunc func);
  srcp_sendMessage text.

Definition srcp_sendPOM (addr cv value : Z) : M SRCP SRCPReply :=
  srcp_sendMessage (trunc 255 ("SET 1 SM " +:+ (dec addr +:+ (" CV " +:+ (dec cv +:+ (" " +:+ dec value)))))).
Definition srcp_sendPOMBit (addr cv bitNr : Z) (value : bool) : M SRCP SRCPReply :=
  srcp_sendMessage (trunc 255 ("SET 1 SM " +:+ (dec addr +:+ (" CVBIT " +:+ (dec cv +:+ (" " +:+
    (dec bitNr +:+ (" " +:+ dec (Z.b2z value))))))))).

(** [getInfo]: the answer is only printed; [dir] and [dccSpeed] stay as they are *)
Definition getInfo (addr : Z) : M SRCP bool :=
  reply ← srcp_sendMessage (trunc 255 ("GET 1 GL " +:+ dec addr));
  mret (match reply_type reply with INFO => true | _ => false end).

(** ** The driver *)

Abbreviation W := (list lokdef_t * SRCP)%type.
Definition on_srcp {A} (c : M SRCP A) : M W A := zoom snd (fun p w => (w.1, p)) c.

Definition srcp_lok (i : nat) : M W lokdef_t :=
  t ← gets fst; match t !! i with Some d => mret d | None => fail (UB "lokdef[i]") end.
Definition srcp_upd (i : nat) (f : lokdef_t -> lokdef_t) : M W unit :=
  modify (fun w => (alter f i w.1, w.2)).

(** the number of speed steps of the decoder *)
Definition speed_steps (d : lokdef_t) : Z :=
  if negb (Z.land (flags d) F_DEC14 =? 0) then 14
  else if negb (Z.land (flags d) F_DEC28 =? 0) then 28 else 128.
Definition dcc_speed (d : lokdef_t) : outcome Z :=
  a ← c_abs (currspeed d); n ← int_op (a * speed_steps d); Ok (Z.quot n 255).

(** the first command for a locomotive announces it to the daemon *)
Definition srcp_init_loco (i : nat) (nFahrstufen : Z) : M W unit :=
  d ← srcp_lok i;
  if initDone d then mret tt
  else
    replyInit ← on_srcp (sendLocoInit (addr d) nFahrstufen (nFunc d));
    match reply_type replyInit with
    | OK => srcp_upd i (set_initDone true);; on_srcp (getInfo (addr d));; mret tt
    | _ => if reply_code replyInit =? 412 then srcp_upd i (set_currspeed (-1)) else mret tt
    end.

Definition srcp_sendLoco (addr_index : Z) (emergencyStop : bool) : M W unit :=
  if addr_index <? 0 then fail (UB "lokdef[i]")
  else
    let i := Z.to_nat addr_index in
    d ← srcp_lok i;
    let dir := if emergencyStop then 2 else if currdir d <? 0 then 0 else 1 in
    let nFahrstufen := speed_steps d in
    dccSpeed ← lift (dcc_speed d);
    func ← lift (copy_func (Z.to_nat (nFunc d)) 0 (Lokdef.func d) (repeat None (Z.to_nat MAX_NFUNC)));
    srcp_init_loco i nFahrstufen;;
    on_srcp (sendLocoSpeed (addr d) dir nFahrstufen dccSpeed (nFunc d) func);;
    mret tt.

(** [while(lokdef[addr_index].addr)] of [fullstop] over the rest of the table *)
Fixpoint fullstop_loop (k : nat) (clientID : Z) (stopAll : bool) (i : nat) : M W unit :=
  match k with
  | O => fail (UB "lokdef[i]")
  | S k' =>
      d ← srcp_lok i;
      if addr d =? 0 then mret tt
      else
        (if (stopAll && negb (currspeed d =? 0)) || (negb stopAll && (lastClientID d =? clientID)) then
           srcp_upd i (set_currspeed 0);;
           srcp_sendLoco (Z.of_nat i) true;;
           srcp_upd i (set_lastClientID 0)
         else mret tt);;
        fullstop_loop k' clientID stopAll (S i)
  end.
Definition srcp_fullstop (clientID : Z) (stopAll emergencyStop : bool) : M W unit :=
  t ← gets fst; fullstop_loop (length t) clientID stopAll 0.

Definition pom_result (value : Z) (reply : SRCPReply) : Z :=
  match reply_type reply with OK => value | _ => -1 end.

#[export] Instance SRCP_hardware : Hardware SRCP := {
  sendLoco := srcp_sendLoco;
  fullstop := srcp_fullstop;
  pwrOn := on_srcp srcp_pwrOn;
  pwrOff := on_srcp srcp_pwrOff;
  getPowerState := gets (fun w => powered w.2);
  clientConnected := mret tt;
  clientDisconnected all := mret tt;
  sendPOM addr cv value :=
    if cv <? 0 then mret (-1) else reply ← on_srcp (srcp_sendPOM addr cv value); mret (pom_result value reply);
  sendPOMBit addr cv bitNr value :=
    reply ← on_srcp (srcp_sendPOMBit addr cv bitNr value); mret (pom_result (Z.b2z value) reply);
}.
End SRCP.
Arguments SRCP D : clear implicits.

(** ** The driver laws *)

Lemma alter_at {A} (f : A -> A) (i : nat) (t : list A) d : t !! i = Some d -> alter f i t = <[i:=f d]> t.
Proof.
  intros Ht. apply list_eq. intros j. destruct (decide (i = j)) as [<-|].
  - rewrite list_lookup_alter_eq, list_lookup_insert_eq by (by eapply lookup_lt_Some). by rewrite Ht.
  - by rewrite list_lookup_alter_ne, list_lookup_insert_ne.
Qed.

Section laws.
Context {D : Type} (answer : string -> D -> option string * D) (addrs : list Z).
Abbreviation ok c := (driver_ok (H:=SRCP D) addrs c).
Abbreviation valid i := ((i < length addrs)%nat).

Lemma SRCPReply_safe m : safe_result (SRCPReply_new m).
Proof. unfold SRCPReply_new. repeat case_match; (done || solve_safe). Qed.

Lemma sendMessage_safe m (s : SRCP D) : safe_result (srcp_sendMessage answer m s).1.
Proof.
  unfold srcp_sendMessage. destruct (answer m (srcp_daemon s)) as [[b|] d]; [|done]. cbn.
  repeat case_decide; [done|apply SRCPReply_safe|solve_safe].
Qed.

Lemma on_srcp_ok {A} (c : M (SRCP D) A) : (forall s, safe_result (c s).1) -> ok (on_srcp c).
Proof.
  intros Hc w Hw. unfold on_srcp, zoom. specialize (Hc w.2). destruct (c w.2) as [[a|e] p]; cbn in *; by split.
Qed.

Lemma safe_seq {A B} (c : M (SRCP D) A) (f : A -> M (SRCP D) B) :
  (forall s, safe_result (c s).1) -> (forall a s, safe_result (f a s).1) -> forall s, safe_result ((c ≫= f) s).1.
Proof. intros Hc Hf s. specialize (Hc s). unfold mbind, M_bind. destruct (c s) as [[a|e] s']; [apply Hf|done]. Qed.

Lemma on_message m {A} (f : SRCPReply -> M (list lokdef_t * SRCP D) A) Q :
  (forall r, keeps (fun w => table_ok addrs w.1) table_safe (f r) Q) ->
  keeps (fun w => table_ok addrs w.1) table_safe (r ← on_srcp (srcp_sendMessage answer m); f r) Q.
Proof. intros Hf. eapply keeps_bind; [apply on_srcp_ok, sendMessage_safe|]. intros r _. apply Hf. Qed.

Lemma srcp_lok_ok i : valid i ->
  keeps (fun w => table_ok addrs w.1) table_safe (srcp_lok (D:=D) i) lok_ok.
Proof.
  intros Hi w Hw. destruct (table_ok_index addrs w.1 (Z.of_nat i) Hw ltac:(lia)) as (d & Hd & Hok).
  rewrite Nat2Z.id in Hd. destruct (locos_lookup _ _ _ Hd) as [Ht _].
  unfold srcp_lok. rewrite (run_bind _ _ _ w.1 w) by done. rewrite Ht. by split.
Qed.

Lemma srcp_upd_ok i f : valid i -> (forall d, addr (f d) = addr d) -> (forall d, lok_ok d -> lok_ok (f d)) -> ok (srcp_upd i f).
Proof.
  intros Hi Hf Hk w Hw. destruct (table_ok_index addrs w.1 (Z.of_nat i) Hw ltac:(lia)) as (d & Hd & Hok).
  rewrite Nat2Z.id in Hd. destruct (locos_lookup _ _ _ Hd) as [Ht _]. cbn. split; [|done].
  rewrite (alter_at f i w.1 d Ht). eapply table_ok_insert; [done|exact Hd|apply Hf|by apply Hk].
Qed.

Lemma lok_ok_speed v d : -255 <= v <= 255 -> lok_ok d -> lok_ok (set_currspeed v d).
Proof. intros Hv [[W1 W2] Hs]. split; [split; [exact W1|exact W2]|exact Hv]. Qed.

Lemma srcp_lift_ok {A} (o : outcome A) : safe_result o -> ok (lift o).
Proof. intros Ho. apply keeps_lift; [done|]. by intros e ->. Qed.

Lemma dcc_speed_safe d : safe_result (dcc_speed d).
Proof.
  unfold dcc_speed, c_abs. apply safe_bind; [destruct (_ =? _); [solve_safe|done]|]. intros a.
  by apply safe_bind; [apply int_op_safe|].
Qed.

Lemma func_text_safe k i fa buf : safe_result (func_text k i fa buf).
Proof.
  revert i buf. induction k as [|k IH]; intros i buf; [done|]. cbn. apply safe_bind; [|intros b; apply IH].
  unfold read_func. repeat case_match; (done || solve_safe).
Qed.

Lemma srcp_init_ok i n : valid i -> ok (srcp_init_loco answer i n).
Proof.
  intros Hi. unfold srcp_init_loco. eapply keeps_bind; [by apply srcp_lok_ok|]. intros d Hd.
  destruct (initDone d); [by apply keeps_ret|]. apply on_message. intros r.
  assert (ok (if reply_code r =? 412 then srcp_upd i (set_currspeed (-1)) else mret tt)) as Hbad.
  { destruct (_ =? 412); [|by apply keeps_ret]. apply srcp_upd_ok; [done|done|]. intros d'. apply lok_ok_speed. lia. }
  destruct (reply_type r); [done| |done].
  apply keeps_seq; [apply srcp_upd_ok; [done|done|]; intros d' [[W1 W2] Hs]; done|].
  apply keeps_seq; [|by apply keeps_ret]. apply on_srcp_ok. unfold getInfo.
  apply safe_seq; [apply sendMessage_safe|done].
Qed.

Lemma srcp_sendLoco_ok i e : 0 <= i < Z.of_nat (length addrs) -> ok (srcp_sendLoco answer i e).
Proof.
  intros Hi. unfold srcp_sendLoco. rewrite (proj2 (Z.ltb_ge _ _)) by lia.
  eapply keeps_bind; [apply srcp_lok_ok; lia|]. intros d [[W1 W2] Hs].
  eapply keeps_bind; [apply srcp_lift_ok, dcc_speed_safe|]. intros v _.
  eapply keeps_bind; [apply srcp_lift_ok, copy_func_safe; lia|]. intros fa _.
  apply keeps_seq; [apply srcp_init_ok; lia|].
  apply keeps_seq; [|by apply keeps_ret]. apply on_srcp_ok.
  unfold sendLocoSpeed. apply safe_seq; [intros ?; apply func_text_safe|]. intros text s. apply sendMessage_safe.
Qed.

Lemma srcp_lok_end (w : list lokdef_t * SRCP D) : table_ok addrs w.1 ->
  exists d, srcp_lok (length addrs) w = (Ok d, w) /\ addr d = 0.
Proof.
  intros [A T L]. destruct (locos_end w.1 T) as (d & Hd & H0).
  assert (length (locos w.1) = length addrs) as Hlen by (by rewrite <- A, length_map). rewrite Hlen in Hd.
  exists d. split; [|done]. unfold srcp_lok. rewrite (run_bind _ _ _ w.1 w) by done. by rewrite Hd.
Qed.

Lemma fullstop_loop_ok k c a i : (i <= length addrs)%nat -> (length addrs - i < k)%nat -> ok (fullstop_loop answer k c a i).
Proof.
  revert i. induction k as [|k IH]; intros i Hi Hk; [lia|]. cbn [fullstop_loop].
  destruct (decide (i = length addrs)) as [->|Hne].
  - intros w Hw. destruct (srcp_lok_end w Hw) as (d & Hd & H0). rewrite (run_bind _ _ _ d w) by done. by rewrite H0.
  - eapply keeps_bind; [apply srcp_lok_ok; lia|]. intros d Hd. destruct (addr d =? 0); [by apply keeps_ret|].
    apply keeps_seq; [|apply IH; lia]. destruct (_ || _); [|by apply keeps_ret].
    apply keeps_seq; [apply srcp_upd_ok; [lia|done|]; intros d'; apply lok_ok_speed; lia|].
    apply keeps_seq; [apply srcp_sendLoco_ok; lia|].
    apply srcp_upd_ok; [lia|done|]. intros d' [[W1 W2] Hs]; done.
Qed.

Lemma srcp_fullstop_ok c a e : ok (srcp_fullstop answer c a e).
Proof.
  intros w Hw. unfold srcp_fullstop. rewrite (run_bind _ _ _ w.1 w) by done.
  apply (fullstop_loop_ok (length w.1) c a 0); [lia| |done].
  destruct Hw as [A T L]. destruct (locos_end w.1 T) as (d & Hd & _). apply lookup_lt_Some in Hd.
  rewrite <- A, length_map. lia.
Qed.
End laws.

#[export] Instance SRCP_laws {D} (answer : string -> D -> option string * D) : HardwareLaws (SRCP D) (H0 := SRCP_hardware answer).
Proof.
  assert (forall addrs m v, driver_ok (H:=SRCP D) addrs
            (reply ← on_srcp (srcp_sendMessage answer m); mret (pom_result v reply))) as Hpom.
  { intros. apply on_message. intros r. by apply keeps_ret. }
  split; intros; cbn; try (by apply keeps_ret); try (by apply (keeps_gets _ _ _ (fun _ => True))).
  - by apply srcp_sendLoco_ok.
  - apply srcp_fullstop_ok.
  - apply on_srcp_ok. unfold srcp_pwrOn. by apply safe_seq; [apply sendMessage_safe|].
  - apply on_srcp_ok. unfold srcp_pwrOff. by apply safe_seq; [apply sendMessage_safe|].
  - destruct (c <? 0); [by apply keeps_ret|apply Hpom].
  - apply Hpom.
Qed.

(** ** Theorems *)

(** a daemon that answers every command with a proper line and knows all
    locomotives *)
Definition polite {D} (answer : string -> D -> option string * D) : Prop :=
  forall m d, exists b d', answer m d = (Some b, d') /\ b <> EmptyString /\ (String.length b < 1024)%nat /\
    exists r, SRCPReply_new b = Ok r /\ reply_code r <> 412.

(** the emergency command for a locomotive *)
Definition emergency_text (d : lokdef_t) : outcome string :=
  fa ← copy_func (Z.to_nat (nFunc d)) 0 (Lokdef.func d) (repeat None (Z.to_nat MAX_NFUNC));
  speed_text (addr d) 2 (speed_steps d) 0 (nFunc d) fa.

Section polite.
Context {D : Type} (answer : string -> D -> option string * D) (Hpolite : polite answer).
Implicit Types (s : SRCP D).

Lemma sendMessage_run m s : exists r s', srcp_sendMessage answer m s = (Ok r, s') /\
  srcp_sent s' = srcp_sent s ++ [m] /\ reply_code r <> 412.
Proof.
  destruct (Hpolite m (srcp_daemon s)) as (b & d' & Ha & Hb & Hl & r & Hr & H412).
  exists r, (mkSRCP d' (srcp_sent s ++ [m]) (powered s)). unfold srcp_sendMessage. rewrite Ha, decide_False, decide_True by done.
  by rewrite Hr.
Qed.

Lemma func_text_ok k i fa buf :
  (forall j, (i <= j < i + k)%nat -> exists b, fa !! j = Some (Some b)) -> exists text, func_text k i fa buf = Ok text.
Proof.
  revert i buf. induction k as [|k IH]; intros i buf Hfa; [by eexists|]. cbn.
  destruct (Hfa i ltac:(lia)) as [b Hb]. unfold read_func. rewrite Hb. cbn. apply IH. intros j Hj. apply Hfa. lia.
Qed.

Lemma loco_text d dir n speed : lok_wf d ->
  exists fa text, copy_func (Z.to_nat (nFunc d)) 0 (Lokdef.func d) (repeat None (Z.to_nat MAX_NFUNC)) = Ok fa /\
    speed_text (addr d) dir n speed (nFunc d) fa = Ok text.
Proof.
  intros W. destruct (loco_func_array d W) as (fa & Hfa & Hl & Hk). pose proof W as [W1 W2].
  destruct (func_text_ok (Z.to_nat (nFunc d)) 0 fa (trunc 255 ("SET 1 GL " +:+ (dec (addr d) +:+ (" " +:+ (dec dir +:+
    (" " +:+ (dec speed +:+ (" " +:+ (dec n +:+ " ")))))))))) as [text Ht]; [|by exists fa, text].
  intros j Hj. rewrite Hk by lia. rewrite decide_True by lia.
  destruct (lookup_lt_is_Some_2 (Lokdef.func d) j) as [f ->]; [lia|]. by eexists.
Qed.

Lemma srcp_lok_run i (t : list lokdef_t) s d : t !! i = Some d -> srcp_lok i (t, s) = (Ok d, (t, s)).
Proof. intros Hd. unfold srcp_lok. rewrite (run_bind _ _ _ t (t, s)) by done. by rewrite Hd. Qed.

Lemma init_loco_run i n (t : list lokdef_t) s d : t !! i = Some d ->
  exists d' s' l, srcp_init_loco answer i n (t, s) = (Ok tt, (<[i:=d']> t, s')) /\
    srcp_sent s' = srcp_sent s ++ l /\ (d' = d \/ d' = set_initDone true d).
Proof.
  intros Hd. unfold srcp_init_loco. rewrite (run_bind _ _ _ d (t, s)) by (by apply srcp_lok_run).
  assert (<[i:=d]> t = t) as Hsame by (by apply list_insert_id).
  destruct (initDone d).
  { exists d, s, []. rewrite Hsame, app_nil_r. split_and!; auto. }
  unfold sendLocoInit. set (m := init_text _ _ _).
  destruct (sendMessage_run m s) as (r & s1 & R1 & S1 & H412).
  rewrite (run_bind _ _ _ r (t, s1)) by (unfold on_srcp, zoom; cbn; by rewrite R1).
  destruct (reply_type r).
  - rewrite (proj2 (Z.eqb_neq _ _)) by done. exists d, s1, [m]. rewrite Hsame. split_and!; auto.
  - destruct (sendMessage_run (trunc 255 ("GET 1 GL " +:+ dec (addr d))) s1) as (r' & s2 & R2 & S2 & _).
    exists (set_initDone true d), s2, ([m] ++ [trunc 255 ("GET 1 GL " +:+ dec (addr d))]).
    split_and!; [|by rewrite S2, S1, <- app_assoc|by right].
    rewrite (run_bind _ _ _ tt (<[i:=set_initDone true d]> t, s1)).
    + erewrite run_bind; [reflexivity|]. unfold on_srcp, zoom, getInfo. cbn. unfold mbind, M_bind. by rewrite R2.
    + unfold srcp_upd, modify. cbn. by rewrite (alter_at _ _ _ _ Hd).
  - rewrite (proj2 (Z.eqb_neq _ _)) by done. exists d, s1, [m]. rewrite Hsame. split_and!; auto.
Qed.

(** an emergency command for a locomotive that was set to speed 0 *)
Lemma sendLoco_emergency i (t : list lokdef_t) s d :
  t !! i = Some d -> lok_wf d -> currspeed d = 0 ->
  exists d' s' l text, srcp_sendLoco answer (Z.of_nat i) true (t, s) = (Ok tt, (<[i:=d']> t, s')) /\
    srcp_sent s' = srcp_sent s ++ l /\ emergency_text d = Ok text /\ text ∈ l /\ (d' = d \/ d' = set_initDone true d).
Proof.
  intros Hd W Hs. unfold srcp_sendLoco. rewrite (proj2 (Z.ltb_ge _ _)) by lia. rewrite Nat2Z.id. cbv zeta.
  rewrite (run_bind _ _ _ d (t, s)) by (by apply srcp_lok_run).
  rewrite (run_bind _ _ _ 0 (t, s)) by (apply run_lift; unfold dcc_speed; by rewrite Hs).
  destruct (loco_text d 2 (speed_steps d) 0 W) as (fa & text & Hfa & Htext).
  rewrite (run_bind _ _ _ fa (t, s)) by (by apply run_lift).
  destruct (init_loco_run i (speed_steps d) t s d Hd) as (d' & s1 & l1 & R1 & S1 & Hd').
  rewrite (run_bind _ _ _ tt _ R1).
  destruct (sendMessage_run text s1) as (r & s2 & R2 & S2 & _).
  exists d', s2, (l1 ++ [text]), text. split_and!.
  - erewrite run_bind; [reflexivity|]. unfold on_srcp, zoom. cbn. unfold sendLocoSpeed.
    rewrite (run_bind _ _ _ text s1) by (by apply run_lift). by rewrite R2.
  - by rewrite S2, S1, app_assoc.
  - unfold emergency_text. by rewrite Hfa.
  - set_solver.
  - done.
Qed.

(** which locomotives [fullstop] stops *)
Definition is_stopped (clientID : Z) (stopAll : bool) (d : lokdef_t) : bool :=
  (stopAll && negb (currspeed d =? 0)) || (negb stopAll && (lastClientID d =? clientID)).

(** what becomes of a locomotive, with the lines [l] that were sent *)
Definition stop_effect (clientID : Z) (stopAll : bool) (l : list string) (d d' : lokdef_t) : Prop :=
  if is_stopped clientID stopAll d then
    currspeed d' = 0 /\ lastClientID d' = 0 /\ addr d' = addr d /\ exists text, emergency_text d = Ok text /\ text ∈ l
  else d' = d.

Lemma stop_effect_more c a l l' d d' : stop_effect c a l d d' -> stop_effect c a (l ++ l') d d'.
Proof.
  unfold stop_effect. destruct (is_stopped c a d); [|done]. intros (H1 & H2 & H3 & text & H4 & H5).
  split_and!; try done. exists text. set_solver.
Qed.

Lemma stop_effect_before c a l l' d d' : stop_effect c a l d d' -> stop_effect c a (l' ++ l) d d'.
Proof.
  unfold stop_effect. destruct (is_stopped c a d); [|done]. intros (H1 & H2 & H3 & text & H4 & H5).
  split_and!; try done. exists text. set_solver.
Qed.

(** one locomotive of the loop *)
Lemma stop_one c a i (t : list lokdef_t) s d :
  t !! i = Some d -> lok_wf d ->
  exists d' s' l,
    (if is_stopped c a d then srcp_upd i (set_currspeed 0);; srcp_sendLoco answer (Z.of_nat i) true;; srcp_upd i (set_lastClientID 0)
     else mret tt) (t, s) = (Ok tt, (<[i:=d']> t, s')) /\
    srcp_sent s' = srcp_sent s ++ l /\ stop_effect c a l d d'.
Proof.
  intros Hd W. unfold stop_effect. destruct (is_stopped c a d) eqn:E.
  2:{ exists d, s, []. rewrite list_insert_id by done. by rewrite app_nil_r. }
  assert (i < length t)%nat as Hi by (by eapply lookup_lt_Some).
  set (d0 := set_currspeed 0 d). set (t1 := <[i:=d0]> t).
  assert (t1 !! i = Some d0) as Hd0 by (by apply list_lookup_insert_eq).
  assert (lok_wf d0) as W0 by (destruct W; by split).
  destruct (sendLoco_emergency i t1 s d0 Hd0 W0 eq_refl) as (d1 & s1 & l & text & R & S1 & Ht & Hin & Hd1).
  exists (set_lastClientID 0 d1), s1, l. split_and!; [|done|..].
  - rewrite (run_bind _ _ _ tt (t1, s)) by (unfold srcp_upd, modify; cbn; by rewrite (alter_at _ _ _ _ Hd)).
    rewrite (run_bind _ _ _ tt _ R). unfold srcp_upd, modify. cbn.
    rewrite (alter_at _ _ _ d1) by (apply list_lookup_insert_eq; unfold t1; by rewrite length_insert).
    unfold t1. by rewrite !list_insert_insert_eq.
  - by destruct Hd1 as [->| ->].
  - done.
  - by destruct Hd1 as [->| ->].
  - exists text. split; [|done]. rewrite <- Ht. done.
Qed.

Lemma fullstop_loop_spec k c a i n (t : list lokdef_t) s z :
  t !! n = Some z -> addr z = 0 -> (i <= n)%nat -> (n - i < k)%nat ->
  (forall j, (i <= j < n)%nat -> exists d, t !! j = Some d /\ addr d <> 0 /\ lok_wf d) ->
  exists t' s' l, fullstop_loop answer k c a i (t, s) = (Ok tt, (t', s')) /\ srcp_sent s' = srcp_sent s ++ l /\
    (forall j, (j < i \/ n <= j)%nat -> t' !! j = t !! j) /\
    (forall j d, (i <= j < n)%nat -> t !! j = Some d -> exists d', t' !! j = Some d' /\ stop_effect c a l d d').
Proof.
  revert i t s. induction k as [|k IH]; intros i t s Hz Hz0 Hi Hk Hlok; [lia|]. cbn [fullstop_loop].
  destruct (decide (i = n)) as [->|Hne].
  - rewrite (run_bind _ _ _ z (t, s)) by (by apply srcp_lok_run). rewrite Hz0. exists t, s, [].
    rewrite app_nil_r. split_and!; try done. intros; lia.
  - destruct (Hlok i ltac:(lia)) as (d & Hd & Ha & W).
    rewrite (run_bind _ _ _ d (t, s)) by (by apply srcp_lok_run). rewrite (proj2 (Z.eqb_neq _ _)) by done.
    destruct (stop_one c a i t s d Hd W) as (d1 & s1 & l1 & R1 & S1 & E1).
    assert (i < length t)%nat as Hlt by (by eapply lookup_lt_Some).
    rewrite (run_bind _ _ _ tt _ R1).
    destruct (IH (S i) (<[i:=d1]> t) s1) as (t' & s' & l & R & S2 & Ho & He); [by rewrite list_lookup_insert_ne by lia|done|lia|lia|..].
    { intros j Hj. rewrite list_lookup_insert_ne by lia. apply Hlok. lia. }
    exists t', s', (l1 ++ l). split_and!; [done|by rewrite S2, S1, app_assoc|..].
    + intros j Hj. rewrite Ho by lia. rewrite list_lookup_insert_ne by lia. done.
    + intros j e Hj He'. destruct (decide (j = i)) as [->|].
      * rewrite Ho by lia. rewrite list_lookup_insert_eq by done. exists d1. split; [done|].
        assert (e = d) as -> by congruence. by apply stop_effect_more.
      * destruct (He j e) as (d' & Hd' & Heff); [lia|by rewrite list_lookup_insert_ne by lia|].
        exists d'. split; [done|]. by apply stop_effect_before.
Qed.
End polite.

(** A full stop of all locomotives reaches every moving one: with a daemon
    that answers properly, each locomotive that moved gets the emergency
    command (direction 2, speed 0, its functions), its speed in the table is 0
    and it has no owner; locomotives that stood are left alone.  A stop on
    behalf of one client does the same to the locomotives this client drove
    last, and to no other. *)
Theorem srcp_fullstop_reaches {D} (answer : string -> D -> option string * D) addrs t (s : SRCP D) c a e :
  polite answer -> table_ok addrs t ->
  exists t' s' l, srcp_fullstop answer c a e (t, s) = (Ok tt, (t', s')) /\ srcp_sent s' = srcp_sent s ++ l /\
    forall i d, locos t !! i = Some d -> exists d', t' !! i = Some d' /\ stop_effect c a l d d' /\
      (a = true -> currspeed d' = 0).
Proof.
  intros Hp [A T L]. unfold srcp_fullstop. rewrite (run_bind _ _ _ t (t, s)) by done.
  destruct (locos_end t T) as (z & Hz & Hz0). pose proof (lookup_lt_Some _ _ _ Hz) as Hlt.
  destruct (fullstop_loop_spec answer Hp (length t) c a 0 (length (locos t)) t s z) as (t' & s' & l & R & S1 & _ & He); [done|done|lia|lia|..].
  { intros j Hj. destruct (lookup_lt_is_Some_2 (locos t) j) as [d Hd]; [lia|]. destruct (locos_lookup _ _ _ Hd) as [Ht Ha].
    exists d. split_and!; [done..|]. eapply Forall_lookup_1 in L; [|exact Hd]. apply L. }
  exists t', s', l. split_and!; [done..|]. intros i d Hd. destruct (locos_lookup _ _ _ Hd) as [Ht _].
  destruct (He i d) as (d' & Hd' & Heff); [|done|]. { apply lookup_lt_Some in Hd. lia. }
  exists d'. split_and!; [done..|]. intros ->. unfold stop_effect, is_stopped in Heff. cbn in Heff. rewrite orb_false_r in Heff.
  destruct (Z.eqb_spec (currspeed d) 0); cbn in Heff; [by subst|apply Heff].
Qed.

(** a daemon that acknowledges everything *)
Definition ack : string := "1287346.125 200 OK" +:+ String newline EmptyString.
Definition ack_daemon (m : string) (d : unit) : option string * unit := (Some ack, d).

Lemma ack_polite : polite ack_daemon.
Proof. intros m d. exists ack, d. split_and!; [done|done|vm_compute; lia|]. by exists (mkReply OK 200 "OK"). Qed.

Lemma srcp_fullstop_reaches_witness :
  let t := [sample_lok 100 (-1); lokdef0] in
  exists t' s' l, srcp_fullstop ack_daemon 0 true true (t, mkSRCP tt [] true) = (Ok tt, (t', s')) /\
    srcp_sent s' = l /\ exists d', t' !! 0%nat = Some d' /\ currspeed d' = 0.
Proof.
  intros t. destruct (srcp_fullstop_reaches ack_daemon [3] t (mkSRCP tt [] true) 0 true true) as (t' & s' & l & R & S1 & He).
  - apply ack_polite.
  - split; [reflexivity| |].
    + exists lokdef0. split; [|reflexivity]. apply list_elem_of_lookup. by exists 1%nat.
    + repeat constructor; vm_compute; discriminate.
  - exists t', s', l. split; [exact R|]. split; [exact S1|].
    destruct (He 0%nat (sample_lok 100 (-1)) eq_refl) as (d' & H1 & _ & H3). exists d'. split; [exact H1|exact (H3 eq_refl)].
Defined.

(** The speed of the table, 0 to 255 in either direction, is scaled to the
    steps of the decoder: a locomotive that stands gets step 0, full speed is
    the last step, and a faster locomotive never gets a lower step. *)
Theorem dcc_speed_range d d' :
  lok_ok d -> lok_ok d' -> speed_steps d' = speed_steps d -> Z.abs (currspeed d) <= Z.abs (currspeed d') ->
  exists v v', dcc_speed d = Ok v /\ dcc_speed d' = Ok v' /\ 0 <= v <= v' /\ v' <= speed_steps d /\
    (currspeed d = 0 -> v = 0) /\ (Z.abs (currspeed d') = 255 -> v' = speed_steps d).
Proof.
  intros [_ Hs] [_ Hs'] Hsteps Hle.
  assert (14 <= speed_steps d <= 128) as Hn by (unfold speed_steps; repeat case_match; lia).
  assert (forall d, -255 <= currspeed d <= 255 -> 14 <= speed_steps d <= 128 ->
            dcc_speed d = Ok (Z.abs (currspeed d) * speed_steps d / 255)) as Hd.
  { intros e He Hn'. unfold dcc_speed, c_abs, int_op. rewrite (proj2 (Z.eqb_neq _ _)) by lia. cbn [mbind outcome_bind].
    rewrite (proj2 (int32b_spec _)) by (unfold is_int32; nia). cbn [mbind outcome_bind]. f_equal. apply Z.quot_div_nonneg; nia. }
  exists (Z.abs (currspeed d) * speed_steps d / 255), (Z.abs (currspeed d') * speed_steps d' / 255).
  rewrite (Hd d), (Hd d') by lia. rewrite Hsteps. split_and!; try done.
  - apply Z.div_pos; nia.
  - apply Z.div_le_mono; nia.
  - apply Z.div_le_upper_bound; nia.
  - intros ->. reflexivity.
  - intros ->. rewrite Z.mul_comm. by apply Z.div_mul.
Qed.

Lemma dcc_speed_range_witness : exists v v', dcc_speed (sample_lok 100 1) = Ok v /\ dcc_speed (sample_lok (-255) 1) = Ok v' /\ v' = 28.
Proof.
  destruct (dcc_speed_range (sample_lok 100 1) (sample_lok (-255) 1)) as (v & v' & H1 & H2 & _ & _ & _ & H3);
    [by apply sample_lok_ok|by apply sample_lok_ok|reflexivity|vm_compute; discriminate|].
  exists v, v'. split; [exact H1|]. split; [exact H2|]. apply H3. reflexivity.
Defined.

(** replies that the parser does not survive: one that fills the buffer and
    one without text *)
Lemma srcp_bad_replies :
  (srcp_sendMessage (fun m d => (Some (String.concat EmptyString (repeat "12345678" 128)), d)) "GO" (mkSRCP tt [] true)).1
    = Err (UB "buffer[n]") /\
  SRCPReply_new ("1287346.125 200" +:+ String newline EmptyString) = Err (UB "SRCPReply: indeterminate value").
Proof. by vm_compute. Qed.
