(* ===== verification/ESP32MAS.v ===== *)
(** * esp32-server: ESP32_MAS, ESP32_MAS_Speed and the EEPROM settings

    The sound player of the ESP32 locomotive: the control operations and the
    mixer of [ESP32_MAS], and the engine sound of [ESP32_MAS_Speed], which picks
    the next file whenever the player has reached the end of one.  The player
    task is in Player.v; what it calls back is here: [openFile] at the end of a
    file, the mixer for every sample, the callback of a finished file. *)

From S2P Require Import Prelude StdMap CString Utils Lokdef Hardware.

(** the callbacks that are registered: none, or the one of the horn *)
Inductive play_done : Type := no_callback | disable_F1.

(** [class ESP32_MAS_Speed : ESP32_MAS] with the settings memory; the object is
    global, so members without an initialiser are zero. *)
Record Audio_t : Type := mkAudio {
  Audio_File : list string;
  I2S_noDAC : bool;
  Volume : Z;
  Channel : list Z;       (** 0 STOP, 1 BRAKE, 2 PLAY, 3 LOOP, 4 RUN, 5 OUT, 6 end of file *)
  Gain : list Z;
  playDoneCallback : list play_done;
  Audio_Player_run : bool;
  curr_fahrstufe : Z;
  target_fahrstufe : Z;
  initialized : bool;
  EEPROM : list Z;
}.

Definition CHANNELS : Z := 3.
Definition EEPROM_SOUND_VOLUME : Z := 0.
Definition EEPROM_SOUND_SET : Z := 1.
Definition EEPROM_WIFI_AP_CLIENT : Z := 2.
Definition EEPROM_SOUND_VOLUME_MOTOR : Z := 3.
Definition EEPROM_SOUND_VOLUME_HORN : Z := 4.
Definition EEPROM_VALUES : Z := 5.

(** the global object at start-up *)
Definition Audio0 (eeprom : list Z) : Audio_t :=
  mkAudio (repeat "/xxxxxxxxxxxxxxxx.aiff" 3) false 255 [0; 0; 0] [128; 128; 128]
    (repeat no_callback 3) false (-1) (-1) false eeprom.

Definition with_file f a := mkAudio f (I2S_noDAC a) (Volume a) (Channel a) (Gain a) (playDoneCallback a) (Audio_Player_run a) (curr_fahrstufe a) (target_fahrstufe a) (initialized a) (EEPROM a).
Definition with_dac b a := mkAudio (Audio_File a) b (Volume a) (Channel a) (Gain a) (playDoneCallback a) (Audio_Player_run a) (curr_fahrstufe a) (target_fahrstufe a) (initialized a) (EEPROM a).
Definition with_volume v a := mkAudio (Audio_File a) (I2S_noDAC a) v (Channel a) (Gain a) (playDoneCallback a) (Audio_Player_run a) (curr_fahrstufe a) (target_fahrstufe a) (initialized a) (EEPROM a).
Definition with_channel c a := mkAudio (Audio_File a) (I2S_noDAC a) (Volume a) c (Gain a) (playDoneCallback a) (Audio_Player_run a) (curr_fahrstufe a) (target_fahrstufe a) (initialized a) (EEPROM a).
Definition with_gain g a := mkAudio (Audio_File a) (I2S_noDAC a) (Volume a) (Channel a) g (playDoneCallback a) (Audio_Player_run a) (curr_fahrstufe a) (target_fahrstufe a) (initialized a) (EEPROM a).
Definition with_callback c a := mkAudio (Audio_File a) (I2S_noDAC a) (Volume a) (Channel a) (Gain a) c (Audio_Player_run a) (curr_fahrstufe a) (target_fahrstufe a) (initialized a) (EEPROM a).
Definition with_run b a := mkAudio (Audio_File a) (I2S_noDAC a) (Volume a) (Channel a) (Gain a) (playDoneCallback a) b (curr_fahrstufe a) (target_fahrstufe a) (initialized a) (EEPROM a).
Definition with_curr c a := mkAudio (Audio_File a) (I2S_noDAC a) (Volume a) (Channel a) (Gain a) (playDoneCallback a) (Audio_Player_run a) c (target_fahrstufe a) (initialized a) (EEPROM a).
Definition with_target t a := mkAudio (Audio_File a) (I2S_noDAC a) (Volume a) (Channel a) (Gain a) (playDoneCallback a) (Audio_Player_run a) (curr_fahrstufe a) t (initialized a) (EEPROM a).
Definition with_init b a := mkAudio (Audio_File a) (I2S_noDAC a) (Volume a) (Channel a) (Gain a) (playDoneCallback a) (Audio_Player_run a) (curr_fahrstufe a) (target_fahrstufe a) b (EEPROM a).
Definition with_eeprom e a := mkAudio (Audio_File a) (I2S_noDAC a) (Volume a) (Channel a) (Gain a) (playDoneCallback a) (Audio_Player_run a) (curr_fahrstufe a) (target_fahrstufe a) (initialized a) e.

(** ** The settings memory

    [EEPROM.read] of an address outside the memory returns 0 and
    [EEPROM.write] there does nothing. *)
Definition EEPROM_read (addr : Z) (e : list Z) : Z :=
  if addr <? 0 then 0 else default 0 (e !! Z.to_nat addr).
Definition EEPROM_write (addr data : Z) (e : list Z) : list Z :=
  if addr <? 0 then e else <[Z.to_nat addr := u8 data]> e.

Definition readEEPROM (addr : Z) : M Audio_t Z := gets (fun a => EEPROM_read addr (EEPROM a)).

Definition writeEEPROM (addr1 data1 addr2 data2 : Z) : M Audio_t unit :=
  let data1 := u8 data1 in
  let data2 := u8 data2 in
  e ← gets EEPROM;
  let existing_data1 := EEPROM_read addr1 e in
  let existing_data2 := if 0 <=? addr2 then EEPROM_read addr2 e else data2 in
  if negb (existing_data1 =? data1) || negb (existing_data2 =? data2) then
    modify (with_eeprom (EEPROM_write addr1 data1 e));;
    (if 0 <=? addr2 then e' ← gets EEPROM; modify (with_eeprom (EEPROM_write addr2 data2 e')) else mret tt)
  else mret tt.

(** ** ESP32_MAS: the control operations *)

(** [assert(channel < CHANNELS)] on the [uint8_t] parameter *)
Definition checked_channel (channel : Z) (f : nat -> Audio_t -> Audio_t) : M Audio_t unit :=
  let channel := u8 channel in
  if channel <? CHANNELS then modify (f (Z.to_nat channel)) else fail (Abort "channel < CHANNELS").

Definition set_chan (state : Z) (k : nat) (a : Audio_t) : Audio_t := with_channel (<[k:=state]> (Channel a)) a.

Definition setDAC (dac : bool) : M Audio_t unit := modify (with_dac dac).
Definition startDAC : M Audio_t unit := modify (with_run true).
Definition stopDAC : M Audio_t unit := modify (with_run false).
Definition mas_setVolume (volume : Z) : M Audio_t unit := modify (with_volume (u8 volume)).
Definition stopChan (channel : Z) : M Audio_t unit := checked_channel channel (set_chan 0).
Definition brakeChan (channel : Z) : M Audio_t unit := checked_channel channel (set_chan 1).
Definition playFile (channel : Z) (audio_file : string) (cb : play_done) : M Audio_t unit :=
  checked_channel channel (fun k a =>
    with_callback (<[k:=cb]> (playDoneCallback a)) (set_chan 2 k (with_file (<[k:=audio_file]> (Audio_File a)) a))).
Definition loopFile (channel : Z) (audio_file : string) : M Audio_t unit :=
  checked_channel channel (fun k a => set_chan 3 k (with_file (<[k:=audio_file]> (Audio_File a)) a)).
Definition runChan (channel : Z) : M Audio_t unit := checked_channel channel (set_chan 4).
Definition outChan (channel : Z) : M Audio_t unit := checked_channel channel (set_chan 5).
Definition setGain (channel gain : Z) : M Audio_t unit :=
  checked_channel channel (fun k a => with_gain (<[k:=u8 gain]> (Gain a)) a).
Definition isRunning : M Audio_t bool := gets Audio_Player_run.

(** ** The next file of a channel

    An open file is its name, [None] is a closed one.  The file system is a
    parameter; reading positions are not modelled ([seek(0)] starts the open
    file again). *)
Definition File : Type := option string.

Definition name_differs (filename : string) (f : File) : bool :=
  match f with Some n => negb (String.eqb filename n) | None => negb (String.eqb filename EmptyString) end.

(** [switch (this->Channel[channel])] at the end of [openFile] *)
Definition next_chan_state (s : Z) : Z := if s =? 2 then 5 else if s =? 3 then 4 else s.
Definition advance_chan (channel : Z) : M Audio_t unit :=
  checked_channel channel (fun k a => with_channel (alter next_chan_state k (Channel a)) a).

Section openFile.
Context (SPIFFS_exists : string -> bool) (SPIFFS_open : string -> File).

Definition on_audio {A} (c : M Audio_t A) : M (Audio_t * File) A := zoom fst (fun a w => (a, w.2)) c.
Definition set_file (f : File) : M (Audio_t * File) unit := modify (fun w => (w.1, f)).

Definition mas_openFile (channel : Z) : M (Audio_t * File) unit :=
  w ← get;
  match Audio_File w.1 !! Z.to_nat channel with
  | None => fail (UB "Audio_File[channel]")
  | Some filename =>
      if name_differs filename w.2 then
        if SPIFFS_exists filename then set_file (SPIFFS_open filename);; on_audio (advance_chan channel)
        else mret tt
      else on_audio (advance_chan channel)
  end.

(** the files of a constant speed step and of a change between two steps *)
Definition loop_name (n : Z) : string := "/sounds/F" +:+ to_string n +:+ ".raw".
Definition change_name (n m : Z) : string := "/sounds/F" +:+ to_string n +:+ "-F" +:+ to_string m +:+ ".raw".

Definition openFile (channel : Z) : M (Audio_t * File) unit :=
  if (channel =? 2) || (channel =? 1) then mas_openFile channel
  else
    a ← gets fst;
    let curr := curr_fahrstufe a in
    let target := target_fahrstufe a in
    filename ← (if (curr =? -1) && (target =? -1) then
                  set_file None;; on_audio (stopChan channel);; on_audio stopDAC;; mret EmptyString
                else if curr =? target then mret (loop_name curr)
                else if target <? curr then
                  on_audio (modify (with_curr (curr - 1)));; mret (change_name curr (curr - 1))
                else on_audio (modify (with_curr (curr + 1)));; mret (change_name curr (curr + 1)));
    f ← gets snd;
    (if name_differs filename f then
       if String.eqb filename EmptyString then mret tt
       else
         (if SPIFFS_exists filename then mret tt else on_audio stopDAC);;
         set_file (SPIFFS_open filename);;
         (match SPIFFS_open filename with None => on_audio stopDAC | Some _ => mret tt end)
     else mret tt);;
    on_audio (advance_chan channel).
End openFile.

(** ** ESP32_MAS_Speed *)

Definition setFahrstufe (fahrstufe : Z) : M Audio_t unit :=
  if (-1 <=? fahrstufe) && (fahrstufe <=? 5) then modify (with_target fahrstufe)
  else fail (Abort "fahrstufe >= -1 && fahrstufe <= 5").

Definition setVolume (volume : Z) : M Audio_t Z :=
  if volume <? 0 then readEEPROM EEPROM_SOUND_VOLUME
  else mas_setVolume volume;; writeEEPROM EEPROM_SOUND_VOLUME volume EEPROM_SOUND_SET 1;; mret volume.

Definition setVolumeMotor (volume : Z) : M Audio_t Z :=
  if volume <? 0 then readEEPROM EEPROM_SOUND_VOLUME_MOTOR
  else setGain 0 volume;; writeEEPROM EEPROM_SOUND_VOLUME_MOTOR volume (-1) 0;; mret volume.

Definition setVolumeHorn (volume : Z) : M Audio_t Z :=
  if volume <? 0 then readEEPROM EEPROM_SOUND_VOLUME_HORN
  else setGain 1 volume;; writeEEPROM EEPROM_SOUND_VOLUME_HORN volume (-1) 0;; mret volume.

(** [mounted]: what [SPIFFS.begin()] returns *)
Definition audio_begin (mounted : bool) : M Audio_t unit :=
  init ← gets initialized;
  (if (init : bool) then mret tt
   else (if mounted then setDAC true else mret tt);; modify (with_init true));;
  running ← isRunning;
  if (running : bool) then mret tt
  else
    setFahrstufe 0;;
    volumeMotor ← readEEPROM EEPROM_SOUND_VOLUME_MOTOR;
    setGain 0 volumeMotor;;
    volumeHorn ← readEEPROM EEPROM_SOUND_VOLUME_HORN;
    setGain 1 volumeHorn;;
    loopFile 0 EmptyString;;
    volume ← readEEPROM EEPROM_SOUND_VOLUME;
    setVolume volume;;
    startDAC.

Definition audio_stop : M Audio_t unit := setFahrstufe (-1).

Definition SOUND_ON_OFF_FUNC : Z := 3.

(** [lokdef[0].func[k].ison] of a locomotive with at least [k+1] functions *)
Definition func_on (k : Z) (t : list lokdef_t) : outcome bool :=
  match t !! 0%nat with
  | None => Err (UB "lokdef[i]")
  | Some d =>
      match Lokdef.func d !! Z.to_nat k with
      | None => Err (UB "func[j]")
      | Some f => Ok ((k <? nFunc d) && ison f)
      end
  end.

Definition startPlayFuncSound (mounted : bool) (numClients : Z) (t : list lokdef_t) : M Audio_t unit :=
  if numClients =? 0 then mret tt
  else
    horn ← lift (func_on 1 t);
    chan1 ← gets (fun a => Channel a !! 1%nat);
    (if horn && bool_decide (chan1 = Some 0) then playFile 1 "/sounds/horn.raw" disable_F1 else mret tt);;
    match t !! 0%nat with
    | None => fail (UB "lokdef[i]")
    | Some d =>
        running ← isRunning;
        on ← lift (func_on SOUND_ON_OFF_FUNC t);
        if (SOUND_ON_OFF_FUNC <? nFunc d) && negb (eqb on running) then
          (if on then audio_begin mounted else stopDAC)
        else mret tt
    end.

(** ** The player task *)

(** the end of a file on channel [h]: the next file, which must hold samples, or
    the channel has ended.  Copying the samples to the buffer is left out. *)
Definition end_of_file (SPIFFS_exists : string -> bool) (SPIFFS_open : string -> File) (available : string -> Z) (h : Z)
    : M (Audio_t * File) unit :=
  w ← get;
  match Channel w.1 !! Z.to_nat h with
  | None => fail (UB "Channel[h]")
  | Some c =>
      if (c <? 5) && (1 <? c) then
        openFile SPIFFS_exists SPIFFS_open h;;
        f ← gets snd;
        match f : File with
        | None => on_audio stopDAC
        | Some n => if available n <=? 0 then on_audio stopDAC else mret tt
        end
      else set_file None;; on_audio (modify (set_chan 6 (Z.to_nat h)))
  end.

(** the callback of the horn: [lokdef[0].func[1].ison=false] *)
Definition play_done_callback (cb : play_done) (t : list lokdef_t) : list lokdef_t :=
  match cb with
  | no_callback => t
  | disable_F1 => alter (fun d => set_func (alter (set_ison false) 1%nat (Lokdef.func d)) d) 0%nat t
  end.

(** channels that have ended are reported and stopped *)
Definition finish_channel (h : nat) : M (list lokdef_t * Audio_t) unit :=
  modify (fun w =>
    if decide (Channel w.2 !! h = Some 6)
    then (play_done_callback (default no_callback (playDoneCallback w.2 !! h)) w.1, set_chan 0 h w.2)
    else w).
Definition finish_channels : M (list lokdef_t * Audio_t) unit := iterM finish_channel [0; 1; 2]%nat.

(** [int16_t] *)
Definition wrap16 (z : Z) : Z := (z + 2^15) mod 2^16 - 2^15.
Arguments wrap16 : simpl never.

Definition channel_gain (gain volume : Z) : Z := Z.shiftr (gain * volume + 128) 8.

Arguments channel_gain : simpl never.

(** one channel: its state, its gain and the samples read from its file *)
Definition mix_channel (volume : Z) (out : list Z) (c : Z * Z * list Z) : list Z :=
  let '(state, gain, buf) := c in
  if 1 <? state then zip_with (fun o s => wrap16 (o + s * channel_gain gain volume)) out buf else out.

Definition mix (len : nat) (volume : Z) (chans : list (Z * Z * list Z)) : list Z :=
  foldl (mix_channel volume) (repeat 0 len) chans.

(** the byte for the internal DAC: [highByte(out + 0x8000)] *)
Definition dac_byte (out : Z) : Z := u8 (Z.shiftr (wrap16 (out + 0x8000)) 8).

(** ** Theorems *)

Lemma wrap16_id z : - 2^15 <= z < 2^15 -> wrap16 z = z.
Proof. intros Hz. unfold wrap16. rewrite Z.mod_small; lia. Qed.

(** the gains of the playing channels, and the exact mix of the samples at one
    position *)
Fixpoint playing_gain (volume : Z) (chans : list (Z * Z * list Z)) : Z :=
  match chans with
  | [] => 0
  | (state, gain, _) :: l => (if 1 <? state then channel_gain gain volume else 0) + playing_gain volume l
  end.
Fixpoint exact_sample (volume : Z) (i : nat) (chans : list (Z * Z * list Z)) : Z :=
  match chans with
  | [] => 0
  | (state, gain, buf) :: l =>
      (if 1 <? state then default 0 (buf !! i) * channel_gain gain volume else 0) + exact_sample volume i l
  end.

(** a full buffer of [int8_t] samples *)
Definition chan_ok (len : nat) (c : Z * Z * list Z) : Prop :=
  0 <= c.1.2 <= 255 /\ length c.2 = len /\ Forall (fun s => -128 <= s <= 127) c.2.

Lemma channel_gain_range g v : 0 <= g <= 255 -> 0 <= v <= 255 -> 0 <= channel_gain g v <= 254.
Proof.
  intros Hg Hv. unfold channel_gain. rewrite Z.shiftr_div_pow2 by lia.
  assert (0 <= g * v <= 65025) by nia.
  change (2 ^ 8) with 256. split; [apply Z.div_pos; lia|].
  assert ((g * v + 128) / 256 < 255) by (apply Z.div_lt_upper_bound; lia). lia.
Qed.

Lemma playing_gain_nonneg len v chans : 0 <= v <= 255 -> Forall (chan_ok len) chans -> 0 <= playing_gain v chans.
Proof.
  intros Hv. induction 1 as [|[[st g] buf] l (Hg & _) _ IH]; cbn; [lia|].
  pose proof (channel_gain_range g v Hg Hv). destruct (1 <? st); cbn in *; lia.
Qed.

(** adding channels to a mix that is exact so far *)
Lemma mix_from len v i chans out acc :
  0 <= v <= 255 -> (i < len)%nat -> Forall (chan_ok len) chans ->
  length out = len -> out !! i = Some acc ->
  - 128 * (255 - playing_gain v chans) <= acc <= 128 * (255 - playing_gain v chans) ->
  foldl (mix_channel v) out chans !! i = Some (acc + exact_sample v i chans).
Proof.
  intros Hv Hi Hc. revert out acc. induction Hc as [|[[st g] buf] l (Hg & Hl & Hs) Hc IH]; intros out acc Ho Ha Hb; cbn in *.
  { rewrite Ha. f_equal. lia. }
  pose proof (playing_gain_nonneg len v l Hv Hc) as Hp.
  destruct (1 <? st) eqn:Est; cbn; [|rewrite (IH out acc); [f_equal; lia|done..|lia]].
  destruct (lookup_lt_is_Some_2 buf i) as [s Hsi]; [lia|]. rewrite Hsi. cbn.
  pose proof (proj1 (list.Forall_lookup _ _) Hs i s Hsi) as Hsr. cbn in Hsr.
  pose proof (channel_gain_range g v Hg Hv) as Hgr.
  assert (- 128 * channel_gain g v <= s * channel_gain g v <= 128 * channel_gain g v) as Hsg by nia.
  rewrite (IH _ (acc + s * channel_gain g v)); [f_equal; lia| | |lia].
  - rewrite length_zip_with. lia.
  - rewrite lookup_zip_with, Ha, Hsi. cbn. by rewrite wrap16_id by lia.
Qed.

Lemma dac_byte_exact x : - 2^15 <= x < 2^15 -> dac_byte x = 128 + x / 256.
Proof.
  intros Hx. unfold dac_byte, wrap16, u8. rewrite Z.shiftr_div_pow2 by lia.
  change (2 ^ 8) with 256. change 0x8000 with 32768. change (2^15) with 32768 in *. change (2^16) with 65536.
  replace (x + 32768 + 32768) with (x + 1 * 65536) by lia. rewrite Z.mod_add by lia.
  destruct (Z_lt_le_dec x 0).
  - rewrite (Z.mod_eq x 65536) by lia. replace (x / 65536) with (-1) by (apply Z.div_unique with (x + 65536); lia).
    replace (x - 65536 * -1 - 32768) with (x + 128 * 256) by lia. rewrite Z.div_add by lia.
    assert (-128 <= x / 256 < 0) by (split; [apply Z.div_le_lower_bound; lia|apply Z.div_lt_upper_bound; lia]).
    rewrite Z.mod_small; lia.
  - rewrite (Z.mod_small x) by lia. replace (x - 32768) with (x + (-128) * 256) by lia. rewrite Z.div_add by lia.
    assert (0 <= x / 256 < 128) by (split; [apply Z.div_pos; lia|apply Z.div_lt_upper_bound; lia]).
    rewrite (Z.mod_eq (x / 256 + -128) 256) by lia.
    replace ((x / 256 + -128) / 256) with (-1) by (apply Z.div_unique with (x / 256 + 128); lia). lia.
Qed.

Lemma exact_sample_range len v i chans : 0 <= v <= 255 -> (i < len)%nat -> Forall (chan_ok len) chans ->
  - 128 * playing_gain v chans <= exact_sample v i chans <= 128 * playing_gain v chans.
Proof.
  intros Hv Hi. induction 1 as [|[[st g] buf] l (Hg & Hl & Hs) Hc IH]; cbn in *; [lia|].
  destruct (1 <? st); [|lia].
  destruct (lookup_lt_is_Some_2 buf i) as [s Hsi]; [lia|]. rewrite Hsi. cbn.
  pose proof (proj1 (list.Forall_lookup _ _) Hs i s Hsi) as Hsr. cbn in Hsr.
  pose proof (channel_gain_range g v Hg Hv) as Hgr. nia.
Qed.

(** The mixer is exact as long as the gains of the playing channels add up to
    at most 255: every output sample is the weighted sum of the samples, and
    the DAC gets that sum scaled to a byte around 128. *)
Theorem mixer_exact len v chans i :
  0 <= v <= 255 -> (i < len)%nat -> Forall (chan_ok len) chans -> playing_gain v chans <= 255 ->
  mix len v chans !! i = Some (exact_sample v i chans) /\
  dac_byte (exact_sample v i chans) = 128 + exact_sample v i chans / 256.
Proof.
  intros Hv Hi Hc Hp. pose proof (exact_sample_range len v i chans Hv Hi Hc). split.
  - unfold mix. rewrite (mix_from len v i chans _ 0); [done|done..|apply repeat_length| |lia].
    clear -Hi. revert i Hi. induction len as [|n IH]; intros [|i] Hi; cbn; try lia; [done|apply IH; lia].
  - apply dac_byte_exact. lia.
Qed.

Definition sample_chans : list (Z * Z * list Z) := [(4, 128, [100; -128]); (5, 100, [127; 3]); (0, 255, [1; 1])].
Lemma mixer_exact_witness :
  mix 2 255 sample_chans !! 0%nat = Some (exact_sample 255 0 sample_chans) /\ dac_byte (exact_sample 255 0 sample_chans) = 227.
Proof.
  destruct (mixer_exact 2 255 sample_chans 0) as [H1 H2]; [lia|lia| |vm_compute; discriminate|].
  - unfold sample_chans, chan_ok. repeat constructor; cbn; lia.
  - split; [exact H1|]. rewrite H2. reflexivity.
Defined.

(** At full volume the sum of two channels leaves [int16_t]: where motor and
    horn are both high, the DAC gets a value below its centre instead of a
    clipped maximum. *)
Theorem loud_mix_wraps s1 s2 :
  0 <= s1 <= 127 -> 0 <= s2 <= 127 -> 130 <= s1 + s2 ->
  mix 1 255 [(4, 255, [s1]); (5, 255, [s2])] = [254 * (s1 + s2) - 65536] /\
  dac_byte (254 * (s1 + s2) - 65536) < 128.
Proof.
  intros H1 H2 H3. split.
  - unfold mix. cbn. change (channel_gain 255 255) with 254.
    rewrite (wrap16_id (0 + _)) by lia. f_equal. unfold wrap16.
    change (2^15) with 32768. change (2^16) with 65536.
    rewrite <- (Z.mod_unique (0 + s1 * 254 + s2 * 254 + 32768) 65536 1 (254 * (s1 + s2) - 32768)); lia.
  - rewrite dac_byte_exact by lia.
    assert ((254 * (s1 + s2) - 65536) / 256 < 0) by (apply Z.div_lt_upper_bound; lia). lia.
Qed.

Lemma loud_mix_wraps_witness :
  mix 1 255 [(4, 255, [100]); (5, 255, [100])] = [-14736] /\ dac_byte (-14736) < 128.
Proof. apply (loud_mix_wraps 100 100); lia. Defined.

(** the sound files of the speed steps are in the file system *)
Record sounds_installed (exists_file : string -> bool) (open_file : string -> File) : Prop := {
  open_exists s : exists_file s = true -> open_file s = Some s;
  loop_installed n : 0 <= n <= 5 -> exists_file (loop_name n) = true;
  change_installed n m : -1 <= n <= 5 -> -1 <= m <= 5 -> Z.abs (n - m) = 1 -> exists_file (change_name n m) = true;
}.

(** [n] ends of the file of channel 0 in a row, and the files that are open
    after each *)
Fixpoint opens (exists_file : string -> bool) (open_file : string -> File) (n : nat) : M (Audio_t * File) (list File) :=
  match n with
  | O => mret []
  | S n' =>
      openFile exists_file open_file 0;;
      f ← gets snd;
      fs ← opens exists_file open_file n';
      mret (f :: fs)
  end.

(** the [n] changes that lead from step [c] in direction [s] *)
Fixpoint changes (n : nat) (c s : Z) : list string :=
  match n with O => [] | S n' => change_name c (c + s) :: changes n' (c + s) s end.

Section engine.
Context (exists_file : string -> bool) (open_file : string -> File).
Context (Hfiles : sounds_installed exists_file open_file).
Abbreviation open0 := (openFile exists_file open_file 0).

Definition advanced (a : Audio_t) : Audio_t := with_channel (alter next_chan_state 0%nat (Channel a)) a.

Lemma open_tail filename f a :
  filename <> EmptyString -> exists_file filename = true ->
  ((if name_differs filename f then
      if String.eqb filename EmptyString then mret tt
      else
        (if exists_file filename then mret tt else on_audio stopDAC);;
        set_file (open_file filename);;
        (match open_file filename with None => on_audio stopDAC | Some _ => mret tt end)
    else mret tt);;
   on_audio (advance_chan 0)) (a, f) = (Ok tt, (advanced a, Some filename)).
Proof.
  intros Hne Hex. destruct (name_differs filename f) eqn:E.
  - rewrite (proj2 (String.eqb_neq _ _) Hne), Hex, (open_exists _ _ Hfiles _ Hex). done.
  - destruct f as [n|]; cbn in E; apply negb_false_iff, String.eqb_eq in E; [by subst|done].
Qed.

Lemma open_change a f :
  curr_fahrstufe a <> target_fahrstufe a -> -1 <= curr_fahrstufe a <= 5 -> -1 <= target_fahrstufe a <= 5 ->
  let c := curr_fahrstufe a in let c' := c + Z.sgn (target_fahrstufe a - c) in
  open0 (a, f) = (Ok tt, (advanced (with_curr c' a), Some (change_name c c'))).
Proof.
  intros Hne Hc Ht c c'. unfold openFile. cbn [orb Z.eqb]. rewrite (run_bind _ _ _ a (a, f)) by done.
  fold c. assert ((c =? -1) && (target_fahrstufe a =? -1) = false) as ->.
  { apply andb_false_iff. rewrite !Z.eqb_neq. lia. }
  rewrite (proj2 (Z.eqb_neq c _)) by done.
  destruct (Z.ltb_spec (target_fahrstufe a) c).
  - assert (c' = c - 1) as -> by (unfold c'; rewrite Z.sgn_neg; lia).
    erewrite run_bind by (erewrite run_bind by done; done). erewrite run_bind by done.
    apply open_tail; [done|]. apply (change_installed _ _ Hfiles); lia.
  - assert (c' = c + 1) as -> by (unfold c'; rewrite Z.sgn_pos; lia).
    erewrite run_bind by (erewrite run_bind by done; done). erewrite run_bind by done.
    apply open_tail; [done|]. apply (change_installed _ _ Hfiles); lia.
Qed.

Lemma open_loop a f :
  curr_fahrstufe a = target_fahrstufe a -> 0 <= curr_fahrstufe a <= 5 ->
  open0 (a, f) = (Ok tt, (advanced a, Some (loop_name (curr_fahrstufe a)))).
Proof.
  intros He Hc. unfold openFile. cbn [orb Z.eqb]. rewrite (run_bind _ _ _ a (a, f)) by done.
  rewrite (proj2 (Z.eqb_neq (curr_fahrstufe a) (-1))) by lia. cbn [andb].
  rewrite (proj2 (Z.eqb_eq _ _) He). do 2 erewrite run_bind by done.
  apply open_tail; [done|]. by apply (loop_installed _ _ Hfiles).
Qed.

(** what the engine sound leaves alone *)
Definition same_player (a a' : Audio_t) : Prop :=
  target_fahrstufe a' = target_fahrstufe a /\ Audio_Player_run a' = Audio_Player_run a /\
  Volume a' = Volume a /\ Gain a' = Gain a /\ length (Channel a') = length (Channel a) /\
  forall k, k <> 0%nat -> Channel a' !! k = Channel a !! k.

Lemma same_player_trans a b c : same_player a b -> same_player b c -> same_player a c.
Proof. unfold same_player. intros (?&?&?&?&?&Hk) (?&?&?&?&?&Hk'). split_and!; try congruence. intros k ?. rewrite Hk', Hk by done. done. Qed.

Lemma same_player_advanced c a : same_player a (advanced (with_curr c a)).
Proof.
  unfold same_player, advanced. cbn. split_and!; try done; [apply length_alter|].
  intros k Hk. by rewrite list_lookup_alter_ne.
Qed.

Lemma advanced_same a : same_player a (advanced a).
Proof. destruct a. apply (same_player_advanced curr_fahrstufe0 (mkAudio _ _ _ _ _ _ _ _ _ _ _)). Qed.

Lemma opens_S n a f a' f' : open0 (a, f) = (Ok tt, (a', f')) ->
  opens exists_file open_file (S n) (a, f) = (fs ← opens exists_file open_file n; mret (f' :: fs)) (a', f').
Proof. intros Hs. cbn [opens]. erewrite run_bind by exact Hs. by erewrite run_bind by done. Qed.

Lemma opens_changes n a f :
  -1 <= curr_fahrstufe a <= 5 -> -1 <= target_fahrstufe a <= 5 ->
  n = Z.to_nat (Z.abs (target_fahrstufe a - curr_fahrstufe a)) ->
  let s := Z.sgn (target_fahrstufe a - curr_fahrstufe a) in
  exists a' f', opens exists_file open_file n (a, f) = (Ok (map Some (changes n (curr_fahrstufe a) s)), (a', f')) /\
    curr_fahrstufe a' = target_fahrstufe a /\ same_player a a'.
Proof.
  revert a f. induction n as [|n IH]; intros a f Hc Ht Hn s.
  { exists a, f. split; [done|]. split; [lia|]. by unfold same_player. }
  set (c' := curr_fahrstufe a + s).
  assert (curr_fahrstufe a <> target_fahrstufe a) as Hne by (intros E; rewrite E in Hn; lia).
  pose proof (open_change a f Hne Hc Ht) as Hs. cbn zeta in Hs. fold s c' in Hs.
  set (b := advanced (with_curr c' a)) in *.
  destruct (IH b (Some (change_name (curr_fahrstufe a) c'))) as (a' & f' & E & Hc' & Hsame);
    [cbn; lia|done|cbn; lia|].
  exists a', f'. rewrite (opens_S n _ _ _ _ Hs).
  assert (changes n c' (Z.sgn (target_fahrstufe b - curr_fahrstufe b)) = changes n c' s) as Ech.
  { destruct n; [done|]. f_equal. subst b c'. cbn. lia. }
  change (curr_fahrstufe b) with c' in E at 1. rewrite Ech in E.
  split; [by erewrite run_bind by exact E|]. split; [done|].
  eapply same_player_trans; [apply same_player_advanced|exact Hsame].
Qed.

Lemma opens_app n m a f r1 w1 r2 w2 :
  opens exists_file open_file n (a, f) = (Ok r1, w1) -> opens exists_file open_file m w1 = (Ok r2, w2) ->
  opens exists_file open_file (n + m) (a, f) = (Ok (r1 ++ r2), w2).
Proof.
  revert a f r1. induction n as [|n IH]; intros a f r1 H1 H2; cbn [opens Nat.add] in *.
  { by inversion H1; subst. }
  destruct (open0 (a, f)) as [[[]|e] [b g]] eqn:Eo; unfold mbind, M_bind in *; rewrite Eo in *; [|done].
  cbn in *. destruct (opens exists_file open_file n (b, g)) as [[r|e] w] eqn:En; [|done].
  inversion H1; subst. by rewrite (IH b g r En H2).
Qed.

Lemma opens_loop n a f :
  curr_fahrstufe a = target_fahrstufe a -> 0 <= curr_fahrstufe a <= 5 ->
  exists a', opens exists_file open_file (S n) (a, f) =
    (Ok (repeat (Some (loop_name (curr_fahrstufe a))) (S n)), (a', Some (loop_name (curr_fahrstufe a)))) /\
    curr_fahrstufe a' = curr_fahrstufe a /\ same_player a a'.
Proof.
  revert a f. induction n as [|n IH]; intros a f He Hc; rewrite (opens_S _ _ _ _ _ (open_loop a f He Hc)).
  - exists (advanced a). split; [done|]. split; [done|apply advanced_same].
  - destruct (IH (advanced a) (Some (loop_name (curr_fahrstufe a))) He Hc) as (a' & E & Hc' & Hs).
    exists a'. split; [by erewrite run_bind by exact E|]. split; [done|].
    eapply same_player_trans; [apply advanced_same|exact Hs].
Qed.
End engine.

(** The engine sound follows the speed: from step [c] the files of the changes
    towards the target are played one after the other, without leaving one out,
    and then the file of the target step for as long as it is kept. *)
Theorem engine_sound_follows exists_file open_file a f k :
  sounds_installed exists_file open_file ->
  -1 <= curr_fahrstufe a <= 5 -> 0 <= target_fahrstufe a <= 5 ->
  let c := curr_fahrstufe a in let t := target_fahrstufe a in
  let n := Z.to_nat (Z.abs (t - c)) in
  exists a', opens exists_file open_file (n + S k) (a, f) =
      (Ok (map Some (changes n c (Z.sgn (t - c))) ++ repeat (Some (loop_name t)) (S k)), (a', Some (loop_name t))) /\
    curr_fahrstufe a' = t /\ same_player a a'.
Proof.
  intros Hf Hc Ht c t n.
  destruct (opens_changes _ _ Hf n a f) as (b & g & E1 & Hb & Hs1); [lia|lia|done|].
  destruct (opens_loop _ _ Hf k b g) as (a' & E2 & Ha' & Hs2); [destruct Hs1 as [-> _]; done|rewrite Hb; lia|].
  rewrite Hb in E2, Ha'. exists a'. split; [exact (opens_app _ _ _ _ _ _ _ _ _ _ E1 E2)|].
  split; [done|]. by eapply same_player_trans.
Qed.

(** the sample file system holds every file *)
Lemma sample_sounds : sounds_installed (fun _ => true) Some.
Proof. by split. Qed.

Definition sample_audio (curr target : Z) : Audio_t :=
  mkAudio (repeat EmptyString 3) true 200 [3; 0; 0] [100; 100; 128] (repeat no_callback 3) true curr target true [200; 1; 0; 100; 100].

Lemma engine_sound_follows_witness : exists a',
  opens (fun _ => true) Some 4 (sample_audio 0 3, None) =
    (Ok [Some "/sounds/F0-F1.raw"; Some "/sounds/F1-F2.raw"; Some "/sounds/F2-F3.raw"; Some "/sounds/F3.raw"], (a', Some "/sounds/F3.raw")) /\
  curr_fahrstufe a' = 3.
Proof.
  destruct (engine_sound_follows (fun _ => true) Some (sample_audio 0 3) None 0 sample_sounds) as (a' & H1 & H2 & _);
    [cbn; lia|cbn; lia|].
  exists a'. split; [exact H1|exact H2].
Defined.

(** Target [-1] lets the engine run down and then switches the player off:
    the changes down to [F0-F-1] are played, the next end of a file closes the
    file, stops the channel and the DAC. *)
Theorem engine_sound_stops exists_file open_file a f :
  sounds_installed exists_file open_file ->
  -1 <= curr_fahrstufe a <= 5 -> target_fahrstufe a = -1 -> (0 < length (Channel a))%nat ->
  let c := curr_fahrstufe a in let n := Z.to_nat (c + 1) in
  exists a', opens exists_file open_file (n + 1) (a, f) = (Ok (map Some (changes n c (-1)) ++ [None]), (a', None)) /\
    curr_fahrstufe a' = -1 /\ Audio_Player_run a' = false /\ Channel a' !! 0%nat = Some 0.
Proof.
  intros Hf Hc Ht Hl c n.
  destruct (opens_changes _ _ Hf n a f) as (b & g & E1 & Hb & Hs1); [lia|lia|lia|].
  destruct Hs1 as (Htb & Hr & _ & _ & Hlb & _). rewrite Ht in *.
  assert (changes n c (Z.sgn (-1 - curr_fahrstufe a)) = changes n c (-1)) as Ech.
  { destruct n eqn:En; [done|]. f_equal. lia. }
  fold c in E1, Ech. rewrite Ech in E1.
  assert (opens exists_file open_file 1 (b, g) =
    (Ok [None], (advanced (with_run false (set_chan 0 0 b)), None))) as E2.
  { cbn [opens]. unfold openFile. cbn [orb Z.eqb]. unfold mbind, M_bind, gets at 1. cbn [fst].
    rewrite Hb, Htb. done. }
  eexists. split; [exact (opens_app _ _ _ _ _ _ _ _ _ _ E1 E2)|]. cbn. split; [done|]. split; [done|].
  rewrite list_lookup_alter_eq, list_lookup_insert_eq by lia. done.
Qed.

Lemma engine_sound_stops_witness : exists a',
  opens (fun _ => true) Some 2 (sample_audio 0 (-1), Some "/sounds/F0.raw") = (Ok [Some "/sounds/F0-F-1.raw"; None], (a', None)) /\
  Audio_Player_run a' = false.
Proof.
  destruct (engine_sound_stops (fun _ => true) Some (sample_audio 0 (-1)) (Some "/sounds/F0.raw") sample_sounds)
    as (a' & H1 & _ & H3 & _); [cbn; lia|done|cbn; lia|].
  exists a'. split; [exact H1|exact H3].
Defined.

(** ** The volume settings *)

Lemma EEPROM_write_read a b v e : 0 <= a < Z.of_nat (length e) -> 0 <= b ->
  EEPROM_read b (EEPROM_write a v e) = if b =? a then u8 v else EEPROM_read b e.
Proof.
  intros Ha Hb. unfold EEPROM_read, EEPROM_write. rewrite !(proj2 (Z.ltb_ge _ _)) by lia.
  destruct (Z.eqb_spec b a) as [->|Hne].
  - by rewrite list_lookup_insert_eq by lia.
  - rewrite list_lookup_insert_ne by lia. done.
Qed.

(** writing the settings that are there already is left out, with the same
    result *)
Lemma writeEEPROM_one addr data a :
  0 <= addr < Z.of_nat (length (EEPROM a)) ->
  exists e, writeEEPROM addr data (-1) 0 a = (Ok tt, with_eeprom e a) /\ length e = length (EEPROM a) /\
    forall b, 0 <= b -> EEPROM_read b e = if b =? addr then u8 data else EEPROM_read b (EEPROM a).
Proof.
  intros Ha. unfold writeEEPROM. rewrite (run_bind _ _ _ (EEPROM a) a) by done. cbn [Z.leb Z.compare].
  rewrite Z.eqb_refl. cbn [negb]. rewrite orb_false_r.
  destruct (Z.eqb_spec (EEPROM_read addr (EEPROM a)) (u8 data)) as [E|E]; cbn [negb].
  - exists (EEPROM a). split; [by destruct a|]. split; [done|]. intros b Hb.
    destruct (Z.eqb_spec b addr) as [->|]; done.
  - exists (EEPROM_write addr (u8 data) (EEPROM a)). split; [done|]. split.
    + unfold EEPROM_write. destruct (addr <? 0); [done|apply length_insert].
    + intros b Hb. rewrite EEPROM_write_read by done. by rewrite (u8_id (u8 data)) by apply u8_range.
Qed.

(** A horn volume that is set is used and kept: the gain of the horn channel is
    the volume, reading the setting gives it back, no other setting changes.
    What is reported is the number that was asked for; what is stored is its
    low byte. *)
Theorem horn_volume_kept a v :
  0 <= v -> length (EEPROM a) = 5%nat -> length (Gain a) = 3%nat ->
  exists a', setVolumeHorn v a = (Ok v, a') /\
    Gain a' !! 1%nat = Some (u8 v) /\ setVolumeHorn (-1) a' = (Ok (u8 v), a') /\
    (forall w, 0 <= w -> w <> EEPROM_SOUND_VOLUME_HORN -> EEPROM_read w (EEPROM a') = EEPROM_read w (EEPROM a)).
Proof.
  intros Hv Hl Hg. unfold setVolumeHorn at 1. rewrite (proj2 (Z.ltb_ge _ _)) by lia.
  rewrite (run_bind _ _ _ tt (with_gain (<[1%nat:=u8 v]> (Gain a)) a)) by done.
  destruct (writeEEPROM_one EEPROM_SOUND_VOLUME_HORN v (with_gain (<[1%nat:=u8 v]> (Gain a)) a)) as (e & E & Hle & Hr).
  { cbn. unfold EEPROM_SOUND_VOLUME_HORN. lia. }
  exists (with_eeprom e (with_gain (<[1%nat:=u8 v]> (Gain a)) a)). split_and!.
  - by erewrite run_bind by exact E.
  - cbn. by rewrite list_lookup_insert_eq by lia.
  - unfold setVolumeHorn, readEEPROM, gets. cbn [Z.ltb Z.compare EEPROM with_eeprom]. by rewrite Hr.
  - intros w Hw Hne. cbn. rewrite Hr by done. by rewrite (proj2 (Z.eqb_neq _ _)).
Qed.

Lemma horn_volume_kept_witness : exists a', setVolumeHorn 300 (sample_audio 0 0) = (Ok 300, a') /\ setVolumeHorn (-1) a' = (Ok 44, a').
Proof.
  destruct (horn_volume_kept (sample_audio 0 0) 300) as (a' & H1 & _ & H3 & _); [lia|done|done|].
  exists a'. split; [exact H1|exact H3].
Defined.
