(* ===== verification/Player.v ===== *)
(** * esp32-server/btcontrol/ESP32_MAS.cpp: the player task

    [ESP32_MAS::run] fills a buffer of 512 samples for every playing channel from
    its file, opens the next file when one ends, mixes the channels, writes the
    buffer to the I2S port and reports the channels that have ended.  ESP32MAS.v
    has the control operations, [openFile] and the mixer; here are the files with
    their contents and the loop.  Nothing calls [setPitch], so that the pitch is
    0 and every sample is read once.  The I2S port is the list of bytes written
    to it; setting it up is left out. *)

From S2P Require Import Prelude StdMap CString Utils Lokdef Hardware ESP32MAS.

(** [sizeof(out_buf_8) / 2] *)
Definition buf_len_16 : nat := 512.

(** [aiff_file[h]]: the open file and what is behind its position *)
Record Chan : Type := mkChan { c_file : File; c_rest : list Z }.

(** the player and what it shares: the table for the callbacks, the channels
    with [file_buf], the bytes written *)
Record Player : Type := mkPlayer {
  p_lokdef : list lokdef_t;
  p_audio : Audio_t;
  p_chans : list (Chan * list Z);
  p_written : list Z;
}.

Section task.
(** the file system: [content] are the samples of a file *)
Context (SPIFFS_exists : string -> bool) (SPIFFS_open : string -> File) (content : string -> list Z).

Definition fill_state : Type := Audio_t * (Chan * list Z).

(** [openFile(h, aiff_file[h])]: afterwards the file stands at its start, unless
    the base class found that the new one does not exist *)
Definition open_chan (h : Z) : M fill_state unit := fun s =>
  let '(a, (c, buf)) := s in
  let filename := default EmptyString (Audio_File a !! Z.to_nat h) in
  let untouched := negb (h =? 0) && name_differs filename (c_file c) && negb (SPIFFS_exists filename) in
  let '(r, (a', f)) := openFile SPIFFS_exists SPIFFS_open h (a, c_file c) in
  (r, (a', (mkChan f (if untouched then c_rest c else match f with Some n => content n | None => [] end), buf))).

(** a file that could not be opened, or is empty, stops the player; [true] leaves
    the loop over the channels *)
Definition check_file : M fill_state bool :=
  s ← get;
  let '(a, (c, buf)) := s in
  match c_file c, c_rest c with
  | None, _ | _, [] => put (with_run false a, (c, buf));; mret true
  | _, _ => mret false
  end.

(** the body of the loop over the channels *)
Definition fill (h : nat) : M fill_state bool :=
  s ← get;
  match Channel s.1 !! h with
  | None => fail (UB "Channel[h]")
  | Some st =>
      if st <=? 1 then mret false
      else
        stop ← (match c_rest s.2.1 with [] => open_chan (Z.of_nat h);; check_file | _ => mret false end);
        if stop : bool then mret true
        else
          s ← get;
          let '(a, (c, buf)) := s in
          let file_buf_len := length (c_rest c) in
          if (buf_len_16 <? file_buf_len)%nat then
            put (a, (mkChan (c_file c) (drop buf_len_16 (c_rest c)), take buf_len_16 (c_rest c)));; mret false
          else
            put (a, (mkChan (c_file c) [], c_rest c ++ drop file_buf_len buf));;
            match Channel a !! h with
            | None => fail (UB "Channel[h]")
            | Some st =>
                if (st <? 5) && (1 <? st) then
                  open_chan (Z.of_nat h);;
                  stop ← check_file;
                  if stop : bool then mret true
                  else
                    s ← get;
                    let '(a, (c, buf)) := s in
                    let n := Nat.min (length (c_rest c)) (buf_len_16 - file_buf_len) in
                    put (a, (mkChan (c_file c) (drop n (c_rest c)),
                             take file_buf_len buf ++ take n (c_rest c) ++ repeat 0 (buf_len_16 - file_buf_len - n)));;
                    mret false
                else
                  s ← get;
                  let '(a, (c, buf)) := s in
                  put (set_chan 6 h a, (mkChan None [], take file_buf_len buf ++ repeat 0 (buf_len_16 - file_buf_len)));;
                  mret false
            end
  end.

Definition on_chan {A} (h : nat) (c : M fill_state A) : M Player A := fun p =>
  match p_chans p !! h with
  | None => (Err (UB "file_buf[h]"), p)
  | Some ch =>
      let '(r, (a, ch')) := c (p_audio p, ch) in
      (r, mkPlayer (p_lokdef p) a (<[h:=ch']> (p_chans p)) (p_written p))
  end.

(** the loop over the channels, left by [break] *)
Definition fill_all : M Player unit :=
  foldM (fun (stop : bool) h => if stop then mret true else on_chan h (fill h)) [0; 1; 2]%nat false;; mret tt.

(** what is mixed *)
Definition channels (p : Player) : list (Z * Z * list Z) :=
  zip_with (fun sg ch => (sg.1, sg.2, ch.2)) (zip (Channel (p_audio p)) (Gain (p_audio p))) (p_chans p).

(** the bytes for the internal DAC, where the high byte is the sample, or for
    an external one *)
Definition out_bytes (noDAC : bool) (out : list Z) : list Z :=
  concat (map (fun v => if noDAC then [0; dac_byte v] else [v mod 256; (v / 256) mod 256]) out).

Definition player_turn : M Player unit :=
  fill_all;;
  modify (fun p => mkPlayer (p_lokdef p) (p_audio p) (p_chans p)
    (p_written p ++ out_bytes (I2S_noDAC (p_audio p)) (mix buf_len_16 (Volume (p_audio p)) (channels p))));;
  zoom (fun p => (p_lokdef p, p_audio p)) (fun w p => mkPlayer w.1 w.2 (p_chans p) (p_written p)) finish_channels.

(** [while (this->Audio_Player_run)], observed for at most [turns] rounds *)
Fixpoint player_loop (turns : nat) : M Player unit :=
  match turns with
  | O => mret tt
  | S n =>
      a ← gets p_audio;
      if Audio_Player_run a then player_turn;; player_loop n else mret tt
  end.

(** the ramps at the start and at the end, so that the speaker does not click *)
Definition soft_start : list Z :=
  concat (map (fun k => [0; u8 (Z.quot (128 * Z.of_nat k) 1024)]) (seq 0 1024)).
Definition soft_stop : list Z :=
  concat (map (fun k => [0; u8 (Z.quot (128 * (1024 - Z.of_nat k)) 1024)]) (seq 0 1024)) ++ repeat 0 (16 * 1024).

Definition write_bytes (l : list Z) : M Player unit :=
  modify (fun p => mkPlayer (p_lokdef p) (p_audio p) (p_chans p) (p_written p ++ l)).

(** [run()]; [I2S_noDAC] is read again at the end *)
Definition player_run (turns : nat) : M Player unit :=
  a ← gets p_audio;
  (if I2S_noDAC a then write_bytes soft_start else mret tt);;
  player_loop turns;;
  a ← gets p_audio;
  if Audio_Player_run a then mret tt
  else if I2S_noDAC a then write_bytes soft_stop else mret tt.
End task.

(** the local variables of [run]; [file_buf] has no defined content, of which
    nothing is heard: a channel is filled before it is mixed *)
Definition player_start (t : list lokdef_t) (a : Audio_t) : Player :=
  mkPlayer t a (repeat (mkChan None [], repeat 0 buf_len_16) 3) [].

(** ** The engine sound as it is heard *)

Lemma run_get {S A} (f : S -> M S A) s : (get ≫= f) s = f s s.
Proof. done. Qed.

(** openings are the beginning of more openings *)
Lemma opens_prefix exists_file open_file n m w r w' : opens exists_file open_file (n + m) w = (Ok r, w') ->
  exists w1, opens exists_file open_file n w = (Ok (take n r), w1).
Proof.
  revert w r. induction n as [|n IH]; intros w r E; [by exists w|]. cbn [opens Nat.add] in *. unfold mbind, M_bind in *.
  destruct (openFile exists_file open_file 0 w) as [[[]|e] w1]; [|done]. cbn in *.
  destruct (opens exists_file open_file (n + m) w1) as [[r1|e] w2] eqn:E1; [|done].
  injection E as <- ->. destruct (IH w1 r1 E1) as (w3 & E3). exists w3. by rewrite E3.
Qed.

(** nothing is reported while no channel has ended *)
Lemma finish_idle t a : (forall h, Channel a !! h <> Some 6) -> finish_channels (t, a) = (Ok tt, (t, a)).
Proof.
  intros Hc. assert (forall h, finish_channel h (t, a) = (Ok tt, (t, a))) as E.
  { intros h. unfold finish_channel, modify. cbn [fst snd]. by rewrite decide_False by apply Hc. }
  unfold finish_channels. cbn [iterM]. by do 3 rewrite (run_bind _ _ _ _ _ (E _)).
Qed.

(** the states of the channels 1 and 2 *)
Abbreviation others a := (drop 1 (Channel a)).

Section engine.
Context (exists_file : string -> bool) (open_file : string -> File) (content : string -> list Z).
Context (Hfiles : sounds_installed exists_file open_file).
(** every sound file fills a buffer *)
Context (Hlong : forall s, exists_file s = true -> (buf_len_16 <= length (content s))%nat).
Abbreviation open0 := (openFile exists_file open_file 0).

(** channel 0 plays the engine *)
Record engine_on (a : Audio_t) : Prop := mkEngine {
  en_curr : -1 <= curr_fahrstufe a <= 5;
  en_target : 0 <= target_fahrstufe a <= 5;
  en_run : Audio_Player_run a = true;
  en_chan : exists s l, Channel a = s :: l /\ (s = 3 \/ s = 4);
  en_gain : length (Gain a) = 3%nat;
}.

(** what the engine sound does not change *)
Definition settings (a : Audio_t) : Z * Z * list Z * bool * list string * list play_done :=
  (target_fahrstufe a, Volume a, Gain a, I2S_noDAC a, Audio_File a, playDoneCallback a).
(** what the choice of the next file depends on *)
Definition steps (a : Audio_t) : Z * Z := (curr_fahrstufe a, target_fahrstufe a).

Lemma engine_advanced a c : engine_on a -> -1 <= c <= 5 -> engine_on (advanced (with_curr c a)).
Proof.
  intros [Hc Ht Hr (s & l & Hs & H34) Hg] Hc'. split; try done. exists 4, l. cbn. rewrite Hs.
  destruct H34 as [-> | ->]; cbn; split; auto.
Qed.

Lemma others_advanced a c : others (advanced (with_curr c a)) = others a.
Proof. cbn. by destruct (Channel a). Qed.

(** the files do not depend on the channels *)
Lemma opens_same k a b f r a' f' : engine_on a -> steps b = steps a ->
  opens exists_file open_file k (a, f) = (Ok r, (a', f')) ->
  exists b', opens exists_file open_file k (b, f) = (Ok r, (b', f')) /\ steps b' = steps a'.
Proof.
  revert a b f r. induction k as [|k IH]; intros a b f r He Hb E.
  { cbn in E. injection E as <- <- <-. by exists b. }
  pose proof He as [Hc Ht _ _ _]. injection Hb as Hbc Hbt.
  assert (forall x g y, engine_on x -> open0 (a, f) = (Ok tt, (x, g)) -> open0 (b, f) = (Ok tt, (y, g)) -> steps y = steps x ->
    exists b', opens exists_file open_file (S k) (b, f) = (Ok r, (b', f')) /\ steps b' = steps a') as Hstep.
  { intros x g y Hx Ex Ey Hxy. rewrite (opens_S _ _ k _ _ _ _ Ex) in E. unfold mbind, M_bind in E.
    destruct (opens exists_file open_file k (x, g)) as [[r1|e] w] eqn:E1; [|done]. injection E as <- ->.
    destruct (IH x y g r1 Hx Hxy E1) as (b' & Eb & Hb'). exists b'. split; [|done].
    rewrite (opens_S _ _ k _ _ _ _ Ey). by rewrite (run_bind _ _ _ _ _ Eb). }
  destruct (Z.eq_dec (curr_fahrstufe a) (target_fahrstufe a)) as [Eq|Eq].
  - eapply Hstep; [|apply (open_loop _ _ Hfiles a f Eq); lia| |].
    + replace (advanced a) with (advanced (with_curr (curr_fahrstufe a) a)) by (by destruct a). by apply engine_advanced.
    + rewrite <- Hbc. apply (open_loop _ _ Hfiles b f); [congruence|lia].
    + unfold steps. cbn. congruence.
  - eapply Hstep; [|apply (open_change _ _ Hfiles a f Eq); lia| |].
    + apply engine_advanced; [done|lia].
    + rewrite <- Hbc, <- Hbt. apply (open_change _ _ Hfiles b f); [congruence|lia..].
    + unfold steps. cbn. congruence.
Qed.

Lemma open_next a f : engine_on a -> exists a' n, open0 (a, f) = (Ok tt, (a', Some n)) /\ exists_file n = true /\
  engine_on a' /\ settings a' = settings a /\ others a' = others a.
Proof.
  intros He. pose proof He as [Hc Ht Hr _ _]. destruct (Z.eq_dec (curr_fahrstufe a) (target_fahrstufe a)) as [E|E].
  - rewrite (open_loop _ _ Hfiles a f E) by lia. eexists _, _. split; [reflexivity|].
    split; [apply (loop_installed _ _ Hfiles); lia|].
    replace (advanced a) with (advanced (with_curr (curr_fahrstufe a) a)) by (by destruct a).
    split; [by apply engine_advanced|]. split; [done|apply others_advanced].
  - rewrite (open_change _ _ Hfiles a f E) by lia. eexists _, _. split; [reflexivity|].
    split; [apply (change_installed _ _ Hfiles); lia|]. split; [apply engine_advanced; [done|lia]|]. split; [done|apply others_advanced].
Qed.

Lemma open_chan_next a c buf : engine_on a -> exists a' n, open_chan exists_file open_file content 0 (a, (c, buf)) =
    (Ok tt, (a', (mkChan (Some n) (content n), buf))) /\
  open0 (a, c_file c) = (Ok tt, (a', Some n)) /\ (buf_len_16 <= length (content n))%nat /\ engine_on a' /\ settings a' = settings a /\ others a' = others a.
Proof.
  intros He. destruct (open_next a (c_file c) He) as (a' & n & E & Hex & He' & Hs & Ho). exists a', n.
  unfold open_chan. cbn [Z.eqb negb andb]. rewrite E. split_and!; auto.
Qed.

Lemma check_next a n buf : (buf_len_16 <= length (content n))%nat ->
  check_file (a, (mkChan (Some n) (content n), buf)) = (Ok false, (a, (mkChan (Some n) (content n), buf))).
Proof. intros Hl. unfold check_file, mbind, M_bind, get. cbn. destruct (content n); [unfold buf_len_16 in Hl; cbn in Hl; lia|done]. Qed.

(** a buffer filled from an open file *)
Lemma fill_open a c buf : engine_on a -> c_rest c <> [] ->
  exists k fs a' c' buf', fill exists_file open_file content 0 (a, (c, buf)) = (Ok false, (a', (c', buf'))) /\
    opens exists_file open_file k (a, c_file c) = (Ok (map Some fs), (a', c_file c')) /\
    buf' ++ c_rest c' = c_rest c ++ concat (map content fs) /\ length buf' = buf_len_16 /\ engine_on a' /\ settings a' = settings a /\ others a' = others a.
Proof.
  intros He Hr. set (o := others a). pose proof He as [_ _ _ (s & l & Hs & H34) _].
  assert (s <=? 1 = false) as Hs1 by (apply Z.leb_gt; lia).
  assert ((s <? 5) && (1 <? s) = true) as Hs5 by (apply andb_true_iff; rewrite !Z.ltb_lt; lia).
  unfold fill. rewrite run_get. cbn [fst snd]. rewrite Hs. cbn [lookup list_lookup].
  rewrite Hs1. rewrite (run_bind _ _ _ false (a, (c, buf))) by (by destruct (c_rest c)).
  rewrite run_get. cbn [fst snd].
  destruct (Nat.ltb_spec buf_len_16 (length (c_rest c))) as [Hl|Hl].
  { exists 0%nat, [], a, (mkChan (c_file c) (drop buf_len_16 (c_rest c))), (take buf_len_16 (c_rest c)).
    split_and!; try done; cbn [c_rest map concat]; [by rewrite take_drop, app_nil_r|rewrite length_take; lia]. }
  rewrite (run_bind _ _ _ tt (a, (mkChan (c_file c) [], c_rest c ++ drop (length (c_rest c)) buf))) by done.
  rewrite Hs. cbn [lookup list_lookup]. rewrite Hs5.
  destruct (open_chan_next a (mkChan (c_file c) []) (c_rest c ++ drop (length (c_rest c)) buf) He) as (a' & n & E & E0 & Hn & He' & Hset & Hot).
  rewrite (run_bind _ _ _ _ _ E). rewrite (run_bind _ _ _ _ _ (check_next a' n _ Hn)).
  rewrite run_get. cbn [fst snd c_rest c_file].
  set (m := Nat.min (length (content n)) (buf_len_16 - length (c_rest c))).
  assert (m = buf_len_16 - length (c_rest c))%nat as Hm by lia.
  exists 1%nat, [n], a', (mkChan (Some n) (drop m (content n))), (c_rest c ++ take m (content n)).
  split_and!; auto.
  - rewrite take_app_length', <- Hm, Nat.sub_diag by done. cbn [repeat]. by rewrite app_nil_r.
  - cbn [c_file] in E0. by rewrite (opens_S _ _ 0 _ _ _ _ E0).
  - cbn. by rewrite app_nil_r, <- app_assoc, take_drop.
  - rewrite length_app, length_take. lia.
Qed.

(** what filling a buffer does: [fs] are the files opened on the way *)
Definition filled (a : Audio_t) (c : Chan) (heard : list Z) (fs : list string) (a' : Audio_t) (c' : Chan) : Prop :=
  exists k b, opens exists_file open_file k (a, c_file c) = (Ok (map Some fs), (b, c_file c')) /\ steps b = steps a' /\
    heard ++ c_rest c' = c_rest c ++ concat (map content fs) /\ engine_on a' /\ settings a' = settings a.

Lemma filled_trans a c h fs a1 c1 h1 fs1 a2 c2 :
  filled a c h fs a1 c1 -> filled a1 c1 h1 fs1 a2 c2 -> filled a c (h ++ h1) (fs ++ fs1) a2 c2.
Proof.
  intros (k & b & E & Hb & R & He & Hs) (k1 & b1 & E1 & Hb1 & R1 & He1 & Hs1).
  destruct (opens_same k1 a1 b _ _ _ _ He Hb E1) as (b2 & E2 & Hb2). exists (k + k1)%nat, b2.
  split; [rewrite map_app; exact (opens_app _ _ _ _ _ _ _ _ _ _ E E2)|]. split; [congruence|]. split; [|split; [done|congruence]].
  by rewrite map_app, concat_app, app_assoc, <- R, <- !app_assoc, R1.
Qed.

(** other channels may change afterwards *)
Lemma filled_set_chan a c h fs a' c' st : filled a c h fs a' c' -> filled a c h fs (set_chan st 1 a') c'.
Proof.
  intros (k & b & E & Hb & R & [Hc Ht Hr (s & l & Hl & H34) Hg] & Hs). exists k, b. split_and!; try done.
  split; try done. exists s, (<[0%nat:=st]> l). cbn. by rewrite Hl.
Qed.

Lemma fill_engine a c buf : engine_on a -> exists fs a' c' buf',
  fill exists_file open_file content 0 (a, (c, buf)) = (Ok false, (a', (c', buf'))) /\
  length buf' = buf_len_16 /\ filled a c buf' fs a' c' /\ others a' = others a.
Proof.
  intros He. destruct (c_rest c) as [|x l] eqn:Er.
  - destruct (open_chan_next a c buf He) as (a1 & n & E & E0 & Hn & He1 & Hs1 & Ho1).
    destruct (fill_open a1 (mkChan (Some n) (content n)) buf He1) as (k & fs & a' & c' & buf' & E' & Ho & Hr & Hl & He' & Hs' & Hot).
    { cbn. destruct (content n); [cbn in Hn; unfold buf_len_16 in Hn; lia|done]. }
    exists (n :: fs), a', c', buf'. split; [|split; [done|split; [|congruence]]].
    + rewrite <- E'. unfold fill at 1 2. rewrite !run_get. cbn [fst snd c_rest].
      destruct He as [_ _ _ (s & l & Hs & H34) _]. destruct He1 as [_ _ _ (s' & l' & Hc1 & H34') _].
      rewrite Hs, Hc1. cbn [lookup list_lookup]. rewrite !(proj2 (Z.leb_gt _ 1)) by lia. rewrite Er.
      rewrite (run_bind (_ ≫= _) _ _ false (a1, (mkChan (Some n) (content n), buf)));
        [|rewrite (run_bind _ _ _ _ _ E); by apply check_next].
      destruct (content n); [cbn in Hn; unfold buf_len_16 in Hn; lia|done].
    + exists (S k), a'. rewrite (opens_S _ _ k _ _ _ _ E0). cbn [c_file] in Ho.
      split; [by rewrite (run_bind _ _ _ _ _ Ho)|]. split; [done|]. split; [rewrite Er; exact Hr|]. split; [done|congruence].
  - destruct (fill_open a c buf He) as (k & fs & a' & c' & buf' & E' & Ho & Hr & Hl & He' & Hs' & Hot); [by rewrite Er|].
    exists fs, a', c', buf'. split_and!; [done..| |done]. by exists k, a'.
Qed.

(** the sample as it is mixed *)
Definition amplified (a : Audio_t) (heard : list Z) : list Z :=
  map (fun s => wrap16 (s * channel_gain (default 0 (Gain a !! 0%nat)) (Volume a))) heard.

(** a stopped channel is left alone *)
Lemma fill_stopped h a ch st : Channel a !! h = Some st -> st <= 1 ->
  fill exists_file open_file content h (a, ch) = (Ok false, (a, ch)).
Proof. intros Hc Hst. unfold fill. rewrite run_get. cbn [fst]. rewrite Hc, (proj2 (Z.leb_le _ _) Hst). done. Qed.

Lemma mix_engine a s c buf x y t w : Channel a = [s; 0; 0] -> 1 < s -> length (Gain a) = 3%nat -> length buf = buf_len_16 ->
  mix buf_len_16 (Volume a) (channels (mkPlayer t a [(c, buf); x; y] w)) = amplified a buf.
Proof.
  intros Hs H1 Hg Hl. unfold channels. cbn [p_audio p_chans]. rewrite Hs.
  destruct (Gain a) as [|g [|g1 [|g2 [|]]]] eqn:Eg; try done. unfold mix, amplified. cbn [zip_with foldl zip fst snd mix_channel].
  rewrite (proj2 (Z.ltb_lt 1 s)) by lia. cbn [Z.ltb Z.compare]. rewrite Eg. cbn [lookup list_lookup default].
  rewrite <- Hl. clear. induction buf as [|b buf IH]; [done|]. cbn [length repeat zip_with map]. by rewrite IH.
Qed.

Lemma turn_engine a c buf x y t w : engine_on a -> others a = [0; 0] -> exists fs a' c' buf',
  player_turn exists_file open_file content (mkPlayer t a [(c, buf); x; y] w) =
    (Ok tt, mkPlayer t a' [(c', buf'); x; y] (w ++ out_bytes (I2S_noDAC a) (amplified a buf'))) /\
  length buf' = buf_len_16 /\ filled a c buf' fs a' c' /\ others a' = [0; 0].
Proof.
  intros He Hq. destruct (fill_engine a c buf He) as (fs & a' & c' & buf' & E & Hl & Hf & Hot). exists fs, a', c', buf'.
  rewrite Hq in Hot. split; [|done]. destruct Hf as (k & b & _ & _ & _ & He' & Hs). pose proof He' as [_ _ _ (s & l & Hc & H34) _].
  rewrite Hc in Hot. change (l = [0; 0]) in Hot. subst l.
  unfold player_turn. rewrite (run_bind _ _ _ tt (mkPlayer t a' [(c', buf'); x; y] w)).
  2:{ unfold fill_all. cbn [foldM]. unfold mbind, M_bind, on_chan at 1. cbn [p_chans lookup list_lookup p_audio].
      rewrite E. unfold on_chan. cbn [p_chans lookup list_lookup p_audio list_insert insert p_lokdef p_written].
      rewrite (fill_stopped 1 a' x 0) by (rewrite ?Hc; done || lia). cbn [p_chans lookup list_lookup p_audio list_insert insert p_lokdef p_written].
      by rewrite (fill_stopped 2 a' y 0) by (rewrite ?Hc; done || lia). }
  unfold mbind at 1, M_bind at 1, modify at 1. cbn [p_lokdef p_audio p_chans p_written].
  rewrite (mix_engine a' s c' buf' x y t w Hc) by (done || lia || apply He').
  assert (I2S_noDAC a' = I2S_noDAC a /\ amplified a' buf' = amplified a buf') as [-> ->].
  { unfold settings in Hs. unfold amplified. by injection Hs as _ -> -> -> _ _. }
  unfold zoom. cbn [p_lokdef p_audio]. rewrite finish_idle; [done|].
  rewrite Hc. intros [|[|[|h]]]; cbn; intros ?; simplify_eq; lia.
Qed.

Lemma loop_engine n a c buf x y t w : engine_on a -> others a = [0; 0] -> exists heard fs a' c' buf',
  player_loop exists_file open_file content n (mkPlayer t a [(c, buf); x; y] w) =
    (Ok tt, mkPlayer t a' [(c', buf'); x; y] (w ++ out_bytes (I2S_noDAC a) (amplified a heard))) /\
  length heard = (n * buf_len_16)%nat /\ filled a c heard fs a' c'.
Proof.
  revert a c buf w. induction n as [|n IH]; intros a c buf w He Hq.
  { exists [], [], a, c, buf. cbn. rewrite app_nil_r. split_and!; try done. exists 0%nat, a. cbn. by rewrite app_nil_r. }
  destruct (turn_engine a c buf x y t w He Hq) as (fs & a1 & c1 & buf1 & E & Hl & Hf & Hot).
  pose proof Hf as (k & b & _ & _ & _ & He1 & Hs).
  destruct (IH a1 c1 buf1 (w ++ out_bytes (I2S_noDAC a) (amplified a buf1)) He1 Hot) as (h & fs1 & a' & c' & buf' & E' & Hl' & Hf').
  exists (buf1 ++ h), (fs ++ fs1), a', c', buf'. split_and!; [|rewrite length_app; lia|by eapply filled_trans].
  cbn [player_loop]. rewrite (run_bind _ _ _ a _) by done. rewrite (en_run a He). rewrite (run_bind _ _ _ _ _ E), E'.
  assert (I2S_noDAC a1 = I2S_noDAC a /\ amplified a1 h = amplified a h) as [-> ->].
  { unfold settings in Hs. unfold amplified. by injection Hs as _ -> -> -> _ _. }
  unfold amplified, out_bytes. by rewrite !map_app, concat_app, app_assoc.
Qed.
End engine.

(** the samples of the first files are the same whatever follows *)
Lemma take_files (content : string -> list Z) N l1 l2 l3 : (exists r, l1 ++ l2 = l3 ++ r) ->
  (N <= length (concat (map content l1)))%nat -> (N <= length (concat (map content l3)))%nat ->
  take N (concat (map content l1)) = take N (concat (map content l3)).
Proof.
  intros (r & E) H1 H3. apply (f_equal (fun l => take N (concat (map content l)))) in E.
  rewrite !map_app, !concat_app in E. by rewrite !take_app_le in E.
Qed.

Lemma length_files (content : string -> list Z) l : Forall (fun s => (buf_len_16 <= length (content s))%nat) l ->
  (length l * buf_len_16 <= length (concat (map content l)))%nat.
Proof. induction 1 as [|s l Hs _ IH]; cbn [map concat length]; [lia|]. rewrite length_app. lia. Qed.

(** sound files: installed, at least a buffer long, of [int8_t] samples *)
Record sound_files (exists_file : string -> bool) (open_file : string -> File) (content : string -> list Z) : Prop := {
  sf_installed : sounds_installed exists_file open_file;
  sf_long s : exists_file s = true -> (buf_len_16 <= length (content s))%nat;
  sf_samples s : Forall (fun x => -128 <= x <= 127) (content s);
}.

(** the files of the engine: the changes to the target step and [n] times the
    file of that step *)
Definition engine_files (a : Audio_t) (n : nat) : list string :=
  let c := curr_fahrstufe a in let t := target_fahrstufe a in
  changes (Z.to_nat (Z.abs (t - c))) c (Z.sgn (t - c)) ++ repeat (loop_name t) n.

(** the first [512 n] samples, [rest] is what is left of the open file *)
Definition engine_samples (content : string -> list Z) (a : Audio_t) (rest : list Z) (n : nat) : list Z :=
  take (n * buf_len_16) (rest ++ concat (map content (engine_files a (S n)))).

Section heard.
Context (exists_file : string -> bool) (open_file : string -> File) (content : string -> list Z).
Context (Hf : sound_files exists_file open_file content).

Lemma changes_installed n c s t : s = Z.sgn (t - c) -> n = Z.to_nat (Z.abs (t - c)) -> -1 <= c <= 5 -> -1 <= t <= 5 ->
  Forall (fun f => exists_file f = true) (changes n c s).
Proof.
  revert c s. induction n as [|n IH]; intros c s -> Hn Hc Ht; cbn; constructor.
  - apply (change_installed _ _ (sf_installed _ _ _ Hf)); lia.
  - destruct n; [constructor|]. apply IH; lia.
Qed.

Lemma engine_files_long a n : engine_on a -> (n * buf_len_16 <= length (concat (map content (engine_files a n))))%nat.
Proof.
  intros [Hc Ht _ _ _]. etrans; [|apply length_files].
  - unfold engine_files. rewrite length_app, repeat_length. nia.
  - assert (Forall (fun f => exists_file f = true) (engine_files a n)) as Hall.
    { apply Forall_app. split; [eapply changes_installed; [done|done|lia|lia]|]. apply Forall_forall. intros f Hin.
      apply repeat_spec in Hin as ->. apply (loop_installed _ _ (sf_installed _ _ _ Hf)). lia. }
    eapply Forall_impl; [|exact Hall]. apply (sf_long _ _ _ Hf).
Qed.

(** what is read is the sound of the engine *)
Lemma filled_engine a c heard fs a' c' n : engine_on a -> length heard = (n * buf_len_16)%nat ->
  filled exists_file open_file content a c heard fs a' c' -> heard = engine_samples content a (c_rest c) n.
Proof.
  intros He Hl (k & b & Eo & _ & Er & _ & _). pose proof He as [Hc Ht _ _ _].
  destruct (engine_sound_follows exists_file open_file a (c_file c) (k + n) (sf_installed _ _ _ Hf) Hc Ht) as (a1 & E1 & _).
  set (nch := Z.to_nat (Z.abs (target_fahrstufe a - curr_fahrstufe a))) in *.
  replace (nch + S (k + n))%nat with (k + (nch + S n))%nat in E1 by lia.
  destruct (opens_prefix _ _ _ _ _ _ _ E1) as (w1 & E2). rewrite Eo in E2.
  assert (map Some fs = map Some (take k (engine_files a (S (k + n))))) as Efs.
  { rewrite <- firstn_map. unfold engine_files. rewrite map_app, map_repeat. by injection E2. }
  apply (inj (map Some)) in Efs. pose proof (f_equal length Er) as El. rewrite !length_app in El.
  rewrite <- (take_app_length' heard (c_rest c') (n * buf_len_16)), Er by done. unfold engine_samples.
  rewrite !take_app. f_equal. apply take_files with (drop k (engine_files a (S (k + n)))).
  - exists (repeat (loop_name (target_fahrstufe a)) k). rewrite Efs, take_drop. unfold engine_files.
    rewrite <- app_assoc, <- repeat_app. do 2 f_equal. lia.
  - lia.
  - etrans; [|apply engine_files_long; done]. lia.
Qed.

(** samples of one byte fit after the amplification *)
Lemma amplified_exact g v l : 0 <= g <= 255 -> 0 <= v <= 255 -> Forall (fun x => -128 <= x <= 127) l ->
  map (fun s => wrap16 (s * channel_gain g v)) l = map (fun s => s * channel_gain g v) l.
Proof.
  intros Hg Hv Hl. pose proof (channel_gain_range g v Hg Hv). apply map_ext_Forall.
  eapply Forall_impl; [|exact Hl]. intros s Hs. cbn in *. apply wrap16_id. change (2^15) with 32768. nia.
Qed.

Lemma engine_samples_range a rest n : Forall (fun x => -128 <= x <= 127) rest ->
  Forall (fun x => -128 <= x <= 127) (engine_samples content a rest n).
Proof.
  intros Hr. apply Forall_take, Forall_app. split; [done|].
  apply Forall_concat, Forall_map, Forall_forall. intros s _. apply (sf_samples _ _ _ Hf).
Qed.

Lemma length_out_bytes dac l : length (out_bytes dac l) = (2 * length l)%nat.
Proof. unfold out_bytes. induction l as [|x l IH]; [done|]. cbn [map concat length]. rewrite length_app, IH. destruct dac; cbn; lia. Qed.
End heard.

(** C38: What the player writes is the engine sound: with the ramp before it where
    the internal DAC is used, [n] rounds write the first [512 n] samples of the
    files of the changes and then of the file of the step over and over, one
    after the other without a gap, each times the gain, without distortion. *)
Theorem engine_heard exists_file open_file content t a g n :
  sound_files exists_file open_file content -> engine_on a -> others a = [0; 0] ->
  Gain a !! 0%nat = Some g -> 0 <= g <= 255 -> 0 <= Volume a <= 255 ->
  exists p', player_run exists_file open_file content n (player_start t a) = (Ok tt, p') /\ p_lokdef p' = t /\
    p_written p' = (if I2S_noDAC a then soft_start else []) ++
      out_bytes (I2S_noDAC a) (map (fun s => s * channel_gain g (Volume a)) (engine_samples content a [] n)) /\
    length (engine_samples content a [] n) = (512 * n)%nat.
Proof.
  intros Hf He Hq Hg Hgr Hv.
  set (w := if I2S_noDAC a then soft_start else []).
  destruct (loop_engine _ _ _ (sf_installed _ _ _ Hf) (sf_long _ _ _ Hf) n a (mkChan None []) (repeat 0 buf_len_16)
    (mkChan None [], repeat 0 buf_len_16) (mkChan None [], repeat 0 buf_len_16) t w He Hq) as (h & fs & a' & c' & b' & E & Hl & Hfill).
  pose proof Hfill as (k & b & _ & _ & _ & He' & _). pose proof (filled_engine _ _ _ Hf _ _ _ _ _ _ n He Hl Hfill) as ->.
  unfold amplified in E. rewrite Hg in E. change (default 0 (Some g)) with g in E.
  cbn [c_rest] in E, Hl. rewrite amplified_exact in E by (done || by apply (engine_samples_range _ _ _ Hf)).
  match type of E with _ = (_, ?p) => exists p end.
  split; [|split; [done|split; [done|unfold buf_len_16 in Hl; lia]]].
  unfold player_run. rewrite (run_bind _ _ _ a _) by done.
  rewrite (run_bind _ _ _ tt (mkPlayer t a (repeat (mkChan None [], repeat 0 buf_len_16) 3) w)) by (unfold w; by destruct (I2S_noDAC a)).
  rewrite (run_bind _ _ _ _ _ E). rewrite (run_bind _ _ _ a' _) by done. by rewrite (en_run a' He').
Qed.

(** ** The horn over the engine *)

Lemma finish_horn t a s : Channel a = [s; 6; 0] -> s <> 6 -> finish_channels (t, a) =
  (Ok tt, (play_done_callback (default no_callback (playDoneCallback a !! 1%nat)) t, set_chan 0 1 a)).
Proof.
  intros Hc Hs. unfold finish_channels. cbn [iterM].
  rewrite (run_bind _ _ _ tt (t, a)).
  2:{ unfold finish_channel, modify. cbn [fst snd]. rewrite decide_False; [done|]. rewrite Hc. cbn. intros [=]. done. }
  rewrite (run_bind _ _ _ tt (play_done_callback (default no_callback (playDoneCallback a !! 1%nat)) t, set_chan 0 1 a)).
  2:{ unfold finish_channel, modify. cbn [fst snd]. rewrite decide_True; [done|]. by rewrite Hc. }
  rewrite (run_bind _ _ _ tt (play_done_callback (default no_callback (playDoneCallback a !! 1%nat)) t, set_chan 0 1 a)); [done|].
  unfold finish_channel, modify. cbn [fst snd]. rewrite decide_False; [done|]. cbn. rewrite Hc. done.
Qed.

Lemma repeat_replicate {A} (x : A) n : repeat x n = replicate n x.
Proof. induction n; cbn; congruence. Qed.

Section horn.
Context (exists_file : string -> bool) (open_file : string -> File) (content : string -> list Z).
Context (Hf : sound_files exists_file open_file content) (name : string) (Hname : exists_file name = true) (Hne : name <> EmptyString).
Abbreviation fill1 := (fill exists_file open_file content 1).

(** the horn has been started or is being played: [r] are the samples to come *)
Definition horn_at (st : Z) (c : Chan) (r : list Z) : Prop :=
  (st = 5 /\ c_rest c = r /\ r <> []) \/ (st = 2 /\ c_rest c = [] /\ r = content name).

Lemma name_content : content name <> [].
Proof. pose proof (sf_long _ _ _ Hf _ Hname) as Hl. unfold buf_len_16 in Hl. destruct (content name); [cbn in Hl; lia|done]. Qed.

Lemma fill_out a c buf : Channel a !! 1%nat = Some 5 -> c_rest c <> [] -> exists c',
  fill1 (a, (c, buf)) = (Ok false, (set_chan (if (buf_len_16 <? length (c_rest c))%nat then 5 else 6) 1 a, (c', resize buf_len_16 0 (c_rest c)))) /\
  c_rest c' = drop buf_len_16 (c_rest c).
Proof.
  intros Hc Hr. unfold fill. rewrite run_get. cbn [fst snd]. rewrite Hc. change (5 <=? 1) with false. cbn iota.
  rewrite (run_bind _ _ _ false (a, (c, buf))) by (by destruct (c_rest c)). rewrite run_get. cbn [fst snd].
  destruct (Nat.ltb_spec buf_len_16 (length (c_rest c))) as [Hl|Hl].
  - exists (mkChan (c_file c) (drop buf_len_16 (c_rest c))). split; [|done].
    replace (set_chan 5 1 a) with a by (unfold set_chan; rewrite list_insert_id by done; by destruct a).
    by rewrite resize_le by lia.
  - exists (mkChan None []). split; [|cbn [c_rest]; by rewrite drop_ge by lia].
    rewrite (run_bind _ _ _ tt (a, (mkChan (c_file c) [], c_rest c ++ drop (length (c_rest c)) buf))) by done.
    rewrite Hc. change ((5 <? 5) && (1 <? 5)) with false. cbn iota. rewrite run_get. cbn [fst snd].
    by rewrite take_app_length, resize_ge, repeat_replicate by lia.
Qed.

Lemma fill_horn a c buf st r : Channel a !! 1%nat = Some st -> Audio_File a !! 1%nat = Some name -> horn_at st c r -> exists c',
  fill1 (a, (c, buf)) = (Ok false, (set_chan (if (buf_len_16 <? length r)%nat then 5 else 6) 1 a, (c', resize buf_len_16 0 r))) /\
  c_rest c' = drop buf_len_16 r.
Proof.
  intros Hc Ha [(-> & <- & Hr)|(-> & Hr & ->)]; [by apply fill_out|].
  assert (1 < length (Channel a))%nat as Hlen by (by eapply lookup_lt_Some).
  assert (open_chan exists_file open_file content 1 (a, (c, buf)) =
    (Ok tt, (set_chan 5 1 a, (mkChan (Some name) (content name), buf)))) as E.
  { unfold open_chan. change (Z.to_nat 1) with 1%nat. rewrite Ha. change (default EmptyString (Some name)) with name. rewrite Hname.
    unfold openFile, mas_openFile. change ((1 =? 2) || (1 =? 1)) with true. cbn match. rewrite run_get. cbn [fst snd].
    change (Z.to_nat 1) with 1%nat. rewrite Ha, Hname, (open_exists _ _ (sf_installed _ _ _ Hf) _ Hname), andb_false_r.
    assert (with_channel (alter next_chan_state 1%nat (Channel a)) a = set_chan 5 1 a) as Hset.
    { unfold set_chan. f_equal. apply list_eq. intros i. destruct (decide (i = 1%nat)) as [->|Hi].
      - by rewrite list_lookup_alter_eq, list_lookup_insert_eq, Hc.
      - by rewrite list_lookup_alter_ne, list_lookup_insert_ne. }
    assert (forall f, on_audio (advance_chan 1) (a, f) = (Ok tt, (set_chan 5 1 a, f))) as Hadv by (intros f; by rewrite <- Hset).
    destruct (name_differs name (c_file c)) eqn:Ed.
    - rewrite (run_bind _ _ _ tt (a, Some name)) by done. by rewrite Hadv.
    - rewrite Hadv.
      destruct (c_file c) as [n|]; cbn in Ed; apply negb_false_iff, String.eqb_eq in Ed; by subst. }
  destruct (fill_out (set_chan 5 1 a) (mkChan (Some name) (content name)) buf) as (c' & E' & Hr');
    [cbn; by rewrite list_lookup_insert_eq|apply name_content|].
  cbn [c_rest] in E', Hr'. exists c'. split; [|done].
  assert (forall v, set_chan v 1 (set_chan 5 1 a) = set_chan v 1 a) as Hss by (intros v; unfold set_chan; cbn; by rewrite list_insert_insert_eq).
  rewrite Hss in E'. rewrite <- E'. unfold fill at 1 2. rewrite !run_get. cbn [fst snd c_rest]. rewrite Hc.
  replace (Channel (set_chan 5 1 a) !! 1%nat) with (Some 5) by (cbn; by rewrite list_lookup_insert_eq).
  change (2 <=? 1) with false. change (5 <=? 1) with false. cbn iota. rewrite Hr.
  pose proof name_content as Hn. destruct (content name) as [|x l] eqn:En; [done|].
  rewrite (run_bind (_ ≫= _) _ _ false (set_chan 5 1 a, (mkChan (Some name) (x :: l), buf))); [done|].
  by rewrite (run_bind _ _ _ _ _ E).
Qed.

(** the two channels mixed *)
Definition both (a : Audio_t) (l0 l1 : list Z) : list Z :=
  zip_with (fun s0 s1 => wrap16 (wrap16 (s0 * channel_gain (default 0 (Gain a !! 0%nat)) (Volume a)) +
    s1 * channel_gain (default 0 (Gain a !! 1%nat)) (Volume a))) l0 l1.

Lemma both_settings a a' : settings a' = settings a -> both a' = both a /\ I2S_noDAC a' = I2S_noDAC a.
Proof. unfold settings, both. by intros [= _ -> -> -> _ _]. Qed.

Lemma mix_both a c buf c1 b1 y t w st : engine_on a -> others a = [st; 0] -> 1 < st ->
  length buf = buf_len_16 -> length b1 = buf_len_16 ->
  mix buf_len_16 (Volume a) (channels (mkPlayer t a [(c, buf); (c1, b1); y] w)) = both a buf b1.
Proof.
  intros [_ _ _ (s & l & Hs & H34) Hg] Hq Hst Hl Hl1. unfold channels. cbn [p_audio p_chans]. rewrite Hs in *. change (l = [st; 0]) in Hq. subst l.
  destruct (Gain a) as [|g [|g1 [|g2 [|]]]] eqn:Eg; try done. unfold mix, both. rewrite Eg. cbn [zip_with foldl zip fst snd mix_channel lookup list_lookup default].
  rewrite (proj2 (Z.ltb_lt 1 s)), (proj2 (Z.ltb_lt 1 st)) by lia. cbn [Z.ltb Z.compare]. rewrite <- Hl in *.
  clear -Hl1. revert b1 Hl1. induction buf as [|b buf IH]; intros [|b' b1] Hl1; try done.
  cbn [length repeat zip_with]. rewrite IH by (cbn in Hl1; lia). done.
Qed.

(** filling and mixing with the horn *)
Lemma fills_horn a c buf c1 b1 y t w st r :
  engine_on a -> others a = [st; 0] -> Audio_File a !! 1%nat = Some name -> horn_at st c1 r ->
  let st' := if (buf_len_16 <? length r)%nat then 5 else 6 in
  exists fs a' c' buf' c1' s,
    player_turn exists_file open_file content (mkPlayer t a [(c, buf); (c1, b1); y] w) =
      zoom (fun p => (p_lokdef p, p_audio p)) (fun w p => mkPlayer w.1 w.2 (p_chans p) (p_written p)) finish_channels
        (mkPlayer t a' [(c', buf'); (c1', resize buf_len_16 0 r); y] (w ++ out_bytes (I2S_noDAC a) (both a buf' (resize buf_len_16 0 r)))) /\
    length buf' = buf_len_16 /\ filled exists_file open_file content a c buf' fs a' c' /\ c_rest c1' = drop buf_len_16 r /\
    Channel a' = [s; st'; 0] /\ (s = 3 \/ s = 4).
Proof.
  intros He Hq Hn Hat st'.
  destruct (fill_engine _ _ _ (sf_installed _ _ _ Hf) (sf_long _ _ _ Hf) a c buf He) as (fs & a1 & c' & buf' & E & Hl & Hfill & Hot).
  rewrite Hq in Hot. pose proof Hfill as (k & b & _ & _ & _ & He1 & Hs). pose proof He1 as [_ _ _ (s & l & Hc & H34) _].
  rewrite Hc in Hot. change (l = [st; 0]) in Hot. subst l.
  destruct (fill_horn a1 c1 b1 st r) as (c1' & E1 & Hr1); [by rewrite Hc|unfold settings in Hs; congruence|done|]. fold st' in E1.
  assert (Channel (set_chan st' 1 a1) = [s; st'; 0]) as Hc2 by (cbn; by rewrite Hc).
  assert (1 < st') as Hst' by (unfold st'; destruct (buf_len_16 <? length r)%nat; lia).
  pose proof (filled_set_chan _ _ _ _ _ _ _ _ _ st' Hfill) as Hfill2. pose proof Hfill2 as (_ & _ & _ & _ & _ & He2 & Hs2).
  set (a2 := set_chan st' 1 a1) in *. exists fs, a2, c', buf', c1', s. split; [|done].
  unfold player_turn. rewrite (run_bind _ _ _ tt (mkPlayer t a2 [(c', buf'); (c1', resize buf_len_16 0 r); y] w)).
  2:{ unfold fill_all. cbn [foldM]. unfold mbind, M_bind, on_chan at 1. cbn [p_chans lookup list_lookup p_audio].
      rewrite E. unfold on_chan. cbn [p_chans lookup list_lookup p_audio list_insert insert p_lokdef p_written].
      rewrite E1. cbn [p_chans lookup list_lookup p_audio list_insert insert p_lokdef p_written].
      by rewrite (fill_stopped _ _ _ 2 a2 y 0) by (rewrite ?Hc2; done || lia). }
  unfold mbind at 1, M_bind at 1, modify at 1. cbn [p_lokdef p_audio p_chans p_written].
  rewrite (mix_both a2 c' buf' c1' _ y t w st') by (done || (by rewrite Hc2) || apply length_resize).
  by destruct (both_settings a a2 Hs2) as [-> ->].
Qed.

Lemma turn_horn a c buf c1 b1 y t w st r :
  engine_on a -> others a = [st; 0] -> Audio_File a !! 1%nat = Some name -> horn_at st c1 r ->
  exists fs a' c' buf' c1' t',
    player_turn exists_file open_file content (mkPlayer t a [(c, buf); (c1, b1); y] w) =
      (Ok tt, mkPlayer t' a' [(c', buf'); (c1', resize buf_len_16 0 r); y]
        (w ++ out_bytes (I2S_noDAC a) (both a buf' (resize buf_len_16 0 r)))) /\
    length buf' = buf_len_16 /\ filled exists_file open_file content a c buf' fs a' c' /\ c_rest c1' = drop buf_len_16 r /\
    if (buf_len_16 <? length r)%nat then t' = t /\ others a' = [5; 0]
    else t' = play_done_callback (default no_callback (playDoneCallback a !! 1%nat)) t /\ others a' = [0; 0].
Proof.
  intros He Hq Hn Hat.
  destruct (fills_horn a c buf c1 b1 y t w st r He Hq Hn Hat) as (fs & a' & c' & buf' & c1' & s & E & Hl & Hfill & Hr & Hc & H34).
  rewrite E. unfold zoom. cbn [p_lokdef p_audio]. destruct (buf_len_16 <? length r)%nat.
  - rewrite finish_idle by (rewrite Hc; intros [|[|[|h]]]; cbn; intros ?; simplify_eq; lia).
    exists fs, a', c', buf', c1', t. split_and!; try done. by rewrite Hc.
  - rewrite (finish_horn t a' s Hc) by lia.
    exists fs, (set_chan 0 1 a'), c', buf', c1'. eexists. split; [reflexivity|]. split; [done|].
    split; [by apply filled_set_chan|]. split; [done|]. destruct Hfill as (_ & _ & _ & _ & _ & _ & Hs).
    split; [injection Hs as _ _ _ _ _ ->; done|]. cbn. by rewrite Hc.
Qed.

Lemma loop_horn n a c buf c1 b1 y t w st r :
  engine_on a -> others a = [st; 0] -> Audio_File a !! 1%nat = Some name -> horn_at st c1 r ->
  (n * buf_len_16 < length r <= S n * buf_len_16)%nat ->
  exists heard fs a' c' x x',
    player_loop exists_file open_file content (S n) (mkPlayer t a [(c, buf); (c1, b1); y] w) =
      (Ok tt, mkPlayer (play_done_callback (default no_callback (playDoneCallback a !! 1%nat)) t) a' [(c', x); x'; y]
        (w ++ out_bytes (I2S_noDAC a) (both a heard (resize (S n * buf_len_16) 0 r)))) /\
    length heard = (S n * buf_len_16)%nat /\ filled exists_file open_file content a c heard fs a' c' /\ others a' = [0; 0].
Proof.
  revert a c buf c1 b1 t w st r. induction n as [|n IH]; intros a c buf c1 b1 t w st r He Hq Hn Hat Hr;
    destruct (turn_horn a c buf c1 b1 y t w st r He Hq Hn Hat) as (fs & a1 & c' & buf' & c1' & t' & E & Hl & Hfill & Hr1 & Hend);
    cbn [player_loop]; rewrite (run_bind _ _ _ a _) by done; rewrite (en_run a He), (run_bind _ _ _ _ _ E).
  - rewrite (proj2 (Nat.ltb_ge _ _)) in Hend by lia. destruct Hend as [-> Ho]. rewrite Nat.mul_1_l.
    by exists buf', fs, a1, c', buf', (c1', resize buf_len_16 0 r).
  - rewrite (proj2 (Nat.ltb_lt _ _)) in Hend by lia. destruct Hend as [-> Ho]. pose proof Hfill as (_ & _ & _ & _ & _ & He1 & Hs).
    destruct (IH a1 c' buf' c1' (resize buf_len_16 0 r) t (w ++ out_bytes (I2S_noDAC a) (both a buf' (resize buf_len_16 0 r))) 5 (drop buf_len_16 r))
      as (h & fs1 & a2 & c2 & x & x' & E2 & Hl2 & Hfill2 & Ho2); [done..|unfold settings in Hs; congruence| |rewrite length_drop; lia|].
    { left. split_and!; try done. intros E0. apply (f_equal length) in E0. rewrite length_drop in E0. cbn [length] in E0. lia. }
    exists (buf' ++ h), (fs ++ fs1), a2, c2, x, x'.
    split; [|split; [rewrite length_app; lia|split; [by eapply filled_trans; [apply (sf_installed _ _ _ Hf)|..]|done]]].
    etrans; [exact E2|]. destruct (both_settings a a1 Hs) as [-> ->]. injection Hs as _ _ _ _ _ ->. do 2 f_equal.
    change (S (S n) * buf_len_16)%nat with (buf_len_16 + S n * buf_len_16)%nat. rewrite resize_add. unfold both, out_bytes.
    by rewrite zip_with_app, map_app, concat_app, app_assoc by (rewrite length_resize; done).
Qed.

(** the mix is exact while the gains add up to at most 255 *)
Lemma both_exact a g0 g1 l0 l1 : Gain a !! 0%nat = Some g0 -> Gain a !! 1%nat = Some g1 ->
  0 <= g0 <= 255 -> 0 <= g1 <= 255 -> 0 <= Volume a <= 255 -> channel_gain g0 (Volume a) + channel_gain g1 (Volume a) <= 255 ->
  Forall (fun x => -128 <= x <= 127) l0 -> Forall (fun x => -128 <= x <= 127) l1 ->
  both a l0 l1 = zip_with (fun s0 s1 => s0 * channel_gain g0 (Volume a) + s1 * channel_gain g1 (Volume a)) l0 l1.
Proof.
  intros H0 H1 Hg0 Hg1 Hv Hsum Hl0. unfold both. rewrite H0, H1. change (default 0 (Some g0)) with g0. change (default 0 (Some g1)) with g1.
  pose proof (channel_gain_range g0 _ Hg0 Hv). pose proof (channel_gain_range g1 _ Hg1 Hv).
  revert l1. induction Hl0 as [|s0 l0 Hs0 _ IH]; intros l1 Hl1; [done|]. destruct Hl1 as [|s1 l1 Hs1 Hl1]; [done|].
  cbn [zip_with]. rewrite IH by done. f_equal.
  assert (- 128 * channel_gain g0 (Volume a) <= s0 * channel_gain g0 (Volume a) <= 128 * channel_gain g0 (Volume a)) by nia.
  assert (- 128 * channel_gain g1 (Volume a) <= s1 * channel_gain g1 (Volume a) <= 128 * channel_gain g1 (Volume a)) by nia.
  rewrite (wrap16_id (s0 * _)), wrap16_id; change (2^15) with 32768; lia.
Qed.
End horn.

(** C32: The horn sounds once, over the engine: the samples of its file and then
    silence are added to the engine sound, which goes on without a gap; after
    the round in which the file ends the function is off again and the channel
    is free.  The engine runs with a fixed target step, the horn has just been
    switched on and the third channel is silent; the sound files are installed
    and have at least 512 samples (a buffer); and the gains of engine and horn
    add up to at most 255, because louder the sum wraps around in 16 bit
    ([loud_mix_wraps]). *)
Theorem horn_over_engine exists_file open_file content name m t a c buf x y w g0 g1 :
  sound_files exists_file open_file content -> exists_file name = true -> name <> EmptyString ->
  engine_on a -> others a = [2; 0] -> Audio_File a !! 1%nat = Some name -> playDoneCallback a !! 1%nat = Some disable_F1 ->
  c_rest x.1 = [] -> Forall (fun s => -128 <= s <= 127) (c_rest c) ->
  Gain a !! 0%nat = Some g0 -> Gain a !! 1%nat = Some g1 -> 0 <= g0 <= 255 -> 0 <= g1 <= 255 -> 0 <= Volume a <= 255 ->
  channel_gain g0 (Volume a) + channel_gain g1 (Volume a) <= 255 ->
  let n := S m in (m * 512 < length (content name) <= n * 512)%nat ->
  exists p', player_loop exists_file open_file content n (mkPlayer t a [(c, buf); x; y] w) = (Ok tt, p') /\
    p_written p' = w ++ out_bytes (I2S_noDAC a)
      (zip_with (fun e h => e * channel_gain g0 (Volume a) + h * channel_gain g1 (Volume a))
        (engine_samples content a (c_rest c) n) (resize (n * 512) 0 (content name))) /\
    p_lokdef p' = play_done_callback disable_F1 t /\ others (p_audio p') = [0; 0].
Proof.
  intros Hf Hname Hne He Hq Ha Hcb Hx Hc H0 H1 Hg0 Hg1 Hv Hsum n Hn. destruct x as [cx bx].
  destruct (loop_horn exists_file open_file content Hf name Hname Hne m a c buf cx bx y t w 2 (content name))
    as (h & fs & a' & c' & x' & y' & E & Hl & Hfill & Ho); [done..|by right|done|].
  pose proof (filled_engine _ _ _ Hf _ _ _ _ _ _ n He Hl Hfill) as ->. rewrite Hcb in E.
  rewrite (both_exact a g0 g1) in E; [|done..|by apply (engine_samples_range _ _ _ Hf)|apply Forall_resize; [lia|apply (sf_samples _ _ _ Hf)]].
  match type of E with _ = (_, ?p) => exists p end. done.
Qed.

(** every file has 600 samples, which tell the length of its name *)
Definition sample_content (s : string) : list Z := repeat (Z.of_nat (Nat.min (String.length s) 100)) 600.
Lemma sample_files : sound_files (fun _ => true) Some sample_content.
Proof.
  split; [apply sample_sounds| |].
  - intros s _. unfold sample_content. rewrite repeat_length. unfold buf_len_16. lia.
  - intros s. apply Forall_forall. intros x Hx%repeat_spec. lia.
Qed.

Definition sample_player (horn : Z) : Audio_t :=
  mkAudio [EmptyString; "/sounds/horn.raw"; EmptyString] true 200 [3; horn; 0] [100; 120; 128] [no_callback; disable_F1; no_callback]
    true 0 1 true [200; 1; 0; 100; 100].
Lemma sample_engine horn : engine_on (sample_player horn).
Proof. split; cbn; try lia; try done. exists 3, [horn; 0]. auto. Qed.

Lemma engine_heard_witness : exists p',
  player_run (fun _ => true) Some sample_content 2 (player_start [] (sample_player 0)) = (Ok tt, p') /\
  p_written p' = soft_start ++ out_bytes true (map (fun s => s * 78) (repeat 17 600 ++ repeat 14 424)).
Proof.
  destruct (engine_heard (fun _ => true) Some sample_content [] (sample_player 0) 100 2 sample_files (sample_engine 0))
    as (p' & H1 & _ & H3 & _); [done|done|lia|cbn; lia|].
  exists p'. split; [exact H1|]. rewrite H3. vm_compute. reflexivity.
Defined.

Lemma horn_over_engine_witness : exists p',
  player_loop (fun _ => true) Some sample_content 2 (player_start [] (sample_player 2)) = (Ok tt, p') /\
  p_written p' = out_bytes true (repeat (17 * 78 + 16 * 94) 600 ++ repeat (14 * 78) 424) /\ others (p_audio p') = [0; 0].
Proof.
  destruct (horn_over_engine (fun _ => true) Some sample_content "/sounds/horn.raw" 1 [] (sample_player 2) (mkChan None []) (repeat 0 512)
    (mkChan None [], repeat 0 512) (mkChan None [], repeat 0 512) [] 100 120 sample_files)
    as (p' & H1 & H2 & _ & H4);
    [reflexivity|discriminate|apply sample_engine|reflexivity|reflexivity|reflexivity|reflexivity|constructor|reflexivity|reflexivity
    |lia|lia|cbn; lia|vm_compute; discriminate|unfold sample_content; rewrite repeat_length; lia|].
  exists p'. split; [exact H1|]. split; [|exact H4]. rewrite H2. vm_compute. reflexivity.
Defined.

(** ** The end of the engine sound *)

(** the last file, of the change from step 0 to the halt, is being played *)
Record last_file (a : Audio_t) (s : Z) : Prop := mkLast {
  la_steps : steps a = (-1, -1);
  la_run : Audio_Player_run a = true;
  la_chan : Channel a = [s; 0; 0] /\ (s = 3 \/ s = 4);
  la_gain : length (Gain a) = 3%nat;
}.

Section last.
Context (exists_file : string -> bool) (open_file : string -> File) (content : string -> list Z).

Lemma open_halt a f : steps a = (-1, -1) ->
  openFile exists_file open_file 0 (a, f) = (Ok tt, (advanced (with_run false (set_chan 0 0 a)), None)).
Proof.
  intros [= H1 H2]. unfold openFile. cbn [orb Z.eqb]. unfold mbind, M_bind, gets at 1. cbn [fst]. by rewrite H1, H2.
Qed.

Lemma turn_last a s c buf x y t w : last_file a s -> (buf_len_16 < length (c_rest c))%nat ->
  player_turn exists_file open_file content (mkPlayer t a [(c, buf); x; y] w) =
    (Ok tt, mkPlayer t a [(mkChan (c_file c) (drop buf_len_16 (c_rest c)), take buf_len_16 (c_rest c)); x; y]
      (w ++ out_bytes (I2S_noDAC a) (amplified a (take buf_len_16 (c_rest c))))).
Proof.
  intros [_ _ [Hc H34] Hg] Hl. set (c' := mkChan (c_file c) (drop buf_len_16 (c_rest c))). set (b' := take buf_len_16 (c_rest c)).
  unfold player_turn. rewrite (run_bind _ _ _ tt (mkPlayer t a [(c', b'); x; y] w)).
  2:{ unfold fill_all. cbn [foldM]. unfold mbind, M_bind, on_chan at 1. cbn [p_chans lookup list_lookup p_audio].
      assert (fill exists_file open_file content 0 (a, (c, buf)) = (Ok false, (a, (c', b')))) as ->.
      { unfold fill. rewrite run_get. cbn [fst snd]. rewrite Hc. cbn [lookup list_lookup]. rewrite (proj2 (Z.leb_gt s 1)) by lia.
        rewrite (run_bind _ _ _ false (a, (c, buf))) by (destruct (c_rest c); [cbn in Hl; lia|done]).
        rewrite run_get. by rewrite (proj2 (Nat.ltb_lt _ _) Hl). }
      unfold on_chan. cbn [p_chans lookup list_lookup p_audio list_insert insert p_lokdef p_written].
      rewrite (fill_stopped _ _ _ 1 a x 0) by (rewrite ?Hc; done || lia). cbn [p_chans lookup list_lookup p_audio list_insert insert p_lokdef p_written].
      by rewrite (fill_stopped _ _ _ 2 a y 0) by (rewrite ?Hc; done || lia). }
  unfold mbind at 1, M_bind at 1, modify at 1. cbn [p_lokdef p_audio p_chans p_written].
  rewrite (mix_engine a s c' b' x y t w Hc) by (done || lia || (unfold b'; rewrite length_take; lia)).
  unfold zoom. cbn [p_lokdef p_audio]. rewrite finish_idle; [done|].
  rewrite Hc. intros [|[|[|h]]]; cbn; intros ?; simplify_eq; lia.
Qed.

(** at its end the channel is stopped before the rest of it is mixed *)
Lemma turn_ends a s c buf x y t w : last_file a s -> c_rest c <> [] -> (length (c_rest c) <= buf_len_16)%nat ->
  exists a' ch, player_turn exists_file open_file content (mkPlayer t a [(c, buf); x; y] w) =
    (Ok tt, mkPlayer t a' [ch; x; y] (w ++ out_bytes (I2S_noDAC a) (repeat 0 buf_len_16))) /\
    Audio_Player_run a' = false /\ Channel a' = [0; 0; 0] /\ I2S_noDAC a' = I2S_noDAC a.
Proof.
  intros [Hs Hr [Hc H34] Hg] Hne Hl.
  set (a' := with_run false (advanced (with_run false (set_chan 0 0 a)))).
  set (ch := (mkChan None [], c_rest c ++ drop (length (c_rest c)) buf)). exists a', ch.
  assert (Channel a' = [0; 0; 0]) as Hc' by (cbn; by rewrite Hc). split; [|done].
  unfold player_turn. rewrite (run_bind _ _ _ tt (mkPlayer t a' [ch; x; y] w)).
  2:{ unfold fill_all. cbn [foldM]. unfold mbind, M_bind, on_chan at 1. cbn [p_chans lookup list_lookup p_audio].
      assert (fill exists_file open_file content 0 (a, (c, buf)) = (Ok true, (a', ch))) as ->; [|done].
      unfold fill. rewrite run_get. cbn [fst snd]. rewrite Hc. cbn [lookup list_lookup]. rewrite (proj2 (Z.leb_gt s 1)) by lia.
      rewrite (run_bind _ _ _ false (a, (c, buf))) by (by destruct (c_rest c)).
      rewrite run_get. rewrite (proj2 (Nat.ltb_ge _ _) Hl).
      rewrite (run_bind _ _ _ tt (a, (mkChan (c_file c) [], ch.2))) by done. rewrite Hc. cbn [lookup list_lookup].
      assert ((s <? 5) && (1 <? s) = true) as -> by (apply andb_true_iff; rewrite !Z.ltb_lt; lia).
      rewrite (run_bind _ _ _ tt (advanced (with_run false (set_chan 0 0 a)), ch)); [done|].
      unfold open_chan. cbn [Z.eqb negb andb]. by rewrite (open_halt a _ Hs). }
  unfold mbind at 1, M_bind at 1, modify at 1. cbn [p_lokdef p_audio p_chans p_written].
  replace (mix buf_len_16 (Volume a') (channels (mkPlayer t a' [ch; x; y] w))) with (repeat 0 buf_len_16).
  2:{ unfold channels. cbn [p_audio p_chans]. rewrite Hc'. by destruct (Gain a') as [|g [|g1 [|g2 [|]]]]. }
  unfold zoom. cbn [p_lokdef p_audio]. rewrite finish_idle; [done|].
  rewrite Hc'. intros [|[|[|h]]]; cbn; intros ?; simplify_eq; lia.
Qed.
End last.

(** C35: The player comes to an end: when the last file of an engine that is
    switched off has been read, it leaves its loop, with all channels stopped.  Of
    that file the full buffers are heard; the rest of it, up to 512 samples, is
    replaced by silence, because the channel is stopped before it is mixed. *)
Theorem player_ends exists_file open_file content m fuel a s c buf x y t w :
  last_file a s -> (m * 512 < length (c_rest c) <= S m * 512)%nat -> (m < fuel)%nat ->
  exists p', player_loop exists_file open_file content fuel (mkPlayer t a [(c, buf); x; y] w) = (Ok tt, p') /\
    Audio_Player_run (p_audio p') = false /\ Channel (p_audio p') = [0; 0; 0] /\
    p_written p' = w ++ out_bytes (I2S_noDAC a) (amplified a (take (m * 512) (c_rest c)) ++ repeat 0 512).
Proof.
  revert fuel c buf w. induction m as [|m IH]; intros fuel c buf w Hlast Hl Hf; (destruct fuel as [|fuel]; [lia|]);
    cbn [player_loop]; rewrite (run_bind _ _ _ a _) by done; rewrite (la_run a s Hlast).
  - destruct (turn_ends exists_file open_file content a s c buf x y t w Hlast) as (a' & ch & E & Hr & Hc & Hd);
      [intros E; rewrite E in Hl; cbn in Hl; lia|unfold buf_len_16; lia|].
    rewrite (run_bind _ _ _ _ _ E). eexists. split; [|split; [|split]].
    + destruct fuel as [|fuel]; [done|]. cbn [player_loop]. rewrite (run_bind _ _ _ a' _) by done. by rewrite Hr.
    + done.
    + done.
    + done.
  - assert (buf_len_16 < length (c_rest c))%nat as Hl' by (unfold buf_len_16; lia).
    rewrite (run_bind _ _ _ _ _ (turn_last exists_file open_file content a s c buf x y t w Hlast Hl')).
    destruct (IH fuel (mkChan (c_file c) (drop buf_len_16 (c_rest c))) (take buf_len_16 (c_rest c))
      (w ++ out_bytes (I2S_noDAC a) (amplified a (take buf_len_16 (c_rest c))))) as (p' & E & Hr & Hc & Hw);
      [done|cbn [c_rest]; rewrite length_drop; unfold buf_len_16; lia|lia|].
    exists p'. split; [exact E|]. split; [done|]. split; [done|]. rewrite Hw. cbn [c_rest].
    replace (S m * 512)%nat with (buf_len_16 + m * 512)%nat by (unfold buf_len_16; lia).
    rewrite <- take_take_drop. unfold amplified, out_bytes. by rewrite !map_app, !concat_app, !app_assoc.
Qed.

Lemma player_ends_witness : exists p',
  player_loop (fun _ => true) Some sample_content 3
    (mkPlayer [] (sample_audio (-1) (-1)) [(mkChan (Some "/sounds/F0-F-1.raw") (repeat 50 1000), []); (mkChan None [], []); (mkChan None [], [])] []) = (Ok tt, p') /\
  Audio_Player_run (p_audio p') = false /\ p_written p' = out_bytes true (repeat (50 * 78) 512 ++ repeat 0 512).
Proof.
  destruct (player_ends (fun _ => true) Some sample_content 1 3 (sample_audio (-1) (-1)) 3 (mkChan (Some "/sounds/F0-F-1.raw") (repeat 50 1000)) []
    (mkChan None [], []) (mkChan None [], []) [] []) as (p' & H1 & H2 & _ & H4).
  - split; try reflexivity. split; [reflexivity|]. by left.
  - cbn [c_rest]. rewrite repeat_length. lia.
  - lia.
  - exists p'. split; [exact H1|]. split; [exact H2|]. rewrite H4. vm_compute. reflexivity.
Defined.

(** what the speaker gets: the second byte of every sample *)
Fixpoint speaker (l : list Z) : list Z := match l with _ :: v :: l' => v :: speaker l' | _ => [] end.

(** from rest to the middle of the range and back, in steps of one *)
Example ramps_smooth : let l := 0 :: speaker soft_start ++ 128 :: speaker soft_stop in
  forallb (fun p => Z.abs (p.1 - p.2) <=? 1) (zip l (tail l)) = true /\ last l 1 = 0.
Proof. split; vm_compute; reflexivity. Qed.

(** a horn whose file is missing switches the engine sound off *)
Example missing_horn_stops : exists p',
  player_turn (fun s => negb (String.eqb s "/sounds/horn.raw")) Some sample_content (player_start [] (sample_player 2)) = (Ok tt, p') /\
  Audio_Player_run (p_audio p') = false.
Proof. eexists. split; vm_compute; reflexivity. Qed.
