(* ===== verification/ESP32PWM.v ===== *)
(** * esp32-server/btcontrol/ESP32PWM.{h,cpp}: the driver on the ESP32

    The build of config-sample-playmobillok.h: WEMOS_I2C_MOTOR_SHIELD,
    HAVE_SOUND, INFO_LED_PIN, two headlights, BAT_ADC_PIN1.  The motor shield,
    the PWM outputs and the pins are libraries; what the driver asks of them is
    recorded in order.  The driver changes the locomotive table. *)

From S2P Require Import Prelude StdMap CString Utils Lokdef Hardware ParseExpr Platine ESP32MAS.

Definition MOTOR_START : Z := 30.
Definition MOTOR_MAX : Z := 190.
Definition HEADLIGHT_1_PWM_DUTY : Z := 0.
Definition HEADLIGHT_1_PWM_DUTY_OFF : Z := 255.
Definition HEADLIGHT_2_PWM_DUTY : Z := 25.
Definition HEADLIGHT_2_PWM_DUTY_OFF : Z := 0.
Definition BAT_ADC_MIN : Z := 2000.
Definition BAT_ADC_MAX : Z := 2463.

Inductive esp_call : Type :=
  | setmotor (ccw : bool) (duty : Z)
  | setmotor_stop
  | ledcWrite (chan duty : Z)
  | infoLed (value : Z)
  | init_wifi.
#[global] Instance esp_call_eq_dec : EqDecision esp_call.
Proof. solve_decision. Defined.

(** [class ESP32PWM], with the global [Audio] *)
Record ESP32PWM : Type := mkESP {
  e_dir : Z;
  e_pwm : Z;
  e_ledToggle : Z;
  e_headlight : bool;
  e_nFunc : Z;
  e_currentFunc : func_array;
  e_changedDir : bool;
  e_audio : Audio_t;
  e_calls : list esp_call;
}.

Definition esp_world : Type := list lokdef_t * ESP32PWM.

Definition e_call (c : esp_call) : M esp_world unit :=
  modify (fun w => let e := w.2 in (w.1, mkESP (e_dir e) (e_pwm e) (e_ledToggle e) (e_headlight e) (e_nFunc e) (e_currentFunc e) (e_changedDir e) (e_audio e) (e_calls e ++ [c]))).
Definition e_set_dir (d : Z) : M esp_world unit :=
  modify (fun w => let e := w.2 in (w.1, mkESP d (e_pwm e) (e_ledToggle e) (e_headlight e) (e_nFunc e) (e_currentFunc e) (e_changedDir e) (e_audio e) (e_calls e))).
Definition e_set_pwm (p : Z) : M esp_world unit :=
  modify (fun w => let e := w.2 in (w.1, mkESP (e_dir e) p (e_ledToggle e) (e_headlight e) (e_nFunc e) (e_currentFunc e) (e_changedDir e) (e_audio e) (e_calls e))).
Definition e_set_toggle (n : Z) : M esp_world unit :=
  modify (fun w => let e := w.2 in (w.1, mkESP (e_dir e) (e_pwm e) n (e_headlight e) (e_nFunc e) (e_currentFunc e) (e_changedDir e) (e_audio e) (e_calls e))).
Definition e_set_headlight (b : bool) : M esp_world unit :=
  modify (fun w => let e := w.2 in (w.1, mkESP (e_dir e) (e_pwm e) (e_ledToggle e) b (e_nFunc e) (e_currentFunc e) (e_changedDir e) (e_audio e) (e_calls e))).
Definition e_set_func (n : Z) (f : func_array) : M esp_world unit :=
  modify (fun w => let e := w.2 in (w.1, mkESP (e_dir e) (e_pwm e) (e_ledToggle e) (e_headlight e) n f (e_changedDir e) (e_audio e) (e_calls e))).
Definition e_set_changed (b : bool) : M esp_world unit :=
  modify (fun w => let e := w.2 in (w.1, mkESP (e_dir e) (e_pwm e) (e_ledToggle e) (e_headlight e) (e_nFunc e) (e_currentFunc e) b (e_audio e) (e_calls e))).
Definition on_sound {A} (c : M Audio_t A) : M esp_world A :=
  zoom (fun w => e_audio w.2)
    (fun a w => let e := w.2 in (w.1, mkESP (e_dir e) (e_pwm e) (e_ledToggle e) (e_headlight e) (e_nFunc e) (e_currentFunc e) (e_changedDir e) a (e_calls e))) c.

Section ESP32PWM.
(** [SPIFFS.begin()], the number of connected clients and the battery's ADC *)
Context (mounted : bool) (numClients : Z) (analogRead : Z).

(** [f_speed*((double)motorFullSpeed - motorStart)/255 + motorStart], see
    [scale_pwm] on the rounding *)
Definition esp_pwm (f_speed : Z) : Z :=
  if 0 <? f_speed then Z.quot (f_speed * (MOTOR_MAX - MOTOR_START) + 255 * MOTOR_START) 255 else 0.

(** [ceil(f_speed/(255./5.))] *)
Definition speed_to_fahrstufe (f_speed : Z) : Z := - ((- f_speed) / 51).

Definition esp_setPWM (f_speed : Z) : M esp_world unit :=
  let pwm := esp_pwm f_speed in
  e_set_pwm pwm;;
  e ← gets snd;
  e_call (setmotor (negb (e_dir e =? 0)) (Z.quot (pwm * 100) 256));;
  on_sound (setFahrstufe (speed_to_fahrstufe f_speed));;
  (if negb (e_ledToggle e =? 0) then e_call (infoLed (Z.land (e_ledToggle e) 1)) else mret tt);;
  e_set_toggle ((e_ledToggle e + 1) mod 2^32).

(** [lokdef[0].currspeed=0] *)
Definition zero_speed : M esp_world unit :=
  t ← gets fst;
  match t !! 0%nat with
  | None => fail (UB "lokdef[i]")
  | Some d => modify (fun w => (<[0%nat:=set_currspeed 0 d]> w.1, w.2))
  end.

Definition esp_fullstop (stopAll emergencyStop : bool) : M esp_world unit :=
  e_call setmotor_stop;; zero_speed;; on_sound (setFahrstufe 0).

Definition esp_setDir (dir : Z) : M esp_world unit :=
  let dir := u8 dir in
  e ← gets snd;
  (if negb (e_dir e =? dir) then e_set_changed true;; esp_fullstop true true else mret tt);;
  e_set_dir dir.

Definition esp_setFunction (nFunc : Z) (func : func_array) : M esp_world unit :=
  e_set_func nFunc func;;
  t ← gets fst;
  on_sound (startPlayFuncSound mounted numClients t).

Definition esp_commit : M esp_world unit :=
  e ← gets snd;
  (if 0 <? e_nFunc e then
     f0 ← lift (read_func (e_currentFunc e) 0);
     if negb (eqb (e_headlight e) f0) || e_changedDir e then
       (if negb (e_dir e =? 0) then
          e_call (ledcWrite 2 (if f0 : bool then HEADLIGHT_1_PWM_DUTY else HEADLIGHT_1_PWM_DUTY_OFF));;
          e_call (ledcWrite 3 HEADLIGHT_2_PWM_DUTY_OFF)
        else
          e_call (ledcWrite 2 HEADLIGHT_1_PWM_DUTY_OFF);;
          e_call (ledcWrite 3 (if f0 : bool then HEADLIGHT_2_PWM_DUTY else HEADLIGHT_2_PWM_DUTY_OFF)));;
       e_set_headlight f0
     else mret tt
   else mret tt);;
  e_set_changed false.

(** the state of charge in 1/255 *)
Definition battery_level (a : Z) : Z :=
  let a_p := Z.quot ((a - BAT_ADC_MIN) * 255) (BAT_ADC_MAX - BAT_ADC_MIN) in
  let a_p := if 255 <? a_p then 255 else a_p in
  if a_p <? 0 then 0 else a_p.

Definition esp_sendPOM (addr cv value : Z) : M esp_world Z :=
  if cv =? CV_CV_SOUND_VOL then mret CV_SOUND_VOL
  else if cv =? CV_SOUND_VOL then on_sound (setVolume value)
  else if cv =? CV_SOUND_VOL_MOTOR then on_sound (setVolumeMotor value)
  else if cv =? CV_SOUND_VOL_HORN then on_sound (setVolumeHorn value)
  else if cv =? CV_CV_BAT then mret CV_BAT
  else if cv =? CV_BAT then mret (battery_level analogRead)
  else if cv =? CV_BAT_RAW then mret analogRead
  else if cv =? CV_CV_WIFI_CLIENT_SWITCH then mret CV_WIFI_CLIENT_SWITCH
  else if cv =? CV_WIFI_CLIENT_SWITCH then
    if 0 <=? value then
      on_sound (writeEEPROM EEPROM_WIFI_AP_CLIENT value (-1) 0);; e_call init_wifi;; mret value
    else on_sound (readEEPROM EEPROM_WIFI_AP_CLIENT)
  else mret (-1).

Definition esp_sendLoco : Z -> bool -> M esp_world unit :=
  platine_sendLoco fst esp_setFunction esp_setDir esp_setPWM esp_fullstop esp_commit.

#[export] Instance ESP32PWM_hardware : Hardware ESP32PWM := {
  sendLoco := esp_sendLoco;
  fullstop client stopAll emergencyStop := esp_fullstop stopAll emergencyStop;
  pwrOn := mret tt;
  pwrOff := esp_setDir 0;
  getPowerState := mret true;
  clientConnected := mret tt;
  clientDisconnected all := mret tt;
  sendPOM := esp_sendPOM;
  sendPOMBit addr cv bitNr value := mret 0;
}.

(** the members before [sendLoco(0, false)] in the constructor *)
Definition ESP32PWM_members (audio : Audio_t) : ESP32PWM :=
  mkESP 0 0 0 false 0 (Some true :: repeat (Some false) 31) false audio [].
Definition ESP32PWM_new (audio : Audio_t) (t : list lokdef_t) : outcome unit * esp_world :=
  esp_sendLoco 0 false (t, ESP32PWM_members audio).
End ESP32PWM.

(** ** The interface the client threads rely on *)

(** a sound operation that leaves the tables alone *)
Definition sound_ok {A} (c : M Audio_t A) : Prop := forall a, safe_result (c a).1.

Lemma sound_ok_fahrstufe n : sound_ok (setFahrstufe n).
Proof. intros a. unfold setFahrstufe. by destruct (_ && _). Qed.

(** a sound operation that always returns *)
Definition returns {A} (c : M Audio_t A) : Prop := forall a, exists x a', c a = (Ok x, a').

Lemma returns_ok {A} (c : M Audio_t A) : returns c -> sound_ok c.
Proof. intros Hc a. destruct (Hc a) as (x & a' & ->). done. Qed.
Lemma returns_ret {A} (x : A) : returns (mret x).
Proof. by intros a; eexists _, _. Qed.
Lemma returns_bind {A B} (c : M Audio_t A) (f : A -> M Audio_t B) :
  returns c -> (forall x, returns (f x)) -> returns (c ≫= f).
Proof. intros Hc Hf a. destruct (Hc a) as (x & a' & E). erewrite run_bind by exact E. apply Hf. Qed.
Lemma returns_modify f : returns (modify f).
Proof. by intros a; eexists _, _. Qed.
Lemma returns_gets {A} (f : Audio_t -> A) : returns (gets f).
Proof. by intros a; eexists _, _. Qed.
Lemma returns_lift {A} (x : A) : returns (lift (Ok x)).
Proof. by intros a; eexists _, _. Qed.
Lemma returns_channel c f : u8 c <? CHANNELS = true -> returns (checked_channel c f).
Proof. intros Hc a. unfold checked_channel. rewrite Hc. by eexists _, _. Qed.
Lemma returns_fahrstufe n : (-1 <=? n) && (n <=? 5) = true -> returns (setFahrstufe n).
Proof. intros Hn a. unfold setFahrstufe. rewrite Hn. by eexists _, _. Qed.

Create HintDb sound discriminated.
#[export] Hint Resolve returns_ret returns_bind returns_modify returns_gets returns_lift : sound.
#[export] Hint Extern 1 (returns (checked_channel _ _)) => apply returns_channel; reflexivity : sound.
#[export] Hint Extern 1 (returns (setFahrstufe _)) => apply returns_fahrstufe; reflexivity : sound.
#[export] Hint Constants Opaque : sound.

(** destructs the conditions of a sound operation and resolves its parts *)
Ltac sound_step :=
  repeat match goal with
  | |- forall _, returns _ => intros ?
  | |- returns (_ ≫= _) => apply returns_bind
  | |- returns (if ?b then _ else _) => destruct b
  end; eauto with sound.

Lemma returns_writeEEPROM a b c d : returns (writeEEPROM a b c d).
Proof. unfold writeEEPROM. sound_step. Qed.
#[export] Hint Resolve returns_writeEEPROM : sound.
Lemma returns_setVolume v : returns (setVolume v).
Proof. unfold setVolume, readEEPROM, mas_setVolume. sound_step. Qed.
#[export] Hint Resolve returns_setVolume : sound.
Lemma returns_begin m : returns (audio_begin m).
Proof. unfold audio_begin, readEEPROM, isRunning, setGain, loopFile, setDAC, startDAC. sound_step. Qed.
#[export] Hint Resolve returns_begin : sound.

Lemma func_on_ok k t d : t !! 0%nat = Some d -> lok_ok d -> 0 <= k < MAX_NFUNC -> exists b, func_on k t = Ok b.
Proof.
  intros Ht [[W1 W2] _] Hk. unfold func_on. rewrite Ht.
  destruct (lookup_lt_is_Some_2 (Lokdef.func d) (Z.to_nat k)) as [f Hf]; [rewrite W2; unfold MAX_NFUNC in *; lia|].
  rewrite Hf. eauto.
Qed.

Lemma returns_startPlay m n t d : t !! 0%nat = Some d -> lok_ok d -> returns (startPlayFuncSound m n t).
Proof.
  intros Ht Hd. unfold startPlayFuncSound, SOUND_ON_OFF_FUNC. destruct (n =? 0); [eauto with sound|].
  destruct (func_on_ok 1 t d Ht Hd) as [b1 ->]; [by vm_compute|].
  destruct (func_on_ok 3 t d Ht Hd) as [b3 ->]; [by vm_compute|]. rewrite Ht.
  unfold isRunning, stopDAC, playFile. sound_step.
Qed.

Section laws.
Context (mounted : bool) (numClients analogRead : Z).

Lemma esp_modify_ok addrs (f : esp_world -> esp_world) : (forall w, (f w).1 = w.1) -> driver_ok addrs (modify f).
Proof. intros Hf w Hw. cbn. by rewrite Hf. Qed.

Lemma on_sound_ok {A} addrs (c : M Audio_t A) : sound_ok c -> driver_ok addrs (on_sound c).
Proof.
  intros Hc w Hw. unfold on_sound, zoom. specialize (Hc (e_audio w.2)).
  destruct (c (e_audio w.2)) as [[a|e] p]; cbn in *; split; auto.
Qed.

Lemma zero_speed_ok addrs : driver_ok addrs zero_speed.
Proof.
  intros [t e] Hw. cbn in Hw. unfold zero_speed, gets, mbind, M_bind. cbn [fst].
  destruct t as [|d t]; [destruct Hw as [_ (x & Hx & _) _]; by apply not_elem_of_nil in Hx|].
  split; [|done]. cbn [fst modify]. cbn. destruct (decide (addr d = 0)) as [E|E].
  - destruct Hw as [A T L]. cbn in *. rewrite E in *. cbn in *. split; cbn; rewrite ?E; cbn; try done.
    exists (set_currspeed 0 d). split; [set_solver|done].
  - assert (locos (d :: t) !! 0%nat = Some d) as Hl by (cbn; by rewrite (proj2 (Z.eqb_neq _ _) E)).
    destruct Hw as [A T L]. pose proof (proj1 (list.Forall_lookup _ _) L 0%nat d Hl) as [W _].
    apply (table_ok_insert addrs (d :: t) 0 d (set_currspeed 0 d)); [by split|done|done|]. split; [destruct W; by split|cbn; lia].
Qed.

Lemma esp_fullstop_ok addrs a e : driver_ok addrs (esp_fullstop a e).
Proof.
  apply keeps_seq; [by apply esp_modify_ok|]. apply keeps_seq; [apply zero_speed_ok|].
  apply on_sound_ok, sound_ok_fahrstufe.
Qed.

Lemma esp_setDir_ok addrs d : driver_ok addrs (esp_setDir d).
Proof.
  eapply keeps_bind; [by apply (keeps_gets _ _ _ (fun _ => True))|]. intros e _.
  apply keeps_seq; [|by apply esp_modify_ok].
  destruct (negb _); [|by apply keeps_ret]. apply keeps_seq; [by apply esp_modify_ok|apply esp_fullstop_ok].
Qed.

Lemma esp_setPWM_ok addrs v : driver_ok addrs (esp_setPWM v).
Proof.
  apply keeps_seq; [by apply esp_modify_ok|].
  eapply keeps_bind; [by apply (keeps_gets _ _ _ (fun _ => True))|]. intros e _.
  apply keeps_seq; [by apply esp_modify_ok|]. apply keeps_seq; [apply on_sound_ok, sound_ok_fahrstufe|].
  apply keeps_seq; [|by apply esp_modify_ok]. destruct (negb _); [by apply esp_modify_ok|by apply keeps_ret].
Qed.

Lemma esp_lift_ok addrs {A} (o : outcome A) : safe_result o -> driver_ok (H:=ESP32PWM) addrs (lift o).
Proof. intros Ho. apply keeps_lift; [done|]. by intros e ->. Qed.

Lemma esp_commit_ok addrs : driver_ok addrs esp_commit.
Proof.
  eapply keeps_bind; [by apply (keeps_gets _ _ _ (fun _ => True))|]. intros e _.
  apply keeps_seq; [|by apply esp_modify_ok]. destruct (0 <? e_nFunc e); [|by apply keeps_ret].
  eapply keeps_bind; [apply esp_lift_ok; unfold read_func; repeat case_match; (done || solve_safe)|]. intros f0 _.
  destruct (_ || _); [|by apply keeps_ret]. apply keeps_seq; [|by apply esp_modify_ok].
  destruct (negb _); (apply keeps_seq; by apply esp_modify_ok).
Qed.

Lemma esp_setFunction_ok addrs n f : addrs <> [] -> driver_ok addrs (esp_setFunction mounted numClients n f).
Proof.
  intros Ha. apply keeps_seq; [by apply esp_modify_ok|]. intros w Hw.
  destruct (table_ok_index addrs w.1 0 Hw) as (d & Hd & Hok); [destruct addrs; [done|cbn; lia]|].
  destruct (locos_lookup _ _ _ Hd) as [Ht _]. rewrite (run_bind _ _ _ w.1 w) by done.
  apply (on_sound_ok addrs); [by eapply returns_ok, returns_startPlay|done].
Qed.

Lemma esp_sendLoco_ok addrs i e : 0 <= i < Z.of_nat (length addrs) -> driver_ok addrs (esp_sendLoco mounted numClients i e).
Proof.
  intros Hi. assert (addrs <> []) as Hne by (destruct addrs; cbn in Hi; [lia|done]).
  unfold esp_sendLoco, platine_sendLoco. rewrite (proj2 (Z.ltb_ge _ _)) by lia.
  intros w Hw. destruct (table_ok_index addrs w.1 i Hw Hi) as (d & Hd & Hok).
  destruct (locos_lookup _ _ _ Hd) as [Ht _]. rewrite (run_bind _ _ _ w.1 w) by done. rewrite Ht.
  refine ((_ : driver_ok addrs _) w Hw).
  eapply keeps_bind; [apply esp_lift_ok, loco_speed_safe|]. intros v _.
  eapply keeps_bind; [apply esp_lift_ok, copy_func_safe; destruct Hok as [[W1 W2] _]; rewrite W2; lia|]. intros f _.
  apply keeps_seq; [by apply esp_setFunction_ok|]. apply keeps_seq; [|apply esp_commit_ok].
  destruct e; [apply esp_fullstop_ok|]. apply keeps_seq; [apply esp_setDir_ok|apply esp_setPWM_ok].
Qed.

Lemma esp_sendPOM_ok addrs a cv v : driver_ok addrs (esp_sendPOM analogRead a cv v).
Proof.
  unfold esp_sendPOM, setVolumeMotor, setVolumeHorn, setGain, readEEPROM.
  repeat match goal with |- context [if ?b then _ else _] => destruct b end;
    try (by apply keeps_ret); try (apply on_sound_ok, returns_ok; sound_step; fail).
  all: apply keeps_seq; [apply on_sound_ok, returns_ok; eauto with sound|].
  all: apply keeps_seq; [by apply esp_modify_ok|by apply keeps_ret].
Qed.

#[export] Instance ESP32PWM_laws : HardwareLaws ESP32PWM (H0:=ESP32PWM_hardware mounted numClients analogRead).
Proof.
  split; intros; cbn; try (by apply keeps_ret).
  - by apply esp_sendLoco_ok.
  - apply esp_fullstop_ok.
  - apply esp_setDir_ok.
  - apply esp_sendPOM_ok.
Qed.
End laws.

(** ** No reversal under power *)

(** between running the motor one way and running it the other way it is
    stopped *)
Definition stop_between (l : list esp_call) : Prop :=
  forall l1 b d l2 d' l3, l = l1 ++ setmotor b d :: l2 ++ setmotor (negb b) d' :: l3 -> setmotor_stop ∈ l2.

(** what a run of calls says: nothing wrong so far, and the direction the motor
    runs in since the last stop *)
Definition motor_step (st : bool * option bool) (c : esp_call) : bool * option bool :=
  match c with
  | setmotor ccw _ => (st.1 && match st.2 with Some b => eqb b ccw | None => true end, Some ccw)
  | setmotor_stop => (st.1, None)
  | _ => st
  end.
Definition motor_log (l : list esp_call) : bool * option bool := foldl motor_step (true, None) l.

Lemma motor_step_false l o : (foldl motor_step (false, o) l).1 = false.
Proof. revert o. induction l as [|[] l IH]; intros o; cbn; auto. Qed.

Lemma motor_log_keeps b l ok : setmotor_stop ∉ l ->
  (foldl motor_step (ok, Some b) l).1 = true -> foldl motor_step (ok, Some b) l = (true, Some b).
Proof.
  revert ok. induction l as [|c l IH]; intros ok Hn Ht; cbn in *; [by rewrite Ht|].
  apply not_elem_of_cons in Hn as [Hc Hn]. destruct c; cbn in *; try (by apply IH); [|done].
  destruct (eqb_spec b ccw) as [->|Hne]; [by apply IH|].
  by rewrite andb_false_r, motor_step_false in Ht.
Qed.

Lemma motor_log_stop_between l : (motor_log l).1 = true -> stop_between l.
Proof.
  intros Hl l1 b d l2 d' l3 ->. destruct (decide (setmotor_stop ∈ l2)) as [|Hn]; [done|exfalso].
  unfold motor_log in Hl. rewrite foldl_app in Hl. cbn in Hl.
  destruct (foldl motor_step (true, None) l1) as [ok o]. cbn in Hl.
  set (ok' := ok && _) in Hl. rewrite foldl_app in Hl. cbn in Hl.
  destruct (foldl motor_step (ok', Some b) l2) as [ok2 o2] eqn:E2. cbn in Hl.
  destruct ok2; [|by rewrite motor_step_false in Hl].
  pose proof (motor_log_keeps b l2 ok' Hn) as Hk. rewrite E2 in Hk. specialize (Hk eq_refl). inversion Hk; subst.
  rewrite eqb_negb2, motor_step_false in Hl. done.
Qed.

(** the motor stands, or runs in the direction the driver has stored *)
Definition motor_stands (w : esp_world) : Prop := motor_log (e_calls w.2) = (true, None).
Definition motor_known (w : esp_world) : Prop :=
  (motor_log (e_calls w.2)).1 = true /\
  forall b, (motor_log (e_calls w.2)).2 = Some b -> b = negb (e_dir w.2 =? 0).

Lemma stands_known w : motor_stands w -> motor_known w.
Proof. unfold motor_stands, motor_known. by intros ->. Qed.

Lemma motor_log_snoc l c : motor_log (l ++ [c]) = motor_step (motor_log l) c.
Proof. unfold motor_log. by rewrite foldl_app. Qed.

Lemma preserves_zero_speed (I : esp_world -> Prop) : (forall t t' e, I (t, e) -> I (t', e)) -> preserves I zero_speed.
Proof.
  intros HI. apply preserves_bind; [apply preserves_gets|]. intros t. destruct (t !! 0%nat); [|apply preserves_fail].
  apply preserves_modify. intros [t' e]. apply HI.
Qed.

Lemma preserves_sound {A} (I : esp_world -> Prop) (c : M Audio_t A) :
  (forall t e a, I (t, e) -> I (t, mkESP (e_dir e) (e_pwm e) (e_ledToggle e) (e_headlight e) (e_nFunc e) (e_currentFunc e) (e_changedDir e) a (e_calls e))) ->
  preserves I (on_sound c).
Proof. intros HI [t e] Hw. unfold on_sound, zoom. cbn. destruct (c (e_audio e)). by apply HI. Qed.

Lemma fullstop_stands a e w : motor_known w -> motor_stands (esp_fullstop a e w).2.
Proof.
  intros [Hk _]. unfold esp_fullstop, e_call. erewrite run_bind by done.
  refine ((_ : preserves motor_stands (zero_speed;; on_sound (setFahrstufe 0))) _ _).
  - apply preserves_bind; [by apply preserves_zero_speed|]. intros []. by apply preserves_sound.
  - unfold motor_stands. cbn. rewrite motor_log_snoc. destruct (motor_log _); cbn in *. by subst.
Qed.

Lemma setDir_known d : preserves motor_known (esp_setDir d).
Proof.
  intros w Hw. unfold esp_setDir. rewrite (run_bind _ _ _ w.2 w) by done.
  destruct (Z.eqb_spec (e_dir w.2) (u8 d)) as [E|E]; cbn [negb].
  { rewrite (run_bind _ _ _ tt w) by done. destruct w as [t e]. destruct Hw. split; cbn in *; by rewrite <- ?E. }
  unfold e_set_changed at 1. unfold mbind at 1 2, M_bind, modify at 1. cbn [fst snd].
  set (w1 := (_, mkESP _ _ _ _ _ _ true _ _)).
  assert (motor_known w1) as H1 by exact Hw. pose proof (fullstop_stands true true w1 H1) as H2.
  destruct (esp_fullstop true true w1) as [[[]|x] w2]; cbn in *; apply stands_known; exact H2.
Qed.

Lemma setPWM_known v : preserves motor_known (esp_setPWM v).
Proof.
  intros [t e] [H1 H2]. unfold esp_setPWM. erewrite run_bind by done. erewrite run_bind by done.
  unfold e_call at 1. erewrite run_bind by done. cbn [e_dir e_pwm snd fst].
  refine ((_ : preserves motor_known _) _ _).
  - apply preserves_bind; [by apply preserves_sound|]. intros []. apply preserves_bind; [|intros []; by apply preserves_modify].
    apply preserves_if; [|apply preserves_ret]. apply preserves_modify. intros [t' e'] [K1 K2].
    split; cbn; rewrite motor_log_snoc; [exact K1|exact K2].
  - split; cbn; rewrite motor_log_snoc; cbn in *; [|by intros b [= <-]].
    rewrite H1. destruct (motor_log (e_calls e)) as [ok [b|]]; cbn in *; [|done].
    rewrite (H2 b eq_refl). by destruct (e_dir e =? 0).
Qed.

Lemma call_known c : (forall st, motor_step st c = st) -> preserves motor_known (e_call c).
Proof.
  intros Hc. apply preserves_modify. intros [t e] [K1 K2]. split; cbn; rewrite motor_log_snoc, Hc; [exact K1|exact K2].
Qed.

Lemma commit_known : preserves motor_known esp_commit.
Proof.
  apply preserves_bind; [apply preserves_gets|]. intros e. apply preserves_bind; [|intros []; by apply preserves_modify].
  apply preserves_if; [|apply preserves_ret]. apply preserves_bind; [apply preserves_lift|]. intros f0.
  apply preserves_if; [|apply preserves_ret]. apply preserves_bind; [|intros []; by apply preserves_modify].
  apply preserves_if; (apply preserves_bind; [|intros []]; by apply call_known).
Qed.

Lemma fullstop_known a e : preserves motor_known (esp_fullstop a e).
Proof. intros w Hw. by apply stands_known, fullstop_stands. Qed.

Lemma sendLoco_known m n i e : preserves motor_known (esp_sendLoco m n i e).
Proof.
  unfold esp_sendLoco, platine_sendLoco. apply preserves_if; [apply preserves_fail|].
  apply preserves_bind; [apply preserves_gets|]. intros t. destruct (t !! Z.to_nat i) as [d|]; [|apply preserves_fail].
  apply preserves_bind; [apply preserves_lift|]. intros v. apply preserves_bind; [apply preserves_lift|]. intros f.
  apply preserves_bind.
  - apply preserves_bind; [by apply preserves_modify|]. intros []. apply preserves_bind; [apply preserves_gets|]. intros t'.
    by apply preserves_sound.
  - intros []. apply preserves_bind; [|intros []; apply commit_known]. apply preserves_if; [apply fullstop_known|].
    apply preserves_bind; [apply setDir_known|]. intros []. apply setPWM_known.
Qed.

(** the calls the server makes on its driver; the file system, the number of
    clients and the ADC may differ from call to call *)
Inductive esp_op : Type :=
  | op_sendLoco (mounted : bool) (numClients addr_index : Z) (emergencyStop : bool)
  | op_fullstop (stopAll emergencyStop : bool)
  | op_pwrOff
  | op_sendPOM (analogRead addr cv value : Z).

Definition esp_run (o : esp_op) (w : esp_world) : esp_world :=
  match o with
  | op_sendLoco m n i e => (esp_sendLoco m n i e w).2
  | op_fullstop a e => (esp_fullstop a e w).2
  | op_pwrOff => (esp_setDir 0 w).2
  | op_sendPOM r a cv v => (esp_sendPOM r a cv v w).2
  end.

Lemma sendPOM_known r a cv v : preserves motor_known (esp_sendPOM r a cv v).
Proof.
  unfold esp_sendPOM.
  repeat match goal with |- context [if ?b then _ else _] => destruct b end;
    try apply preserves_ret; try (by apply preserves_sound).
  apply preserves_bind; [by apply preserves_sound|]. intros [].
  apply preserves_bind; [by apply call_known|]. intros []. apply preserves_ret.
Qed.

(** C11: Whatever the server asks of the driver, in any order and with any
    exceptions on the way, and whatever the table says in between: the motor
    is never reversed without having been stopped first. *)
Theorem no_abrupt_reversal m n audio t (ops : list (list lokdef_t * esp_op)) :
  stop_between (e_calls (foldl (fun w x => esp_run x.2 (x.1, w.2)) (ESP32PWM_new m n audio t).2 ops).2).
Proof.
  apply motor_log_stop_between.
  enough (motor_known (foldl (fun w x => esp_run x.2 (x.1, w.2)) (ESP32PWM_new m n audio t).2 ops)) as [H _] by exact H.
  assert (motor_known (ESP32PWM_new m n audio t).2) as H0 by (by apply sendLoco_known).
  revert H0. generalize (ESP32PWM_new m n audio t).2. induction ops as [|[t' o] ops IH]; intros w Hw; cbn; [done|].
  apply IH. assert (motor_known (t', w.2)) as H' by exact Hw.
  destruct o; cbn; [by apply sendLoco_known|by apply fullstop_known|by apply setDir_known|by apply sendPOM_known].
Qed.

(** ** What driving does *)

(** the headlights: the front one runs with F0 in the stored direction 1, the
    rear one otherwise *)
Definition headlights (dir : Z) (f0 : bool) : list esp_call :=
  if dir =? 0
  then [ledcWrite 2 HEADLIGHT_1_PWM_DUTY_OFF; ledcWrite 3 (if f0 then HEADLIGHT_2_PWM_DUTY else HEADLIGHT_2_PWM_DUTY_OFF)]
  else [ledcWrite 2 (if f0 then HEADLIGHT_1_PWM_DUTY else HEADLIGHT_1_PWM_DUTY_OFF); ledcWrite 3 HEADLIGHT_2_PWM_DUTY_OFF].

Definition led_blink (n : Z) : list esp_call := if n =? 0 then [] else [infoLed (Z.land n 1)].

Lemma esp_setFunction_run m n nf f t e d : t !! 0%nat = Some d -> lok_ok d ->
  exists a, esp_setFunction m n nf f (t, e) =
    (Ok tt, (t, mkESP (e_dir e) (e_pwm e) (e_ledToggle e) (e_headlight e) nf f (e_changedDir e) a (e_calls e))).
Proof.
  intros Ht Hd. destruct (returns_startPlay m n t d Ht Hd (e_audio e)) as ([] & a & E). exists a.
  unfold esp_setFunction, e_set_func. do 2 erewrite run_bind by done. unfold on_sound, zoom. cbn. by rewrite E.
Qed.

Lemma esp_setDir_run dir t e d : t !! 0%nat = Some d -> 0 <= dir < 256 ->
  exists a, esp_setDir dir (t, e) =
    (Ok tt, (if e_dir e =? dir then t else <[0%nat:=set_currspeed 0 d]> t,
             mkESP dir (e_pwm e) (e_ledToggle e) (e_headlight e) (e_nFunc e) (e_currentFunc e)
               (e_changedDir e || negb (e_dir e =? dir)) a (e_calls e ++ if e_dir e =? dir then [] else [setmotor_stop]))).
Proof.
  intros Ht Hd. unfold esp_setDir. rewrite u8_id by done. erewrite run_bind by done. cbn [snd].
  destruct (Z.eqb_spec (e_dir e) dir) as [E|E]; cbn [negb].
  - exists (e_audio e). erewrite run_bind by done. by rewrite orb_false_r, app_nil_r.
  - eexists. unfold esp_fullstop, zero_speed, e_set_changed, e_call, on_sound, zoom, mbind, M_bind. cbn. rewrite Ht. cbn.
    by rewrite orb_true_r.
Qed.

Lemma speed_to_fahrstufe_range v : 0 <= v <= 255 -> 0 <= speed_to_fahrstufe v <= 5.
Proof.
  intros Hv. unfold speed_to_fahrstufe.
  assert (-5 <= (- v) / 51) by (apply Z.div_le_lower_bound; lia).
  assert ((- v) / 51 < 1) by (apply Z.div_lt_upper_bound; lia). lia.
Qed.

Lemma esp_setPWM_run v t e : 0 <= v <= 255 ->
  esp_setPWM v (t, e) =
  (Ok tt, (t, mkESP (e_dir e) (esp_pwm v) ((e_ledToggle e + 1) mod 2^32) (e_headlight e) (e_nFunc e) (e_currentFunc e)
    (e_changedDir e) (with_target (speed_to_fahrstufe v) (e_audio e))
    (e_calls e ++ setmotor (negb (e_dir e =? 0)) (Z.quot (esp_pwm v * 100) 256) :: led_blink (e_ledToggle e)))).
Proof.
  intros Hv. pose proof (speed_to_fahrstufe_range v Hv) as Hf. unfold esp_setPWM.
  do 2 erewrite run_bind by done. cbn [snd fst e_dir e_ledToggle]. unfold e_call at 1. erewrite run_bind by done.
  assert ((-1 <=? speed_to_fahrstufe v) && (speed_to_fahrstufe v <=? 5) = true) as Hb
    by (rewrite andb_true_iff, !Z.leb_le; lia).
  assert (forall w : esp_world, on_sound (setFahrstufe (speed_to_fahrstufe v)) w = (Ok tt, (w.1,
    mkESP (e_dir w.2) (e_pwm w.2) (e_ledToggle w.2) (e_headlight w.2) (e_nFunc w.2) (e_currentFunc w.2) (e_changedDir w.2)
      (with_target (speed_to_fahrstufe v) (e_audio w.2)) (e_calls w.2)))) as Hs.
  { intros w. unfold on_sound, zoom, setFahrstufe. by rewrite Hb. }
  erewrite run_bind by apply Hs. unfold led_blink. destruct (e_ledToggle e =? 0); cbn [negb];
    (erewrite run_bind by done); cbn; rewrite <- ?app_assoc; done.
Qed.

Lemma esp_commit_run t e f0 : 0 < e_nFunc e -> e_currentFunc e !! 0%nat = Some (Some f0) ->
  esp_commit (t, e) =
  (Ok tt, (t, mkESP (e_dir e) (e_pwm e) (e_ledToggle e) f0 (e_nFunc e) (e_currentFunc e) false (e_audio e)
    (e_calls e ++ if negb (eqb (e_headlight e) f0) || e_changedDir e then headlights (e_dir e) f0 else []))).
Proof.
  intros Hn Hf. unfold esp_commit. erewrite run_bind by done. cbn [snd]. rewrite (proj2 (Z.ltb_lt _ _)) by done.
  unfold read_func. rewrite Hf. unfold headlights.
  unfold mbind, M_bind, lift, e_call, e_set_headlight, e_set_changed, modify.
  destruct (negb (eqb (e_headlight e) f0) || e_changedDir e) eqn:Ec.
  - destruct (e_dir e =? 0); cbn; by rewrite <- app_assoc.
  - cbn. apply orb_false_iff in Ec as [Ec _]. apply negb_false_iff, eqb_prop in Ec. by rewrite Ec, app_nil_r.
Qed.

Lemma esp_pwm_duty v : 0 <= v <= 255 ->
  if v =? 0 then Z.quot (esp_pwm v * 100) 256 = 0 else 11 <= Z.quot (esp_pwm v * 100) 256 <= 74.
Proof.
  intros Hv. unfold esp_pwm, MOTOR_MAX, MOTOR_START. destruct (Z.eqb_spec v 0) as [->|]; [done|].
  rewrite (proj2 (Z.ltb_lt _ _)) by lia.
  rewrite (Z.quot_div_nonneg (v * (190 - 30) + 255 * 30)) by lia.
  assert (30 <= (v * (190 - 30) + 255 * 30) / 255 < 191) as Hq
    by (split; [apply Z.div_le_lower_bound; lia|apply Z.div_lt_upper_bound; lia]).
  rewrite Z.quot_div_nonneg by lia.
  split; [apply Z.div_le_lower_bound; lia|]. apply Z.lt_succ_r. apply Z.div_lt_upper_bound; lia.
Qed.

(** C31: Driving the locomotive, call by call: a change of direction first stops the
    motor and zeroes the speed in the table; then the motor is set to the
    direction and duty of the speed the command asked for (0, or 11 to 74
    percent), the info LED blinks, and the headlights are written when F0 or
    the direction has changed.  The engine sound is given the speed step. *)
Theorem esp_drive m n t e d f0 :
  t !! 0%nat = Some d -> lok_ok d -> 0 < nFunc d -> ison <$> (Lokdef.func d !! 0%nat) = Some f0 ->
  let dir := if currdir d <? 0 then 1 else 0 in
  let v := if Z.abs (currspeed d) <? 5 then 0 else Z.abs (currspeed d) in
  let turned := negb (e_dir e =? dir) in
  let duty := Z.quot (esp_pwm v * 100) 256 in
  exists e', esp_sendLoco m n 0 false (t, e) =
      (Ok tt, (if turned then <[0%nat:=set_currspeed 0 d]> t else t, e')) /\
    e_calls e' = e_calls e ++ (if turned then [setmotor_stop] else []) ++ [setmotor (currdir d <? 0) duty] ++
      led_blink (e_ledToggle e) ++
      (if negb (eqb (e_headlight e) f0) || e_changedDir e || turned then headlights dir f0 else []) /\
    e_dir e' = dir /\ e_headlight e' = f0 /\ target_fahrstufe (e_audio e') = speed_to_fahrstufe v /\
    (if v =? 0 then duty = 0 else 11 <= duty <= 74).
Proof.
  intros Ht Hok Hnf Hf0 dir v turned duty. assert (0 <= v <= 255) as Hv.
  { destruct Hok as [_ Hs]. subst v. destruct (_ <? 5); lia. }
  destruct (loco_func_array d (ok_wf d Hok)) as (fa & Hfa & _ & Hfa0).
  assert (fa !! 0%nat = Some (Some f0)) as Hfa1.
  { rewrite Hfa0 by (apply Nat.ltb_lt; reflexivity). rewrite decide_True by lia. destruct (Lokdef.func d !! 0%nat); [|done].
    cbn in *. by inversion Hf0. }
  assert (loco_speed d = Ok v) as Hls.
  { unfold loco_speed, c_abs. rewrite (proj2 (Z.eqb_neq _ _)); [done|]. destruct Hok as [_ Hs]. lia. }
  destruct (esp_setFunction_run m n (nFunc d) fa t e d Ht Hok) as [a1 E1]. set (e1 := mkESP _ _ _ _ _ _ _ _ _) in E1.
  assert (0 <= dir < 256) as Hdir by (clear; subst dir; by destruct (currdir d <? 0)).
  destruct (esp_setDir_run dir t e1 d Ht Hdir) as [a2 E2]. set (e2 := mkESP _ _ _ _ _ _ _ _ _) in E2.
  unfold esp_sendLoco, platine_sendLoco. cbn [Z.ltb Z.compare Z.to_nat].
  erewrite run_bind by done. cbn [fst]. change (Z.to_nat 0) with 0%nat. rewrite Ht.
  erewrite run_bind by (by rewrite Hls). erewrite run_bind by (by rewrite Hfa). fold dir.
  erewrite run_bind by exact E1.
  erewrite run_bind by (erewrite run_bind by exact E2; by apply esp_setPWM_run).
  rewrite (esp_commit_run _ _ f0) by done. eexists. split; [|split_and!]; cbn.
  - do 2 f_equal. subst turned. by destruct (e_dir e =? dir).
  - rewrite <- !app_assoc. cbn. subst turned. replace (negb (dir =? 0)) with (currdir d <? 0) by (subst dir; clear; by destruct (currdir d <? 0)).
    rewrite orb_assoc. by destruct (e_dir e =? dir).
  - done.
  - done.
  - done.
  - by apply esp_pwm_duty.
Qed.

Definition sample_esp : ESP32PWM := mkESP 0 0 1 false 10 [] false (sample_audio 0 0) [].

Lemma esp_drive_witness : exists e',
  esp_sendLoco true 1 0 false ([sample_lok 100 (-1); lokdef0], sample_esp) = (Ok tt, ([sample_lok 0 (-1); lokdef0], e')) /\
  e_calls e' = [setmotor_stop; setmotor true 35; infoLed 1; ledcWrite 2 0; ledcWrite 3 0] /\
  target_fahrstufe (e_audio e') = 2.
Proof.
  destruct (esp_drive true 1 [sample_lok 100 (-1); lokdef0] sample_esp (sample_lok 100 (-1)) true) as (e' & H1 & H2 & _ & _ & H5 & _);
    [done|by apply sample_lok_ok|done|done|].
  exists e'. split; [exact H1|]. split; [exact H2|exact H5].
Defined.

Lemma battery_level_clamp a : battery_level a = Z.max 0 (Z.min 255 (Z.quot ((a - 2000) * 255) 463)).
Proof.
  unfold battery_level, BAT_ADC_MIN, BAT_ADC_MAX. change (2463 - 2000) with 463.
  generalize (Z.quot ((a - 2000) * 255) 463). intros q.
  destruct (Z.ltb_spec 255 q); [rewrite Z.min_l by lia; done|].
  destruct (Z.ltb_spec q 0); lia.
Qed.

(** The battery level is reported as a byte for every reading of the ADC, and
    grows with it. *)
Theorem battery_range a b :
  0 <= battery_level a <= 255 /\ battery_level a <= battery_level (Z.max a b).
Proof.
  rewrite !battery_level_clamp. split; [lia|].
  assert (Z.quot ((a - 2000) * 255) 463 <= Z.quot ((Z.max a b - 2000) * 255) 463) by (apply Z.quot_le_mono; lia). lia.
Qed.
