(* ===== verification/Shields.v ===== *)
(** * esp32-server/btcontrol/ESP32PWM.cpp: two more motor shields

    The driver of ESP32PWM.v in two other builds: the cleaning locomotive of
    config-sample-putzlok.h (VNH5019_DUAL_SHIELD, PUTZLOK: a second motor for the
    cleaning disc, which F3 lets run with the first one and as fast, and
    otherwise against it at a third), and the DRV8871 shield, whose two inputs
    take the PWM of one direction each.  In both MOTOR_IN_BRAKE is LOW.  What is
    asked of pins and PWM channels is recorded in order.  That sample
    configuration lacks MOTOR_MAX and the duties of headlights that are off; they are
    parameters. *)

From S2P Require Import Prelude StdMap CString Utils Lokdef Hardware ParseExpr Platine ESP32MAS.

Inductive shield_call : Type :=
  | ledc (chan duty : Z)
  | digital (pin : Z) (value : bool).

(** [lokdef[0]] is changed *)
Definition change_loco0 {H} (f : lokdef_t -> lokdef_t) : M (list lokdef_t * H) unit :=
  t ← gets fst;
  match t !! 0%nat with
  | None => fail (UB "lokdef[i]")
  | Some d => modify (fun w => (<[0%nat:=f d]> w.1, w.2))
  end.

(** [f_speed*((double)motorFullSpeed - motorStart)/255 + motorStart] *)
Definition shield_pwm (motorStart motorFullSpeed f_speed : Z) : Z :=
  if 0 <? f_speed then Z.quot (f_speed * (motorFullSpeed - motorStart) + 255 * motorStart) 255 else 0.

(** ** The cleaning locomotive *)

Record Cleaner : Type := mkCleaner {
  z_dir : Z;
  z_pwm : Z;
  z_ledToggle : Z;
  z_headlight : bool;
  z_doPutz : bool;
  z_nFunc : Z;
  z_currentFunc : func_array;
  z_changedDir : bool;
  z_audio : Audio_t;
  z_putzBlink : bool;
  z_last : Z;
  z_calls : list shield_call;
}.
Definition cleaner_world : Type := list lokdef_t * Cleaner.

Definition z_upd (f : Cleaner -> Cleaner) : M cleaner_world unit := modify (fun w => (w.1, f w.2)).
Definition z_call (c : shield_call) : M cleaner_world unit :=
  z_upd (fun e => mkCleaner (z_dir e) (z_pwm e) (z_ledToggle e) (z_headlight e) (z_doPutz e) (z_nFunc e) (z_currentFunc e) (z_changedDir e) (z_audio e) (z_putzBlink e) (z_last e) (z_calls e ++ [c])).
Definition z_set_dir d : M cleaner_world unit :=
  z_upd (fun e => mkCleaner d (z_pwm e) (z_ledToggle e) (z_headlight e) (z_doPutz e) (z_nFunc e) (z_currentFunc e) (z_changedDir e) (z_audio e) (z_putzBlink e) (z_last e) (z_calls e)).
Definition z_set_pwm p : M cleaner_world unit :=
  z_upd (fun e => mkCleaner (z_dir e) p (z_ledToggle e) (z_headlight e) (z_doPutz e) (z_nFunc e) (z_currentFunc e) (z_changedDir e) (z_audio e) (z_putzBlink e) (z_last e) (z_calls e)).
Definition z_set_toggle n : M cleaner_world unit :=
  z_upd (fun e => mkCleaner (z_dir e) (z_pwm e) n (z_headlight e) (z_doPutz e) (z_nFunc e) (z_currentFunc e) (z_changedDir e) (z_audio e) (z_putzBlink e) (z_last e) (z_calls e)).
Definition z_set_headlight b : M cleaner_world unit :=
  z_upd (fun e => mkCleaner (z_dir e) (z_pwm e) (z_ledToggle e) b (z_doPutz e) (z_nFunc e) (z_currentFunc e) (z_changedDir e) (z_audio e) (z_putzBlink e) (z_last e) (z_calls e)).
Definition z_set_putz b : M cleaner_world unit :=
  z_upd (fun e => mkCleaner (z_dir e) (z_pwm e) (z_ledToggle e) (z_headlight e) b (z_nFunc e) (z_currentFunc e) (z_changedDir e) (z_audio e) (z_putzBlink e) (z_last e) (z_calls e)).
Definition z_set_func n f : M cleaner_world unit :=
  z_upd (fun e => mkCleaner (z_dir e) (z_pwm e) (z_ledToggle e) (z_headlight e) (z_doPutz e) n f (z_changedDir e) (z_audio e) (z_putzBlink e) (z_last e) (z_calls e)).
Definition z_set_changed b : M cleaner_world unit :=
  z_upd (fun e => mkCleaner (z_dir e) (z_pwm e) (z_ledToggle e) (z_headlight e) (z_doPutz e) (z_nFunc e) (z_currentFunc e) b (z_audio e) (z_putzBlink e) (z_last e) (z_calls e)).
Definition z_set_blink b l : M cleaner_world unit :=
  z_upd (fun e => mkCleaner (z_dir e) (z_pwm e) (z_ledToggle e) (z_headlight e) (z_doPutz e) (z_nFunc e) (z_currentFunc e) (z_changedDir e) (z_audio e) b l (z_calls e)).
Definition z_sound (c : M Audio_t unit) : M cleaner_world unit :=
  zoom (fun w => z_audio w.2)
    (fun a w => let e := w.2 in (w.1, mkCleaner (z_dir e) (z_pwm e) (z_ledToggle e) (z_headlight e) (z_doPutz e) (z_nFunc e) (z_currentFunc e) (z_changedDir e) a (z_putzBlink e) (z_last e) (z_calls e))) c.

Definition INFO_LED_PIN : Z := 2.
Definition PUTZLOK_BLINK_1_PIN : Z := 32.
Definition PUTZLOK_BLINK_2_PIN : Z := 33.
Definition inApin (motor : bool) : Z := if motor then 14 else 26.
Definition inBpin (motor : bool) : Z := if motor then 12 else 17.
Definition CW : Z := 1.
Definition CCW : Z := 2.

(** [motorGo]: motor 1 is [true]; all directions that occur are at most 4 *)
Definition esp_motorGo (motor : bool) (direct : Z) : M cleaner_world unit :=
  z_call (digital (inApin motor) (direct <=? 1));;
  z_call (digital (inBpin motor) ((direct =? 0) || (direct =? 2))).

Section Cleaner.
Context (motorStart motorFullSpeed light_on light_off : Z).

Definition z_setPWM (f_speed : Z) : M cleaner_world unit :=
  let pwm := shield_pwm motorStart motorFullSpeed f_speed in
  z_set_pwm pwm;;
  z_call (ledc 0 pwm);;
  e ← gets snd;
  (if z_doPutz e then z_call (ledc 1 pwm) else z_call (ledc 1 (Z.quot pwm 3)));;
  (if negb (z_ledToggle e =? 0) then z_call (digital INFO_LED_PIN (Z.testbit (z_ledToggle e) 0)) else mret tt);;
  z_set_toggle ((z_ledToggle e + 1) mod 2^32).

Definition z_fullstop (stopAll emergencyStop : bool) : M cleaner_world unit :=
  z_call (ledc 0 0);; z_call (ledc 1 0);;
  change_loco0 (set_currspeed 0);; z_sound (setFahrstufe 0).

Definition z_setDir (dir : Z) : M cleaner_world unit :=
  let dir := u8 dir in
  e ← gets snd;
  (if negb (z_dir e =? dir) then z_set_changed true;; z_fullstop true true else mret tt);;
  z_set_dir dir;;
  esp_motorGo false (if negb (dir =? 0) then CW else CCW);;
  e ← gets snd;
  if z_doPutz e then esp_motorGo true (if negb (dir =? 0) then CW else CCW)
  else esp_motorGo true (if negb (dir =? 0) then CCW else CW).

(** F3 is only followed while the motor stands; otherwise the table is set back *)
Definition z_setFunction (nFunc : Z) (func : func_array) : M cleaner_world unit :=
  z_set_func nFunc func;;
  if (0 <? nFunc) && (3 <? nFunc) then
    f3 ← lift (read_func func 3);
    e ← gets snd;
    if negb (eqb (z_doPutz e) f3) then
      if negb (z_pwm e =? 0) then change_loco0 (fun d => set_func (alter (set_ison (z_doPutz e)) 3%nat (Lokdef.func d)) d)
      else z_set_putz f3
    else mret tt
  else mret tt.

Definition z_commit : M cleaner_world unit :=
  e ← gets snd;
  (if 0 <? z_nFunc e then
     f0 ← lift (read_func (z_currentFunc e) 0);
     if negb (eqb (z_headlight e) f0) || z_changedDir e then
       (if negb (z_dir e =? 0) then
          z_call (ledc 2 (if f0 : bool then light_on else light_off));; z_call (ledc 3 light_off)
        else
          z_call (ledc 2 light_off);; z_call (ledc 3 (if f0 : bool then light_on else light_off)));;
       z_set_headlight f0
     else mret tt
   else mret tt);;
  z_set_changed false.

Definition z_sendLoco : Z -> bool -> M cleaner_world unit :=
  platine_sendLoco fst z_setFunction z_setDir z_setPWM z_fullstop z_commit.

(** [loop()], which the sketch calls; [last] and [putzBlink] are static *)
Definition z_loop (millis : Z) : M cleaner_world unit :=
  e ← gets snd;
  if z_last e + 1000 <? millis then
    (if z_doPutz e then
       z_call (digital PUTZLOK_BLINK_1_PIN (z_putzBlink e));;
       z_call (digital PUTZLOK_BLINK_2_PIN (negb (z_putzBlink e)));;
       z_set_blink (negb (z_putzBlink e)) (z_last e)
     else
       z_call (digital PUTZLOK_BLINK_1_PIN false);;
       z_call (digital PUTZLOK_BLINK_2_PIN false));;
    e ← gets snd;
    z_set_blink (z_putzBlink e) millis
  else mret tt.

(** the constructor: the pins at rest, the members, [sendLoco(0, false)] *)
Definition z_members (audio : Audio_t) : Cleaner :=
  mkCleaner 0 0 0 false false 0 (Some true :: repeat (Some false) 31) false audio false 0
    [digital 26 false; digital 17 false; digital 14 false; digital 12 false].
Definition z_new (audio : Audio_t) (t : list lokdef_t) : outcome unit * cleaner_world :=
  z_sendLoco 0 false (t, z_members audio).
End Cleaner.

(** ** No reversal under power *)

(** what the two bridges see: duty and direction pins of each motor, and whether
    a direction pin has only been changed at duty 0 so far *)
Record bridges : Type := mkBridges { b_duty0 : Z; b_duty1 : Z; b_pins0 : bool * bool; b_pins1 : bool * bool; b_ok : bool }.
Definition bridge_step (b : bridges) (c : shield_call) : bridges :=
  match c with
  | ledc chan d =>
      if chan =? 0 then mkBridges d (b_duty1 b) (b_pins0 b) (b_pins1 b) (b_ok b)
      else if chan =? 1 then mkBridges (b_duty0 b) d (b_pins0 b) (b_pins1 b) (b_ok b) else b
  | digital p v =>
      if p =? 26 then mkBridges (b_duty0 b) (b_duty1 b) (v, (b_pins0 b).2) (b_pins1 b) (b_ok b && ((b_duty0 b =? 0) || eqb v (b_pins0 b).1))
      else if p =? 17 then mkBridges (b_duty0 b) (b_duty1 b) ((b_pins0 b).1, v) (b_pins1 b) (b_ok b && ((b_duty0 b =? 0) || eqb v (b_pins0 b).2))
      else if p =? 14 then mkBridges (b_duty0 b) (b_duty1 b) (b_pins0 b) (v, (b_pins1 b).2) (b_ok b && ((b_duty1 b =? 0) || eqb v (b_pins1 b).1))
      else if p =? 12 then mkBridges (b_duty0 b) (b_duty1 b) (b_pins0 b) ((b_pins1 b).1, v) (b_ok b && ((b_duty1 b =? 0) || eqb v (b_pins1 b).2))
      else b
  end.
Definition bridge_log (l : list shield_call) : bridges := foldl bridge_step (mkBridges 0 0 (false, false) (false, false) true) l.

Lemma bridge_log_snoc l c : bridge_log (l ++ [c]) = bridge_step (bridge_log l) c.
Proof. unfold bridge_log. by rewrite foldl_app. Qed.

(** the pins of the direction *)
Definition pins_of (forward : bool) : bool * bool := (forward, negb forward).
Definition forward0 (e : Cleaner) : bool := negb (z_dir e =? 0).
Definition forward1 (e : Cleaner) : bool := if z_doPutz e then forward0 e else negb (forward0 e).

(** a motor that runs, runs in its direction; [z_pwm = 0] is believed *)
Record bridges_known (e : Cleaner) : Prop := mkKnown {
  bk_ok : b_ok (bridge_log (z_calls e)) = true;
  bk_pwm : z_pwm e = 0 -> b_duty0 (bridge_log (z_calls e)) = 0 /\ b_duty1 (bridge_log (z_calls e)) = 0;
  bk_run0 : b_duty0 (bridge_log (z_calls e)) <> 0 -> b_pins0 (bridge_log (z_calls e)) = pins_of (forward0 e);
  bk_run1 : b_duty1 (bridge_log (z_calls e)) <> 0 -> b_pins1 (bridge_log (z_calls e)) = pins_of (forward1 e);
}.
Definition known (w : cleaner_world) : Prop := bridges_known w.2.
(** after [setDir] *)
Definition directed (w : cleaner_world) : Prop :=
  known w /\ b_pins0 (bridge_log (z_calls w.2)) = pins_of (forward0 w.2) /\ b_pins1 (bridge_log (z_calls w.2)) = pins_of (forward1 w.2).
(** at rest *)
Definition unpowered (w : cleaner_world) : Prop :=
  known w /\ b_duty0 (bridge_log (z_calls w.2)) = 0 /\ b_duty1 (bridge_log (z_calls w.2)) = 0.

(** operations that leave motors and directions alone *)
Definition same_motors (e e' : Cleaner) : Prop :=
  z_dir e' = z_dir e /\ z_pwm e' = z_pwm e /\ z_doPutz e' = z_doPutz e /\ bridge_log (z_calls e') = bridge_log (z_calls e).

Lemma known_same e e' : same_motors e e' -> bridges_known e -> bridges_known e'.
Proof.
  intros (Hd & Hp & Hz & Hl) [K1 K2 K3 K4]. unfold forward1, forward0 in *. split; rewrite ?Hl, ?Hp; unfold forward1, forward0; rewrite ?Hz, ?Hd; auto.
Qed.

Lemma upd_same f : (forall e, same_motors e (f e)) -> preserves known (z_upd f).
Proof. intros Hf. apply preserves_modify. intros w Hw. eapply known_same; [apply Hf|done]. Qed.

Lemma call_same c : (forall b, bridge_step b c = b) -> preserves known (z_call c).
Proof. intros Hc. apply upd_same. intros e. repeat split. cbn. by rewrite bridge_log_snoc, Hc. Qed.

Lemma preserves_change (I : cleaner_world -> Prop) f : (forall t t' e, I (t, e) -> I (t', e)) -> preserves I (change_loco0 f).
Proof.
  intros HI. apply preserves_bind; [apply preserves_gets|]. intros t. destruct (t !! 0%nat); [|apply preserves_fail].
  apply preserves_modify. intros [t' e]. apply HI.
Qed.

Lemma sound_keeps (I : cleaner_world -> Prop) c :
  (forall t e a, I (t, e) -> I (t, mkCleaner (z_dir e) (z_pwm e) (z_ledToggle e) (z_headlight e) (z_doPutz e) (z_nFunc e) (z_currentFunc e) (z_changedDir e) a (z_putzBlink e) (z_last e) (z_calls e))) ->
  preserves I (z_sound c).
Proof. intros HI [t e] Hw. unfold z_sound, zoom. cbn. destruct (c (z_audio e)). by apply HI. Qed.

Section reversal.
Context (motorStart motorFullSpeed light_on light_off : Z).

Lemma z_fullstop_rest a e w : known w -> unpowered (z_fullstop a e w).2.
Proof.
  intros Hk. unfold z_fullstop, z_call, z_upd. do 2 erewrite run_bind by done. cbn [fst snd].
  refine ((_ : preserves unpowered (change_loco0 (set_currspeed 0);; z_sound (setFahrstufe 0))) _ _).
  - apply preserves_bind; [by apply preserves_change|]. intros []. apply sound_keeps. intros t c x (H & H0 & H1). split; [|done].
    eapply known_same; [|exact H]. by repeat split.
  - destruct w as [t c], Hk as [K1 K2 K3 K4]. cbn in *. split; [|cbn; rewrite !bridge_log_snoc; done].
    split; cbn; rewrite !bridge_log_snoc; cbn; auto; try done.
Qed.

Lemma unpowered_known w : unpowered w -> known w.
Proof. by intros []. Qed.

(** setting the pins of motors that stand, or again to what they are *)
Lemma pins_set b f0 f1 : b_ok b = true -> b_duty0 b = 0 \/ b_pins0 b = pins_of f0 -> b_duty1 b = 0 \/ b_pins1 b = pins_of f1 ->
  foldl bridge_step b [digital 26 f0; digital 17 (negb f0); digital 14 f1; digital 12 (negb f1)] =
    mkBridges (b_duty0 b) (b_duty1 b) (pins_of f0) (pins_of f1) true.
Proof.
  destruct b as [d0 d1 [x0 y0] [x1 y1] ok]. unfold pins_of. cbn. intros -> H0 H1. f_equal.
  assert ((d0 =? 0) || eqb f0 x0 = true /\ (d0 =? 0) || eqb (negb f0) y0 = true) as [-> ->].
  { destruct H0 as [-> | [= -> ->]]; [done|]. rewrite !eqb_reflx, !orb_true_r. done. }
  assert ((d1 =? 0) || eqb f1 x1 = true /\ (d1 =? 0) || eqb (negb f1) y1 = true) as [-> ->].
  { destruct H1 as [-> | [= -> ->]]; [done|]. rewrite !eqb_reflx, !orb_true_r. done. }
  done.
Qed.

(** the end of [setDir] *)
Lemma set_pins_directed dir w : known w -> (z_dir w.2 = dir \/ unpowered w) ->
  directed ((z_set_dir dir;;
    esp_motorGo false (if negb (dir =? 0) then CW else CCW);;
    e ← gets snd;
    if z_doPutz e then esp_motorGo true (if negb (dir =? 0) then CW else CCW)
    else esp_motorGo true (if negb (dir =? 0) then CCW else CW)) w).2.
Proof.
  intros Hk Hd. destruct w as [t e]. set (f0 := negb (dir =? 0)). set (f1 := if z_doPutz e then f0 else negb f0).
  set (e' := mkCleaner dir (z_pwm e) (z_ledToggle e) (z_headlight e) (z_doPutz e) (z_nFunc e) (z_currentFunc e) (z_changedDir e) (z_audio e) (z_putzBlink e) (z_last e)
    (z_calls e ++ [digital 26 f0; digital 17 (negb f0); digital 14 f1; digital 12 (negb f1)])).
  assert (((z_set_dir dir;; esp_motorGo false (if f0 then CW else CCW);; e ← gets snd;
    if z_doPutz e then esp_motorGo true (if f0 then CW else CCW) else esp_motorGo true (if f0 then CCW else CW)) (t, e)).2 = (t, e')) as ->.
  { unfold z_set_dir, esp_motorGo, z_call, z_upd, mbind, M_bind, modify, gets. cbn. unfold e', f1.
    destruct (z_doPutz e), f0; cbn; rewrite <- !app_assoc; done. }
  destruct Hk as [K1 K2 K3 K4]. cbn in K1, K2, K3, K4. set (b := bridge_log (z_calls e)) in *.
  assert (bridge_log (z_calls e') = mkBridges (b_duty0 b) (b_duty1 b) (pins_of f0) (pins_of f1) true) as Hb.
  { unfold e', bridge_log. cbn [z_calls]. rewrite foldl_app. apply pins_set; [done|..].
    - destruct (Z.eq_dec (b_duty0 b) 0) as [|Hne]; [by left|right]. rewrite K3 by done.
      destruct Hd as [Hd|(_ & Hd & _)]; [|done]. unfold forward0. cbn in Hd. by rewrite Hd.
    - destruct (Z.eq_dec (b_duty1 b) 0) as [|Hne]; [by left|right]. rewrite K4 by done.
      destruct Hd as [Hd|(_ & _ & Hd)]; [|done]. unfold forward1, forward0. cbn in Hd. by rewrite Hd. }
  split; [split; cbn [snd]; rewrite Hb; cbn; auto|]. cbn [snd]. by rewrite Hb.
Qed.

Lemma directed_result {A} (r : outcome A * cleaner_world) : directed r.2 -> match r with (Ok _, w') => directed w' | (Err _, w') => known w' end.
Proof. destruct r as [[]]; [done|]. by intros []. Qed.

Lemma z_setDir_directed d w : known w -> match z_setDir d w with (Ok _, w') => directed w' | (Err _, w') => known w' end.
Proof.
  intros Hk. unfold z_setDir. rewrite (run_bind _ _ _ w.2 w) by done.
  destruct (Z.eqb_spec (z_dir w.2) (u8 d)) as [E|E]; cbn [negb].
  - rewrite (run_bind _ _ _ tt w) by done. pose proof (set_pins_directed (u8 d) w Hk (or_introl E)) as H.
    by apply directed_result.
  - set (w1 := (z_set_changed true w).2). unfold mbind at 1, M_bind at 1.
    change ((z_set_changed true ≫= (fun _ => z_fullstop true true)) w) with (z_fullstop true true w1).
    assert (known w1) as H1 by (eapply known_same; [|exact Hk]; by repeat split).
    pose proof (z_fullstop_rest true true w1 H1) as H2. destruct (z_fullstop true true w1) as [[[]|x] w2]; cbn in H2; [|by destruct H2].
    pose proof (set_pins_directed (u8 d) w2 (unpowered_known _ H2) (or_intror H2)) as H.
    by apply directed_result.
Qed.

Lemma z_setPWM_known v w : directed w -> known (z_setPWM motorStart motorFullSpeed v w).2.
Proof.
  intros (Hk & H0 & H1). destruct w as [t e]. destruct Hk as [K1 _ _ _]. cbn in K1, H0, H1.
  unfold z_setPWM. set (p := shield_pwm motorStart motorFullSpeed v). set (q := if z_doPutz e then p else Z.quot p 3).
  set (e1 := mkCleaner (z_dir e) p (z_ledToggle e) (z_headlight e) (z_doPutz e) (z_nFunc e) (z_currentFunc e) (z_changedDir e) (z_audio e) (z_putzBlink e) (z_last e)
    (z_calls e ++ [ledc 0 p; ledc 1 q])).
  rewrite (run_bind _ _ _ tt (t, mkCleaner (z_dir e) p (z_ledToggle e) (z_headlight e) (z_doPutz e) (z_nFunc e) (z_currentFunc e) (z_changedDir e) (z_audio e) (z_putzBlink e) (z_last e) (z_calls e))) by done.
  erewrite run_bind by done. erewrite run_bind by done. cbn [snd z_doPutz z_ledToggle].
  rewrite (run_bind _ _ _ tt (t, e1)).
  2:{ unfold e1, q. destruct (z_doPutz e); unfold z_call, z_upd, modify; cbn; by rewrite <- app_assoc. }
  refine ((_ : preserves known _) _ _).
  - apply preserves_bind; [apply preserves_if; [by apply call_same|apply preserves_ret]|]. intros []. apply upd_same. by repeat split.
  - assert (bridge_log (z_calls e1) = mkBridges p q (b_pins0 (bridge_log (z_calls e))) (b_pins1 (bridge_log (z_calls e))) true) as Hb.
    { unfold e1, bridge_log. cbn [z_calls]. rewrite foldl_app. cbn. unfold bridge_log in K1. by rewrite K1. }
    split; cbn [snd]; rewrite Hb; cbn; auto. intros Hp. fold p in Hp. unfold q. rewrite Hp. by destruct (z_doPutz e).
Qed.

Lemma z_setFunction_known n f : preserves known (z_setFunction n f).
Proof.
  apply preserves_bind; [apply upd_same; by repeat split|]. intros []. apply preserves_if; [|apply preserves_ret].
  apply preserves_bind; [apply preserves_lift|]. intros f3. intros w Hw. rewrite (run_bind _ _ _ w.2 w) by done.
  destruct (negb (eqb (z_doPutz w.2) f3)); [|done]. destruct (Z.eqb_spec (z_pwm w.2) 0) as [E|E]; cbn [negb].
  - destruct w as [t e], Hw as [K1 K2 K3 K4]. cbn in *. destruct (K2 E) as [D0 D1]. split; cbn; auto; by rewrite ?D0, ?D1.
  - by apply preserves_change.
Qed.

Lemma z_commit_known : preserves known (z_commit light_on light_off).
Proof.
  apply preserves_bind; [apply preserves_gets|]. intros e. apply preserves_bind; [|intros []; apply upd_same; by repeat split].
  apply preserves_if; [|apply preserves_ret]. apply preserves_bind; [apply preserves_lift|]. intros f0.
  apply preserves_if; [|apply preserves_ret]. apply preserves_bind; [|intros []; apply upd_same; by repeat split].
  apply preserves_if; (apply preserves_bind; [|intros []]; by apply call_same).
Qed.

Lemma z_loop_known now : preserves known (z_loop now).
Proof.
  apply preserves_bind; [apply preserves_gets|]. intros e. apply preserves_if; [|apply preserves_ret].
  apply preserves_bind.
  - apply preserves_if; (apply preserves_bind; [by apply call_same|intros []]).
    + apply preserves_bind; [by apply call_same|]. intros []. apply upd_same. by repeat split.
    + by apply call_same.
  - intros []. apply preserves_bind; [apply preserves_gets|]. intros e'. apply upd_same. by repeat split.
Qed.

Lemma z_fullstop_known a e : preserves known (z_fullstop a e).
Proof. intros w Hw. by apply unpowered_known, z_fullstop_rest. Qed.

Lemma z_setDir_known d : preserves known (z_setDir d).
Proof. intros w Hw. pose proof (z_setDir_directed d w Hw) as H. destruct (z_setDir d w) as [[[]|] w']; [by destruct H|done]. Qed.

Lemma z_sendLoco_known i e : preserves known (z_sendLoco motorStart motorFullSpeed light_on light_off i e).
Proof.
  unfold z_sendLoco, platine_sendLoco. apply preserves_if; [apply preserves_fail|].
  apply preserves_bind; [apply preserves_gets|]. intros t. destruct (t !! Z.to_nat i) as [d|]; [|apply preserves_fail].
  apply preserves_bind; [apply preserves_lift|]. intros v. apply preserves_bind; [apply preserves_lift|]. intros f.
  apply preserves_bind; [apply z_setFunction_known|]. intros []. apply preserves_bind; [|intros []; apply z_commit_known].
  apply preserves_if; [apply z_fullstop_known|]. intros w Hw. unfold mbind, M_bind.
  pose proof (z_setDir_directed (if currdir d <? 0 then 1 else 0) w Hw) as H.
  destruct (z_setDir _ w) as [[[]|] w']; [by apply z_setPWM_known|done].
Qed.
End reversal.

(** the calls of the server and of the sketch *)
Inductive cleaner_op : Type :=
  | cl_sendLoco (addr_index : Z) (emergencyStop : bool)
  | cl_fullstop (stopAll emergencyStop : bool)
  | cl_pwrOff
  | cl_loop (millis : Z).
Definition cleaner_run (start full on off : Z) (o : cleaner_op) (w : cleaner_world) : cleaner_world :=
  match o with
  | cl_sendLoco i e => (z_sendLoco start full on off i e w).2
  | cl_fullstop a e => (z_fullstop a e w).2
  | cl_pwrOff => (z_setDir 0 w).2
  | cl_loop now => (z_loop now w).2
  end.

(** C25: Neither motor of the cleaning locomotive is reversed under power: over all
    calls of server and sketch in any order, whatever the table says and whatever
    exceptions occur, a direction pin of a motor changes only while its duty
    is 0, also when F3 turns the second motor round. *)
Theorem cleaner_no_reversal start full on off audio t (ops : list (list lokdef_t * cleaner_op)) :
  b_ok (bridge_log (z_calls (foldl (fun w x => cleaner_run start full on off x.2 (x.1, w.2)) (z_new start full on off audio t).2 ops).2)) = true.
Proof.
  enough (known (foldl (fun w x => cleaner_run start full on off x.2 (x.1, w.2)) (z_new start full on off audio t).2 ops)) as [H _ _ _] by exact H.
  assert (known (z_new start full on off audio t).2) as H0 by (apply z_sendLoco_known; split; cbn; auto; by intros []).
  revert H0. generalize (z_new start full on off audio t).2. induction ops as [|[t' o] ops IH]; intros w Hw; cbn; [done|].
  apply IH. assert (known (t', w.2)) as H' by exact Hw.
  destruct o; cbn; [by apply z_sendLoco_known|by apply z_fullstop_known|by apply z_setDir_known|by apply z_loop_known].
Qed.

(** F3 turns the cleaning disc round only while the motor stands; a refused
    change is taken back in the table. *)
Theorem cleaner_switch n f b t e d : 3 < n -> f !! 3%nat = Some (Some b) -> t !! 0%nat = Some d ->
  exists w', z_setFunction n f (t, e) = (Ok tt, w') /\ z_nFunc w'.2 = n /\
    if z_pwm e =? 0 then z_doPutz w'.2 = b /\ w'.1 = t
    else z_doPutz w'.2 = z_doPutz e /\
      w'.1 = if eqb (z_doPutz e) b then t else <[0%nat := set_func (alter (set_ison (z_doPutz e)) 3%nat (Lokdef.func d)) d]> t.
Proof.
  intros Hn Hf Ht. unfold z_setFunction. erewrite run_bind by done. rewrite !(proj2 (Z.ltb_lt _ _)) by lia. cbn [andb].
  unfold read_func. change (Z.to_nat 3) with 3%nat. rewrite ?Hf. cbn [fst snd].
  unfold mbind, M_bind, lift, gets. cbn. destruct (eqb (z_doPutz e) b) eqn:Eb; cbn.
  - apply eqb_prop in Eb. eexists. split; [reflexivity|]. split; [done|]. by destruct (z_pwm e =? 0).
  - destruct (z_pwm e =? 0); cbn; [by eexists|]. unfold change_loco0, mbind, M_bind, gets. cbn. rewrite Ht. by eexists.
Qed.

Definition sample_cleaner (pwm : Z) : Cleaner :=
  mkCleaner 0 pwm 0 false false 4 (repeat (Some false) 32) false (sample_audio 0 0) false 0 [].
Lemma cleaner_switch_witness : exists w',
  z_setFunction 4 (repeat (Some true) 32) ([sample_lok 0 1], sample_cleaner 0) = (Ok tt, w') /\ z_doPutz w'.2 = true.
Proof.
  destruct (cleaner_switch 4 (repeat (Some true) 32) true [sample_lok 0 1] (sample_cleaner 0) (sample_lok 0 1)) as (w' & H1 & _ & H2); [lia|done|done|].
  exists w'. split; [exact H1|]. apply H2.
Defined.

(** An emergency stop leaves [pwm] as it was: F3 is refused although the
    locomotive stands, until a speed command for 0 arrives. *)
Example putz_refused_standing :
  let w := (z_fullstop true true (z_sendLoco 40 255 20 0 0 false ([sample_lok 100 1; lokdef0], sample_cleaner 0)).2).2 in
  b_duty0 (bridge_log (z_calls w.2)) = 0 /\ z_pwm w.2 = 124 /\ z_doPutz w.2 = true /\
  z_doPutz (z_setFunction 4 (repeat (Some false) 32) w).2.2 = true.
Proof. vm_compute. done. Qed.

(** ** What driving does *)

Lemma z_setDir_run d t e d0 : t !! 0%nat = Some d0 ->
  exists w', z_setDir d (t, e) = (Ok tt, w') /\ z_dir w'.2 = u8 d /\ z_doPutz w'.2 = z_doPutz e.
Proof.
  intros Ht. unfold z_setDir, z_fullstop, change_loco0, z_sound, esp_motorGo, z_set_changed, z_set_dir, z_call, z_upd, mbind, M_bind, gets, modify, zoom. cbn.
  destruct (z_dir e =? u8 d); cbn; rewrite ?Ht; cbn; destruct (z_doPutz e) eqn:E; eexists; (split; [reflexivity|]); cbn; auto.
Qed.

Lemma z_setPWM_run start full v t e :
  exists w', z_setPWM start full v (t, e) = (Ok tt, w') /\ z_dir w'.2 = z_dir e /\ z_doPutz w'.2 = z_doPutz e /\
    let p := shield_pwm start full v in let b := bridge_log (z_calls e) in
    bridge_log (z_calls w'.2) = mkBridges p (if z_doPutz e then p else Z.quot p 3) (b_pins0 b) (b_pins1 b) (b_ok b).
Proof.
  unfold z_setPWM, z_set_pwm, z_set_toggle, z_call, z_upd, mbind, M_bind, gets, modify. cbn.
  destruct (z_doPutz e) eqn:E, (negb (z_ledToggle e =? 0)); cbn; eexists; (split; [reflexivity|]); cbn; rewrite ?E; (split; [done|]); (split; [done|]);
    by rewrite !bridge_log_snoc.
Qed.

(** Driving the cleaning locomotive sets both motors: the first to the speed
    in the direction asked for, the second, with F3 on, to the same, and
    otherwise to a third of it against the first. *)
Theorem cleaner_drives start full d v w d0 : known w -> w.1 !! 0%nat = Some d0 ->
  exists w', (z_setDir d;; z_setPWM start full v) w = (Ok tt, w') /\ z_dir w'.2 = u8 d /\ z_doPutz w'.2 = z_doPutz w.2 /\
    let fwd := negb (u8 d =? 0) in let p := shield_pwm start full v in
    bridge_log (z_calls w'.2) = mkBridges p (if z_doPutz w.2 then p else Z.quot p 3) (pins_of fwd) (pins_of (if z_doPutz w.2 then fwd else negb fwd)) true.
Proof.
  intros Hk Ht. destruct w as [t e]. cbn [fst snd] in *. destruct (z_setDir_run d t e d0 Ht) as ([t1 e1] & E1 & Hd & Hz).
  pose proof (z_setDir_directed d (t, e) Hk) as Hdir. rewrite E1 in Hdir. destruct Hdir as ([K1 _ _ _] & P0 & P1). cbn [snd] in *.
  destruct (z_setPWM_run start full v t1 e1) as (w' & E2 & Hd2 & Hz2 & Hb). exists w'. rewrite (run_bind _ _ _ _ _ E1).
  split; [done|]. split; [congruence|]. split; [congruence|]. cbv zeta. rewrite Hb, K1, P0, P1. unfold forward1, forward0. by rewrite Hd, Hz.
Qed.

Lemma cleaner_drives_witness : exists w', (z_setDir 1;; z_setPWM 40 255 150) ([sample_lok 0 1], sample_cleaner 0) = (Ok tt, w') /\
  bridge_log (z_calls w'.2) = mkBridges 166 55 (true, false) (false, true) true.
Proof.
  destruct (cleaner_drives 40 255 1 150 ([sample_lok 0 1], sample_cleaner 0) (sample_lok 0 1)) as (w' & H1 & _ & _ & H2);
    [by split; cbn; auto; intros []|done|].
  exists w'. split; [exact H1|]. exact H2.
Defined.

(** ** The DRV8871 shield *)

(** channel 0 is the PWM of INA, channel 1 of INB; lights and sound are those of
    ESP32PWM.v *)
Record Drv : Type := mkDrv { v_dir : Z; v_pwm : Z; v_calls : list shield_call }.
Definition drv_world : Type := list lokdef_t * Drv.
Definition v_call (c : shield_call) : M drv_world unit := modify (fun w => (w.1, mkDrv (v_dir w.2) (v_pwm w.2) (v_calls w.2 ++ [c]))).

Definition drv_setPWM (motorStart motorFullSpeed f_speed : Z) : M drv_world unit :=
  let pwm := shield_pwm motorStart motorFullSpeed f_speed in
  modify (fun w => (w.1, mkDrv (v_dir w.2) pwm (v_calls w.2)));;
  e ← gets snd;
  v_call (ledc (v_dir e) pwm).
Definition drv_fullstop (stopAll emergencyStop : bool) : M drv_world unit :=
  v_call (ledc 0 0);; v_call (ledc 1 0);; change_loco0 (set_currspeed 0).
Definition drv_setDir (dir : Z) : M drv_world unit :=
  let dir := u8 dir in
  e ← gets snd;
  (if negb (v_dir e =? dir) then drv_fullstop true true else mret tt);;
  modify (fun w => (w.1, mkDrv dir (v_pwm w.2) (v_calls w.2))).

(** [sendLoco] gives directions 0 and 1 *)
Inductive drv_op : Type := drv_go (back : bool) (speed : Z) | drv_stop | drv_off.
Definition drv_run (start full : Z) (o : drv_op) (w : drv_world) : drv_world :=
  match o with
  | drv_go back v => ((drv_setDir (if back then 1 else 0);; drv_setPWM start full v) w).2
  | drv_stop => (drv_fullstop true true w).2
  | drv_off => (drv_setDir 0 w).2
  end.

(** only the input of the direction is driven *)
Definition one_sided (w : drv_world) : Prop :=
  let b := bridge_log (v_calls w.2) in
  (v_dir w.2 = 0 /\ b_duty1 b = 0) \/ (v_dir w.2 = 1 /\ b_duty0 b = 0).

Lemma drv_stop_rest a e w : one_sided w -> let w' := (drv_fullstop a e w).2 in
  v_dir w'.2 = v_dir w.2 /\ b_duty0 (bridge_log (v_calls w'.2)) = 0 /\ b_duty1 (bridge_log (v_calls w'.2)) = 0.
Proof.
  intros _. destruct w as [t [d p l]]. unfold drv_fullstop, change_loco0, v_call, mbind, M_bind, modify, gets. cbn.
  destruct (t !! 0%nat); cbn; by rewrite !bridge_log_snoc.
Qed.

Lemma drv_setDir_sided (back : bool) w : one_sided w -> one_sided (drv_setDir (if back then 1 else 0) w).2.
Proof.
  intros Hw. set (d := if back then 1 else 0). assert (u8 d = d) as Hu by (by destruct back). unfold drv_setDir. rewrite Hu.
  rewrite (run_bind _ _ _ w.2 w) by done. destruct (Z.eqb_spec (v_dir w.2) d) as [E|E]; cbn [negb].
  - rewrite (run_bind _ _ _ tt w) by done. destruct w as [t [d' p l]]. cbn in *. by rewrite <- E.
  - unfold mbind, M_bind. pose proof (drv_stop_rest true true w Hw) as (Hd & H0 & H1).
    destruct (drv_fullstop true true w) as [[[]|x] w1]; cbn in *.
    + unfold one_sided. cbn. destruct back; [right|left]; done.
    + destruct Hw as [[? _]|[? _]]; [left|right]; split; auto; congruence.
Qed.

Lemma drv_run_sided start full o w : one_sided w -> one_sided (drv_run start full o w).
Proof.
  intros Hw. destruct o as [back v| |]; cbn [drv_run].
  - pose proof (drv_setDir_sided back w Hw) as H. unfold mbind, M_bind. destruct (drv_setDir _ w) as [[[]|x] w1]; [|done]. cbn in H.
    destruct w1 as [t [d p l]]. unfold drv_setPWM, v_call, mbind, M_bind, modify, gets, one_sided in *. cbn in *. rewrite bridge_log_snoc.
    destruct H as [[-> H]|[-> H]]; cbn; [left|right]; done.
  - pose proof (drv_stop_rest true true w Hw) as (Hd & H0 & H1). destruct Hw as [[? _]|[? _]]; [left|right]; split; auto; congruence.
  - apply (drv_setDir_sided false w Hw).
Qed.

(** The two inputs of the DRV8871 never get a PWM at the same time, whatever
    order of commands and whatever exceptions: the bridge is not braked under
    power and not reversed without a stop. *)
Theorem drv_one_input start full t (ops : list (list lokdef_t * drv_op)) :
  let w := foldl (fun w x => drv_run start full x.2 (x.1, w.2)) (t, mkDrv 0 0 []) ops in
  b_duty0 (bridge_log (v_calls w.2)) = 0 \/ b_duty1 (bridge_log (v_calls w.2)) = 0.
Proof.
  intros w. enough (one_sided w) as [[_ H]|[_ H]] by auto. unfold w.
  assert (one_sided (t, mkDrv 0 0 [])) as H0 by (by left). revert H0. generalize (t, mkDrv 0 0 []).
  clear w. induction ops as [|[t' o] ops IH]; intros w Hw; [done|]. cbn [foldl]. apply IH, drv_run_sided. exact Hw.
Qed.
