(* ===== verification/ClientThread.v ===== *)
(** * bluetoothserver/clientthread.cpp: the commands of a connected client

    One thread serves one client: it greets, then reads a message, executes
    it on the locomotive table, answers, and drives the locomotives that
    changed.  The build without INCL_BT is modelled.  Several threads share
    the table and the driver; [ct_lokdef] and [ct_hw] are that shared part. *)

From Stdlib Require Import Ascii.
From S2P Require Import Prelude StdMap CString Utils MessageLayout Message Stream Lokdef Hardware.

Definition SPEED_STEP : Z := 5.

(** [struct lastStatus_t] *)
Record lastStatus_t : Type := mkLast { ls_currspeed : Z; ls_func : Z; ls_dir : Z }.

Section ClientThread.
Context {H S : Type} `{Hardware H} `{ClientStream S}.
Context (ml : MessageLayouts) (timeout : Z) (clientID : Z).
(** the file system below [readFile] *)
Context (readFile : string -> outcome string).

Record CT : Type := mkCT {
  ct_lokdef : list lokdef_t;
  ct_hw : H;
  ct_client : option S;
  ct_lastStatus : list lastStatus_t;
  ct_changed : list bool;
  ct_msgNum : Z;
}.

Definition set_lokdef (t : list lokdef_t) (s : CT) : CT :=
  mkCT t (ct_hw s) (ct_client s) (ct_lastStatus s) (ct_changed s) (ct_msgNum s).
Definition set_lastStatus (l : list lastStatus_t) (s : CT) : CT :=
  mkCT (ct_lokdef s) (ct_hw s) (ct_client s) l (ct_changed s) (ct_msgNum s).
Definition set_changed (l : list bool) (s : CT) : CT :=
  mkCT (ct_lokdef s) (ct_hw s) (ct_client s) (ct_lastStatus s) l (ct_msgNum s).

(** calls on the member objects *)
Definition on_hw {A} (c : M (list lokdef_t * H) A) : M CT A :=
  zoom (fun s => (ct_lokdef s, ct_hw s))
       (fun w s => mkCT w.1 w.2 (ct_client s) (ct_lastStatus s) (ct_changed s) (ct_msgNum s)) c.
Definition on_comm {A} (c : M (option S) A) : M CT A :=
  zoom ct_client
       (fun c s => mkCT (ct_lokdef s) (ct_hw s) c (ct_lastStatus s) (ct_changed s) (ct_msgNum s)) c.

Definition send (reply : FBTCtlMessage) : M CT unit := on_comm (sendMessage ml reply).

(** [lokdef[i]] as a value and as an object to change *)
Definition lok_at (i : Z) : M CT lokdef_t :=
  t ← gets ct_lokdef;
  if i <? 0 then fail (UB "lokdef[i]")
  else match t !! Z.to_nat i with Some d => mret d | None => fail (UB "lokdef[i]") end.
Definition upd_lok (i : Z) (f : lokdef_t -> lokdef_t) : M CT unit :=
  d ← lok_at i;
  modify (fun s => set_lokdef (<[Z.to_nat i:=f d]> (ct_lokdef s)) s).
(** [changedAddrIndex[i]=v] *)
Definition mark_changed (i : Z) (v : bool) : M CT unit :=
  c ← gets ct_changed;
  if (i <? 0) || (Z.of_nat (length c) <=? i) then fail (UB "changedAddrIndex[i]")
  else modify (set_changed (<[Z.to_nat i:=v]> c)).
Definition addrIndex (a : Z) : M CT Z :=
  t ← gets ct_lokdef; lift (getAddrIndex a t).

(** [int] multiplication: overflow has no defined behaviour *)
Definition int_mul (a b : Z) : outcome Z :=
  if int32b (a * b) then Ok (a * b) else Err (UB "signed overflow").

(** ** Status replies *)

(** the loop that collects the function bits *)
Fixpoint func_bits_from (j : Z) (k : nat) (fs : list func_t) : outcome Z :=
  match k with
  | O => Ok 0
  | Datatypes.S k' =>
      match fs with
      | [] => Err (UB "func[j]")
      | f :: fs' =>
          rest ← func_bits_from (j + 1) k' fs';
          Ok (if ison f then Z.lor (wrap32 (Z.shiftl 1 j)) rest else rest)
      end
  end.
Definition func_bits (d : lokdef_t) : outcome Z := func_bits_from 0 (Z.to_nat (nFunc d)) (func d).

(** what is reported as speed: the direction when the locomotive stands *)
Definition reported_speed (d : lokdef_t) : outcome Z :=
  if currspeed d =? 0 then Ok (currdir d) else int_mul (currspeed d) (currdir d).

(** [reply["info"][n][key]=v] *)
Definition put_info (n : Z) (key : string) (v : FBTCtlMessage) : M FBTCtlMessage unit :=
  at_field "info" (at_index n (at_field key (put v))).

(** [while(lokdef[i].addr)] of [setLokStatus]; the state is the reply and
    [lastStatus] *)
Fixpoint lokStatus_loop (t : list lokdef_t) (i : nat) (n : Z)
    : M (FBTCtlMessage * list lastStatus_t) unit :=
  match t with
  | [] => fail (UB "lokdef[i]")
  | d :: t' =>
      if addr d =? 0 then mret tt
      else
        func ← lift (func_bits d);
        last ← gets snd;
        match last !! i with
        | None => fail (UB "lastStatus[i]")
        | Some ls =>
            if negb (currspeed d =? ls_currspeed ls) || negb (func =? ls_func ls)
               || negb (currdir d =? ls_dir ls) then
              modify (fun s => (s.1, <[i:=mkLast (currspeed d) func (currdir d)]> s.2));;
              zoom fst (fun m s => (m, s.2)) (put_info n "addr" (FBTCtlMessage_int (addr d)));;
              speed ← lift (reported_speed d);
              zoom fst (fun m s => (m, s.2)) (put_info n "speed" (FBTCtlMessage_int speed));;
              zoom fst (fun m s => (m, s.2)) (put_info n "functions" (FBTCtlMessage_int func));;
              lokStatus_loop t' (Datatypes.S i) (n + 1)
            else lokStatus_loop t' (Datatypes.S i) n
        end
  end.

Definition setLokStatus (reply : FBTCtlMessage) : M CT FBTCtlMessage := fun s =>
  match at_field "info" (put (Msg ARRAY (data_array_t []))) reply with
  | (Err e, _) => (Err e, s)
  | (Ok _, reply) =>
      let '(r, (reply, last)) := lokStatus_loop (ct_lokdef s) 0 0 (reply, ct_lastStatus s) in
      (match r with Ok _ => Ok reply | Err e => Err e end, set_lastStatus last s)
  end.

(** [FBTCtlMessage reply(messageTypeID(name))] *)
Definition new_reply (name : string) : outcome FBTCtlMessage :=
  t ← (messageTypeID name ml).1; FBTCtlMessage_type t.

Definition sendStatusReply : M CT unit :=
  reply ← lift (new_reply "STATUS_REPLY");
  reply ← setLokStatus reply;
  send reply.

(** ** The commands *)

(** [cmd[key].getIntVal()].  An access that succeeds leaves the message as it
    was; one that fails ends the command. *)
Definition arg (cmd : FBTCtlMessage) (key : string) : outcome Z := (at_field key getIntVal cmd).1.
Definition arg_string (cmd : FBTCtlMessage) (key : string) : outcome string :=
  (at_field key getStringVal cmd).1.
Definition arg_size (cmd : FBTCtlMessage) : outcome Z := (at_field "list" getArraySize cmd).1.
Definition arg_list (cmd : FBTCtlMessage) (i : Z) : outcome Z :=
  (at_field "list" (at_index i (at_field "addr" getIntVal)) cmd).1.

Definition clamp_high (v : Z) : Z := if 255 <? v then 255 else v.
Definition clamp_low (low v : Z) : Z := if v <? low then low else v.

(** The commands return [emergencyStop]. *)
Definition cmd_ACC (cmd : FBTCtlMessage) : M CT bool :=
  a ← lift (arg cmd "addr");
  i ← addrIndex a;
  upd_lok i (fun d => set_currspeed (clamp_high (currspeed d + SPEED_STEP)) d);;
  sendStatusReply;;
  mark_changed i true;;
  mret false.

Definition cmd_BREAK (cmd : FBTCtlMessage) : M CT bool :=
  a ← lift (arg cmd "addr");
  i ← addrIndex a;
  upd_lok i (fun d => set_currspeed (clamp_low 0 (currspeed d - SPEED_STEP)) d);;
  sendStatusReply;;
  mark_changed i true;;
  mret false.

Definition cmd_DIR (cmd : FBTCtlMessage) : M CT bool :=
  a ← lift (arg cmd "addr");
  i ← addrIndex a;
  dir ← lift (arg cmd "dir");
  if negb (dir =? 1) && negb (dir =? -1) then throw "invalid dir"
  else
    d ← lok_at i;
    if negb (currspeed d =? 0) then throw "speed != 0"
    else
      upd_lok i (set_currdir dir);;
      sendStatusReply;;
      mark_changed i true;;
      mret false.

Definition cmd_STOP (cmd : FBTCtlMessage) : M CT bool :=
  a ← lift (arg cmd "addr");
  i ← addrIndex a;
  upd_lok i (set_currspeed 0);;
  sendStatusReply;;
  mark_changed i true;;
  mret true.

(** the loops [for(int i=from; i < n; i++)] of the MULTI commands *)
Definition for_list (cmd : FBTCtlMessage) (from n : Z) (f : lokdef_t -> lokdef_t) : M CT unit :=
  iterM (fun k : nat =>
    a ← lift (arg_list cmd (from + Z.of_nat k));
    i ← addrIndex a;
    upd_lok i f;;
    mark_changed i true) (seq 0 (Z.to_nat (n - from))).

(** ACC_MULTI and BREAK_MULTI: the first locomotive sets the speed of all *)
Definition cmd_SPEED_MULTI (adjust : Z -> Z) (cmd : FBTCtlMessage) : M CT bool :=
  n ← lift (arg_size cmd);
  a ← lift (arg_list cmd 0);
  i ← addrIndex a;
  upd_lok i (fun d => set_currspeed (adjust (currspeed d)) d);;
  mark_changed i true;;
  d ← lok_at i;
  for_list cmd 1 n (set_currspeed (currspeed d));;
  sendStatusReply;;
  mret false.
Definition cmd_ACC_MULTI : FBTCtlMessage -> M CT bool :=
  cmd_SPEED_MULTI (fun v => clamp_high (v + SPEED_STEP)).
Definition cmd_BREAK_MULTI : FBTCtlMessage -> M CT bool :=
  cmd_SPEED_MULTI (fun v => clamp_low (-255) (v - SPEED_STEP)).

Definition cmd_DIR_MULTI (cmd : FBTCtlMessage) : M CT bool :=
  n ← lift (arg_size cmd);
  dir ← lift (arg cmd "dir");
  for_list cmd 0 n (set_currdir dir);;
  sendStatusReply;;
  mret false.

Definition cmd_STOP_MULTI (cmd : FBTCtlMessage) : M CT bool :=
  n ← lift (arg_size cmd);
  for_list cmd 0 n (set_currspeed 0);;
  sendStatusReply;;
  mret true.

Definition cmd_SETFUNC (cmd : FBTCtlMessage) : M CT bool :=
  a ← lift (arg cmd "addr");
  i ← addrIndex a;
  funcNr ← lift (arg cmd "funcnr");
  value ← lift (arg cmd "value");
  d ← lok_at i;
  (if (0 <=? funcNr) && (funcNr <? nFunc d) then
     match func d !! Z.to_nat funcNr with
     | Some f => upd_lok i (fun d => set_func (<[Z.to_nat funcNr:=set_ison (negb (value =? 0)) f]> (func d)) d)
     | None => fail (UB "func[funcNr]")
     end
   else mret tt);;
  sendStatusReply;;
  mark_changed i true;;
  mret false.

(** GETLOCOS: the [while(lokdef[i].addr)] loop that fills the reply *)
Fixpoint getlocos_loop (t : list lokdef_t) (i : Z) : M FBTCtlMessage unit :=
  match t with
  | [] => fail (UB "lokdef[i]")
  | d :: t' =>
      if addr d =? 0 then mret tt
      else
        put_info i "addr" (FBTCtlMessage_int (addr d));;
        put_info i "name" (FBTCtlMessage_cstr (name d));;
        put_info i "imgname" (FBTCtlMessage_cstr (imgname d));;
        speed ← lift (reported_speed d);
        put_info i "speed" (FBTCtlMessage_int speed);;
        func ← lift (func_bits d);
        put_info i "functions" (FBTCtlMessage_int func);;
        getlocos_loop t' (i + 1)
  end.

(** runs the construction of a reply and sends what it built *)
Definition reply_with (name : string) (build : M FBTCtlMessage unit) : M CT unit :=
  reply ← lift (new_reply name);
  let '(r, reply) := build reply in
  lift r;; send reply.

Definition cmd_GETLOCOS (cmd : FBTCtlMessage) : M CT bool :=
  t ← gets ct_lokdef;
  reply_with "GETLOCOS_REPLY" (getlocos_loop t 0);;
  mret false.

Definition put_func (i : Z) (f : func_t) : M FBTCtlMessage unit :=
  put_info i "name" (FBTCtlMessage_cstr (f_name f));;
  put_info i "value" (FBTCtlMessage_int (Z.b2z (ison f)));;
  put_info i "imgname" (FBTCtlMessage_cstr "").

Definition cmd_GETFUNCTIONS (cmd : FBTCtlMessage) : M CT bool :=
  a ← lift (arg cmd "addr");
  i ← addrIndex a;
  d ← lok_at i;
  reply_with "GETFUNCTIONS_REPLY"
    (iterM (fun k : nat =>
       match func d !! k with
       | Some f => put_func (Z.of_nat k) f
       | None => fail (UB "func[i]")
       end) (seq 0 (Z.to_nat (nFunc d))));;
  mret false.

Definition put_value (v : Z) : M FBTCtlMessage unit := at_field "value" (put (FBTCtlMessage_int v)).

Definition cmd_POWER (cmd : FBTCtlMessage) : M CT bool :=
  value ← lift (arg cmd "value");
  (if negb (value =? -1) then (if negb (value =? 0) then on_hw pwrOn else on_hw pwrOff) else mret tt);;
  reply ← lift (new_reply "POWER_REPLY");
  on ← on_hw getPowerState;
  let '(r, reply) := put_value (Z.b2z on) reply in
  lift r;; send reply;; mret false.

Definition cmd_POM (cmd : FBTCtlMessage) : M CT bool :=
  a ← lift (arg cmd "addr");
  i ← addrIndex a;
  cv ← lift (arg cmd "cv");
  value ← lift (arg cmd "value");
  reply ← lift (new_reply "POM_REPLY");
  d ← lok_at i;
  v ← on_hw (sendPOM (addr d) cv value);
  let '(r, reply) := put_value v reply in
  lift r;; send reply;; mret false.

Definition cmd_POMBIT (cmd : FBTCtlMessage) : M CT bool :=
  a ← lift (arg cmd "addr");
  i ← addrIndex a;
  cv ← lift (arg cmd "cv");
  bitNr ← lift (arg cmd "bit");
  value ← lift (arg cmd "value");
  reply ← lift (new_reply "POMBIT_REPLY");
  d ← lok_at i;
  v ← on_hw (sendPOMBit (addr d) cv bitNr (negb (value =? 0)));
  let '(r, reply) := put_value v reply in
  lift r;; send reply;; mret false.

Definition cmd_GETIMAGE (cmd : FBTCtlMessage) : M CT bool :=
  imageName ← lift (arg_string cmd "imgname");
  reply ← lift (new_reply "GETIMAGE_REPLY");
  img ← (if decide (imageName = EmptyString) then mret EmptyString
         else lift (readFile ("img/" +:+ imageName)));
  let '(r, reply) := at_field "img" (put (FBTCtlMessage_string img)) reply in
  lift r;; send reply;; mret false.

(** without INCL_BT [sendClientUpdate] aborts the process *)
Definition cmd_HELO_ERR (cmd : FBTCtlMessage) : M CT bool :=
  lift (arg cmd "protohash");;
  lift (arg cmd "doupdate");;
  fail (Abort "ClientThread::sendClientUpdate ohne BT").

(** [if(cmd.isType(name)) c else d] *)
Definition if_type (cmd : FBTCtlMessage) (name : string) (c d : M CT bool) : M CT bool :=
  b ← lift (isType ml name cmd); if (b : bool) then c else d.

Definition execute (cmd : FBTCtlMessage) : M CT bool :=
  if_type cmd "PING" (sendStatusReply;; mret false) (
  if_type cmd "ACC" (cmd_ACC cmd) (
  if_type cmd "BREAK" (cmd_BREAK cmd) (
  if_type cmd "DIR" (cmd_DIR cmd) (
  if_type cmd "STOP" (cmd_STOP cmd) (
  if_type cmd "ACC_MULTI" (cmd_ACC_MULTI cmd) (
  if_type cmd "BREAK_MULTI" (cmd_BREAK_MULTI cmd) (
  if_type cmd "DIR_MULTI" (cmd_DIR_MULTI cmd) (
  if_type cmd "STOP_MULTI" (cmd_STOP_MULTI cmd) (
  if_type cmd "SETFUNC" (cmd_SETFUNC cmd) (
  if_type cmd "GETLOCOS" (cmd_GETLOCOS cmd) (
  if_type cmd "GETFUNCTIONS" (cmd_GETFUNCTIONS cmd) (
  if_type cmd "POWER" (cmd_POWER cmd) (
  if_type cmd "POM" (cmd_POM cmd) (
  if_type cmd "POMBIT" (cmd_POMBIT cmd) (
  if_type cmd "GETIMAGE" (cmd_GETIMAGE cmd) (
  if_type cmd "HELO_ERR" (cmd_HELO_ERR cmd) (
  lift (messageTypeName ml (m_type cmd));; mret false))))))))))))))))).

(** ** Driving *)

(** the body of the loop over [changedAddrIndex]; carries [emergencyStop] *)
Definition drive_one (emergencyStop : bool) (i : nat) : M CT bool :=
  c ← gets ct_changed;
  match c !! i with
  | None => fail (UB "changedAddrIndex[i]")
  | Some false => mret emergencyStop
  | Some true =>
      mark_changed (Z.of_nat i) false;;
      upd_lok (Z.of_nat i) (set_lastClientID clientID);;
      on_hw (sendLoco (Z.of_nat i) emergencyStop);;
      mret false
  end.

Definition drive (nLokdef : nat) (emergencyStop : bool) : M CT unit :=
  foldM drive_one (seq 0 (Datatypes.S nLokdef)) emergencyStop;; mret tt.

(** ** The thread *)

(** one turn of [while(1)] after the message was read *)
Definition process (nLokdef : nat) (cmd : FBTCtlMessage) : M CT unit :=
  lift (messageTypeName ml (m_type cmd));;
  emergencyStop ← execute cmd;
  drive nLokdef emergencyStop;;
  modify (fun s => mkCT (ct_lokdef s) (ct_hw s) (ct_client s) (ct_lastStatus s) (ct_changed s) (ct_msgNum s + 1)).

Definition turn (nLokdef : nat) : M CT unit :=
  cmd ← on_comm (comm_readMessage ml timeout);
  process nLokdef cmd.

(** the greeting, and the arrays of the thread *)
Definition greet : M CT nat :=
  on_hw clientConnected;;
  helo ← lift (new_reply "HELO");
  let '(r, helo) := (at_field "name" (put (FBTCtlMessage_cstr "my bt server"));;
                     at_field "version" (put (FBTCtlMessage_cstr "0.9"));;
                     at_field "protohash" (put (FBTCtlMessage_int (protocolHash ml)))) helo in
  lift r;;
  send helo;;
  t ← gets ct_lokdef;
  let nLokdef := length (locos t) in
  modify (fun s => set_changed (repeat false (Datatypes.S nLokdef))
                     (set_lastStatus (repeat (mkLast 0 (-1) 0) (Datatypes.S nLokdef)) s));;
  mret nLokdef.

(** [run()], observed for at most [turns] messages; the C++ loop is left by
    an exception only *)
Definition run (turns : nat) : M CT unit :=
  nLokdef ← greet;
  iterM (fun _ => turn nLokdef) (seq 0 turns).

(** [~ClientThread()]; [numClients] is shared by all threads *)
Definition destruct_thread (numClients : Z) : M CT Z :=
  let numClients := numClients - 1 in
  (if numClients =? 0 then
     on_hw (fullstop clientID true true);; on_hw (clientDisconnected true)
   else
     on_hw (fullstop clientID false true);; on_hw (clientDisconnected false));;
  mret numClients.
End ClientThread.

Arguments CT : clear implicits.
