(* ===== verification/ClientSafety.v ===== *)
(** * The invariant of the client threads

    Every command of ClientThread.v keeps the locomotive table in order and
    stays inside the arrays of the server, over every driver and every stream
    that keep their promises. *)

From Stdlib Require Import Ascii.
From S2P Require Import Prelude StdMap CString Utils MessageLayout Message Stream Lokdef Hardware ClientThread.

(** the arrays of a thread that serves the locomotives with these addresses *)
Record thread_ok {H S : Type} (addrs : list Z) (s : CT H S) : Prop := mkThreadOk {
  tk_table : table_ok addrs (ct_lokdef s);
  tk_last : length (ct_lastStatus s) = Datatypes.S (length addrs);
  tk_changed : length (ct_changed s) = Datatypes.S (length addrs);
  (** the element behind the locomotives is never marked *)
  tk_end : ct_changed s !! length addrs = Some false;
}.

(** a stream whose operations fail with exceptions of their own *)
Class StreamSafe (S : Type) `{ClientStream S} : Prop := {
  write_safe bs s : safe_result (write bs s).1;
  prepare_safe s : safe_result (prepareMessage s).1;
  flush_safe s : safe_result (flushMessage s).1;
}.

#[export] Instance TCPClient_safe : StreamSafe TCPClient.
Proof. split; intros; [|done..]. cbn. unfold tcp_write. by destruct (_ <? 0). Qed.

Lemma message_fault_safe e : message_fault e -> table_safe e.
Proof.
  destruct e as [| |w|]; cbn; try done. intros Hin Hin'.
  assert (Forall (fun w => w ∉ table_faults) message_faults) as F
    by (apply (bool_decide_eq_true_1 (Forall _ _)); vm_compute; reflexivity).
  by eapply list.Forall_forall in F.
Qed.

Lemma outcome_safe {A} (o : outcome A) e : outcome_fault o -> o = Err e -> table_safe e.
Proof. intros F ->. by apply message_fault_safe. Qed.

Section safety.
Context {H S : Type} `{HardwareLaws H} `{StreamSafe S}.
Context (ml : MessageLayouts) (timeout clientID : Z) (readFile : string -> outcome string).
Context (readFile_safe : forall f, safe_result (readFile f)).
Context (addrs : list Z).

Abbreviation valid i := (0 <= i < Z.of_nat (length addrs)).
Abbreviation stays c Q := (keeps (thread_ok (H:=H) (S:=S) addrs) table_safe c Q).
Abbreviation stays_ c := (stays c (fun _ => True)).

Lemma stays_outcome {A} (o : outcome A) : outcome_fault o -> stays_ (lift o).
Proof. intros F. apply keeps_lift; [done|]. intros e. by apply outcome_safe. Qed.

Lemma stays_addrIndex a : stays (addrIndex a) (fun i => valid i).
Proof.
  intros s [T ? ? ?]. unfold addrIndex, gets, lift, mbind, M_bind. cbn.
  destruct (getAddrIndex a (ct_lokdef s)) as [i|e] eqn:E.
  - split; [by split|]. by destruct (table_ok_getAddrIndex _ _ _ _ T E).
  - split; [by split|]. destruct T as [_ T _].
    destruct (find_addr_spec a 0 _ T) as [(k & d & E' & _)|[E' _]]; unfold getAddrIndex in E; rewrite E in E'; simplify_eq.
    done.
Qed.

Lemma lok_at_run i (s : CT H S) :
  thread_ok addrs s -> valid i ->
  exists d, lok_at i s = (Ok d, s) /\ locos (ct_lokdef s) !! Z.to_nat i = Some d /\ lok_ok d.
Proof.
  intros [T _ _ _] Hi. destruct (table_ok_index _ _ i T Hi) as (d & Hd & Hok). exists d.
  destruct (locos_lookup _ _ _ Hd) as [Hl _].
  unfold lok_at, gets, mbind, M_bind. destruct (Z.ltb_spec i 0); [lia|]. by rewrite Hl.
Qed.

Lemma stays_lok_at i : valid i -> stays (lok_at i) lok_ok.
Proof. intros Hi s Hs. destruct (lok_at_run i s Hs Hi) as (d & -> & _ & Hok). done. Qed.

Lemma stays_upd_lok i f :
  valid i -> (forall d, lok_ok d -> addr (f d) = addr d /\ lok_ok (f d)) -> stays_ (upd_lok i f).
Proof.
  intros Hi Hf s Hs. unfold upd_lok, mbind, M_bind. destruct (lok_at_run i s Hs Hi) as (d & -> & Hd & Hok).
  destruct (Hf d Hok), Hs. cbn. split; [split; cbn; try done; by eapply table_ok_insert|done].
Qed.

Lemma stays_mark i b : valid i -> stays_ (mark_changed i b).
Proof.
  intros Hi s Hs. unfold mark_changed, gets, mbind, M_bind. destruct Hs as [T L C N].
  destruct (Z.ltb_spec i 0); [lia|]. destruct (Z.leb_spec (Z.of_nat (length (ct_changed s))) i); [lia|]. cbn.
  split; [|done]. split; cbn; [done|done|by rewrite length_insert|].
  rewrite list_lookup_insert_ne by lia. done.
Qed.

Lemma stays_hw {A} (c : M (list lokdef_t * H) A) : driver_ok addrs c -> stays_ (on_hw c).
Proof.
  intros Hc s [T L C N]. unfold on_hw, zoom. specialize (Hc (ct_lokdef s, ct_hw s) T).
  destruct (c _) as [[a|e] w]; destruct Hc; (split; [by split|done]).
Qed.

Lemma stays_comm {A} (c : M (option S) A) : (forall s, safe_result (c s).1) -> stays_ (on_comm c).
Proof.
  intros Hc s [T L C N]. unfold on_comm, zoom. specialize (Hc (ct_client s)).
  destruct (c _) as [[a|e] w]; (split; [by split|done]).
Qed.

Lemma stays_send reply : stays_ (send ml reply).
Proof.
  apply stays_comm. intros [s|]; [|done].
  unfold sendMessage, on_client, check_connected, get, lift, mbind, M_bind. destruct (isConnected s); [|done].
  pose proof (getBinaryMessage_fault ml reply) as F.
  destruct (getBinaryMessage ml reply) as [bs|e]; [cbn -[le_bytes]|by apply message_fault_safe].
  pose proof (prepare_safe s) as Hp. destruct (prepareMessage s) as [[u|e] s1]; [|exact Hp].
  pose proof (write_safe (le_bytes 4 (Z.of_nat (length bs))) s1) as Hw1.
  destruct (write (le_bytes 4 _) s1) as [[n|e] s2]; [|exact Hw1].
  pose proof (write_safe bs s2) as Hw2. destruct (write bs s2) as [[m|e] s3]; [|exact Hw2].
  pose proof (flush_safe s3) as Hfl. destruct (flushMessage s3) as [[v|e] s4]; exact Hfl.
Qed.

(** ** Replies *)

Lemma func_bits_from_ok j k fs : (k <= length fs)%nat -> exists z, func_bits_from j k fs = Ok z.
Proof.
  revert j fs. induction k as [|k IH]; intros j fs Hk; cbn; [by eexists|].
  destruct fs as [|f fs]; cbn in Hk; [lia|]. destruct (IH (j + 1) fs) as [z ->]; [lia|]. cbn. by eexists.
Qed.

Lemma func_bits_ok d : lok_wf d -> exists z, func_bits d = Ok z.
Proof. intros [W1 W2]. apply func_bits_from_ok. unfold MAX_NFUNC in *. lia. Qed.

Lemma reported_speed_safe d : safe_result (reported_speed d).
Proof.
  unfold reported_speed, int_mul. destruct (_ =? 0); [done|]. destruct (int32b _); [done|apply overflow_safe].
Qed.

Lemma faults_put_info n key v : faults_ok (put_info n key v).
Proof. apply faults_at_field, faults_at_index, faults_at_field, faults_put. Qed.

Section status_loop.
Context (L : nat).
Abbreviation fits := (fun st : FBTCtlMessage * list lastStatus_t => length st.2 = L).

Lemma keeps_reply {A} (c : M FBTCtlMessage A) :
  faults_ok c -> keeps fits table_safe (zoom fst (fun m s => (m, s.2)) c) (fun _ => True).
Proof.
  intros F [m l] Hl. unfold zoom. cbn. specialize (F m).
  destruct (c m) as [[a|e] m']; (split; [done|]); [done|by apply message_fault_safe].
Qed.

Lemma keeps_lokStatus_loop t i n :
  terminated t -> Forall lok_ok (locos t) -> (i + length (locos t) <= L)%nat ->
  keeps fits table_safe (lokStatus_loop t i n) (fun _ => True).
Proof.
  revert i n. induction t as [|d t IH]; intros i n T F Hi; [by destruct T as (? & ?%elem_of_nil & _)|].
  cbn [lokStatus_loop locos] in *. destruct (Z.eqb_spec (addr d) 0) as [|Hd]; [by apply keeps_ret|].
  inversion F as [|? ? Hok F']; subst. cbn in Hi. destruct (func_bits_ok d (ok_wf _ Hok)) as [z Hz].
  pose proof (terminated_tail _ _ T Hd) as T'.
  eapply (keeps_bind _ _ _ _ (fun _ => True)); [rewrite Hz; by apply keeps_lift|]. intros func _.
  eapply (keeps_bind _ _ _ _ (fun last => length last = L)); [by apply keeps_gets|]. intros last Hl.
  destruct (lookup_lt_is_Some_2 last i) as [ls ->]; [lia|].
  destruct (_ || _); [|by apply IH; [..|lia]].
  apply keeps_seq; [apply keeps_modify; [|done]; intros st Hst; cbn; by rewrite length_insert|].
  apply keeps_seq; [apply keeps_reply, faults_put_info|].
  eapply (keeps_bind _ _ _ _ (fun _ => True)).
  { apply keeps_lift; [done|]. intros e He. pose proof (reported_speed_safe d) as Hr. by rewrite He in Hr. }
  intros speed _. apply keeps_seq; [apply keeps_reply, faults_put_info|].
  apply keeps_seq; [apply keeps_reply, faults_put_info|]. apply IH; [done..|lia].
Qed.
End status_loop.

Lemma stays_setLokStatus reply : stays_ (setLokStatus reply).
Proof.
  intros s Hs. unfold setLokStatus. pose proof (faults_at_field "info" _ (faults_put (Msg ARRAY (data_array_t [])))) as F.
  specialize (F reply). destruct (at_field _ _ reply) as [[u|e] reply']; [|split; [done|by apply message_fault_safe]].
  destruct Hs as [[A T K] L C N].
  pose proof (keeps_lokStatus_loop (length (ct_lastStatus s)) (ct_lokdef s) 0 0 T K) as Hk.
  assert (length (locos (ct_lokdef s)) = length addrs) as Hlen by (by rewrite <- A, length_map).
  specialize (Hk ltac:(lia) (reply', ct_lastStatus s) eq_refl).
  destruct (lokStatus_loop _ _ _ _) as [[v|e] [m last]]; cbn in Hk; destruct Hk as [Hl He];
    (split; [|done]); split; cbn; try done; lia.
Qed.

Lemma new_reply_fault n : outcome_fault (new_reply ml n).
Proof.
  unfold new_reply. apply outcome_fault_bind.
  - unfold messageTypeID. destruct (smap_index _ _ _) as [l m]. by destruct (_ =? _).
  - intros t. unfold FBTCtlMessage_type. by repeat case_match.
Qed.

Lemma stays_sendStatusReply : stays_ (sendStatusReply ml).
Proof.
  unfold sendStatusReply. eapply keeps_bind; [apply stays_outcome, new_reply_fault|]. intros r _.
  eapply keeps_bind; [apply stays_setLokStatus|]. intros r' _. apply stays_send.
Qed.

(** ** Commands *)

Lemma arg_fault cmd key : outcome_fault (arg cmd key).
Proof. apply (faults_at_field key _ faults_getIntVal cmd). Qed.
Lemma arg_string_fault cmd key : outcome_fault (arg_string cmd key).
Proof. apply (faults_at_field key _ faults_getStringVal cmd). Qed.
Lemma arg_size_fault cmd : outcome_fault (arg_size cmd).
Proof. apply (faults_at_field "list" _ faults_getArraySize cmd). Qed.
Lemma arg_list_fault cmd i : outcome_fault (arg_list cmd i).
Proof. apply (faults_at_field "list" _ (faults_at_index i _ (faults_at_field "addr" _ faults_getIntVal)) cmd). Qed.

(** changes of one locomotive a command may make *)
Definition keeps_lok (f : lokdef_t -> lokdef_t) : Prop :=
  forall d, lok_ok d -> addr (f d) = addr d /\ lok_ok (f d).

Lemma keeps_set_speed (f : lokdef_t -> Z) :
  (forall d, lok_ok d -> -255 <= f d <= 255) -> keeps_lok (fun d => set_currspeed (f d) d).
Proof. intros Hf d Hd. split; [done|]. split; [|cbn; auto]. by destruct Hd as [[] _]. Qed.

Lemma keeps_set_dir dir : keeps_lok (set_currdir dir).
Proof. intros d [[W1 W2] Hs]. done. Qed.

Lemma keeps_set_client c : keeps_lok (set_lastClientID c).
Proof. intros d [[W1 W2] Hs]. done. Qed.

Lemma clamp_high_range v : -255 <= v -> -255 <= clamp_high v <= 255.
Proof. unfold clamp_high. destruct (Z.ltb_spec 255 v); lia. Qed.
Lemma clamp_low_range low v : -255 <= low <= 255 -> v <= 255 -> -255 <= clamp_low low v <= 255.
Proof. unfold clamp_low. destruct (Z.ltb_spec v low); lia. Qed.

(** the address argument, looked up *)
Lemma stays_arg_index {A} cmd (k : Z -> M (CT H S) A) Q :
  (forall i, valid i -> stays (k i) Q) ->
  stays (a ← lift (arg cmd "addr"); i ← addrIndex a; k i) Q.
Proof.
  intros Hk. eapply keeps_bind; [apply stays_outcome, arg_fault|]. intros a _.
  eapply keeps_bind; [apply stays_addrIndex|]. exact Hk.
Qed.

(** the end of the single commands *)
Lemma stays_finish i f (e : bool) :
  valid i -> keeps_lok f -> stays_ (upd_lok i f;; sendStatusReply ml;; mark_changed i true;; mret e).
Proof.
  intros Hi Hf. apply keeps_seq; [by apply stays_upd_lok|]. apply keeps_seq; [apply stays_sendStatusReply|].
  apply keeps_seq; [by apply stays_mark|]. by apply keeps_ret.
Qed.

Lemma stays_for_list cmd from n f : keeps_lok f -> stays_ (for_list cmd from n f).
Proof.
  intros Hf. apply keeps_iterM. intros k _. eapply keeps_bind; [apply stays_outcome, arg_list_fault|].
  intros a _. eapply keeps_bind; [apply stays_addrIndex|]. intros i Hi.
  apply keeps_seq; [by apply stays_upd_lok|]. by apply stays_mark.
Qed.

Lemma stays_ACC cmd : stays_ (cmd_ACC ml cmd).
Proof.
  apply stays_arg_index. intros i Hi. apply stays_finish; [done|]. apply keeps_set_speed.
  intros d [_ Hs]. apply clamp_high_range. unfold SPEED_STEP. lia.
Qed.
Lemma stays_BREAK cmd : stays_ (cmd_BREAK ml cmd).
Proof.
  apply stays_arg_index. intros i Hi. apply stays_finish; [done|]. apply keeps_set_speed.
  intros d [_ Hs]. apply clamp_low_range; unfold SPEED_STEP; lia.
Qed.
Lemma stays_STOP cmd : stays_ (cmd_STOP ml cmd).
Proof.
  apply stays_arg_index. intros i Hi. apply stays_finish; [done|]. apply keeps_set_speed. lia.
Qed.
Lemma stays_DIR cmd : stays_ (cmd_DIR ml cmd).
Proof.
  apply stays_arg_index. intros i Hi. eapply keeps_bind; [apply stays_outcome, arg_fault|]. intros dir _.
  destruct (_ && _); [by apply keeps_fail|]. eapply keeps_bind; [by apply stays_lok_at|]. intros d _.
  destruct (negb _); [by apply keeps_fail|]. apply stays_finish; [done|apply keeps_set_dir].
Qed.

Lemma stays_SPEED_MULTI adjust cmd :
  (forall v, -255 <= v <= 255 -> -255 <= adjust v <= 255) -> stays_ (cmd_SPEED_MULTI ml adjust cmd).
Proof.
  intros Ha. eapply keeps_bind; [apply stays_outcome, arg_size_fault|]. intros n _.
  eapply keeps_bind; [apply stays_outcome, arg_list_fault|]. intros a _.
  eapply keeps_bind; [apply stays_addrIndex|]. intros i Hi.
  apply keeps_seq; [apply stays_upd_lok; [done|]; apply keeps_set_speed; intros d [_ Hs]; auto|].
  apply keeps_seq; [by apply stays_mark|].
  eapply keeps_bind; [by apply stays_lok_at|]. intros d [_ Hs].
  apply keeps_seq; [apply stays_for_list, keeps_set_speed; auto|].
  apply keeps_seq; [apply stays_sendStatusReply|]. by apply keeps_ret.
Qed.
Lemma stays_ACC_MULTI cmd : stays_ (cmd_ACC_MULTI ml cmd).
Proof. apply stays_SPEED_MULTI. intros v Hv. apply clamp_high_range. unfold SPEED_STEP. lia. Qed.
Lemma stays_BREAK_MULTI cmd : stays_ (cmd_BREAK_MULTI ml cmd).
Proof. apply stays_SPEED_MULTI. intros v Hv. apply clamp_low_range; unfold SPEED_STEP; lia. Qed.
Lemma stays_DIR_MULTI cmd : stays_ (cmd_DIR_MULTI ml cmd).
Proof.
  eapply keeps_bind; [apply stays_outcome, arg_size_fault|]. intros n _.
  eapply keeps_bind; [apply stays_outcome, arg_fault|]. intros dir _.
  apply keeps_seq; [apply stays_for_list, keeps_set_dir|].
  apply keeps_seq; [apply stays_sendStatusReply|]. by apply keeps_ret.
Qed.
Lemma stays_STOP_MULTI cmd : stays_ (cmd_STOP_MULTI ml cmd).
Proof.
  eapply keeps_bind; [apply stays_outcome, arg_size_fault|]. intros n _.
  apply keeps_seq; [apply stays_for_list, keeps_set_speed; lia|].
  apply keeps_seq; [apply stays_sendStatusReply|]. by apply keeps_ret.
Qed.

Lemma stays_SETFUNC cmd : stays_ (cmd_SETFUNC ml cmd).
Proof.
  apply stays_arg_index. intros i Hi. eapply keeps_bind; [apply stays_outcome, arg_fault|]. intros nr _.
  eapply keeps_bind; [apply stays_outcome, arg_fault|]. intros value _.
  eapply keeps_bind; [by apply stays_lok_at|]. intros d [[W1 W2] _]. apply keeps_seq.
  - destruct (_ && _) eqn:B; [|by apply keeps_ret]. apply andb_true_iff in B as [B1 B2].
    apply Z.leb_le in B1. apply Z.ltb_lt in B2.
    destruct (lookup_lt_is_Some_2 (func d) (Z.to_nat nr)) as [f ->]; [unfold MAX_NFUNC in *; lia|].
    apply stays_upd_lok; [done|]. intros e [[V1 V2] Vs]. split; [done|]. split; [|done].
    split; [done|]. cbn. by rewrite length_insert.
  - apply keeps_seq; [apply stays_sendStatusReply|]. apply keeps_seq; [by apply stays_mark|]. by apply keeps_ret.
Qed.

(** the construction of a reply from table data *)
Definition builds (c : M FBTCtlMessage unit) : Prop := forall m, safe_result (c m).1.

Lemma builds_faults c : faults_ok c -> builds c.
Proof. intros F m. specialize (F m). destruct (c m).1; [done|by apply message_fault_safe]. Qed.
Lemma builds_bind {A} (c : M FBTCtlMessage A) (f : A -> M FBTCtlMessage unit) :
  (forall m, safe_result (c m).1) -> (forall a, builds (f a)) -> builds (c ≫= f).
Proof.
  intros Hc Hf m. specialize (Hc m). unfold mbind, M_bind. destruct (c m) as [[a|e] m']; [apply Hf|done].
Qed.
Lemma builds_put_info n key v : builds (put_info n key v).
Proof. apply builds_faults, faults_put_info. Qed.
Lemma builds_iterM {A} (f : A -> M FBTCtlMessage unit) l :
  (forall x, x ∈ l -> builds (f x)) -> builds (iterM f l).
Proof.
  intros Hf. induction l as [|x l IH]; [done|]. cbn. apply builds_bind; [apply Hf; set_solver|].
  intros _. apply IH. intros y Hy. apply Hf. set_solver.
Qed.

Lemma builds_getlocos t i :
  terminated t -> Forall lok_ok (locos t) -> builds (getlocos_loop t i).
Proof.
  revert i. induction t as [|d t IH]; intros i T F; [by destruct T as (? & ?%elem_of_nil & _)|].
  cbn [getlocos_loop locos] in *. destruct (Z.eqb_spec (addr d) 0) as [|Hd]; [done|].
  inversion F as [|? ? Hok F']; subst. destruct (func_bits_ok d (ok_wf _ Hok)) as [z Hz].
  do 3 (apply builds_bind; [apply builds_put_info|intros _]).
  apply builds_bind; [intros m; apply (reported_speed_safe d)|]. intros speed.
  apply builds_bind; [apply builds_put_info|intros _].
  apply builds_bind; [intros m; by rewrite Hz|]. intros func.
  apply builds_bind; [apply builds_put_info|intros _]. apply IH; [by eapply terminated_tail|done].
Qed.

Lemma stays_built (r : outcome unit) m : safe_result r -> stays_ (lift r;; send ml m).
Proof.
  intros Hr. apply keeps_seq; [|apply stays_send]. apply keeps_lift; [done|]. by intros e ->.
Qed.

Lemma stays_reply_with n build : builds build -> stays_ (reply_with ml n build).
Proof.
  intros Hb. eapply keeps_bind; [apply stays_outcome, new_reply_fault|]. intros m _.
  specialize (Hb m). destruct (build m) as [r m']. by apply stays_built.
Qed.

Lemma stays_GETLOCOS cmd : stays_ (cmd_GETLOCOS ml cmd).
Proof.
  eapply (keeps_bind _ _ _ _ (table_ok addrs)); [apply keeps_gets; by intros s []|]. intros t [_ T F].
  apply keeps_seq; [by apply stays_reply_with, builds_getlocos|by apply keeps_ret].
Qed.

Lemma stays_GETFUNCTIONS cmd : stays_ (cmd_GETFUNCTIONS ml cmd).
Proof.
  apply stays_arg_index. intros i Hi. eapply keeps_bind; [by apply stays_lok_at|]. intros d [[W1 W2] _].
  apply keeps_seq; [|by apply keeps_ret]. apply stays_reply_with, builds_iterM. intros k Hk.
  apply elem_of_seq in Hk.
  destruct (lookup_lt_is_Some_2 (func d) k) as [f ->]; [unfold MAX_NFUNC in *; lia|].
  do 2 (apply builds_bind; [apply builds_put_info|intros _]). apply builds_put_info.
Qed.

(** a reply that holds one value *)
Lemma stays_reply_value v reply (e : bool) :
  stays_ (let '(r, reply) := put_value v reply in lift r;; send ml reply;; mret e).
Proof.
  pose proof (faults_at_field "value" _ (faults_put (FBTCtlMessage_int v)) reply) as F.
  unfold put_value. destruct (at_field _ _ reply) as [r m]. cbn in F.
  apply keeps_seq; [|apply keeps_seq; [apply stays_send|by apply keeps_ret]].
  apply keeps_lift; [done|]. intros e' ->. by apply message_fault_safe.
Qed.

Lemma stays_POWER cmd : stays_ (cmd_POWER ml cmd).
Proof.
  eapply keeps_bind; [apply stays_outcome, arg_fault|]. intros v _. apply keeps_seq.
  - destruct (negb _); [|by apply keeps_ret].
    destruct (negb _); apply stays_hw; [apply pwrOn_ok|apply pwrOff_ok].
  - eapply keeps_bind; [apply stays_outcome, new_reply_fault|]. intros r _.
    eapply keeps_bind; [apply stays_hw, getPowerState_ok|]. intros on _. apply stays_reply_value.
Qed.

Lemma stays_POM cmd : stays_ (cmd_POM ml cmd).
Proof.
  apply stays_arg_index. intros i Hi. eapply keeps_bind; [apply stays_outcome, arg_fault|]. intros cv _.
  eapply keeps_bind; [apply stays_outcome, arg_fault|]. intros value _.
  eapply keeps_bind; [apply stays_outcome, new_reply_fault|]. intros r _.
  eapply keeps_bind; [by apply stays_lok_at|]. intros d _.
  eapply keeps_bind; [apply stays_hw, sendPOM_ok|]. intros v _. apply stays_reply_value.
Qed.

Lemma stays_POMBIT cmd : stays_ (cmd_POMBIT ml cmd).
Proof.
  apply stays_arg_index. intros i Hi. eapply keeps_bind; [apply stays_outcome, arg_fault|]. intros cv _.
  eapply keeps_bind; [apply stays_outcome, arg_fault|]. intros bit _.
  eapply keeps_bind; [apply stays_outcome, arg_fault|]. intros value _.
  eapply keeps_bind; [apply stays_outcome, new_reply_fault|]. intros r _.
  eapply keeps_bind; [by apply stays_lok_at|]. intros d _.
  eapply keeps_bind; [apply stays_hw, sendPOMBit_ok|]. intros v _. apply stays_reply_value.
Qed.

Lemma stays_GETIMAGE cmd : stays_ (cmd_GETIMAGE ml readFile cmd).
Proof.
  eapply keeps_bind; [apply stays_outcome, arg_string_fault|]. intros nm _.
  eapply keeps_bind; [apply stays_outcome, new_reply_fault|]. intros r _.
  eapply (keeps_bind _ _ _ _ (fun _ => True)).
  - case_decide; [by apply keeps_ret|]. apply keeps_lift; [done|]. intros e He.
    pose proof (readFile_safe ("img/" +:+ nm)) as Hs. by rewrite He in Hs.
  - intros img _. pose proof (faults_at_field "img" _ (faults_put (FBTCtlMessage_string img)) r) as F.
    destruct (at_field _ _ r) as [o m]. cbn in F.
    apply keeps_seq; [|apply keeps_seq; [apply stays_send|by apply keeps_ret]].
    apply keeps_lift; [done|]. intros e' ->. by apply message_fault_safe.
Qed.

Lemma stays_HELO_ERR cmd : stays_ (cmd_HELO_ERR cmd).
Proof.
  apply keeps_seq; [apply stays_outcome, arg_fault|]. apply keeps_seq; [apply stays_outcome, arg_fault|].
  by apply keeps_fail.
Qed.

Lemma isType_fault n cmd : outcome_fault (isType ml n cmd).
Proof.
  apply outcome_fault_bind; [|done].
  unfold messageTypeID. destruct (smap_index _ _ _) as [l m]. by destruct (_ =? _).
Qed.

Lemma stays_if_type cmd n (c d : M (CT H S) bool) : stays_ c -> stays_ d -> stays_ (if_type ml cmd n c d).
Proof.
  intros Hc Hd. eapply keeps_bind; [apply stays_outcome, isType_fault|]. intros b _. by destruct b.
Qed.

Lemma stays_execute cmd : stays_ (execute ml readFile cmd).
Proof.
  unfold execute. apply stays_if_type; [apply keeps_seq; [apply stays_sendStatusReply|by apply keeps_ret]|].
  apply stays_if_type; [apply stays_ACC|]. apply stays_if_type; [apply stays_BREAK|].
  apply stays_if_type; [apply stays_DIR|]. apply stays_if_type; [apply stays_STOP|].
  apply stays_if_type; [apply stays_ACC_MULTI|]. apply stays_if_type; [apply stays_BREAK_MULTI|].
  apply stays_if_type; [apply stays_DIR_MULTI|]. apply stays_if_type; [apply stays_STOP_MULTI|].
  apply stays_if_type; [apply stays_SETFUNC|]. apply stays_if_type; [apply stays_GETLOCOS|].
  apply stays_if_type; [apply stays_GETFUNCTIONS|]. apply stays_if_type; [apply stays_POWER|].
  apply stays_if_type; [apply stays_POM|]. apply stays_if_type; [apply stays_POMBIT|].
  apply stays_if_type; [apply stays_GETIMAGE|]. apply stays_if_type; [apply stays_HELO_ERR|].
  apply keeps_seq; [apply stays_outcome, typeName_fault|by apply keeps_ret].
Qed.

(** ** Driving *)

Lemma stays_drive_one e i : (i <= length addrs)%nat -> stays_ (drive_one clientID e i).
Proof.
  intros Hi s Hs. unfold drive_one, gets. unfold mbind at 1, M_bind at 1.
  pose proof Hs as [_ _ C N]. destruct (lookup_lt_is_Some_2 (ct_changed s) i) as [[] Hb]; [lia| |by rewrite Hb].
  rewrite Hb. assert (valid (Z.of_nat i)) as Hv.
  { destruct (decide (i = length addrs)) as [->|]; [congruence|lia]. }
  revert s Hs C N Hb. intros s Hs _ _ _. revert s Hs.
  change (stays_ (mark_changed (Z.of_nat i) false;; upd_lok (Z.of_nat i) (set_lastClientID clientID);;
                  on_hw (sendLoco (Z.of_nat i) e);; mret false)).
  apply keeps_seq; [by apply stays_mark|]. apply keeps_seq; [by apply stays_upd_lok; [|apply keeps_set_client]|].
  apply keeps_seq; [by apply stays_hw, sendLoco_ok|by apply keeps_ret].
Qed.

Lemma stays_drive e : stays_ (drive clientID (length addrs) e).
Proof.
  apply keeps_seq; [|by apply keeps_ret]. apply keeps_foldM. intros b i Hi%elem_of_seq. apply stays_drive_one. lia.
Qed.

Lemma stays_process cmd : stays_ (process ml clientID readFile (length addrs) cmd).
Proof.
  apply keeps_seq; [apply stays_outcome, typeName_fault|].
  eapply keeps_bind; [apply stays_execute|]. intros e _. apply keeps_seq; [apply stays_drive|].
  apply keeps_modify; [|done]. intros s Hs. by destruct Hs.
Qed.

Lemma stays_destruct n : stays_ (destruct_thread clientID n).
Proof.
  apply keeps_seq; [|by apply keeps_ret]. destruct (_ =? 0); (apply keeps_seq;
    [apply stays_hw, fullstop_ok|apply stays_hw, clientDisconnected_ok]).
Qed.

(** ** The greeting *)

(** sizes the arrays of the thread to the table, or fails with the table in
    order *)
Lemma greet_sizes (s : CT H S) :
  table_ok addrs (ct_lokdef s) ->
  match greet ml s with
  | (Ok n, s') => thread_ok addrs s' /\ n = length addrs
  | (Err _, s') => table_ok addrs (ct_lokdef s')
  end.
Proof.
  intros T. unfold greet.
  pose proof (clientConnected_ok addrs (ct_lokdef s, ct_hw s) T) as Hc.
  unfold mbind, M_bind, on_hw, zoom. destruct (clientConnected _) as [[u|e] [t h]]; [|by destruct Hc].
  destruct Hc as [T' _]. cbn [fst snd] in *. unfold lift. destruct (new_reply ml "HELO") as [m|]; [|done].
  destruct (at_field "name" _ m) as [[?|?] m1]; [|done]. destruct (at_field "version" _ m1) as [[?|?] m2]; [|done].
  destruct (at_field "protohash" _ m2) as [[?|?] m3]; [|done].
  unfold send, on_comm, zoom. cbn. destruct (sendMessage ml m3 _) as [[?|?] c]; [|done]. cbn.
  assert (length (locos t) = length addrs) as Hlen by (rewrite <- (ok_addrs _ _ T'); by rewrite length_map).
  rewrite Hlen. split; [|done]. split; cbn; [done|by rewrite repeat_length|by rewrite repeat_length|].
  clear. induction (length addrs) as [|k IH]; [done|exact IH].
Qed.
End safety.
