(* ===== verification/ClientProps.v ===== *)
(** * What the commands of a client do

    The effect of every command on the locomotive table, the delta encoding of
    the status replies, and the calls the drivers receive. *)

From Stdlib Require Import Ascii.
From stdpp Require Import gmap.
From S2P Require Import Prelude StdMap CString Utils MessageLayout Message Stream Lokdef Hardware ClientThread ClientSafety.

(** ** The status reply as a function *)

(** one element of the [info] array *)
Definition status_entry (a speed func : Z) : FBTCtlMessage :=
  Msg STRUCT (data_struct_t [("addr", FBTCtlMessage_int a); ("functions", FBTCtlMessage_int func);
                             ("speed", FBTCtlMessage_int speed)]).

(** the status of a locomotive: what [lastStatus] remembers of it *)
Definition status_of (d : lokdef_t) : outcome lastStatus_t :=
  func ← func_bits d; Ok (mkLast (currspeed d) func (currdir d)).

#[global] Instance lastStatus_eq_dec : EqDecision lastStatus_t.
Proof. solve_decision. Defined.

(** the entries of the locomotives whose status is not the remembered one *)
Fixpoint status_delta (ds : list lokdef_t) (last : list lastStatus_t) : outcome (list FBTCtlMessage) :=
  match ds, last with
  | d :: ds', ls :: last' =>
      st ← status_of d;
      if decide (st = ls) then status_delta ds' last'
      else
        speed ← reported_speed d;
        es ← status_delta ds' last';
        Ok (status_entry (addr d) speed (ls_func st) :: es)
  | _, _ => Ok []
  end.

(** the reply with these entries *)
Definition with_info (es : list FBTCtlMessage) (reply : FBTCtlMessage) : FBTCtlMessage :=
  set_field "info" (Msg ARRAY (data_array_t es)) reply.

Lemma set_field_twice name v v' this : set_field name v (set_field name v' this) = set_field name v this.
Proof. unfold set_field. cbn. by rewrite smap_set_twice. Qed.

Lemma at_info {A} (k : M FBTCtlMessage A) es reply :
  struct_like reply ->
  at_field "info" k (with_info es reply) =
    ((k (Msg ARRAY (data_array_t es))).1, set_field "info" (k (Msg ARRAY (data_array_t es))).2 reply).
Proof.
  intros Hs. rewrite at_field_run by (by apply set_field_struct).
  assert (smap_find "info" (m_fields (with_info es reply)) = Some (Msg ARRAY (data_array_t es))) as ->
    by (apply smap_find_set_eq).
  cbn. f_equal. apply set_field_twice.
Qed.

(** [operator[](int)] on the element behind the last, and on the last *)
Lemma at_index_last {A} (k : M FBTCtlMessage A) es e :
  at_index (Z.of_nat (length es)) k (Msg ARRAY (data_array_t (es ++ [e]))) =
    ((k e).1, Msg ARRAY (data_array_t (es ++ [(k e).2]))).
Proof.
  unfold at_index. cbn -[Z.of_nat Z.leb Z.ltb]. rewrite length_app. cbn [length].
  destruct (Z.leb_spec (Z.of_nat (length es + 1)) (Z.of_nat (length es))); [lia|].
  destruct (Z.ltb_spec (Z.of_nat (length es)) 0); [lia|]. rewrite Nat2Z.id.
  rewrite lookup_app_r, Nat.sub_diag by lia. cbn. destruct (k e) as [r e'].
  pose proof (insert_app_r es [e] 0 e') as Hi. rewrite Nat.add_0_r in Hi. by rewrite Hi.
Qed.

Lemma at_index_new {A} (k : M FBTCtlMessage A) es :
  let e := Msg STRUCT (data_struct_t []) in
  at_index (Z.of_nat (length es)) k (Msg ARRAY (data_array_t es)) =
    ((k e).1, Msg ARRAY (data_array_t (es ++ [(k e).2]))).
Proof.
  cbn zeta. rewrite <- at_index_last. unfold at_index. cbn -[Z.of_nat Z.leb Z.ltb]. rewrite length_app. cbn [length].
  destruct (Z.leb_spec (Z.of_nat (length es)) (Z.of_nat (length es))); [|lia].
  by destruct (Z.leb_spec (Z.of_nat (length es + 1)) (Z.of_nat (length es))); [lia|].
Qed.

Lemma put_info_new es key v reply :
  struct_like reply ->
  put_info (Z.of_nat (length es)) key v (with_info es reply) =
    (Ok tt, with_info (es ++ [Msg STRUCT (data_struct_t [(key, v)])]) reply).
Proof.
  intros Hs. unfold put_info. rewrite at_info, at_index_new by done. rewrite at_field_run by done. done.
Qed.

Lemma put_info_last es m key v reply :
  struct_like reply ->
  put_info (Z.of_nat (length es)) key v (with_info (es ++ [Msg STRUCT (data_struct_t m)]) reply) =
    (Ok tt, with_info (es ++ [Msg STRUCT (data_struct_t (smap_set key v m))]) reply).
Proof.
  intros Hs. unfold put_info. rewrite at_info, at_index_last by done. rewrite at_field_run by done. done.
Qed.

(** the three assignments of one entry *)
Lemma put_entry es a speed func reply :
  struct_like reply ->
  (put_info (Z.of_nat (length es)) "addr" (FBTCtlMessage_int a);;
   put_info (Z.of_nat (length es)) "speed" (FBTCtlMessage_int speed);;
   put_info (Z.of_nat (length es)) "functions" (FBTCtlMessage_int func)) (with_info es reply) =
  (Ok tt, with_info (es ++ [status_entry a speed func]) reply).
Proof.
  intros Hs. unfold mbind, M_bind. rewrite put_info_new by done. by rewrite !put_info_last.
Qed.

Definition statuses : list lokdef_t -> list lastStatus_t -> Prop :=
  Forall2 (fun d st => status_of d = Ok st).

Lemma statuses_unique ds sts sts' : statuses ds sts -> statuses ds sts' -> sts' = sts.
Proof.
  intros F. revert sts'. induction F as [|d st ds sts Hst _ IH]; intros sts' F'; inversion F'; subst; [done|].
  f_equal; [congruence|by apply IH].
Qed.

(** the comparison in [setLokStatus] *)
Lemma changed_spec d func ls :
  negb (currspeed d =? ls_currspeed ls) || negb (func =? ls_func ls) || negb (currdir d =? ls_dir ls) =
  negb (bool_decide (mkLast (currspeed d) func (currdir d) = ls)).
Proof.
  destruct ls as [sp fu di]. cbn.
  destruct (Z.eqb_spec (currspeed d) sp), (Z.eqb_spec func fu), (Z.eqb_spec (currdir d) di); cbn;
    first [rewrite bool_decide_true by congruence; done | rewrite bool_decide_false by congruence; done].
Qed.

Lemma lokStatus_loop_spec t i es es' reply last :
  terminated t -> struct_like reply -> (i + length (locos t) <= length last)%nat ->
  status_delta (locos t) (drop i last) = Ok es' ->
  exists sts, statuses (locos t) sts /\
    lokStatus_loop t i (Z.of_nat (length es)) (with_info es reply, last) =
    (Ok tt, (with_info (es ++ es') reply, take i last ++ sts ++ drop (i + length (locos t)) last)).
Proof.
  revert i es es' last. induction t as [|d t IH]; intros i es es' last T Hr Hi;
    [by destruct T as (? & ?%elem_of_nil & _)|].
  cbn [lokStatus_loop locos] in *. destruct (Z.eqb_spec (addr d) 0) as [|Hd].
  { cbn. intros [= <-]. exists []. rewrite Nat.add_0_r, app_nil_r, app_nil_l, take_drop. split; [constructor|done]. }
  pose proof (terminated_tail _ _ T Hd) as T'. cbn [length] in Hi.
  destruct (lookup_lt_is_Some_2 last i) as [ls Hls]; [lia|].
  rewrite (drop_S _ _ _ Hls). cbn [status_delta]. unfold status_of.
  destruct (func_bits d) as [fb|] eqn:Ef; [|done]. cbn [mbind outcome_bind].
  unfold mbind, M_bind, lift, gets. cbn [snd]. rewrite Hls, changed_spec.
  destruct (decide (mkLast (currspeed d) fb (currdir d) = ls)) as [E|E].
  - rewrite bool_decide_true by done. cbn [negb]. intros Hdelta.
    destruct (IH (Datatypes.S i) es es' last T' Hr ltac:(lia) Hdelta) as (sts & F & ->).
    exists (ls :: sts). split; [constructor; [|done]; unfold status_of; rewrite Ef; cbn; by rewrite E|].
    rewrite (take_S_r _ _ _ Hls), <- app_assoc. cbn [app length].
    by replace (Datatypes.S i + length (locos t))%nat with (i + Datatypes.S (length (locos t)))%nat by lia.
  - rewrite bool_decide_false by done. cbn [negb]. intros Hdelta.
    apply outcome_bind_ok in Hdelta as (speed & Hs & Hdelta). rewrite Hs.
    apply outcome_bind_ok in Hdelta as (es2 & Hdelta & [= <-]).
    set (st := mkLast (currspeed d) fb (currdir d)) in *.
    assert (i < length last)%nat as Hlt by lia.
    unfold modify, zoom. cbn [fst snd].
    rewrite put_info_new by done. cbn [fst snd]. rewrite put_info_last by done. cbn [fst snd].
    rewrite put_info_last by done. cbn [fst snd].
    change (smap_set "functions" (FBTCtlMessage_int fb) _) with
      [("addr", FBTCtlMessage_int (addr d)); ("functions", FBTCtlMessage_int fb); ("speed", FBTCtlMessage_int speed)].
    fold (status_entry (addr d) speed fb).
    assert (drop (Datatypes.S i) (<[i:=st]> last) = drop (Datatypes.S i) last) as Hdrop
      by (apply drop_insert_lt; lia).
    rewrite <- Hdrop in Hdelta.
    destruct (IH (Datatypes.S i) (es ++ [status_entry (addr d) speed fb]) es2 (<[i:=st]> last) T' Hr) as (sts & F & El);
      [rewrite length_insert; lia|done|].
    exists (st :: sts). split; [constructor; [|done]; unfold status_of; by rewrite Ef|].
    rewrite length_app in El. cbn [length] in El. rewrite Nat2Z.inj_add in El.
    change (Z.of_nat 1) with 1 in El. rewrite El.
    rewrite (take_S_r _ _ st) by (apply list_lookup_insert_eq; lia).
    rewrite take_insert_ge by lia. rewrite drop_insert_lt by lia. rewrite <- !app_assoc. cbn [app length].
    by replace (Datatypes.S i + length (locos t))%nat with (i + Datatypes.S (length (locos t)))%nat by lia.
Qed.

Lemma setLokStatus_run {H S} addrs (s : CT H S) reply es :
  thread_ok addrs s -> struct_like reply ->
  status_delta (locos (ct_lokdef s)) (ct_lastStatus s) = Ok es ->
  exists sts, statuses (locos (ct_lokdef s)) sts /\
    setLokStatus reply s =
      (Ok (with_info es reply),
       set_lastStatus (sts ++ drop (length (locos (ct_lokdef s))) (ct_lastStatus s)) s).
Proof.
  intros [[A T K] L C N] Hr Hd.
  assert (length (locos (ct_lokdef s)) = length addrs) as Hlen by (by rewrite <- A, length_map).
  destruct (lokStatus_loop_spec (ct_lokdef s) 0 [] es reply (ct_lastStatus s) T Hr ltac:(lia) Hd) as (sts & F & E).
  exists sts. split; [done|]. unfold setLokStatus. rewrite at_field_run by done. cbn [put fst snd].
  change (set_field "info" (Msg ARRAY (data_array_t [])) reply) with (with_info [] reply).
  cbn [length] in E. change (Z.of_nat 0) with 0 in E. rewrite E. done.
Qed.

(** ** A client's picture of the railway *)

(** what a status says to a client: the signed speed and the functions *)
Definition shown (st : lastStatus_t) : Z * Z :=
  (if ls_currspeed st =? 0 then ls_dir st else ls_currspeed st * ls_dir st, ls_func st).

(** a client applies the entries it receives, by address *)
Definition entry_int (key : string) (e : FBTCtlMessage) : Z :=
  match smap_find key (m_fields e) with Some (Msg _ (data_int_t i)) => i | _ => 0 end.
Definition apply_entry (view : gmap Z (Z * Z)) (e : FBTCtlMessage) : gmap Z (Z * Z) :=
  <[entry_int "addr" e := (entry_int "speed" e, entry_int "functions" e)]> view.
Definition apply_entries : list FBTCtlMessage -> gmap Z (Z * Z) -> gmap Z (Z * Z) :=
  fun es view => List.fold_left apply_entry es view.

(** before its first reply a client has nothing *)
Definition nothing_sent : lastStatus_t := mkLast 0 (-1) 0.
(** the client's picture is what was last sent for every locomotive *)
Definition in_sync (view : gmap Z (Z * Z)) : list lokdef_t -> list lastStatus_t -> Prop :=
  Forall2 (fun d ls => ls = nothing_sent \/ view !! addr d = Some (shown ls)).

Lemma apply_entries_other es view a :
  a ∉ map (entry_int "addr") es -> apply_entries es view !! a = view !! a.
Proof.
  revert view. induction es as [|e es IH]; intros view Hn; [done|]. cbn in *.
  rewrite IH by set_solver. unfold apply_entry. by rewrite lookup_insert_ne by set_solver.
Qed.

Lemma in_sync_other view ds last a v :
  a ∉ map addr ds -> in_sync view ds last -> in_sync (<[a:=v]> view) ds last.
Proof.
  intros Hn F. induction F as [|d ls ds last Hor F IH]; constructor.
  - destruct Hor as [->|Hv]; [by left|right]. rewrite lookup_insert_ne; [done|]. cbn in Hn. set_solver.
  - apply IH. cbn in Hn. set_solver.
Qed.

Lemma status_delta_addrs ds last es :
  status_delta ds last = Ok es -> forall a, a ∈ map (entry_int "addr") es -> a ∈ map addr ds.
Proof.
  revert last es. induction ds as [|d ds IH]; intros last es Hd a; [injection Hd as <-; set_solver|].
  destruct last as [|ls last]; [injection Hd as <-; set_solver|]. cbn in Hd.
  apply outcome_bind_ok in Hd as (st & _ & Hd). case_decide.
  - intros Ha. apply (IH _ _ Hd) in Ha. set_solver.
  - apply outcome_bind_ok in Hd as (speed & _ & Hd). apply outcome_bind_ok in Hd as (es' & Hd & [= <-]).
    cbn. intros [->|Ha]%elem_of_cons; [set_solver|]. apply (IH _ _ Hd) in Ha. set_solver.
Qed.

Lemma reported_shown d st speed :
  status_of d = Ok st -> reported_speed d = Ok speed -> (speed, ls_func st) = shown st.
Proof.
  unfold status_of, reported_speed, int_mul, shown. intros Hst Hsp.
  apply outcome_bind_ok in Hst as (fb & _ & [= <-]). cbn.
  destruct (currspeed d =? 0); [by simplify_eq|]. destruct (int32b _); by simplify_eq.
Qed.

(** ** The function bits *)

Lemma wrapped_bit j i : (j < 32)%nat -> (i < 32)%nat ->
  Z.testbit (wrap32 (Z.shiftl 1 (Z.of_nat j))) (Z.of_nat i) = bool_decide (i = j).
Proof.
  intros Hj Hi.
  assert (forallb (fun j => forallb (fun i => Bool.eqb (Z.testbit (wrap32 (Z.shiftl 1 (Z.of_nat j))) (Z.of_nat i))
    (bool_decide (i = j))) (seq 0 32)) (seq 0 32) = true) as H by (vm_compute; reflexivity).
  rewrite forallb_forall in H. specialize (H j ltac:(apply in_seq; lia)). cbn beta in H.
  rewrite forallb_forall in H. specialize (H i ltac:(apply in_seq; lia)). by apply Bool.eqb_prop in H.
Qed.

Lemma func_bits_from_bit n k fs z i : func_bits_from (Z.of_nat n) k fs = Ok z -> (n + k <= 32)%nat -> (i < 32)%nat ->
  Z.testbit z (Z.of_nat i) =
    (if decide (n <= i < n + k)%nat then match fs !! (i - n)%nat with Some f => ison f | None => false end else false).
Proof.
  revert n fs z. induction k as [|k IH]; intros n fs z Hz Hn Hi; cbn in Hz.
  { injection Hz as <-. rewrite Z.bits_0. by rewrite decide_False by lia. }
  destruct fs as [|f fs]; [done|]. apply outcome_bind_ok in Hz as (r & Hr & [= <-]).
  replace (Z.of_nat n + 1) with (Z.of_nat (Datatypes.S n)) in Hr by lia.
  specialize (IH _ _ _ Hr ltac:(lia) Hi).
  assert (Z.testbit (if ison f then Z.lor (wrap32 (Z.shiftl 1 (Z.of_nat n))) r else r) (Z.of_nat i) =
    (bool_decide (i = n) && ison f) || Z.testbit r (Z.of_nat i)) as ->.
  { destruct (ison f); [|by rewrite andb_false_r]. rewrite Z.lor_spec, wrapped_bit by lia. by rewrite andb_true_r. }
  rewrite IH. destruct (decide (i = n)) as [->|Hne].
  - rewrite bool_decide_true by done. rewrite (decide_False (P:=(Datatypes.S n <= n < _)%nat)) by lia.
    rewrite decide_True by lia. rewrite Nat.sub_diag. cbn. by rewrite orb_false_r.
  - rewrite bool_decide_false by done. cbn [andb orb]. destruct (decide (n <= i < n + Datatypes.S k)%nat) as [D|D].
    + rewrite decide_True by lia. replace (i - n)%nat with (Datatypes.S (i - Datatypes.S n)) by lia. done.
    + by rewrite decide_False by lia.
Qed.

(** bit [j] of the reported functions is the state of function [j] *)
Lemma func_bits_bit d z j f : lok_wf d -> func_bits d = Ok z -> Z.of_nat j < nFunc d -> func d !! j = Some f ->
  Z.testbit z (Z.of_nat j) = ison f.
Proof.
  intros [W1 W2] Hz Hj Hf. unfold func_bits in Hz. change 0 with (Z.of_nat 0) in Hz. unfold MAX_NFUNC in *.
  rewrite (func_bits_from_bit _ _ _ _ j Hz) by lia. rewrite decide_True by lia. by rewrite Nat.sub_0_r, Hf.
Qed.

(** what a client can take from the pair shown for a locomotive: the protocol
    has one signed number for speed and direction, the product, and the
    direction alone for a standing locomotive; with the speeds of the single
    commands (not negative, never 1) and a direction of 1 or -1 it determines
    both *)
Definition tells (d : lokdef_t) (v : Z * Z) : Prop :=
  v.1 = (if currspeed d =? 0 then currdir d else currspeed d * currdir d) /\
  (0 <= currspeed d -> currspeed d <> 1 -> currdir d = 1 \/ currdir d = -1 ->
     currdir d = Z.sgn v.1 /\ currspeed d = (if Z.abs v.1 =? 1 then 0 else Z.abs v.1)) /\
  (forall j f, Z.of_nat j < nFunc d -> func d !! j = Some f -> Z.testbit v.2 (Z.of_nat j) = ison f).

Lemma status_tells d st : lok_wf d -> status_of d = Ok st -> tells d (shown st).
Proof.
  intros W Hst. unfold status_of in Hst. apply outcome_bind_ok in Hst as (fb & Hfb & [= <-]).
  unfold tells, shown. cbn. split_and!; [done| |].
  - intros Hs H1 Hd. destruct (Z.eqb_spec (currspeed d) 0) as [->|]; [destruct Hd as [-> | ->]; done|].
    destruct Hd as [-> | ->]; rewrite ?Z.mul_1_r; [|replace (currspeed d * -1) with (- currspeed d) by lia];
      split; try lia; rewrite ?Z.abs_opp, Z.abs_eq by lia; by rewrite (proj2 (Z.eqb_neq _ _)).
  - intros j f Hj Hf. by eapply func_bits_bit.
Qed.

(** the picture after applying a delta *)
Lemma delta_applied ds last es view :
  NoDup (map addr ds) -> Forall (fun d => currdir d <> 0) ds ->
  in_sync view ds last -> status_delta ds last = Ok es ->
  exists sts, statuses ds sts /\ Forall2 (fun d st => apply_entries es view !! addr d = Some (shown st)) ds sts.
Proof.
  intros ND Hdir Hsync. revert es view ND Hdir Hsync. revert last.
  induction ds as [|d ds IH]; intros last es view ND Hdir Hsync Hd.
  { exists []. split; constructor. }
  inversion Hsync as [|? ls ? last' Hls Hsync']; subst.
  inversion ND as [|? ? Hnin ND']; subst. inversion Hdir as [|? ? Hd0 Hdir']; subst. cbn in Hd.
  apply outcome_bind_ok in Hd as (st & Hst & Hd). case_decide as E.
  - subst ls. destruct (IH _ _ _ ND' Hdir' Hsync' Hd) as (sts & F1 & F2).
    exists (st :: sts). split; [by constructor|]. constructor; [|done].
    rewrite apply_entries_other; [|intros Ha; by apply (status_delta_addrs _ _ _ Hd) in Ha].
    destruct Hls as [->|]; [|done]. exfalso. unfold status_of in Hst.
    apply outcome_bind_ok in Hst as (fb & _ & [= _ _ Hz]). done.
  - apply outcome_bind_ok in Hd as (speed & Hsp & Hd). apply outcome_bind_ok in Hd as (es' & Hd & [= <-]).
    cbn [apply_entries List.fold_left]. set (view' := apply_entry view _).
    assert (in_sync view' ds last') as Hsync2.
    { by apply in_sync_other. }
    destruct (IH _ _ _ ND' Hdir' Hsync2 Hd) as (sts & F1 & F2).
    exists (st :: sts). split; [by constructor|]. constructor; [|done].
    change (List.fold_left apply_entry es' view') with (apply_entries es' view').
    rewrite apply_entries_other; [|intros Ha; by apply (status_delta_addrs _ _ _ Hd) in Ha].
    unfold view', apply_entry. cbn. rewrite lookup_insert_eq. f_equal. by eapply reported_shown.
Qed.

(** ** A driver that writes down what it is asked to do *)

Inductive hw_call : Type :=
  | CallSendLoco (addr_index : Z) (emergencyStop : bool)
  | CallFullstop (client : Z) (stopAll emergencyStop : bool)
  | CallPower (on : bool)
  | CallConnected
  | CallDisconnected (all : bool)
  | CallPOM (addr cv value : Z)
  | CallPOMBit (addr cv bitNr : Z) (value : bool).

Record Recorder : Type := mkRecorder { calls : list hw_call; power : bool }.

Definition record (c : hw_call) : M (list lokdef_t * Recorder) unit :=
  modify (fun w => (w.1, mkRecorder (calls w.2 ++ [c]) (power w.2))).
Definition record_power (on : bool) : M (list lokdef_t * Recorder) unit :=
  modify (fun w => (w.1, mkRecorder (calls w.2 ++ [CallPower on]) on)).

#[export] Instance Recorder_hardware : Hardware Recorder := {
  sendLoco i e := record (CallSendLoco i e);
  fullstop c a e := record (CallFullstop c a e);
  pwrOn := record_power true;
  pwrOff := record_power false;
  getPowerState := gets (fun w => power w.2);
  clientConnected := record CallConnected;
  clientDisconnected all := record (CallDisconnected all);
  sendPOM a cv v := record (CallPOM a cv v);; mret (-1);
  sendPOMBit a cv b v := record (CallPOMBit a cv b v);; mret 0;
}.

#[export] Instance Recorder_laws : HardwareLaws Recorder.
Proof. split; intros; intros w Hw; cbn; unfold mbind, M_bind; by split. Qed.

(** ** Effects on the table *)

Section effects.
Context {H S : Type} `{HardwareLaws H} `{ClientStream S}.
Context (ml : MessageLayouts) (clientID : Z) (addrs : list Z).
Implicit Types (s : CT H S).

(** a status reply changes nothing but the reply bookkeeping *)
Definition same_state s s' : Prop :=
  ct_lokdef s' = ct_lokdef s /\ ct_hw s' = ct_hw s /\ ct_changed s' = ct_changed s.

Lemma sendStatusReply_frame s : same_state s (sendStatusReply ml s).2.
Proof.
  assert (preserves (same_state s) (sendStatusReply ml)) as Hp; [|by apply Hp].
  unfold sendStatusReply. apply preserves_bind; [apply preserves_lift|]. intros r.
  apply preserves_bind.
  - intros s' Hs. unfold setLokStatus. destruct (at_field _ _ r) as [[]]; [|done].
    by destruct (lokStatus_loop _ _ _ _) as [[] []].
  - intros r' s' Hs. unfold send, on_comm, zoom. by destruct (sendMessage _ _ _).
Qed.

Lemma lok_at_value i s d :
  locos (ct_lokdef s) !! Z.to_nat i = Some d -> 0 <= i -> lok_at i s = (Ok d, s).
Proof.
  intros Hd Hi. destruct (locos_lookup _ _ _ Hd) as [Hl _]. unfold lok_at, gets, mbind, M_bind.
  destruct (Z.ltb_spec i 0); [lia|]. by rewrite Hl.
Qed.

Lemma upd_lok_run i f s d :
  thread_ok addrs s -> locos (ct_lokdef s) !! Z.to_nat i = Some d -> 0 <= i ->
  upd_lok i f s = (Ok tt, set_lokdef (<[Z.to_nat i:=f d]> (ct_lokdef s)) s).
Proof.
  intros Hs Hd Hi. unfold upd_lok. by rewrite (run_bind _ _ _ _ _ (lok_at_value i s d Hd Hi)).
Qed.

Lemma locos_valid i s d :
  thread_ok addrs s -> locos (ct_lokdef s) !! Z.to_nat i = Some d -> 0 <= i ->
  i < Z.of_nat (length addrs) /\ i < Z.of_nat (length (ct_changed s)).
Proof.
  intros [[A _ _] L C N] Hd Hi. apply lookup_lt_Some in Hd.
  assert (length (locos (ct_lokdef s)) = length addrs) as Hlen by (by rewrite <- A, length_map). lia.
Qed.

Lemma mark_changed_run i b s :
  0 <= i -> i < Z.of_nat (length (ct_changed s)) ->
  mark_changed i b s = (Ok tt, set_changed (<[Z.to_nat i:=b]> (ct_changed s)) s).
Proof.
  intros Hi Hl. unfold mark_changed, gets, mbind, M_bind. destruct (Z.ltb_spec i 0); [lia|].
  by destruct (Z.leb_spec (Z.of_nat (length (ct_changed s))) i); [lia|].
Qed.

(** What a command does to one locomotive: the table is changed also when the
    reply cannot be sent; the locomotive is marked for driving only when it
    was. *)
Definition changes_one s (i : Z) (d' : lokdef_t) (e : bool) (result : outcome bool * CT H S) : Prop :=
  let '(r, s') := result in
  ct_lokdef s' = <[Z.to_nat i:=d']> (ct_lokdef s) /\ ct_hw s' = ct_hw s /\
  match r with
  | Ok b => b = e /\ ct_changed s' = <[Z.to_nat i:=true]> (ct_changed s)
  | Err _ => ct_changed s' = ct_changed s
  end.

Lemma finish_effect i f e s d :
  thread_ok addrs s -> locos (ct_lokdef s) !! Z.to_nat i = Some d -> 0 <= i ->
  changes_one s i (f d) e ((upd_lok i f;; sendStatusReply ml;; mark_changed i true;; mret e) s).
Proof.
  intros Hs Hd Hi. destruct (locos_valid i s d Hs Hd Hi) as [_ Hc]. unfold mbind at 1, M_bind at 1.
  rewrite (upd_lok_run i f s d) by done. set (s1 := set_lokdef _ s). unfold mbind at 1, M_bind at 1.
  destruct (sendStatusReply_frame s1) as (E1 & E2 & E3).
  destruct (sendStatusReply ml s1) as [[u|er] s2]; cbn in E1, E2, E3; [|done].
  unfold mbind, M_bind. rewrite mark_changed_run by (rewrite ?E3; done). cbn. by rewrite E1, E2, E3.
Qed.

Lemma addrIndex_run a i s : getAddrIndex a (ct_lokdef s) = Ok i -> addrIndex a s = (Ok i, s).
Proof. intros E. unfold addrIndex, gets, lift, mbind, M_bind. by rewrite E. Qed.

Lemma addrIndex_fail a s :
  thread_ok addrs s -> a ∉ addrs ->
  addrIndex a s = (Err (Throw ("getAddrIndex: invalid address " +:+ to_string a)), s).
Proof.
  intros [[A T K] _ _ _] Ha. unfold addrIndex, gets, lift, mbind, M_bind, getAddrIndex.
  destruct (find_addr_spec a 0 _ T) as [(k & d & _ & L & E & _)|[-> _]]; [|done].
  exfalso. apply Ha. rewrite <- A. apply list_elem_of_fmap. exists d. split; [done|].
  by eapply list_elem_of_lookup_2.
Qed.

Lemma known_address a s :
  thread_ok addrs s -> a ∈ addrs ->
  exists i d, getAddrIndex a (ct_lokdef s) = Ok i /\ 0 <= i /\
    locos (ct_lokdef s) !! Z.to_nat i = Some d /\ addr d = a /\ lok_ok d.
Proof.
  intros [[A T K] _ _ _] Ha. destruct (find_addr_spec a 0 _ T) as [(k & d & E & L & Ea & _)|[_ N]].
  - exists (Z.of_nat k), d. rewrite Nat2Z.id. split_and!; [done|lia|done|done|]. by eapply Forall_lookup_1 in K.
  - exfalso. by rewrite A in N.
Qed.
End effects.

(** ** The MULTI commands *)

(** the locomotives with these indices are changed and marked *)
Definition touch_one {H S} (f : lokdef_t -> lokdef_t) (s : CT H S) (i : nat) : CT H S :=
  set_changed (<[i:=true]> (ct_changed s)) (set_lokdef (alter f i (ct_lokdef s)) s).
Definition touch {H S} (f : lokdef_t -> lokdef_t) (js : list nat) (s : CT H S) : CT H S :=
  foldl (touch_one f) s js.

(** the addresses of a MULTI command lead to these locomotives *)
Definition list_indices {H S} (cmd : FBTCtlMessage) (s : CT H S) (ks : list Z) (js : list nat) : Prop :=
  Forall2 (fun k i => exists a, arg_list cmd k = Ok a /\ getAddrIndex a (ct_lokdef s) = Ok (Z.of_nat i)) ks js.

Lemma find_addr_alter f a j t i :
  (forall d, addr (f d) = addr d) -> find_addr a j (alter f i t) = find_addr a j t.
Proof.
  intros Hf. revert i j. induction t as [|d t IH]; intros [|i] j; cbn; rewrite ?Hf; [done..|].
  destruct (addr d =? 0); [done|]. destruct (addr d =? a); [done|]. apply IH.
Qed.

Lemma alter_insert f i (t : list lokdef_t) d : t !! i = Some d -> <[i:=f d]> t = alter f i t.
Proof. revert i. induction t as [|e t IH]; intros [|i]; cbn; [done..|by intros [= ->]|]. intros. by rewrite IH. Qed.

Lemma locos_alter f i t :
  (forall d, addr (f d) = addr d) -> locos (alter f i t) = alter f i (locos t).
Proof.
  intros Hf. revert i. induction t as [|d t IH]; intros [|i]; cbn; rewrite ?Hf; [done..| |].
  - by destruct (addr d =? 0).
  - destruct (addr d =? 0); [done|]. cbn. by rewrite IH.
Qed.

Section multi.
Context {H S : Type} `{HardwareLaws H} `{ClientStream S}.
Context (ml : MessageLayouts) (addrs : list Z).
Implicit Types (s : CT H S).

Lemma touch_one_ok f s i :
  (forall d, lok_ok d -> lok_ok (f d)) -> (forall d, addr (f d) = addr d) ->
  thread_ok addrs s -> (i < length addrs)%nat -> thread_ok addrs (touch_one f s i).
Proof.
  intros Hf Ha [T L C N] Hi. assert (exists d, locos (ct_lokdef s) !! i = Some d /\ lok_ok d) as (d & Hd & Hok).
  { destruct (table_ok_index _ _ (Z.of_nat i) T) as (d & Hd & Hok); [lia|]. rewrite Nat2Z.id in Hd. eauto. }
  destruct (locos_lookup _ _ _ Hd) as [Hl _]. split; cbn; [|done|by rewrite length_insert|].
  - rewrite <- (alter_insert _ _ _ d Hl). eapply table_ok_insert; eauto.
  - rewrite list_lookup_insert_ne by lia. done.
Qed.

Lemma for_list_run cmd from n f s js :
  (forall d, lok_ok d -> lok_ok (f d)) -> (forall d, addr (f d) = addr d) -> thread_ok addrs s ->
  list_indices cmd s (map (fun k => from + Z.of_nat k) (seq 0 (Z.to_nat (n - from)))) js ->
  for_list cmd from n f s = (Ok tt, touch f js s) /\ thread_ok addrs (touch f js s).
Proof.
  intros Hf Ha Hs. unfold for_list. generalize (seq 0 (Z.to_nat (n - from))) as ks. intros ks.
  revert s js Hs. induction ks as [|k ks IH]; intros s js Hs F; inversion F as [|? i ? js' (a & E1 & E2) F']; subst.
  { done. }
  destruct (table_ok_getAddrIndex _ _ _ _ (tk_table _ _ Hs) E2) as (Hv & d & Hd & _). rewrite Nat2Z.id in Hd.
  cbn [iterM]. erewrite run_bind; cycle 1.
  { rewrite (run_bind _ _ _ _ _ (run_lift _ _ _ E1)), (run_bind _ _ _ _ _ (addrIndex_run a _ s E2)).
    erewrite run_bind; [|apply (upd_lok_run addrs _ f s d Hs); [by rewrite Nat2Z.id|lia]].
    rewrite mark_changed_run; cbn; [|lia|rewrite (tk_changed _ _ Hs); lia]. rewrite Nat2Z.id.
    destruct (locos_lookup _ _ _ Hd) as [Hl _]. rewrite (alter_insert _ _ _ d Hl). reflexivity. }
  apply (IH (touch_one f s i) js'); [apply touch_one_ok; [done..|lia]|].
  eapply Forall2_impl; [|exact F']. intros k' i' (a' & E1' & E2'). exists a'. split; [done|].
  cbn. unfold getAddrIndex. by rewrite find_addr_alter.
Qed.

(** what [touch] leaves in the table *)
Lemma touch_lookup f js s j d :
  (forall d, addr (f d) = addr d) -> (forall d, f (f d) = f d) ->
  locos (ct_lokdef s) !! j = Some d ->
  locos (ct_lokdef (touch f js s)) !! j = Some (if decide (j ∈ js) then f d else d).
Proof.
  intros Ha Hi. revert s d. induction js as [|i js IH]; intros s d Hd; [done|].
  change (touch f (i :: js) s) with (touch f js (touch_one f s i)). destruct (decide (i = j)) as [->|Hne].
  - rewrite (IH _ (f d)); [|cbn; by rewrite locos_alter, list_lookup_alter_eq, Hd].
    rewrite (decide_True (P:=j ∈ j :: js)) by set_solver. by case_decide; rewrite ?Hi.
  - rewrite (IH _ d); [|cbn; by rewrite locos_alter, list_lookup_alter_ne by done].
    destruct (decide (j ∈ js)); [rewrite decide_True by set_solver|rewrite decide_False by set_solver]; done.
Qed.

Lemma touch_hw f js s : ct_hw (touch f js s) = ct_hw s.
Proof. revert s. induction js as [|i js IH]; intros s; [done|]. exact (IH (touch_one f s i)). Qed.

(** the result of a MULTI command that sets [f] on the locomotives [js] *)
Definition changes_all (f : lokdef_t -> lokdef_t) (js : list nat) (e : bool) s (result : outcome bool * CT H S) : Prop :=
  let '(r, s') := result in
  (forall j d, locos (ct_lokdef s) !! j = Some d ->
     locos (ct_lokdef s') !! j = Some (if decide (j ∈ js) then f d else d)) /\
  ct_hw s' = ct_hw s /\ match r with Ok b => b = e | Err _ => True end.

Lemma reply_after_touch f js s e :
  (forall d, addr (f d) = addr d) -> (forall d, f (f d) = f d) ->
  changes_all f js e s ((sendStatusReply ml;; mret e) (touch f js s)).
Proof.
  intros Ha Hi. destruct (sendStatusReply_frame ml (touch f js s)) as (E1 & E2 & _).
  unfold mbind, M_bind. destruct (sendStatusReply ml (touch f js s)) as [[u|er] s'];
    cbn in *; (split; [intros j d Hd; rewrite E1; by apply touch_lookup|split; [by rewrite E2, touch_hw|done]]).
Qed.
(** every listed locomotive is changed by [f] *)
Lemma list_multi_effect cmd n js s :
  thread_ok addrs s -> list_indices cmd s (map Z.of_nat (seq 0 (Z.to_nat n))) js ->
  forall f e, (forall d, lok_ok d -> lok_ok (f d)) -> (forall d, addr (f d) = addr d) ->
    (forall d, f (f d) = f d) ->
    changes_all f js e s ((for_list cmd 0 n f;; sendStatusReply ml;; mret e) s).
Proof.
  intros Hs F f e Hf Ha Hi. destruct (for_list_run cmd 0 n f s js Hf Ha Hs) as [Er _].
  - rewrite Z.sub_0_r. exact F.
  - rewrite (run_bind _ _ _ _ _ Er). by apply reply_after_touch.
Qed.

(** the indices behind the first one, seen after the first was changed *)
Lemma list_indices_tail cmd n i0 js s f :
  (forall d, addr (f d) = addr d) -> 1 <= n ->
  list_indices cmd s (map Z.of_nat (seq 0 (Z.to_nat n))) (i0 :: js) ->
  (exists a, arg_list cmd 0 = Ok a /\ getAddrIndex a (ct_lokdef s) = Ok (Z.of_nat i0)) /\
  list_indices cmd (touch_one f s i0) (map (fun k => 1 + Z.of_nat k) (seq 0 (Z.to_nat (n - 1)))) js.
Proof.
  intros Ha Hn F. replace (Z.to_nat n) with (Datatypes.S (Z.to_nat (n - 1))) in F by lia. cbn [seq map] in F.
  rewrite <- seq_shift, map_map in F. inversion F as [|? ? ? ? E F']; subst. split; [exact E|].
  eapply Forall2_impl; [|erewrite map_ext; [exact F'|]].
  - intros k i (b & B1 & B2). exists b. split; [exact B1|]. cbn. unfold getAddrIndex. by rewrite find_addr_alter.
  - intros k. cbn. lia.
Qed.

(** the first locomotive is changed and marked *)
Lemma touch_first i0 f s d0 :
  thread_ok addrs s -> locos (ct_lokdef s) !! i0 = Some d0 ->
  (upd_lok (Z.of_nat i0) f;; mark_changed (Z.of_nat i0) true) s = (Ok tt, touch_one f s i0) /\
  (i0 < length addrs)%nat.
Proof.
  intros Hs Hd0. destruct (locos_valid addrs (Z.of_nat i0) s d0 Hs) as [Hlt Hc]; [by rewrite Nat2Z.id|lia|].
  split; [|lia]. erewrite run_bind; [|apply (upd_lok_run addrs _ _ s d0 Hs); [by rewrite Nat2Z.id|lia]].
  rewrite mark_changed_run by (cbn; lia). cbn [ct_changed set_lokdef]. rewrite Nat2Z.id.
  destruct (locos_lookup _ _ _ Hd0) as [Hl0 _]. by rewrite (alter_insert f _ _ _ Hl0).
Qed.

(** ACC_MULTI and BREAK_MULTI *)
Lemma speed_multi_effect cmd n i0 js s d0 :
  thread_ok addrs s -> arg_size cmd = Ok n -> 1 <= n ->
  list_indices cmd s (map Z.of_nat (seq 0 (Z.to_nat n))) (i0 :: js) ->
  locos (ct_lokdef s) !! i0 = Some d0 ->
  forall adjust, (forall v, -255 <= v <= 255 -> -255 <= adjust v <= 255) ->
    changes_all (set_currspeed (adjust (currspeed d0))) (i0 :: js) false s (cmd_SPEED_MULTI ml adjust cmd s).
Proof.
  intros Hs Hn Hn1 F Hd0 adjust Hadj. set (v := adjust (currspeed d0)). set (f := set_currspeed v).
  destruct (list_indices_tail cmd n i0 js s f (fun _ => eq_refl) Hn1 F) as [(a & E1 & E2) F'].
  assert (lok_ok d0) as Hok0 by (eapply Forall_lookup_1 in Hd0; [exact Hd0|apply (tk_table _ _ Hs)]).
  assert (-255 <= v <= 255) as Hv by (apply Hadj, Hok0).
  assert (forall d, lok_ok d -> lok_ok (f d)) as Hf by (intros d [[W1 W2] _]; split; [by split|done]).
  assert (upd_lok (Z.of_nat i0) (fun d => set_currspeed (adjust (currspeed d)) d) s = upd_lok (Z.of_nat i0) f s) as Eu.
  { rewrite !(upd_lok_run addrs _ _ s d0 Hs) by (rewrite ?Nat2Z.id; done || lia). done. }
  destruct (touch_first i0 f s d0 Hs Hd0) as [Et Hlt]. unfold mbind, M_bind in Et.
  unfold cmd_SPEED_MULTI.
  rewrite (run_bind _ _ _ _ _ (run_lift _ _ _ Hn)), (run_bind _ _ _ _ _ (run_lift _ _ _ E1)).
  rewrite (run_bind _ _ _ _ _ (addrIndex_run a _ s E2)). unfold mbind at 1, M_bind at 1. rewrite Eu.
  destruct (upd_lok (Z.of_nat i0) f s) as [[[]|?] s1]; [|done]. rewrite (run_bind _ _ _ _ _ Et).
  erewrite run_bind; [|apply lok_at_value with (d := f d0); [|lia]].
  2: { cbn. rewrite locos_alter, Nat2Z.id, list_lookup_alter_eq, Hd0 by done. done. }
  destruct (for_list_run cmd 1 n f (touch_one f s i0) js Hf) as [Er _]; [done|by apply touch_one_ok|exact F'|].
  change (currspeed (f d0)) with v. fold f. rewrite (run_bind _ _ _ _ _ Er).
  by apply (reply_after_touch f (i0 :: js)).
Qed.
End multi.

(** ** A small railway for the witnesses *)

Definition sample_table : list lokdef_t := map entry_lok sample_entries ++ [lokdef0].
Definition sample_thread (t : list lokdef_t) : CT Recorder TCPClient :=
  mkCT t (mkRecorder [] false) (Some (sample_socket []))
    (repeat nothing_sent 3) (repeat false 3) 0.
(** commands with one and with two addresses *)
Definition one_addr (type a : Z) (more : smap FBTCtlMessage) : FBTCtlMessage :=
  Msg type (data_struct_t (("addr", FBTCtlMessage_int a) :: more)).
Definition addr_list (type : Z) (more : smap FBTCtlMessage) (l : list Z) : FBTCtlMessage :=
  Msg type (data_struct_t (more ++ [("list", Msg ARRAY (data_array_t
    (map (fun a => Msg STRUCT (data_struct_t [("addr", FBTCtlMessage_int a)])) l)))])).

Lemma lok_ok_check d :
  (nFunc d <=? MAX_NFUNC) && (Z.of_nat (length (func d)) =? MAX_NFUNC) &&
  (-255 <=? currspeed d) && (currspeed d <=? 255) = true -> lok_ok d.
Proof.
  rewrite !andb_true_iff, !Z.leb_le, Z.eqb_eq. intros [[[H1 H2] H3] H4]. split; [split; [done|lia]|lia].
Qed.

Lemma table_ok_check addrs t :
  map addr (locos t) = addrs -> lokdef0 ∈ t ->
  forallb (fun d => (nFunc d <=? MAX_NFUNC) && (Z.of_nat (length (func d)) =? MAX_NFUNC) &&
    (-255 <=? currspeed d) && (currspeed d <=? 255)) (locos t) = true ->
  table_ok addrs t.
Proof.
  intros A T F. split; [done|by exists lokdef0|]. apply list.Forall_forall. intros d Hd.
  apply lok_ok_check. rewrite forallb_forall in F. apply F. by apply list_elem_of_In.
Qed.

(** the same with the first locomotive at speed [v] *)
Definition moving_table (v : Z) : list lokdef_t := alter (set_currspeed v) 0%nat sample_table.

Lemma sample_table_ok : thread_ok [3; 12] (sample_thread sample_table).
Proof.
  split; [|reflexivity..].
  apply table_ok_check; [reflexivity|unfold sample_table; set_solver|vm_compute; reflexivity].
Qed.

Lemma moving_table_ok : thread_ok [3; 12] (sample_thread (moving_table 50)).
Proof.
  split; [|reflexivity..].
  apply table_ok_check; [reflexivity|cbn; set_solver|vm_compute; reflexivity].
Qed.

(** ** Properties *)

(** C8: Speed commands, at a known address: ACC adds 5 up to 255, BREAK takes 5
    off down to 0, STOP sets 0.  Exactly that locomotive changes, and it is
    driven next, with an emergency stop for STOP only.  When the reply cannot
    be sent the table has the new speed but the locomotive is not driven. *)
Theorem speed_commands {H S} `{HardwareLaws H} `{ClientStream S} ml addrs (s : CT H S) cmd a :
  thread_ok addrs s -> arg cmd "addr" = Ok a -> a ∈ addrs ->
  exists i d, getAddrIndex a (ct_lokdef s) = Ok i /\ locos (ct_lokdef s) !! Z.to_nat i = Some d /\
    addr d = a /\
    changes_one s i (set_currspeed (Z.min 255 (currspeed d + 5)) d) false (cmd_ACC ml cmd s) /\
    changes_one s i (set_currspeed (Z.max 0 (currspeed d - 5)) d) false (cmd_BREAK ml cmd s) /\
    changes_one s i (set_currspeed 0 d) true (cmd_STOP ml cmd s).
Proof.
  intros Hs Harg Ha. destruct (known_address addrs a s Hs Ha) as (i & d & E & Hi & Hd & Had & Hok).
  exists i, d. split_and!; [done..| | |].
  all: unfold cmd_ACC, cmd_BREAK, cmd_STOP; rewrite (run_bind _ _ _ _ _ (run_lift _ _ _ Harg)).
  all: rewrite (run_bind _ _ _ _ _ (addrIndex_run a i s E)).
  - replace (Z.min 255 (currspeed d + 5)) with (clamp_high (currspeed d + SPEED_STEP))
      by (unfold clamp_high, SPEED_STEP; destruct (Z.ltb_spec 255 (currspeed d + 5)); lia).
    by apply (finish_effect ml addrs i (fun d => set_currspeed (clamp_high (currspeed d + SPEED_STEP)) d)).
  - replace (Z.max 0 (currspeed d - 5)) with (clamp_low 0 (currspeed d - SPEED_STEP))
      by (unfold clamp_low, SPEED_STEP; destruct (Z.ltb_spec (currspeed d - 5) 0); lia).
    by apply (finish_effect ml addrs i (fun d => set_currspeed (clamp_low 0 (currspeed d - SPEED_STEP)) d)).
  - by apply (finish_effect ml addrs i (set_currspeed 0)).
Qed.

Lemma speed_commands_witness :
  exists i d, getAddrIndex 3 (ct_lokdef (sample_thread sample_table)) = Ok i /\
    locos (ct_lokdef (sample_thread sample_table)) !! Z.to_nat i = Some d /\ addr d = 3 /\
    changes_one (sample_thread sample_table) i (set_currspeed (Z.min 255 (currspeed d + 5)) d) false
      (cmd_ACC protocol (one_addr 9 3 []) (sample_thread sample_table)) /\
    changes_one (sample_thread sample_table) i (set_currspeed (Z.max 0 (currspeed d - 5)) d) false
      (cmd_BREAK protocol (one_addr 9 3 []) (sample_thread sample_table)) /\
    changes_one (sample_thread sample_table) i (set_currspeed 0 d) true
      (cmd_STOP protocol (one_addr 9 3 []) (sample_thread sample_table)).
Proof.
  apply (speed_commands protocol [3; 12]); [apply sample_table_ok|reflexivity|set_solver].
Defined.

(** DIR is guarded: an invalid direction or a moving locomotive leaves every
    object unchanged and throws; otherwise exactly the direction of that
    locomotive is set. *)
Theorem dir_command {H S} `{HardwareLaws H} `{ClientStream S} ml addrs (s : CT H S) cmd a dir :
  thread_ok addrs s -> arg cmd "addr" = Ok a -> a ∈ addrs -> arg cmd "dir" = Ok dir ->
  exists i d, getAddrIndex a (ct_lokdef s) = Ok i /\ locos (ct_lokdef s) !! Z.to_nat i = Some d /\
    if bool_decide (dir = 1 \/ dir = -1) then
      if currspeed d =? 0 then changes_one s i (set_currdir dir d) false (cmd_DIR ml cmd s)
      else cmd_DIR ml cmd s = (Err (Throw "speed != 0"), s)
    else cmd_DIR ml cmd s = (Err (Throw "invalid dir"), s).
Proof.
  intros Hs Harg Ha Hdir. destruct (known_address addrs a s Hs Ha) as (i & d & E & Hi & Hd & Had & Hok).
  exists i, d. split_and!; [done..|].
  assert (cmd_DIR ml cmd s =
    (if negb (dir =? 1) && negb (dir =? -1) then throw "invalid dir"
     else if negb (currspeed d =? 0) then throw "speed != 0"
     else (upd_lok i (set_currdir dir);; sendStatusReply ml;; mark_changed i true;; mret false)) s) as ->.
  { unfold cmd_DIR. rewrite (run_bind _ _ _ _ _ (run_lift _ _ _ Harg)).
    rewrite (run_bind _ _ _ _ _ (addrIndex_run a i s E)), (run_bind _ _ _ _ _ (run_lift _ _ _ Hdir)).
    destruct (_ && _); [done|]. by rewrite (run_bind _ _ _ _ _ (lok_at_value i s d Hd Hi)). }
  assert (negb (dir =? 1) && negb (dir =? -1) = negb (bool_decide (dir = 1 \/ dir = -1))) as ->.
  { destruct (Z.eqb_spec dir 1), (Z.eqb_spec dir (-1)); cbn;
      first [rewrite bool_decide_true by auto; done | rewrite bool_decide_false by tauto; done]. }
  destruct (bool_decide _); cbn [negb]; [|done].
  destruct (currspeed d =? 0); cbn [negb]; [|done]. by apply (finish_effect ml addrs i (set_currdir dir)).
Qed.

Lemma dir_command_witness :
  exists i d, getAddrIndex 3 (ct_lokdef (sample_thread (moving_table 50))) = Ok i /\
    locos (ct_lokdef (sample_thread (moving_table 50))) !! Z.to_nat i = Some d /\
    if bool_decide (-1 = 1 \/ -1 = -1) then
      if currspeed d =? 0 then changes_one (sample_thread (moving_table 50)) i (set_currdir (-1) d) false
        (cmd_DIR protocol (one_addr 11 3 [("dir", FBTCtlMessage_int (-1))]) (sample_thread (moving_table 50)))
      else cmd_DIR protocol (one_addr 11 3 [("dir", FBTCtlMessage_int (-1))]) (sample_thread (moving_table 50))
             = (Err (Throw "speed != 0"), sample_thread (moving_table 50))
    else cmd_DIR protocol (one_addr 11 3 [("dir", FBTCtlMessage_int (-1))]) (sample_thread (moving_table 50))
             = (Err (Throw "invalid dir"), sample_thread (moving_table 50)).
Proof.
  apply (dir_command protocol [3; 12] _ _ 3 (-1)); [apply moving_table_ok|reflexivity|set_solver|reflexivity].
Defined.

(** A command for an address that is not in the table throws and changes
    nothing. *)
Theorem unknown_address {H S} `{HardwareLaws H} `{ClientStream S} ml addrs (s : CT H S) cmd a :
  thread_ok addrs s -> arg cmd "addr" = Ok a -> a ∉ addrs ->
  Forall (fun command : M (CT H S) bool =>
      command s = (Err (Throw ("getAddrIndex: invalid address " +:+ to_string a)), s))
    [cmd_ACC ml cmd; cmd_BREAK ml cmd; cmd_STOP ml cmd; cmd_DIR ml cmd; cmd_SETFUNC ml cmd;
     cmd_GETFUNCTIONS ml cmd; cmd_POM ml cmd; cmd_POMBIT ml cmd].
Proof.
  intros Hs Harg Ha. repeat constructor.
  all: unfold cmd_ACC, cmd_BREAK, cmd_STOP, cmd_DIR, cmd_SETFUNC, cmd_GETFUNCTIONS, cmd_POM, cmd_POMBIT.
  all: rewrite (run_bind _ _ _ _ _ (run_lift _ _ _ Harg)).
  all: apply run_bind_err, (addrIndex_fail addrs); done.
Qed.

Lemma unknown_address_witness :
  Forall (fun command : M (CT Recorder TCPClient) bool =>
      command (sample_thread sample_table) =
        (Err (Throw ("getAddrIndex: invalid address " +:+ to_string 7)), sample_thread sample_table))
    [cmd_ACC protocol (one_addr 9 7 []); cmd_BREAK protocol (one_addr 9 7 []);
     cmd_STOP protocol (one_addr 9 7 []); cmd_DIR protocol (one_addr 9 7 []);
     cmd_SETFUNC protocol (one_addr 9 7 []); cmd_GETFUNCTIONS protocol (one_addr 9 7 []);
     cmd_POM protocol (one_addr 9 7 []); cmd_POMBIT protocol (one_addr 9 7 [])].
Proof. apply (unknown_address protocol [3; 12] _ _ 7); [apply sample_table_ok|reflexivity|set_solver]. Defined.

(** C9: MULTI commands with a non-empty list of known addresses: the listed
    locomotives, and no others, are changed, all in the same way.  ACC_MULTI and
    BREAK_MULTI give them the new speed of the first one; unlike BREAK,
    BREAK_MULTI goes on below zero, down to -255.  STOP_MULTI sets 0.  DIR_MULTI,
    the only one whose layout has a direction, takes any direction at any
    speed, unlike DIR. *)
Theorem multi_commands {H S} `{HardwareLaws H} `{ClientStream S} ml addrs (s : CT H S) cmd n i0 js d0 :
  thread_ok addrs s -> arg_size cmd = Ok n -> 1 <= n ->
  list_indices cmd s (map Z.of_nat (seq 0 (Z.to_nat n))) (i0 :: js) ->
  locos (ct_lokdef s) !! i0 = Some d0 ->
  changes_all (set_currspeed (Z.min 255 (currspeed d0 + 5))) (i0 :: js) false s (cmd_ACC_MULTI ml cmd s) /\
  changes_all (set_currspeed (Z.max (-255) (currspeed d0 - 5))) (i0 :: js) false s (cmd_BREAK_MULTI ml cmd s) /\
  changes_all (set_currspeed 0) (i0 :: js) true s (cmd_STOP_MULTI ml cmd s) /\
  (forall dir, arg cmd "dir" = Ok dir ->
     changes_all (set_currdir dir) (i0 :: js) false s (cmd_DIR_MULTI ml cmd s)).
Proof.
  intros Hs Hn Hn1 F Hd0. pose proof (speed_multi_effect ml addrs cmd n i0 js s d0 Hs Hn Hn1 F Hd0) as Hspeed.
  pose proof (list_multi_effect ml addrs cmd n (i0 :: js) s Hs F) as Hall.
  split_and!; [| | |intros dir Hdir].
  - replace (Z.min 255 (currspeed d0 + 5)) with (clamp_high (currspeed d0 + SPEED_STEP))
      by (unfold clamp_high, SPEED_STEP; destruct (Z.ltb_spec 255 (currspeed d0 + 5)); lia).
    apply (Hspeed (fun v => clamp_high (v + SPEED_STEP))). intros v Hv. apply clamp_high_range. unfold SPEED_STEP. lia.
  - replace (Z.max (-255) (currspeed d0 - 5)) with (clamp_low (-255) (currspeed d0 - SPEED_STEP))
      by (unfold clamp_low, SPEED_STEP; destruct (Z.ltb_spec (currspeed d0 - 5) (-255)); lia).
    apply (Hspeed (fun v => clamp_low (-255) (v - SPEED_STEP))). intros v Hv.
    apply clamp_low_range; unfold SPEED_STEP; lia.
  - unfold cmd_STOP_MULTI. rewrite (run_bind _ _ _ _ _ (run_lift _ _ _ Hn)).
    apply (Hall (set_currspeed 0)); [|done..]. intros d [[W1 W2] _]. split; [by split|cbn; lia].
  - unfold cmd_DIR_MULTI. rewrite (run_bind _ _ _ _ _ (run_lift _ _ _ Hn)), (run_bind _ _ _ _ _ (run_lift _ _ _ Hdir)).
    apply (Hall (set_currdir dir)); [|done..]. by intros d [[W1 W2] ?].
Qed.

(** a DIR_MULTI and an ACC_MULTI, as they are decoded from the wire *)
Definition sample_multi : FBTCtlMessage := addr_list 15 [("dir", FBTCtlMessage_int (-1))] [3; 12].
Definition sample_acc_multi : FBTCtlMessage := addr_list 13 [] [3; 12].
(** a standing locomotive: ACC_MULTI sets both to speed 5, BREAK_MULTI would
    set -5 *)
Lemma multi_commands_witness :
  let s := sample_thread sample_table in let d0 := entry_lok (List.nth 0 sample_entries (mkEntry 0 0 "" "" [])) in
  (exists bs, FBTCtlMessage_bin protocol bs (Z.of_nat (length bs)) = Ok sample_acc_multi) /\
  changes_all (set_currspeed (Z.min 255 (currspeed d0 + 5))) [0%nat; 1%nat] false s (cmd_ACC_MULTI protocol sample_acc_multi s) /\
  changes_all (set_currdir (-1)) [0%nat; 1%nat] false s (cmd_DIR_MULTI protocol sample_multi s).
Proof.
  cbv zeta. split_and!.
  - exists (default [] (match getBinaryMessage protocol sample_acc_multi with Ok bs => Some bs | Err _ => None end)).
    vm_compute. reflexivity.
  - refine (proj1 (multi_commands protocol [3; 12] (sample_thread sample_table) sample_acc_multi 2 0%nat [1%nat] _ _ _ _ _ _));
      [apply sample_table_ok|reflexivity|lia| |reflexivity].
    repeat constructor; eexists; split; reflexivity.
  - refine (proj2 (proj2 (proj2 (multi_commands protocol [3; 12] (sample_thread sample_table) sample_multi 2 0%nat [1%nat]
      (entry_lok (List.nth 0 sample_entries (mkEntry 0 0 "" "" []))) _ _ _ _ _))) (-1) _);
      [apply sample_table_ok|reflexivity|lia| |reflexivity|reflexivity].
    repeat constructor; eexists; split; reflexivity.
Defined.

(** ** Driving the locomotives that changed *)

(** the marked indices, ascending *)
Fixpoint marked_from (i : nat) (changed : list bool) : list nat :=
  match changed with
  | [] => []
  | b :: c => if (b : bool) then i :: marked_from (Datatypes.S i) c else marked_from (Datatypes.S i) c
  end.
Definition marked : list bool -> list nat := marked_from 0.

(** the emergency stop goes to the first call only *)
Definition drive_calls (e : bool) (js : list nat) : list hw_call :=
  match js with
  | [] => []
  | i :: js' => CallSendLoco (Z.of_nat i) e :: map (fun j => CallSendLoco (Z.of_nat j) false) js'
  end.

Section driving.
Context {S : Type} (clientID : Z) (addrs : list Z).
Implicit Types (s : CT Recorder S).

Lemma drive_one_unmarked e i s :
  ct_changed s !! i = Some false -> drive_one clientID e i s = (Ok e, s).
Proof. intros E. unfold drive_one, gets, mbind, M_bind. by rewrite E. Qed.

(** the state after driving locomotive [i] *)
Definition driven e i s : CT Recorder S :=
  mkCT (alter (set_lastClientID clientID) i (ct_lokdef s))
    (mkRecorder (calls (ct_hw s) ++ [CallSendLoco (Z.of_nat i) e]) (power (ct_hw s)))
    (ct_client s) (ct_lastStatus s) (<[i:=false]> (ct_changed s)) (ct_msgNum s).

Lemma drive_one_marked e i s :
  thread_ok addrs s -> ct_changed s !! i = Some true ->
  drive_one clientID e i s = (Ok false, driven e i s) /\ thread_ok addrs (driven e i s).
Proof.
  intros Hs Hb. pose proof Hs as [T L C N]. pose proof (lookup_lt_Some _ _ _ Hb) as Hlt.
  assert (i <> length addrs) as Hne by (intros ->; congruence).
  destruct (table_ok_index _ _ (Z.of_nat i) T ltac:(lia)) as (d & Hd & [[W1 W2] Hsp]). rewrite Nat2Z.id in Hd.
  destruct (locos_lookup _ _ _ Hd) as [Hl _]. split.
  - unfold drive_one, gets. unfold mbind at 1, M_bind at 1. rewrite Hb.
    rewrite (run_bind _ _ _ _ _ (mark_changed_run (Z.of_nat i) false s ltac:(lia) ltac:(lia))). rewrite Nat2Z.id.
    erewrite run_bind; [|apply (upd_lok_run addrs _ _ _ d); [|by rewrite Nat2Z.id|lia]].
    + cbn. by rewrite Nat2Z.id, (alter_insert _ _ _ _ Hl).
    + split; cbn; [done|done|by rewrite length_insert|by rewrite list_lookup_insert_ne].
  - split; cbn; [|done|by rewrite length_insert|by rewrite list_lookup_insert_ne].
    rewrite <- (alter_insert _ _ _ _ Hl). by eapply table_ok_insert.
Qed.

Lemma drive_loop e i s pre post :
  thread_ok addrs s -> ct_changed s = pre ++ post -> length pre = i -> Forall (eq false) pre ->
  exists s', foldM (drive_one clientID) (seq i (length post)) e s =
      (Ok (if marked_from i post then e else false), s') /\
    calls (ct_hw s') = calls (ct_hw s) ++ drive_calls e (marked_from i post) /\
    Forall (eq false) (ct_changed s') /\ thread_ok addrs s' /\
    (forall j d, locos (ct_lokdef s) !! j = Some d ->
       locos (ct_lokdef s') !! j = Some (if decide (j ∈ marked_from i post) then set_lastClientID clientID d else d)).
Proof.
  revert e i s pre. induction post as [|b post IH]; intros e i s pre Hs Hc Hl Hpre.
  { exists s. cbn. rewrite app_nil_r in *. split_and!; [done..|by rewrite Hc|done|done]. }
  cbn [length seq foldM marked_from].
  assert (ct_changed s !! i = Some b) as Hb.
  { rewrite Hc, lookup_app_r, Hl, Nat.sub_diag by lia. done. }
  destruct b.
  - destruct (drive_one_marked e i s Hs Hb) as [E Hs1]. rewrite (run_bind _ _ _ _ _ E).
    destruct (IH false (Datatypes.S i) (driven e i s) (pre ++ [false])) as (s' & E' & C' & F' & T' & L').
    + done.
    + cbn. rewrite Hc, insert_app_r_alt, Hl, Nat.sub_diag by lia. cbn. by rewrite <- app_assoc.
    + rewrite length_app. cbn. lia.
    + apply Forall_app. by split; [|repeat constructor].
    + exists s'. split_and!; [by rewrite E'; destruct (marked_from _ _)| |done|done|].
      * rewrite C'. cbn. rewrite <- app_assoc. cbn. do 2 f_equal. by destruct (marked_from _ _).
      * intros j d Hd. destruct (decide (j = i)) as [->|Hne].
        -- rewrite (L' i (set_lastClientID clientID d)); [|cbn; by rewrite locos_alter, list_lookup_alter_eq, Hd].
           rewrite (decide_True (P:=i ∈ i :: _)) by set_solver. by case_decide.
        -- rewrite (L' j d); [|cbn; by rewrite locos_alter, list_lookup_alter_ne by done].
           destruct (decide (j ∈ marked_from (Datatypes.S i) post));
             [rewrite decide_True by set_solver|rewrite decide_False by set_solver]; done.
  - rewrite (run_bind _ _ _ _ _ (drive_one_unmarked e i s Hb)).
    apply (IH e (Datatypes.S i) s (pre ++ [false])); [done|by rewrite <- app_assoc|rewrite length_app; cbn; lia|].
    apply Forall_app. by split; [|repeat constructor].
Qed.
End driving.

Lemma drive_run {S} clientID addrs (s : CT Recorder S) e :
  thread_ok addrs s ->
  exists s', drive clientID (length addrs) e s = (Ok tt, s') /\
    calls (ct_hw s') = calls (ct_hw s) ++ drive_calls e (marked (ct_changed s)) /\
    Forall (eq false) (ct_changed s') /\ thread_ok addrs s' /\
    (forall j d, locos (ct_lokdef s) !! j = Some d ->
       locos (ct_lokdef s') !! j =
         Some (if decide (j ∈ marked (ct_changed s)) then set_lastClientID clientID d else d)).
Proof.
  intros Hs. destruct (drive_loop clientID addrs e 0 s [] (ct_changed s) Hs) as (s' & E & C & F & T & L);
    [done..|constructor|]. exists s'. split_and!; [|done..].
  unfold drive. rewrite (tk_changed _ _ Hs) in E. by rewrite (run_bind _ _ _ _ _ E).
Qed.

(** C10: After a command the drivers are called once for every marked locomotive,
    in ascending order; afterwards nothing is marked and the driven
    locomotives belong to this client.  The emergency stop reaches the first
    of them only: a STOP_MULTI for several locomotives brakes the others like
    an ordinary speed of 0. *)
Theorem drive_effect {S} clientID addrs (s : CT Recorder S) e :
  thread_ok addrs s ->
  exists s', drive clientID (length addrs) e s = (Ok tt, s') /\
    calls (ct_hw s') = calls (ct_hw s) ++ drive_calls e (marked (ct_changed s)) /\
    Forall (eq false) (ct_changed s') /\ thread_ok addrs s' /\
    (forall j d, locos (ct_lokdef s) !! j = Some d ->
       locos (ct_lokdef s') !! j =
         Some (if decide (j ∈ marked (ct_changed s)) then set_lastClientID clientID d else d)).
Proof. apply drive_run. Qed.

Lemma drive_effect_witness :
  exists s', drive 1 2 true (touch (set_currspeed 0) [0%nat; 1%nat] (sample_thread sample_table)) = (Ok tt, s') /\
    calls (ct_hw s') = [CallSendLoco 0 true; CallSendLoco 1 false] /\
    Forall (eq false) (ct_changed s') /\ thread_ok [3; 12] s' /\
    (forall j d, locos (ct_lokdef (touch (set_currspeed 0) [0%nat; 1%nat] (sample_thread sample_table))) !! j = Some d ->
       locos (ct_lokdef s') !! j = Some (if decide (j ∈ [0%nat; 1%nat]) then set_lastClientID 1 d else d)).
Proof.
  apply (drive_effect 1 [3; 12] (touch (set_currspeed 0) [0%nat; 1%nat] (sample_thread sample_table)) true).
  split; [|reflexivity..]. apply table_ok_check; [reflexivity|cbn; set_solver|vm_compute; reflexivity].
Defined.

(** ** Dispatch *)

Section dispatch.
Context {H S : Type} `{Hardware H} `{ClientStream S} (readFile : string -> outcome string).
Implicit Types (s : CT H S).

(** the command behind each message type of the shipped protocol *)
Definition handler (ml : MessageLayouts) (t : Z) : FBTCtlMessage -> M (CT H S) bool :=
  if t =? 7 then fun _ => sendStatusReply ml;; mret false
  else if t =? 9 then cmd_ACC ml else if t =? 10 then cmd_BREAK ml
  else if t =? 11 then cmd_DIR ml else if t =? 12 then cmd_STOP ml
  else if t =? 13 then cmd_ACC_MULTI ml else if t =? 14 then cmd_BREAK_MULTI ml
  else if t =? 15 then cmd_DIR_MULTI ml else if t =? 16 then cmd_STOP_MULTI ml
  else if t =? 17 then cmd_SETFUNC ml else if t =? 22 then cmd_GETLOCOS ml
  else if t =? 20 then cmd_GETFUNCTIONS ml else if t =? 18 then cmd_POWER ml
  else if t =? 24 then cmd_POM ml else if t =? 26 then cmd_POMBIT ml
  else if t =? 28 then cmd_GETIMAGE ml readFile else if t =? 6 then cmd_HELO_ERR
  else fun _ => mret false.

Lemma if_type_run ml cmd name t (c d : M (CT H S) bool) s :
  (messageTypeID name ml).1 = Ok t ->
  if_type ml cmd name c d s = (if m_type cmd =? t then c else d) s.
Proof. intros E. unfold if_type, isType, mbind, M_bind, lift. by rewrite E. Qed.

Lemma execute_chain cmd s :
  execute protocol readFile cmd s =
  (if m_type cmd =? 7 then (sendStatusReply protocol;; mret false)
   else if m_type cmd =? 9 then cmd_ACC protocol cmd else if m_type cmd =? 10 then cmd_BREAK protocol cmd
   else if m_type cmd =? 11 then cmd_DIR protocol cmd else if m_type cmd =? 12 then cmd_STOP protocol cmd
   else if m_type cmd =? 13 then cmd_ACC_MULTI protocol cmd else if m_type cmd =? 14 then cmd_BREAK_MULTI protocol cmd
   else if m_type cmd =? 15 then cmd_DIR_MULTI protocol cmd else if m_type cmd =? 16 then cmd_STOP_MULTI protocol cmd
   else if m_type cmd =? 17 then cmd_SETFUNC protocol cmd else if m_type cmd =? 22 then cmd_GETLOCOS protocol cmd
   else if m_type cmd =? 20 then cmd_GETFUNCTIONS protocol cmd else if m_type cmd =? 18 then cmd_POWER protocol cmd
   else if m_type cmd =? 24 then cmd_POM protocol cmd else if m_type cmd =? 26 then cmd_POMBIT protocol cmd
   else if m_type cmd =? 28 then cmd_GETIMAGE protocol readFile cmd else if m_type cmd =? 6 then cmd_HELO_ERR cmd
   else (lift (messageTypeName protocol (m_type cmd));; mret false)) s.
Proof.
  unfold execute.
  repeat match goal with |- if_type _ _ ?n ?c ?d s = _ =>
    let r := eval vm_compute in (messageTypeID n protocol).1 in
    match r with Ok ?t => rewrite (if_type_run protocol cmd n t c d s) by (vm_compute; reflexivity) end;
    destruct (m_type cmd =? _); [reflexivity|] end.
  reflexivity.
Qed.
End dispatch.

(** With the shipped protocol.dat every message type reaches its own command,
    and message types that are not commands (greetings and replies) are
    ignored. *)
Theorem dispatch_protocol {H S} `{Hardware H} `{ClientStream S} readFile (s : CT H S) cmd :
  is_Some (find_type (m_type cmd) (layouts protocol)) ->
  execute protocol readFile cmd s = handler readFile protocol (m_type cmd) cmd s.
Proof.
  intros [[n l] Hf]. rewrite execute_chain. unfold handler.
  repeat match goal with |- context [m_type cmd =? ?t] => destruct (m_type cmd =? t); [reflexivity|] end.
  unfold messageTypeName. rewrite Hf. by repeat (destruct (m_type cmd =? _); [reflexivity|]).
Qed.

Lemma dispatch_protocol_witness :
  execute protocol (fun _ => Ok EmptyString) (one_addr 12 3 []) (sample_thread sample_table) =
  handler (fun _ => Ok EmptyString) protocol 12 (one_addr 12 3 []) (sample_thread sample_table).
Proof.
  apply (dispatch_protocol (fun _ => Ok EmptyString) (sample_thread sample_table) (one_addr 12 3 [])).
  vm_compute. eexists. reflexivity.
Defined.

(** ** Clients stay informed *)

Lemma status_delta_take ds last n :
  (length ds <= n)%nat -> status_delta ds last = status_delta ds (take n last).
Proof.
  revert last n. induction ds as [|d ds IH]; intros last n Hn; [done|]. cbn in Hn.
  destruct n as [|n]; [lia|]. destruct last as [|ls last]; [done|]. cbn.
  by rewrite (IH last n) by lia.
Qed.

(** C5: Delta encoding of the status replies, for a table with distinct
    addresses and no direction 0: if a client's picture holds what was sent
    last for every locomotive, then after it applied the next reply it holds
    what was sent last again, and for every locomotive the number the protocol
    has for speed and direction (speed times direction, the direction alone
    when it stands) and the state of every function.  For a locomotive with a
    direction of 1 or -1 and a speed that is not negative and not 1 (as all
    speeds set by ACC, BREAK and STOP), speed and direction follow from the
    number. *)
Theorem status_reply_syncs_client {H S} addrs (s : CT H S) reply view es :
  thread_ok addrs s -> NoDup addrs -> struct_like reply ->
  Forall (fun d => currdir d <> 0) (locos (ct_lokdef s)) ->
  in_sync view (locos (ct_lokdef s)) (take (length addrs) (ct_lastStatus s)) ->
  status_delta (locos (ct_lokdef s)) (ct_lastStatus s) = Ok es ->
  exists s', setLokStatus reply s = (Ok (with_info es reply), s') /\
    in_sync (apply_entries es view) (locos (ct_lokdef s')) (take (length addrs) (ct_lastStatus s')) /\
    Forall (fun d => exists v, apply_entries es view !! addr d = Some v /\ tells d v) (locos (ct_lokdef s)).
Proof.
  intros Hs ND Hr Hdir Hsync Hd. pose proof Hs as [[A T K] L C N].
  assert (length (locos (ct_lokdef s)) = length addrs) as Hlen by (by rewrite <- A, length_map).
  destruct (setLokStatus_run addrs s reply es Hs Hr Hd) as (sts & F & E).
  destruct (delta_applied (locos (ct_lokdef s)) (take (length addrs) (ct_lastStatus s)) es view) as (sts' & F' & G);
    [by rewrite A|done|done| |].
  { rewrite <- Hd. symmetry. apply status_delta_take. lia. }
  assert (sts' = sts) as -> by (by eapply statuses_unique).
  exists (set_lastStatus (sts ++ drop (length (locos (ct_lokdef s))) (ct_lastStatus s)) s).
  pose proof (Forall2_length F) as Hl. split_and!; [done| |].
  - cbn. rewrite take_app_le, take_ge by lia. eapply Forall2_impl; [|exact G]. intros d st Hv. by right.
  - apply Forall_forall. intros d Hin. apply list_elem_of_In, list_elem_of_lookup in Hin as (i & Hi).
    destruct (Forall2_lookup_l _ _ _ _ _ F Hi) as (st & Hst & Est).
    pose proof (Forall2_lookup_lr _ _ _ _ _ _ G Hi Hst) as Hv. exists (shown st). split; [exact Hv|].
    apply status_tells; [|done]. eapply Forall_lookup_1 in Hi; [|exact K]. by apply ok_wf.
Qed.

Lemma status_reply_syncs_client_witness :
  exists s', setLokStatus (Msg 8 (data_struct_t [])) (sample_thread sample_table) =
      (Ok (with_info [status_entry 3 1 5; status_entry 12 1 1] (Msg 8 (data_struct_t []))), s') /\
    in_sync (apply_entries [status_entry 3 1 5; status_entry 12 1 1] ∅) (locos (ct_lokdef s')) (take 2 (ct_lastStatus s')) /\
    Forall (fun d => exists v, apply_entries [status_entry 3 1 5; status_entry 12 1 1] ∅ !! addr d = Some v /\ tells d v)
      (locos sample_table).
Proof.
  apply (status_reply_syncs_client [3; 12] (sample_thread sample_table) (Msg 8 (data_struct_t [])) ∅
           [status_entry 3 1 5; status_entry 12 1 1]).
  - apply sample_table_ok.
  - apply (bool_decide_eq_true_1 (NoDup [3; 12])). vm_compute. reflexivity.
  - done.
  - repeat constructor; done.
  - repeat constructor; by left.
  - vm_compute. reflexivity.
Defined.

(** ** The invariant *)

(** C3: Whatever message a client sends, processing it keeps the table of
    locomotives in order (addresses and sizes unchanged, speeds within
    -255..255) and never leaves the arrays [lokdef], [lastStatus],
    [changedAddrIndex] and [func], also when it ends with an exception. *)
Theorem process_keeps_tables {H S} `{HardwareLaws H} `{StreamSafe S} ml clientID readFile addrs (s : CT H S) cmd :
  (forall f, safe_result (readFile f)) -> thread_ok addrs s ->
  let '(r, s') := process ml clientID readFile (length addrs) cmd s in
  thread_ok addrs s' /\ match r with Ok _ => True | Err e => table_safe e end.
Proof.
  intros Hf Hs. pose proof (stays_process ml clientID readFile Hf addrs cmd s Hs) as Hk.
  by destruct (process _ _ _ _ _ _) as [[u|e] s'].
Qed.

Lemma process_keeps_tables_witness :
  let '(r, s') := process protocol 1 (fun _ => Ok EmptyString) 2 sample_multi (sample_thread (moving_table 50)) in
  thread_ok [3; 12] s' /\ match r with Ok _ => True | Err e => table_safe e end.
Proof.
  apply (process_keeps_tables protocol 1 (fun _ => Ok EmptyString) [3; 12]); [done|apply moving_table_ok].
Defined.

(** The greeting sizes the arrays of the thread to the table it finds. *)
Theorem greet_establishes {H S} `{HardwareLaws H} `{StreamSafe S} ml addrs (s s' : CT H S) n :
  table_ok addrs (ct_lokdef s) -> greet ml s = (Ok n, s') -> thread_ok addrs s' /\ n = length addrs.
Proof.
  intros T E. pose proof (greet_sizes ml addrs s T) as Hg. by rewrite E in Hg.
Qed.

Lemma greet_establishes_witness :
  thread_ok [3; 12] (greet protocol (mkCT sample_table (mkRecorder [] false) (Some (sample_socket [])) [] [] 0)).2 /\
  2%nat = length [3; 12].
Proof.
  apply (greet_establishes protocol [3; 12] (mkCT sample_table (mkRecorder [] false) (Some (sample_socket [])) [] [] 0));
    [apply sample_table_ok|vm_compute; reflexivity].
Defined.
