(* ===== verification/Races.v ===== *)
(** * bluetoothserver/clientthread.cpp without locks: commands access by access

    The client threads share the locomotive table and take no lock.  Server.v
    interleaves whole messages; here the speed commands for one locomotive are
    taken apart into their loads and stores of [currspeed] and [currdir], and
    the threads of any number of clients take turns between any two of them.
    A load or a store of an [int] is one access.  Undisturbed, a thread does
    what the command of ClientThread.v does.  Of the MULTI commands ACC_MULTI is
    taken apart in the same way, for two locomotives, to show that the bound on
    the speed does not survive it. *)

From stdpp Require Import relations.
From S2P Require Import Prelude StdMap CString Utils Lokdef Hardware ParseExpr Platine ESP32MAS ESP32PWM ClientThread.

Inductive command : Type := ACC | BREAK | DIR (dir : Z) | STOP.

(** where a thread is; a value it has loaded is kept in a register *)
Inductive pc : Type :=
  | Ready
  | Begin (c : command)
  (** [currspeed+=SPEED_STEP] between load and store, then the test and the store of 255 *)
  | AccStore (v : Z) | AccTest | AccClamp
  | BreakStore (v : Z) | BreakTest | BreakClamp
  (** behind [if(currspeed != 0)] *)
  | DirStore (dir : Z)
  (** [sendLoco] reads the speed *)
  | Drive
  (** an exception ended the thread *)
  | Ended.

(** the shared locomotive, and the speeds the driver was given *)
Record loco : Type := mkLoco { l_speed : Z; l_dir : Z; l_driven : list Z }.

(** one access *)
Definition access (p : pc) (m : loco) : pc * loco :=
  match p with
  | Ready => (Ready, m)
  | Begin ACC => (AccStore (l_speed m), m)
  | AccStore v => (AccTest, mkLoco (v + SPEED_STEP) (l_dir m) (l_driven m))
  | AccTest => (if 255 <? l_speed m then AccClamp else Drive, m)
  | AccClamp => (Drive, mkLoco 255 (l_dir m) (l_driven m))
  | Begin BREAK => (BreakStore (l_speed m), m)
  | BreakStore v => (BreakTest, mkLoco (v - SPEED_STEP) (l_dir m) (l_driven m))
  | BreakTest => (if l_speed m <? 0 then BreakClamp else Drive, m)
  | BreakClamp => (Drive, mkLoco 0 (l_dir m) (l_driven m))
  | Begin (DIR d) =>
      if negb (d =? 1) && negb (d =? -1) then (Ended, m)
      else if negb (l_speed m =? 0) then (Ended, m) else (DirStore d, m)
  | DirStore d => (Drive, mkLoco (l_speed m) d (l_driven m))
  | Begin STOP => (Drive, mkLoco 0 (l_dir m) (l_driven m))
  | Drive => (Ready, mkLoco (l_speed m) (l_dir m) (l_driven m ++ [l_speed m]))
  | Ended => (Ended, m)
  end.

(** the threads of all clients *)
Record world : Type := mkWorld { w_threads : list pc; w_loco : loco }.

Definition schedule (i : nat) (w : world) : world :=
  match w_threads w !! i with
  | None => w
  | Some p => let '(p', m) := access p (w_loco w) in mkWorld (<[i:=p']> (w_threads w)) m
  end.

(** a thread that is ready reads a command for this locomotive *)
Definition receive_cmd (i : nat) (c : command) (w : world) : world :=
  match w_threads w !! i with
  | Some Ready => mkWorld (<[i:=Begin c]> (w_threads w)) (w_loco w)
  | _ => w
  end.

Inductive race (allowed : command -> Prop) : world -> world -> Prop :=
  | race_command i c w : allowed c -> race allowed w (receive_cmd i c w)
  | race_access i w : race allowed w (schedule i w).

(** accesses of one thread in a row *)
Fixpoint alone (n : nat) (p : pc) (m : loco) : pc * loco :=
  match n with O => (p, m) | S n' => let '(p', m') := access p m in alone n' p' m' end.

(** all threads are between two commands *)
Definition settled (w : world) : Prop := Forall (fun p => p = Ready \/ p = Ended) (w_threads w).

(** ** One thread *)

(** the speed, the direction and the end the whole command leads to *)
Definition whole (c : command) (m : loco) : pc * loco :=
  let drive speed dir := (Ready, mkLoco speed dir (l_driven m ++ [speed])) in
  match c with
  | ACC => drive (clamp_high (l_speed m + SPEED_STEP)) (l_dir m)
  | BREAK => drive (clamp_low 0 (l_speed m - SPEED_STEP)) (l_dir m)
  | STOP => drive 0 (l_dir m)
  | DIR d =>
      if negb (d =? 1) && negb (d =? -1) then (Ended, m)
      else if negb (l_speed m =? 0) then (Ended, m) else drive (l_speed m) d
  end.

Lemma alone_stuck n p m : p = Ready \/ p = Ended -> alone n p m = (p, m).
Proof. intros Hp. induction n as [|n IH]; [done|]. cbn. destruct Hp as [-> | ->]; exact IH. Qed.

Lemma alone_whole c m : alone 5 (Begin c) m = whole c m.
Proof.
  destruct m as [v d l], c as [| |e|]; cbn; unfold clamp_high, clamp_low; try done.
  - by destruct (255 <? v + SPEED_STEP).
  - by destruct (v - SPEED_STEP <? 0).
  - destruct (negb (e =? 1) && negb (e =? -1)); [done|]. by destruct (negb (v =? 0)).
Qed.

(** ** Any number of threads *)

(** nobody else can be where a thread of this kind is *)
Definition at_clamp (p : pc) : bool := match p with AccTest | AccClamp => true | _ => false end.
Definition at_floor (p : pc) : bool := match p with BreakTest | BreakClamp => true | _ => false end.

(** clients that do not brake: registers and speed are not negative, and a speed
    above 255 is on the list of somebody *)
Definition rising (p : pc) : Prop :=
  match p with AccStore v => 0 <= v | Begin BREAK | BreakStore _ | BreakTest | BreakClamp => False | _ => True end.
Definition above (w : world) : Prop :=
  Forall rising (w_threads w) /\ 0 <= l_speed (w_loco w) /\
  (255 < l_speed (w_loco w) -> exists i p, w_threads w !! i = Some p /\ at_clamp p = true).

(** clients that do not accelerate *)
Definition falling (p : pc) : Prop :=
  match p with BreakStore v => v <= 255 | Begin ACC | AccStore _ | AccTest | AccClamp => False | _ => True end.
Definition below (w : world) : Prop :=
  Forall falling (w_threads w) /\ l_speed (w_loco w) <= 255 /\
  (l_speed (w_loco w) < 0 -> exists i p, w_threads w !! i = Some p /\ at_floor p = true).

(** what a step of one thread has to show: its own place, and a witness that
    stays or is not needed any more *)
Lemma witness_kept (f : pc -> bool) (ts : list pc) i p p' (P P' : Prop) :
  ts !! i = Some p -> (P -> exists j q, ts !! j = Some q /\ f q = true) ->
  (P' -> P \/ f p' = true) -> (P' -> f p = true -> f p' = true) ->
  P' -> exists j q, <[i:=p']> ts !! j = Some q /\ f q = true.
Proof.
  intros Hi Hw H1 H2 HP'. destruct (f p') eqn:E.
  - exists i, p'. split; [|done]. apply list_lookup_insert_eq. by eapply lookup_lt_Some.
  - destruct (H1 HP') as [HP|]; [|done]. destruct (Hw HP) as (j & q & Hj & Hq). exists j, q. split; [|done].
    rewrite list_lookup_insert_ne; [done|]. intros ->. assert (p = q) as -> by congruence.
    by discriminate (H2 HP' Hq).
Qed.

Lemma above_access i p w : above w -> w_threads w !! i = Some p -> above (schedule i w).
Proof.
  intros (F & S0 & Hw) Hi. unfold schedule. rewrite Hi. destruct w as [ts [v d l]]. cbn in *.
  pose proof (Forall_lookup_1 _ _ _ _ F Hi) as Hp.
  destruct (access p (mkLoco v d l)) as [p' [v' d' l']] eqn:E.
  assert (rising p' /\ 0 <= v' /\ (255 < v' -> 255 < v \/ at_clamp p' = true) /\ (255 < v' -> at_clamp p = true -> at_clamp p' = true)) as (R & V & W1 & W2).
  { destruct p as [|[| |e|]| | | | | | | | |]; cbn in *; repeat case_match; simplify_eq; cbn; unfold SPEED_STEP; split_and!; try done; try lia; auto. }
  split; [|split; [exact V|]]; cbn.
  - apply Forall_insert; done.
  - exact (witness_kept at_clamp ts i p p' _ _ Hi Hw W1 W2).
Qed.

Lemma below_access i p w : below w -> w_threads w !! i = Some p -> below (schedule i w).
Proof.
  intros (F & S0 & Hw) Hi. unfold schedule. rewrite Hi. destruct w as [ts [v d l]]. cbn in *.
  pose proof (Forall_lookup_1 _ _ _ _ F Hi) as Hp.
  destruct (access p (mkLoco v d l)) as [p' [v' d' l']] eqn:E.
  assert (falling p' /\ v' <= 255 /\ (v' < 0 -> v < 0 \/ at_floor p' = true) /\ (v' < 0 -> at_floor p = true -> at_floor p' = true)) as (R & V & W1 & W2).
  { destruct p as [|[| |e|]| | | | | | | | |]; cbn in *; repeat case_match; simplify_eq; cbn; unfold SPEED_STEP; split_and!; try done; try lia; auto. }
  split; [|split; [exact V|]]; cbn.
  - apply Forall_insert; done.
  - exact (witness_kept at_floor ts i p p' _ _ Hi Hw W1 W2).
Qed.

Lemma race_above allowed w w' : (forall c, allowed c -> c <> BREAK) -> above w -> race allowed w w' -> above w'.
Proof.
  intros Hall Ha Hr. revert Ha. destruct Hr as [i c w0 Hc|i w0]; intros Ha; [apply Hall in Hc|destruct (w_threads w0 !! i) as [p|] eqn:Hi; [by eapply above_access|unfold schedule; by rewrite Hi]].
  unfold receive_cmd. destruct (w_threads w0 !! i) as [[]|] eqn:Hi; try done. destruct Ha as (F & S0 & Hw).
  split; [|split; [exact S0|]]; cbn; [apply Forall_insert; [done|by destruct c]|].
  by apply (witness_kept at_clamp _ i Ready _ _ _ Hi Hw); [left|].
Qed.

Lemma race_below allowed w w' : (forall c, allowed c -> c <> ACC) -> below w -> race allowed w w' -> below w'.
Proof.
  intros Hall Ha Hr. revert Ha. destruct Hr as [i c w0 Hc|i w0]; intros Ha; [apply Hall in Hc|destruct (w_threads w0 !! i) as [p|] eqn:Hi; [by eapply below_access|unfold schedule; by rewrite Hi]].
  unfold receive_cmd. destruct (w_threads w0 !! i) as [[]|] eqn:Hi; try done. destruct Ha as (F & S0 & Hw).
  split; [|split; [exact S0|]]; cbn; [apply Forall_insert; [done|by destruct c]|].
  by apply (witness_kept at_floor _ i Ready _ _ _ Hi Hw); [left|].
Qed.

Lemma settled_nobody (f : pc -> bool) w : settled w -> f Ready = false -> f Ended = false ->
  ~ exists i p, w_threads w !! i = Some p /\ f p = true.
Proof. intros Hs H1 H2 (i & p & Hi & Hp). destruct (Forall_lookup_1 _ _ _ _ Hs Hi) as [-> | ->]; congruence. Qed.

(** the runs of two clients, as a list of whose turn it is *)
Inductive turn_of : Type := Cmd (i : nat) (c : command) | Acc (i : nat).
Definition play (w : world) (t : turn_of) : world :=
  match t with Cmd i c => receive_cmd i c w | Acc i => schedule i w end.

Lemma play_race (allowed : command -> Prop) w l : (forall c, allowed c) -> rtc (race allowed) w (foldl play w l).
Proof.
  intros Ha. revert w. induction l as [|[i c|i] l IH]; intros w; [constructor| |]; (eapply rtc_l; [|apply IH]).
  - by apply race_command.
  - apply race_access.
Qed.

(** One client has stored a speed above 255 and not tested it yet; the other
    reads it, the first clamps and finishes, and the second stores 5 more. *)
Definition overtake (i j : nat) : list turn_of := [Cmd j ACC; Acc j; Acc i; Acc i; Acc i; Acc j].

Lemma overtake_run v d l : 255 < v -> exists l',
  foldl play (mkWorld [AccTest; Ready] (mkLoco v d l)) (overtake 0 1 ++ overtake 1 0) =
    mkWorld [AccTest; Ready] (mkLoco (v + 10) d l').
Proof.
  intros Hv. eexists. cbn. rewrite (proj2 (Z.ltb_lt 255 v) Hv). cbn. unfold SPEED_STEP.
  rewrite (proj2 (Z.ltb_lt 255 (v + 5))) by lia. cbn. unfold SPEED_STEP. replace (v + 5 + 5) with (v + 10) by lia. reflexivity.
Qed.

Lemma overtakes v d l k : 255 < v -> exists l' turns,
  foldl play (mkWorld [AccTest; Ready] (mkLoco v d l)) turns = mkWorld [AccTest; Ready] (mkLoco (v + 10 * Z.of_nat k) d l').
Proof.
  intros Hv. revert v l Hv. induction k as [|k IH]; intros v l Hv.
  { exists l, []. cbn. by rewrite Z.add_0_r. }
  destruct (overtake_run v d l Hv) as (l1 & E1). destruct (IH (v + 10) l1 ltac:(lia)) as (l2 & ts & E2).
  exists l2, ((overtake 0 1 ++ overtake 1 0) ++ ts). rewrite foldl_app, E1, E2. do 2 f_equal. lia.
Qed.

(** ** Properties *)

(** A client thread that is not disturbed does, access by access, what the
    command does as a whole: five accesses at most, the clamped speed, the
    direction only at speed 0, and the resulting speed for the driver. *)
Theorem undisturbed_command c m n : alone (5 + n) (Begin c) m = whole c m.
Proof.
  assert (forall k p m0, alone (k + n) p m0 = let '(p', m') := alone k p m0 in alone n p' m') as Hsplit.
  { induction k as [|k IH]; intros p m0; [done|]. cbn. destruct (access p m0). apply IH. }
  rewrite Hsplit, alone_whole. destruct (whole c m) as [p' m'] eqn:E. apply alone_stuck.
  unfold whole in E. destruct c; repeat case_match; simplify_eq; auto.
Qed.

(** C33: One locomotive and any number of clients that send it ACC, BREAK, DIR
    and STOP (no MULTI command), their accesses interleaved in any order without
    a lock: if none of them brakes, or none of them accelerates, the speed is in
    0..255 again whenever all of them are between two commands. *)
Theorem settled_in_range (allowed : command -> Prop) (n : nat) speed dir driven w :
  (forall c, allowed c -> c <> BREAK) \/ (forall c, allowed c -> c <> ACC) -> 0 <= speed <= 255 ->
  rtc (race allowed) (mkWorld (replicate n Ready) (mkLoco speed dir driven)) w -> settled w ->
  0 <= l_speed (w_loco w) <= 255.
Proof.
  intros Hall Hs Hr Hset. set (w0 := mkWorld _ _) in Hr.
  destruct Hall as [Hall|Hall].
  - assert (above w) as (_ & H0 & Hw).
    { revert Hr. apply (rtc_ind_r above w0); [|intros; by eapply race_above].
      split; [by apply Forall_replicate|]. cbn. lia. }
    split; [done|]. destruct (Z.le_gt_cases (l_speed (w_loco w)) 255) as [|Hgt]; [done|].
    by destruct (settled_nobody at_clamp w Hset eq_refl eq_refl (Hw Hgt)).
  - assert (below w) as (_ & H0 & Hw).
    { revert Hr. apply (rtc_ind_r below w0); [|intros; by eapply race_below].
      split; [by apply Forall_replicate|]. cbn. lia. }
    split; [|done]. destruct (Z.le_gt_cases 0 (l_speed (w_loco w))) as [|Hgt]; [done|].
    by destruct (settled_nobody at_floor w Hset eq_refl eq_refl (Hw Hgt)).
Qed.

Definition sample_race : list turn_of :=
  [Cmd 0 ACC; Cmd 1 ACC; Acc 0; Acc 1; Acc 0; Acc 1; Acc 1; Acc 1; Acc 0; Acc 1; Acc 0; Acc 0].

Lemma settled_in_range_witness :
  let w := foldl play (mkWorld (replicate 2 Ready) (mkLoco 253 1 [])) sample_race in
  settled w /\ l_speed (w_loco w) = 255 /\ 0 <= l_speed (w_loco w) <= 255.
Proof.
  intros w. assert (settled w) as Hs by (vm_compute; repeat constructor).
  split; [exact Hs|]. split; [vm_compute; reflexivity|].
  apply (settled_in_range (fun c => c = ACC) 2 253 1 []); [left; by intros c ->|lia| |exact Hs].
  unfold w. assert (forall l w0, Forall (fun t => match t with Cmd _ c => c = ACC | Acc _ => True end) l -> rtc (race (fun c => c = ACC)) w0 (foldl play w0 l)) as Hp.
  { intros l. induction l as [|[i c|i] l IH]; intros w0 Hl; [constructor| |]; apply Forall_cons_1 in Hl as [Hc Hl];
      (eapply rtc_l; [|by apply IH]); [by apply race_command|apply race_access]. }
  apply Hp. by repeat constructor.
Defined.

(** Two clients are enough to lose every bound when one accelerates and one
    brakes: for every [k] there is an order of their accesses after which both
    are done and the speed is 255 + 10 k. *)
Theorem speed_runs_away (k : nat) dir driven : exists driven',
  rtc (race (fun _ => True)) (mkWorld [Ready; Ready] (mkLoco 255 dir driven))
    (mkWorld [Ready; Ready] (mkLoco (255 + 10 * Z.of_nat k) dir driven')).
Proof.
  destruct (overtakes 260 dir driven k eq_refl) as (l' & ts & E).
  set (v := 260 + 10 * Z.of_nat k) in E.
  eexists. replace (mkWorld [Ready; Ready] (mkLoco (255 + 10 * Z.of_nat k) dir _)) with
    (foldl play (mkWorld [Ready; Ready] (mkLoco 255 dir driven))
       ([Cmd 0 ACC; Acc 0; Acc 0] ++ ts ++ [Cmd 1 BREAK; Acc 1; Acc 0; Acc 0; Acc 0; Acc 1; Acc 1; Acc 1])).
  { by apply play_race. }
  rewrite !foldl_app. change (foldl play _ [Cmd 0 ACC; Acc 0; Acc 0]) with (mkWorld [AccTest; Ready] (mkLoco 260 dir driven)).
  rewrite E. cbn. rewrite (proj2 (Z.ltb_lt 255 v)) by (unfold v; lia). cbn. unfold SPEED_STEP.
  rewrite (proj2 (Z.ltb_ge (v - 5) 0)) by (unfold v; lia). cbn. do 2 f_equal. unfold v. lia.
Qed.

(** where a single thread is, what the speed is *)
Definition tracks (p : pc) (v : Z) : Prop :=
  match p with
  | AccStore x => x = v /\ 0 <= v <= 255
  | AccTest => 0 <= v <= 255 + SPEED_STEP
  | AccClamp => True
  | BreakStore x => x = v /\ 0 <= v <= 255
  | BreakTest => - SPEED_STEP <= v <= 255
  | BreakClamp => True
  | _ => 0 <= v <= 255
  end.
Definition single_ok (w : world) : Prop := exists p,
  w_threads w = [p] /\ tracks p (l_speed (w_loco w)) /\ Forall (fun v => 0 <= v <= 255) (l_driven (w_loco w)).

Lemma single_race w w' : single_ok w -> race (fun _ => True) w w' -> single_ok w'.
Proof.
  intros Hs Hr. revert Hs. destruct Hr as [i c w _|i w]; intros (p & Hp & Ht & Hd); destruct w as [ts [v d l]]; cbn in *; subst ts.
  - destruct i as [|i]; [|by exists p]. unfold receive_cmd. cbn. destruct p; by eexists.
  - destruct i as [|i]; [|by exists p]. unfold schedule. cbn. destruct (access p (mkLoco v d l)) as [p' m'] eqn:E.
    exists p'. split; [done|].
    destruct p as [|[| |e|]| | | | | | | | |]; cbn in *; repeat case_match; simplify_eq; cbn; unfold SPEED_STEP in *;
      (split; [first [done|lia|split; [done|lia]]|]); try done.
    all: apply Forall_app; split; [done|]; constructor; done || lia.
Qed.

(** As long as one client alone commands a locomotive, the driver is given
    speeds in 0..255 only, whatever the client sends. *)
Theorem single_client_in_range speed dir w :
  0 <= speed <= 255 -> rtc (race (fun _ => True)) (mkWorld [Ready] (mkLoco speed dir [])) w ->
  Forall (fun v => 0 <= v <= 255) (l_driven (w_loco w)).
Proof.
  intros Hs Hr. enough (single_ok w) as (p & _ & _ & H) by exact H. revert Hr.
  apply (rtc_ind_r single_ok); [by exists Ready|]. intros; by eapply single_race.
Qed.

Lemma single_client_in_range_witness :
  let w := foldl play (mkWorld [Ready] (mkLoco 253 1 [])) [Cmd 0 ACC; Acc 0; Acc 0; Acc 0; Acc 0; Acc 0] in
  l_driven (w_loco w) = [255] /\ Forall (fun v => 0 <= v <= 255) (l_driven (w_loco w)).
Proof.
  intros w. split; [vm_compute; reflexivity|].
  apply (single_client_in_range 253 1); [lia|]. by apply play_race.
Defined.

(** Two clients that accelerate: one reads the speed for the driver between the
    store and the test of the other.  The ESP32 driver asserts that the speed step
    is at most 5 and stops the controller. *)
Definition race_to_driver : list turn_of :=
  [Cmd 0 ACC; Acc 0; Acc 0; Acc 0; Cmd 1 ACC; Acc 1; Acc 1; Acc 0].
Example racing_speed_aborts :
  l_driven (w_loco (foldl play (mkWorld [Ready; Ready] (mkLoco 250 1 [])) race_to_driver)) = [260] /\
  (esp_setPWM 260 ([], sample_esp)).1 = Err (Abort "fahrstufe >= -1 && fahrstufe <= 5").
Proof. vm_compute. done. Qed.

(** One of two accelerations is lost. *)
Example lost_update :
  w_loco (foldl play (mkWorld [Ready; Ready] (mkLoco 100 1 []))
    [Cmd 0 ACC; Cmd 1 ACC; Acc 0; Acc 1; Acc 0; Acc 1; Acc 0; Acc 1; Acc 0; Acc 1]) = mkLoco 105 1 [105; 105].
Proof. vm_compute. reflexivity. Qed.

(** DIR tests that the locomotive stands; another client accelerates it before
    the direction is stored: a moving locomotive is reversed. *)
Example reversed_while_moving :
  w_loco (foldl play (mkWorld [Ready; Ready] (mkLoco 0 1 []))
    [Cmd 0 (DIR (-1)); Acc 0; Cmd 1 ACC; Acc 1; Acc 1; Acc 1; Acc 1; Acc 0; Acc 0]) = mkLoco 5 (-1) [5; 5].
Proof. vm_compute. reflexivity. Qed.

(** ** ACC_MULTI for two locomotives *)

(** behind the test, [speed=lokdef[addr_index].currspeed] is read again and
    stored for the second locomotive without a test *)
Inductive multi_pc : Type :=
  | MBegin | MStore (v : Z) | MTest | MClamp | MCopy | MPut (v : Z) | MDone.
Definition access_multi (p : multi_pc) (speed1 speed2 : Z) : multi_pc * Z * Z :=
  match p with
  | MBegin => (MStore speed1, speed1, speed2)
  | MStore v => (MTest, v + SPEED_STEP, speed2)
  | MTest => (if 255 <? speed1 then MClamp else MCopy, speed1, speed2)
  | MClamp => (MCopy, 255, speed2)
  | MCopy => (MPut speed1, speed1, speed2)
  | MPut v => (MDone, speed1, v)
  | MDone => (MDone, speed1, speed2)
  end.

(** one client sends ACC for the first locomotive, another one ACC_MULTI for
    both; [true] is an access of the first client *)
Definition play_multi (w : pc * multi_pc * loco * Z) (first : bool) : pc * multi_pc * loco * Z :=
  let '(p, q, m, speed2) := w in
  if first then let '(p', m') := access p m in (p', q, m', speed2)
  else let '(q', s1, s2) := access_multi q (l_speed m) speed2 in (p, q', mkLoco s1 (l_dir m) (l_driven m), s2).

(** Undisturbed, ACC_MULTI gives both the clamped speed of the first. *)
Lemma multi_undisturbed p m speed2 : l_speed m <= 255 ->
  exists q, foldl play_multi (p, MBegin, m, speed2) (repeat false 6) =
    (p, q, mkLoco (clamp_high (l_speed m + SPEED_STEP)) (l_dir m) (l_driven m), clamp_high (l_speed m + SPEED_STEP)) /\ q = MDone.
Proof.
  intros Hv. exists MDone. split; [|done]. cbn. unfold clamp_high.
  destruct (Z.ltb_spec 255 (l_speed m + SPEED_STEP)); cbn; done.
Qed.

(** Nobody brakes and both commands are done, but the second locomotive has
    speed 260: the first client stores 260 between the test and the copy. *)
Example multi_copies_unclamped :
  foldl play_multi (Begin ACC, MBegin, mkLoco 255 1 [], 0)
    [true; false; false; false; false; true; false; true; true; true; false] =
  (Ready, MDone, mkLoco 255 1 [255], 260).
Proof. vm_compute. reflexivity. Qed.
