(* ===== verification/ClientX11.v ===== *)
(** * bluetoothserver/clientthread_X11.cpp: the thread that presses keys

    With -x the server has no driver: a thread keeps the table and answers as
    [ClientThread] does, and sends a key to the program with the focus when the
    speed is changed.  The commands whose text is the same in both files share
    their definitions; the commands that differ are written out. *)

From Stdlib Require Import Ascii.
From S2P Require Import Prelude StdMap CString Utils MessageLayout Message Stream Lokdef Hardware ClientThread ClientSafety ClientProps.

Inductive keysym : Type := XK_Right | XK_Left | XK_Home.
Inductive key_event : Type := KeyEvent (k : keysym) (is_press : bool).

Section X11.
Context {H S : Type} `{Hardware H} `{ClientStream S}.
(** [display]: [XOpenDisplay(NULL)] succeeds *)
Context (ml : MessageLayouts) (timeout : Z) (readFile : string -> outcome string) (display : bool).

Record X11 : Type := mkX11 { x_ct : CT H S; x_keys : list key_event }.
Definition on_ct {A} (c : M (CT H S) A) : M X11 A := zoom x_ct (fun s x => mkX11 s (x_keys x)) c.

(** the call of the X library is recorded; without a display it gets NULL *)
Definition XTestFakeKeyEvent (k : keysym) (is_press : bool) : M X11 unit :=
  if display then modify (fun x => mkX11 (x_ct x) (x_keys x ++ [KeyEvent k is_press])) else fail (UB "XKeysymToKeycode of NULL").
Definition press_key (k : keysym) : M X11 unit := XTestFakeKeyEvent k true;; XTestFakeKeyEvent k false.

Definition x11_POWER (cmd : FBTCtlMessage) : M (CT H S) unit :=
  value ← lift (arg cmd "value");
  reply ← lift (new_reply ml "POWER_REPLY");
  let '(r, reply) := put_value value reply in
  lift r;; send ml reply.
Definition x11_POM : M (CT H S) unit := reply ← lift (new_reply ml "POM_REPLY"); send ml reply.

Definition x11_if_type (cmd : FBTCtlMessage) (name : string) (c d : M X11 unit) : M X11 unit :=
  b ← lift (isType ml name cmd); if (b : bool) then c else d.
(** a command of [ClientThread]; there is no [emergencyStop] *)
Definition same (c : M (CT H S) bool) : M X11 unit := on_ct c;; mret tt.

Definition x11_execute (cmd : FBTCtlMessage) : M X11 unit :=
  x11_if_type cmd "PING" (on_ct (sendStatusReply ml)) (
  x11_if_type cmd "ACC" (same (cmd_ACC ml cmd);; press_key XK_Right) (
  x11_if_type cmd "BREAK" (same (cmd_BREAK ml cmd);; press_key XK_Left) (
  x11_if_type cmd "DIR" (same (cmd_DIR ml cmd)) (
  x11_if_type cmd "STOP" (same (cmd_STOP ml cmd);; press_key XK_Home) (
  x11_if_type cmd "ACC_MULTI" (same (cmd_ACC_MULTI ml cmd)) (
  x11_if_type cmd "BREAK_MULTI" (same (cmd_BREAK_MULTI ml cmd)) (
  x11_if_type cmd "DIR_MULTI" (same (cmd_DIR_MULTI ml cmd)) (
  x11_if_type cmd "STOP_MULTI" (same (cmd_STOP_MULTI ml cmd)) (
  x11_if_type cmd "SETFUNC" (same (cmd_SETFUNC ml cmd)) (
  x11_if_type cmd "GETLOCOS" (same (cmd_GETLOCOS ml cmd)) (
  x11_if_type cmd "GETFUNCTIONS" (same (cmd_GETFUNCTIONS ml cmd)) (
  x11_if_type cmd "POWER" (on_ct (x11_POWER cmd)) (
  x11_if_type cmd "POM" (on_ct x11_POM) (
  x11_if_type cmd "GETIMAGE" (same (cmd_GETIMAGE ml readFile cmd)) (
  x11_if_type cmd "HELO_ERR" (same (cmd_HELO_ERR cmd)) (
  lift (messageTypeName ml (m_type cmd));; mret tt)))))))))))))))).

(** one turn of [while(1)] *)
Definition x11_turn : M X11 unit :=
  cmd ← on_ct (on_comm (comm_readMessage ml timeout));
  lift (messageTypeName ml (m_type cmd));;
  x11_execute cmd.

Definition x11_greet : M X11 unit :=
  helo ← lift (new_reply ml "HELO");
  let '(r, helo) := (at_field "name" (put (FBTCtlMessage_cstr "my bt server"));;
                     at_field "version" (put (FBTCtlMessage_cstr "0.9"));;
                     at_field "protohash" (put (FBTCtlMessage_int (protocolHash ml)))) helo in
  lift r;;
  on_ct (send ml helo);;
  on_ct (t ← gets ct_lokdef;
         modify (fun s => set_changed (repeat false (Datatypes.S (length (locos t))))
                            (set_lastStatus (repeat (mkLast 0 (-1) 0) (Datatypes.S (length (locos t)))) s))).

Definition x11_run (turns : nat) : M X11 unit := x11_greet;; iterM (fun _ => x11_turn) (seq 0 turns).

(** ** The same table, the same answers *)

(** the keys of a command *)
Definition keys_of (cmd : FBTCtlMessage) : list key_event :=
  let ty n := bool_decide (isType ml n cmd = Ok true) in
  let press k := [KeyEvent k true; KeyEvent k false] in
  if ty "PING" then [] else if ty "ACC" then press XK_Right else if ty "BREAK" then press XK_Left
  else if ty "DIR" then [] else if ty "STOP" then press XK_Home else [].

(** [c] on the part of [ClientThread], and these keys *)
Definition mirrors (keys : list key_event) (c : M X11 unit) (k : M (CT H S) bool) : Prop := forall x,
  c x = match k (x_ct x) with (Ok _, s) => (Ok tt, mkX11 s (x_keys x ++ keys)) | (Err e, s) => (Err e, mkX11 s (x_keys x)) end.

Lemma mirrors_same k : mirrors [] (same k) k.
Proof. intros x. unfold same, on_ct, zoom, mbind, M_bind. destruct (k (x_ct x)) as [[?|?] s]; [|done]. by rewrite app_nil_r. Qed.
Lemma mirrors_key k key : display = true -> mirrors [KeyEvent key true; KeyEvent key false] (same k;; press_key key) k.
Proof.
  intros D x. unfold same, on_ct, zoom, press_key, XTestFakeKeyEvent, mbind, M_bind. rewrite D. destruct (k (x_ct x)) as [[?|?] s]; [|done].
  unfold modify. cbn. by rewrite <- app_assoc.
Qed.
Lemma mirrors_if_type cmd n keys c d k k' :
  (isType ml n cmd = Ok true -> mirrors keys c k) -> (isType ml n cmd = Ok false -> mirrors keys d k') ->
  mirrors keys (x11_if_type cmd n c d) (if_type ml cmd n k k').
Proof.
  intros Hc Hd x. unfold x11_if_type, if_type, lift, mbind, M_bind. destruct (isType ml n cmd) as [[]|e]; [by apply Hc|by apply Hd|by destruct x].
Qed.
(** a test the X11 thread does not make *)
Lemma mirrors_skip cmd n keys c k k' : isType ml n cmd = Ok false -> mirrors keys c k' -> mirrors keys c (if_type ml cmd n k k').
Proof. intros Hn Hc x. rewrite Hc. unfold if_type, lift, mbind, M_bind. by rewrite Hn. Qed.
Lemma mirrors_absurd cmd n keys c d k k' : isType ml n cmd = Ok false -> mirrors keys d k' -> mirrors keys (x11_if_type cmd n c d) (if_type ml cmd n k k').
Proof. intros Hn Hd. apply mirrors_if_type; [rewrite Hn; discriminate|done]. Qed.

Lemma keys_of_late cmd : isType ml "PING" cmd = Ok false -> isType ml "ACC" cmd = Ok false -> isType ml "BREAK" cmd = Ok false ->
  isType ml "DIR" cmd = Ok false -> isType ml "STOP" cmd = Ok false -> keys_of cmd = [].
Proof. intros E1 E2 E3 E4 E5. unfold keys_of. by rewrite E1, E2, E3, E4, E5. Qed.

Lemma execute_mirrored cmd : display = true ->
  isType ml "POWER" cmd = Ok false -> isType ml "POM" cmd = Ok false -> isType ml "POMBIT" cmd = Ok false ->
  mirrors (keys_of cmd) (x11_execute cmd) (execute ml readFile cmd).
Proof.
  intros D NP NQ NB. unfold x11_execute, execute.
  apply mirrors_if_type; intros T1.
  { unfold keys_of. rewrite T1, bool_decide_true by done. intros x. unfold on_ct, zoom, mbind, M_bind. destruct (sendStatusReply ml (x_ct x)) as [[[]|?] s]; [|done]. unfold mret, M_ret.
    by rewrite app_nil_r. }
  apply mirrors_if_type; intros T2.
  { unfold keys_of. rewrite T1, T2, bool_decide_false, bool_decide_true by done. by apply mirrors_key. }
  apply mirrors_if_type; intros T3.
  { unfold keys_of. rewrite T1, T2, T3, !bool_decide_false, bool_decide_true by done. by apply mirrors_key. }
  apply mirrors_if_type; intros T4.
  { unfold keys_of. rewrite T1, T2, T3, T4, !bool_decide_false, bool_decide_true by done. by apply mirrors_same. }
  apply mirrors_if_type; intros T5.
  { unfold keys_of. rewrite T1, T2, T3, T4, T5, !bool_decide_false, bool_decide_true by done. by apply mirrors_key. }
  rewrite keys_of_late by done.
  do 7 (apply mirrors_if_type; intros; [apply mirrors_same|]).
  apply mirrors_absurd; [done|]. apply mirrors_absurd; [done|]. apply mirrors_skip; [done|].
  do 2 (apply mirrors_if_type; intros; [apply mirrors_same|]).
  intros x. unfold lift, mbind, M_bind. destruct (messageTypeName ml (m_type cmd)); [|by destruct x]. cbn. rewrite app_nil_r. by destruct x.
Qed.
End X11.
Arguments X11 : clear implicits.

(** The X11 thread behaves like the thread of a railway: when the display is
    open, on every command other than POWER, POM and POMBIT (which it does not
    have) it leaves the table, the bookkeeping and the
    connection exactly as [ClientThread] does, with the same result, and it presses
    and releases one key (right for ACC, left for BREAK, home for STOP) if and only if
    the command was carried out. *)
Theorem x11_like_thread {H S} `{Hardware H} `{ClientStream S} ml readFile cmd (x : X11 H S) :
  isType ml "POWER" cmd = Ok false -> isType ml "POM" cmd = Ok false -> isType ml "POMBIT" cmd = Ok false ->
  x11_execute ml readFile true cmd x =
    match execute ml readFile cmd (x_ct x) with
    | (Ok _, s) => (Ok tt, mkX11 s (x_keys x ++ keys_of ml cmd))
    | (Err e, s) => (Err e, mkX11 s (x_keys x))
    end.
Proof. intros NP NQ NB. by apply execute_mirrored. Qed.

Definition sample_x11 : X11 Recorder TCPClient := mkX11 (sample_thread sample_table) [].
Definition of_type (name : string) (more : smap FBTCtlMessage) : FBTCtlMessage :=
  match (messageTypeID name protocol).1 with Ok t => one_addr t 3 more | Err _ => FBTCtlMessage0 end.
Definition protocol_ACC : FBTCtlMessage := of_type "ACC" [].
Definition protocol_POM : FBTCtlMessage := of_type "POM" [("cv", FBTCtlMessage_int 29); ("value", FBTCtlMessage_int 6)].
Definition no_file : string -> outcome string := fun _ => Err (Throw "no file").
Lemma x11_like_thread_witness :
  x11_execute protocol no_file true protocol_ACC sample_x11 =
    match execute protocol no_file protocol_ACC (x_ct sample_x11) with
    | (Ok _, s) => (Ok tt, mkX11 s (x_keys sample_x11 ++ keys_of protocol protocol_ACC))
    | (Err e, s) => (Err e, mkX11 s (x_keys sample_x11))
    end.
Proof. apply (x11_like_thread protocol no_file protocol_ACC sample_x11); vm_compute; reflexivity. Defined.
Example x11_acc_presses_right : x_keys (x11_execute protocol no_file true protocol_ACC sample_x11).2 = [KeyEvent XK_Right true; KeyEvent XK_Right false].
Proof. vm_compute. reflexivity. Qed.

(** ** What goes wrong *)

(** the reply to POM has no value: it cannot be encoded and the client is lost *)
Example x11_pom_unanswered :
  match x11_execute protocol no_file true protocol_POM sample_x11 with (Err (Throw _), _) => true | _ => false end = true.
Proof. vm_compute. reflexivity. Qed.
