(* ===== verification/Server.v ===== *)
(** * bluetoothserver/server.cpp: the clients of a server

    [Server::run] accepts connections and gives each its own thread
    ([phoneClient]); a thread lives until its [run()] throws, then
    [~ClientThread] stops locomotives.  The threads share the locomotive
    table, the driver and [numClients] and use no locks; a step of the model
    is one accepted connection or one message of one client, so what is shown
    holds for every order of messages, not for races inside one. *)

From stdpp Require Import gmap.
From S2P Require Import Prelude StdMap CString Utils MessageLayout Message Stream Lokdef Hardware ClientThread ClientSafety ClientProps.

(** what a thread keeps for itself *)
Record Thread (S : Type) : Type := mkThread {
  th_client : option S;
  th_lastStatus : list lastStatus_t;
  th_changed : list bool;
  th_msgNum : Z;
  th_nLokdef : nat;
}.
Arguments mkThread {S}.
Arguments th_client {S}.
Arguments th_lastStatus {S}.
Arguments th_changed {S}.
Arguments th_msgNum {S}.
Arguments th_nLokdef {S}.

Record Server (H S : Type) : Type := mkServer {
  sv_lokdef : list lokdef_t;
  sv_hw : H;
  (** [Server::clients], with the objects of the threads *)
  sv_clients : gmap Z (Thread S);
  (** [CommThread::numClients] *)
  sv_numClients : Z;
  sv_clientID_counter : Z;
}.
Arguments mkServer {H S}.
Arguments sv_lokdef {H S}.
Arguments sv_hw {H S}.
Arguments sv_clients {H S}.
Arguments sv_numClients {H S}.
Arguments sv_clientID_counter {H S}.

Section Server.
Context {H S : Type} `{Hardware H} `{ClientStream S}.
Context (ml : MessageLayouts) (cfg_tcpTimeout : Z) (readFile : string -> outcome string).
Implicit Types (sv : Server H S).

(** the objects a thread works on *)
Definition thread_view sv (th : Thread S) : CT H S :=
  mkCT (sv_lokdef sv) (sv_hw sv) (th_client th) (th_lastStatus th) (th_changed th) (th_msgNum th).
Definition thread_of (s : CT H S) (n : nat) : Thread S :=
  mkThread (ct_client s) (ct_lastStatus s) (ct_changed s) (ct_msgNum s) n.

(** the thread goes on *)
Definition keep_client (id : Z) (n : nat) (s : CT H S) sv : Server H S :=
  mkServer (ct_lokdef s) (ct_hw s) (<[id:=thread_of s n]> (sv_clients sv)) (sv_numClients sv) (sv_clientID_counter sv).

(** the exception is caught in [phoneClient]: the [ClientThread] object is
    destroyed and [unregisterPhoneClient] forgets the client *)
Definition drop_client (id : Z) (s : CT H S) sv : Server H S :=
  let '(r, s') := destruct_thread id (sv_numClients sv) s in
  mkServer (ct_lokdef s') (ct_hw s') (delete id (sv_clients sv)) (sv_numClients sv - 1) (sv_clientID_counter sv).

(** [Server::run] after [accept]: the thread is created (which counts the
    client) and greets *)
Definition accept_client (client : S) sv : outcome unit * Server H S :=
  let id := sv_clientID_counter sv in
  let sv1 := mkServer (sv_lokdef sv) (sv_hw sv) (sv_clients sv) (sv_numClients sv + 1) (id + 1) in
  match greet ml (mkCT (sv_lokdef sv) (sv_hw sv) (Some client) [] [] 0) with
  | (Ok n, s) => (Ok tt, keep_client id n s sv1)
  | (Err (Throw w), s) => (Ok tt, drop_client id s sv1)
  | (Err e, s) => (Err e, sv1)
  end.

(** one turn of the thread of client [id] *)
Definition client_turn (id : Z) (th : Thread S) sv : outcome unit * Server H S :=
  match turn ml cfg_tcpTimeout id readFile (th_nLokdef th) (thread_view sv th) with
  | (Ok _, s) => (Ok tt, keep_client id (th_nLokdef th) s sv)
  | (Err (Throw w), s) => (Ok tt, drop_client id s sv)
  | (Err e, s) => (Err e, sv)
  end.

(** the steps after which the process is still alive *)
Inductive step : Server H S -> Server H S -> Prop :=
  | step_accept client sv sv' : accept_client client sv = (Ok tt, sv') -> step sv sv'
  | step_turn id th sv sv' :
      sv_clients sv !! id = Some th -> client_turn id th sv = (Ok tt, sv') -> step sv sv'.

Definition server_start (t : list lokdef_t) (h : H) : Server H S := mkServer t h ∅ 0 1.

Inductive reachable (t : list lokdef_t) (h : H) : Server H S -> Prop :=
  | reach_start : reachable t h (server_start t h)
  | reach_step sv sv' : reachable t h sv -> step sv sv' -> reachable t h sv'.

(** ** The invariant *)

Record server_inv (addrs : list Z) sv : Prop := mkServerInv {
  inv_table : table_ok addrs (sv_lokdef sv);
  inv_threads id th : sv_clients sv !! id = Some th ->
    th_nLokdef th = length addrs /\ thread_ok addrs (thread_view sv th);
  inv_count : sv_numClients sv = Z.of_nat (size (sv_clients sv));
  inv_ids id th : sv_clients sv !! id = Some th -> id < sv_clientID_counter sv;
}.

Context `{!HardwareLaws H} `{!StreamSafe S}.
Context (readFile_safe : forall f, safe_result (readFile f)).

Lemma thread_ok_table addrs (s s' : CT H S) :
  thread_ok addrs s -> table_ok addrs (ct_lokdef s') ->
  ct_lastStatus s' = ct_lastStatus s -> ct_changed s' = ct_changed s -> thread_ok addrs s'.
Proof. intros [T L C N] T' E1 E2. split; congruence || by rewrite ?E1, ?E2. Qed.

(** another thread's arrays do not depend on what this thread did *)
Lemma inv_other addrs sv t h th :
  thread_ok addrs (thread_view sv th) -> table_ok addrs t ->
  forall cs n k, thread_ok addrs (thread_view (mkServer t h cs n k) th).
Proof. intros Ht T cs n k. by eapply thread_ok_table. Qed.

Lemma keep_client_inv addrs id s sv :
  server_inv addrs sv -> thread_ok addrs s -> is_Some (sv_clients sv !! id) ->
  server_inv addrs (keep_client id (length addrs) s sv).
Proof.
  intros [T Th Cn Ids] Hs [th0 Hid]. split; cbn.
  - apply Hs.
  - intros id' th. destruct (decide (id = id')) as [<-|Hne].
    + rewrite lookup_insert_eq. intros [= <-]. split; [done|]. by destruct s.
    + rewrite lookup_insert_ne by done. intros Hl. destruct (Th _ _ Hl) as [-> Ht]. split; [done|].
      eapply inv_other; [exact Ht|apply Hs].
  - rewrite map_size_insert_Some by eauto. done.
  - intros id' th. destruct (decide (id = id')) as [<-|Hne]; [intros _; eauto|].
    rewrite lookup_insert_ne by done. eauto.
Qed.

Lemma keep_new_inv addrs s sv :
  server_inv addrs sv -> thread_ok addrs s ->
  server_inv addrs (keep_client (sv_clientID_counter sv) (length addrs) s
    (mkServer (sv_lokdef sv) (sv_hw sv) (sv_clients sv) (sv_numClients sv + 1) (sv_clientID_counter sv + 1))).
Proof.
  intros [T Th Cn Ids] Hs.
  assert (sv_clients sv !! sv_clientID_counter sv = None) as Hfresh.
  { destruct (sv_clients sv !! sv_clientID_counter sv) eqn:E; [|done]. apply Ids in E. lia. }
  split; cbn.
  - apply Hs.
  - intros id' th. destruct (decide (sv_clientID_counter sv = id')) as [<-|Hne].
    + rewrite lookup_insert_eq. intros [= <-]. split; [done|]. by destruct s.
    + rewrite lookup_insert_ne by done. intros Hl. destruct (Th _ _ Hl) as [-> Ht]. split; [done|].
      eapply inv_other; [exact Ht|apply Hs].
  - rewrite map_size_insert_None by done. lia.
  - intros id' th. destruct (decide (sv_clientID_counter sv = id')) as [<-|Hne]; [intros _; lia|].
    rewrite lookup_insert_ne by done. intros Hl. apply Ids in Hl. lia.
Qed.

(** destroying a thread keeps the table for the others *)
Lemma destruct_table addrs id n (s : CT H S) :
  table_ok addrs (ct_lokdef s) -> table_ok addrs (ct_lokdef (destruct_thread id n s).2).
Proof.
  intros T. pose (s0 := mkCT (ct_lokdef s) (ct_hw s) (ct_client s)
    (repeat (mkLast 0 0 0) (Datatypes.S (length addrs))) (repeat false (Datatypes.S (length addrs))) 0 : CT H S).
  assert (ct_lokdef (destruct_thread id n s).2 = ct_lokdef (destruct_thread id n s0).2) as ->.
  { unfold destruct_thread, mbind, M_bind, on_hw, zoom. cbn.
    destruct (n - 1 =? 0); destruct (fullstop _ _ _ _) as [[] []]; cbn; try done;
      by destruct (clientDisconnected _ _) as [[] []]. }
  assert (thread_ok addrs s0) as Hs0.
  { split; [exact T|by cbn; rewrite repeat_length|by cbn; rewrite repeat_length|].
    cbn. clear. induction (length addrs) as [|k IH]; [done|exact IH]. }
  exact (tk_table _ _ (keeps_invariant _ _ _ _ _ (stays_destruct id addrs n) Hs0)).
Qed.

Lemma drop_client_inv addrs id s sv k :
  server_inv addrs sv -> table_ok addrs (ct_lokdef s) ->
  k = Z.of_nat (size (delete id (sv_clients sv))) ->
  forall c, (forall id' th, sv_clients sv !! id' = Some th -> id' < c) ->
  server_inv addrs (drop_client id s (mkServer (sv_lokdef sv) (sv_hw sv) (sv_clients sv) (k + 1) c)).
Proof.
  intros [T Th Cn Ids] Ts Hk c Hc. unfold drop_client. cbn.
  pose proof (destruct_table addrs id (k + 1) s Ts) as T'. destruct (destruct_thread id (k + 1) s) as [r s']. cbn in T'.
  split; cbn; [done| |lia|].
  - intros id' th. rewrite lookup_delete_Some. intros [_ Hl]. destruct (Th _ _ Hl) as [-> Ht]. split; [done|].
    by eapply inv_other.
  - intros id' th. rewrite lookup_delete_Some. intros [_ Hl]. eauto.
Qed.

Lemma drop_known_inv addrs id s sv :
  server_inv addrs sv -> table_ok addrs (ct_lokdef s) -> is_Some (sv_clients sv !! id) -> server_inv addrs (drop_client id s sv).
Proof.
  intros Hinv Ts [th Hid]. pose proof (inv_count _ _ Hinv) as Hc. destruct sv as [t h cs k c]. cbn in *.
  pose proof (drop_client_inv addrs id s (mkServer t h cs k c) (k - 1) Hinv Ts) as Hd.
  cbn in Hd. rewrite Z.sub_add in Hd. apply Hd; [|apply (inv_ids _ _ Hinv)].
  rewrite map_size_delete_Some by eauto.
  assert (size cs <> 0%nat) by (apply map_size_non_empty_iff; intros ->; by rewrite lookup_empty in Hid). lia.
Qed.

Lemma turn_inv addrs id n (s : CT H S) :
  thread_ok addrs s -> n = length addrs -> thread_ok addrs (turn ml cfg_tcpTimeout id readFile n s).2.
Proof.
  intros Hs ->. unfold turn, mbind, M_bind.
  assert (thread_ok addrs (on_comm (comm_readMessage ml cfg_tcpTimeout) s).2) as Hr.
  { destruct Hs as [T L C N]. unfold on_comm, zoom. by destruct (comm_readMessage _ _ _) as [r c]. }
  destruct (on_comm _ s) as [[cmd|e] s1]; [|done]. cbn in Hr.
  exact (keeps_invariant _ _ _ _ _ (stays_process ml id readFile readFile_safe addrs cmd) Hr).
Qed.

Lemma step_inv addrs sv sv' : server_inv addrs sv -> step sv sv' -> server_inv addrs sv'.
Proof.
  intros Hinv Hst. revert Hinv. destruct Hst as [client sv0 sv1 E|id th sv0 sv1 Hid E]; intros Hinv.
  - unfold accept_client in E. set (s0 := mkCT _ _ (Some client) [] [] 0) in E.
    pose proof (greet_sizes ml addrs s0 (inv_table _ _ Hinv)) as Hg.
    destruct (greet ml s0) as [[n|[w| | |]] s]; simplify_eq.
    + destruct Hg as [Hs ->]. by apply keep_new_inv.
    + pose proof (inv_count _ _ Hinv) as Hc. rewrite Hc.
      assert (sv_clients sv0 !! sv_clientID_counter sv0 = None) as Hf.
      { destruct (sv_clients sv0 !! sv_clientID_counter sv0) eqn:F; [|done].
        apply (inv_ids _ _ Hinv) in F. lia. }
      apply drop_client_inv; [done|done|by rewrite delete_id|].
      intros id' th' Hl. apply (inv_ids _ _ Hinv) in Hl. lia.
  - unfold client_turn in E. destruct (inv_threads _ _ Hinv _ _ Hid) as [Hn Ht].
    pose proof (turn_inv addrs id _ _ Ht Hn) as Hs.
    destruct (turn _ _ _ _ _ _) as [[u|[w| | |]] s]; simplify_eq; cbn in Hs.
    + rewrite Hn. apply keep_client_inv; [done|done|eauto].
    + apply drop_known_inv; [done|apply Hs|eauto].
Qed.

Lemma reachable_inv addrs t h sv : table_ok addrs t -> reachable t h sv -> server_inv addrs sv.
Proof.
  intros T Hr. induction Hr as [|sv sv' _ IH Hstep]; [|by eapply step_inv].
  split; cbn; [done|by intros|by rewrite map_size_empty|by intros].
Qed.
End Server.

(** ** When the last client leaves *)

Lemma destruct_calls {S} `{ClientStream S} id n (s : CT Recorder S) :
  let all := n - 1 =? 0 in
  calls (ct_hw (destruct_thread id n s).2) =
    calls (ct_hw s) ++ [CallFullstop id all true; CallDisconnected all].
Proof.
  cbn zeta. unfold destruct_thread, mbind, M_bind, on_hw, zoom.
  destruct (n - 1 =? 0); cbn; by rewrite <- app_assoc.
Qed.

(** nobody is connected, and the last thing the driver heard is a full stop *)
Definition stopped {S} (sv : Server Recorder S) : Prop :=
  exists pre id, calls (sv_hw sv) = pre ++ [CallFullstop id true true; CallDisconnected true].

Lemma drop_last_stops {S} `{ClientStream S} id s (sv : Server Recorder S) :
  sv_numClients sv = 1 -> stopped (drop_client id s sv).
Proof.
  intros E. unfold drop_client, stopped. pose proof (destruct_calls id (sv_numClients sv) s) as Hc.
  destruct (destruct_thread id _ s) as [r s']. cbn in *. rewrite E in Hc. eauto.
Qed.

Lemma delete_empty_size {A} (m : gmap Z A) id : delete id m = ∅ -> is_Some (m !! id) -> size m = 1%nat.
Proof.
  intros E Hi. assert (size (delete id m) = Nat.pred (size m)) as Hs by (by apply map_size_delete_Some).
  rewrite E, map_size_empty in Hs.
  assert (size m <> 0%nat); [|lia]. apply map_size_non_empty_iff. intros ->. rewrite lookup_empty in Hi. by destruct Hi.
Qed.

(** a step after which nobody is left has stopped everything *)
Lemma accept_last_stops {S} `{ClientStream S} ml addrs client (sv sv' : Server Recorder S) :
  server_inv addrs sv -> accept_client ml client sv = (Ok tt, sv') -> sv_clients sv' = ∅ -> stopped sv'.
Proof.
  intros Hinv E Hempty. unfold accept_client in E. destruct (greet _ _) as [[n|[w| | |]] s]; simplify_eq.
  - cbn in Hempty. by apply insert_non_empty in Hempty.
  - apply drop_last_stops. cbn. rewrite (inv_count _ _ Hinv).
    unfold drop_client in Hempty. destruct (destruct_thread _ _ s). cbn in Hempty.
    rewrite delete_id in Hempty; [by rewrite Hempty, map_size_empty|].
    destruct (sv_clients sv !! sv_clientID_counter sv) eqn:F; [|done]. apply (inv_ids _ _ Hinv) in F. lia.
Qed.

Lemma drop_empty_stops {S} `{ClientStream S} addrs id s (sv : Server Recorder S) :
  server_inv addrs sv -> is_Some (sv_clients sv !! id) -> sv_clients (drop_client id s sv) = ∅ -> stopped (drop_client id s sv).
Proof.
  intros Hinv Hid Hempty. apply drop_last_stops. rewrite (inv_count _ _ Hinv).
  unfold drop_client in Hempty. destruct (destruct_thread _ _ s). cbn in Hempty.
  by rewrite (delete_empty_size _ id Hempty).
Qed.

Lemma turn_last_stops {S} `{ClientStream S} ml timeout readFile addrs id th (sv sv' : Server Recorder S) :
  server_inv addrs sv -> sv_clients sv !! id = Some th -> client_turn ml timeout readFile id th sv = (Ok tt, sv') ->
  sv_clients sv' = ∅ -> stopped sv'.
Proof.
  intros Hinv Hid E Hempty. unfold client_turn in E. destruct (turn _ _ _ _ _ _) as [[u|[w| | |]] s]; simplify_eq.
  - cbn in Hempty. by apply insert_non_empty in Hempty.
  - eapply drop_empty_stops; eauto.
Qed.

(** ** Properties *)

(** C2: In every state of a server, whatever its clients sent and in whatever
    order: the table is in order, the arrays of every thread fit it, clients
    have distinct numbers and [numClients] counts them. *)
Theorem server_invariant {H S} `{HardwareLaws H} `{StreamSafe S} ml timeout readFile addrs t (h : H) (sv : Server H S) :
  (forall f, safe_result (readFile f)) -> table_ok addrs t ->
  reachable ml timeout readFile t h sv -> server_inv addrs sv.
Proof. intros Hf T Hr. by eapply reachable_inv. Qed.

(** an accepted connection *)
Definition sample_server : Server Recorder TCPClient :=
  (accept_client protocol (sample_socket []) (server_start sample_table (mkRecorder [] false))).2.

Lemma sample_server_reachable :
  reachable protocol 10 (fun _ => Ok EmptyString) sample_table (mkRecorder [] false) sample_server.
Proof.
  eapply reach_step; [apply reach_start|]. eapply (step_accept _ _ _ (sample_socket [])). vm_compute. reflexivity.
Qed.

Lemma server_invariant_witness : server_inv [3; 12] sample_server.
Proof.
  apply (server_invariant protocol 10 (fun _ => Ok EmptyString) [3; 12] sample_table (mkRecorder [] false));
    [done|apply sample_table_ok|apply sample_server_reachable].
Defined.

(** C4: Whenever no client is connected, either none ever was or the last thing
    the driver was told is to stop all locomotives at once: a lost connection
    never leaves a train without control. *)
Theorem no_client_no_motion {S} `{StreamSafe S} ml timeout readFile addrs t (h : Recorder) (sv : Server Recorder S) :
  (forall f, safe_result (readFile f)) -> table_ok addrs t ->
  reachable ml timeout readFile t h sv -> sv_clients sv = ∅ ->
  sv_clientID_counter sv = 1 \/ stopped sv.
Proof.
  intros Hf T Hr. induction Hr as [|sv sv' Hr IH Hst]; intros Hempty; [by left|].
  pose proof (reachable_inv ml timeout readFile Hf addrs t h sv T Hr) as Hinv. right.
  clear IH Hr. revert Hinv Hempty. destruct Hst as [client sv0 sv1 E|id th sv0 sv1 Hid E]; intros Hinv Hempty.
  - by eapply accept_last_stops.
  - by eapply turn_last_stops.
Qed.

Definition sample_left : Server Recorder TCPClient :=
  match sv_clients sample_server !! 1 with
  | Some th => (client_turn protocol 10 (fun _ => Ok EmptyString) 1 th sample_server).2
  | None => sample_server
  end.

Lemma no_client_no_motion_witness : sv_clientID_counter sample_left = 1 \/ stopped sample_left.
Proof.
  apply (no_client_no_motion protocol 10 (fun _ => Ok EmptyString) [3; 12] sample_table (mkRecorder [] false));
    [done|apply sample_table_ok| |vm_compute; reflexivity].
  eapply reach_step; [apply sample_server_reachable|].
  unfold sample_left. destruct (sv_clients sample_server !! 1) as [th|] eqn:E; [|vm_compute in E; discriminate].
  eapply (step_turn _ _ _ 1 th); [exact E|].
  vm_compute in E. injection E as <-. vm_compute. reflexivity.
Defined.
