(* ===== verification/SketchESP32.v ===== *)
(** * esp32-server/btcontrol/btcontrol.ino: the server on the ESP32

    The sketch of the build with config-sample-playmobillok.h: [setup] reads the
    built-in files, [loop] accepts clients and answers web requests, every client
    has a FreeRTOS task.  The tasks run the client thread of ClientThread.v on
    the driver of ESP32PWM.v; the player of ESP32MAS.v is one more task.  A step
    is one turn of [loop], the start of a task, one message of a client or one
    action of the player.  The client thread is the one of the Linux build: the
    ESP32 greets with another name and steps the speed by 10, and nothing below
    depends on either. *)

From Stdlib Require Import Ascii.
From stdpp Require Import gmap.
From S2P Require Import Prelude StdMap CString Utils MessageLayout Message Stream StreamESP32 Lokdef Hardware Platine ESP32MAS ESP32PWM ClientThread ClientSafety ClientProps Server.

Definition TIMEOUT_SERVER : Z := 5.

(** ** Files of utils_esp32.cpp *)

Definition LOK_NAME : string := "esp32-playmobil".
Definition LOK_IMAGE : string := "rangierlok.png".

Definition lokdef_csv : string :=
  "3,  F_DEFAULT," +:+ LOK_NAME +:+ "," +:+ LOK_IMAGE +:+ ",   9," +:+ "sPfeife" +:+ ",," +:+
  "sSound ein/aus=1" +:+ ",,,,," +:+ ",mMotor Boost" +:+ String newline "".
Definition decoder_esp32_csv : string :=
  "266, sound volume," +:+ String newline "" +:+ "500, battery level," +:+ String newline "" +:+
  "510, wifi AP switch" +:+ String newline "".

(** what is asked of the file system in flash *)
Record SPIFFS_t : Type := mkSPIFFS {
  fs_exists : string -> bool;
  fs_size : string -> Z;
  (** what [read] delivers *)
  fs_read : string -> string;
}.

(** [protocol_h] is the text the build puts into protocol.h *)
Definition readFile (protocol_h : string) (fs : SPIFFS_t) (filename : string) : outcome string :=
  if String.eqb filename "protocol.dat" then Ok protocol_h
  else if String.eqb filename "conf/lokdef.csv" then Ok lokdef_csv
  else if String.eqb filename "conf/decoder_esp32.csv" then Ok decoder_esp32_csv
  else
    match filename with
    | EmptyString => Err (Throw "basic_string::at")
    | String c _ =>
        let cf := if bool_decide (c = "/"%char) then filename else String "/"%char filename in
        if negb (fs_exists fs cf) then Ok EmptyString
        else if fs_size fs cf <? 10000 then
          Ok (if Z.of_nat (String.length (fs_read fs cf)) =? fs_size fs cf then fs_read fs cf else EmptyString)
        else Err (Abort "readFile failed")
    end.

(** ** Web requests *)

(** what one round of the loop of [handleHTTPRequest] finds *)
Inductive poll : Type := Gone | Idle | Received (c : ascii).
#[global] Instance poll_eq_dec : EqDecision poll.
Proof. solve_decision. Defined.

Section http.
Context (responseHTML : string).

Definition println (s : string) : string := s +:+ String (ascii_of_nat 13) (String newline EmptyString).

Definition response : list string :=
  [println "HTTP/1.1 200 OK"; println "Content-type:text/html"; println EmptyString; responseHTML].

(** [None]: the loop is still running after these rounds *)
Fixpoint handle_loop (currentLine : string) (polls : list poll) : option (list string) :=
  match polls with
  | [] => None
  | Gone :: _ => Some []
  | Idle :: polls' => handle_loop currentLine polls'
  | Received c :: polls' =>
      if bool_decide (c = newline) then
        if String.eqb currentLine EmptyString then Some response else handle_loop EmptyString polls'
      else if bool_decide (c = ascii_of_nat 13) then handle_loop currentLine polls'
      else handle_loop (currentLine +:+ String c EmptyString) polls'
  end.
Definition handleHTTPRequest : list poll -> option (list string) := handle_loop EmptyString.
End http.

(** ** WiFi *)

Inductive wifi_call : Type := WiFi_begin | WiFi_disconnect | WiFi_softAP.

(** the loop of [init_wifi_client]: [polls] says for every look at
    [WiFi.status()] whether the network is there; [None] when the loop is still
    running after them *)
Fixpoint wifi_wait (APConnectedWait : Z) (polls : list bool) : option (list wifi_call) :=
  match polls with
  | [] => None
  | true :: _ => Some []
  | false :: polls' =>
      if 40 <? APConnectedWait + 1 then
        match wifi_wait 0 polls' with
        | Some l => Some (WiFi_disconnect :: WiFi_begin :: l)
        | None => None
        end
      else wifi_wait (APConnectedWait + 1) polls'
  end.
Definition init_wifi_client (polls : list bool) : option (list wifi_call) :=
  match wifi_wait 0 polls with Some l => Some (WiFi_begin :: l) | None => None end.

(** [init_wifi] where an access point and a network are configured *)
Definition init_wifi_mode (polls : list bool) : M Audio_t (option (list wifi_call)) :=
  ap_client ← readEEPROM EEPROM_WIFI_AP_CLIENT;
  mret (if ap_client =? 0 then Some [WiFi_softAP] else init_wifi_client polls).

(** ** The sketch *)

Record Sketch (S : Type) : Type := mkSketch {
  (** table, driver, tasks that serve a client, [numClients], [clientID_counter] *)
  sk_server : Server ESP32PWM S;
  (** tasks that are created and have not run yet *)
  sk_tasks : list S;
  (** the open files of the player *)
  sk_files : list File;
  (** [esp_wifi_set_ps]: does the modem sleep? *)
  sk_sleeps : bool;
}.
Arguments mkSketch {S}.
Arguments sk_server {S}.
Arguments sk_tasks {S}.
Arguments sk_files {S}.
Arguments sk_sleeps {S}.

Section Sketch.
Context {S : Type} `{ClientStream S}.
Context (ml : MessageLayouts) (file : string -> outcome string) (responseHTML : string).
Context (SPIFFS_exists : string -> bool) (SPIFFS_open : string -> File) (available : string -> Z).

Definition set_server (sv : Server ESP32PWM S) (sk : Sketch S) : Sketch S :=
  mkSketch sv (sk_tasks sk) (sk_files sk) (sk_sleeps sk).
Definition set_tasks (l : list S) (sk : Sketch S) : Sketch S :=
  mkSketch (sk_server sk) l (sk_files sk) (sk_sleeps sk).
Definition esp_wifi_set_ps (b : bool) : M (Sketch S) unit :=
  modify (fun sk => mkSketch (sk_server sk) (sk_tasks sk) (sk_files sk) b).

(** calls on the driver *)
Definition on_driver {A} (c : M esp_world A) : M (Sketch S) A :=
  zoom (fun sk => (sv_lokdef (sk_server sk), sv_hw (sk_server sk)))
    (fun w sk => let sv := sk_server sk in
       set_server (mkServer w.1 w.2 (sv_clients sv) (sv_numClients sv) (sv_clientID_counter sv)) sk) c.

(** the [try] block of [startClientThread] up to the first message *)
Definition client_body (mounted : bool) (numClients : Z) (client : S) : M (CT ESP32PWM S) nat :=
  t ← gets ct_lokdef;
  on_hw (on_sound (startPlayFuncSound mounted numClients t));;
  modify (fun s => mkCT (ct_lokdef s) (ct_hw s) (Some client) (ct_lastStatus s) (ct_changed s) (ct_msgNum s));;
  greet (H0:=ESP32PWM_hardware mounted numClients 0) ml.

(** after the exception was caught: [delete(clientThread)] and the rest of
    [startClientThread] *)
Definition client_done (id : Z) (s : CT ESP32PWM S) : M (Sketch S) unit :=
  modify (fun sk => set_server (drop_client (H0:=ESP32PWM_hardware false 0 0) id s (sk_server sk)) sk);;
  n ← gets (fun sk => sv_numClients (sk_server sk));
  if n =? 0 then esp_wifi_set_ps true;; on_driver (on_sound audio_stop) else mret tt.

Definition startClientThread (mounted : bool) (client : S) : M (Sketch S) unit := fun sk =>
  let sv := sk_server sk in
  let clientID := sv_clientID_counter sv in
  let n := sv_numClients sv + 1 in
  let sv1 := mkServer (sv_lokdef sv) (sv_hw sv) (sv_clients sv) n (clientID + 1) in
  let sk1 := mkSketch sv1 (sk_tasks sk) (sk_files sk) false in
  match client_body mounted n client (mkCT (sv_lokdef sv) (sv_hw sv) None [] [] 0) with
  | (Ok nLokdef, s) => (Ok tt, set_server (keep_client clientID nLokdef s sv1) sk1)
  | (Err (Throw _), s) => client_done clientID s sk1
  | (Err e, s) => (Err e, sk1)
  end.

(** one message of the client of task [id] *)
Definition task_turn (mounted : bool) (analogRead : Z) (id : Z) (th : Thread S) : M (Sketch S) unit := fun sk =>
  let sv := sk_server sk in
  match turn (H0:=ESP32PWM_hardware mounted (sv_numClients sv) analogRead) ml TIMEOUT_SERVER id file (th_nLokdef th) (thread_view sv th) with
  | (Ok _, s) => (Ok tt, set_server (keep_client id (th_nLokdef th) s sv) sk)
  | (Err (Throw _), s) => client_done id s sk
  | (Err e, s) => (Err e, sk)
  end.

(** the callback [init_wifi_done] registers for updates *)
Definition ota_started : M (Sketch S) unit :=
  on_driver (esp_fullstop true true);; on_driver (on_sound audio_stop).

(** one turn of [loop]: [accepted] is [BTServer.available()], [http] are the
    rounds of the request of [HTTPServer.available()], [created] the result of
    [xTaskCreate], [ota] whether [ArduinoOTA.handle()] starts an update.
    [ESP32PWM::loop] does nothing in this build.  [OutOfFuel] stands for a
    request that is not finished after these rounds. *)
Definition loop (accepted : option S) (http : option (list poll)) (created ota : bool) : M (Sketch S) (list string) :=
  match accepted with
  | None =>
      sent ← match http with
             | None => mret []
             | Some polls => match handleHTTPRequest responseHTML polls with
                             | Some sent => mret sent
                             | None => fail OutOfFuel
                             end
             end;
      (if ota then ota_started else mret tt);;
      mret sent
  | Some client =>
      (if created then modify (fun sk => set_tasks (sk_tasks sk ++ [client]) sk) else mret tt);;
      mret []
  end.

(** the player at the end of the file of channel [h] *)
Definition player_file (h : nat) : M (Sketch S) unit := fun sk =>
  let sv := sk_server sk in
  match sk_files sk !! h with
  | None => (Err (UB "Audio_File[h]"), sk)
  | Some f =>
      let '(r, (a, f')) := end_of_file SPIFFS_exists SPIFFS_open available (Z.of_nat h) (e_audio (sv_hw sv), f) in
      let e := sv_hw sv in
      (r, mkSketch
            (mkServer (sv_lokdef sv)
               (mkESP (e_dir e) (e_pwm e) (e_ledToggle e) (e_headlight e) (e_nFunc e) (e_currentFunc e) (e_changedDir e) a (e_calls e))
               (sv_clients sv) (sv_numClients sv) (sv_clientID_counter sv))
            (sk_tasks sk) (<[h:=f']> (sk_files sk)) (sk_sleeps sk))
  end.
(** the player reports the channels that have ended *)
Definition player_finish : M (Sketch S) unit :=
  on_driver (fun w =>
    let '(r, (t, a)) := finish_channels (w.1, e_audio w.2) in
    let e := w.2 in
    (r, (t, mkESP (e_dir e) (e_pwm e) (e_ledToggle e) (e_headlight e) (e_nFunc e) (e_currentFunc e) (e_changedDir e) a (e_calls e)))).

Inductive sk_step : Sketch S -> Sketch S -> Prop :=
  | step_loop accepted http created ota sent sk sk' :
      loop accepted http created ota sk = (Ok sent, sk') -> sk_step sk sk'
  | step_start mounted l1 client l2 sk sk' :
      sk_tasks sk = l1 ++ client :: l2 ->
      startClientThread mounted client (set_tasks (l1 ++ l2) sk) = (Ok tt, sk') -> sk_step sk sk'
  | step_message mounted analogRead id th sk sk' :
      sv_clients (sk_server sk) !! id = Some th ->
      task_turn mounted analogRead id th sk = (Ok tt, sk') -> sk_step sk sk'
  | step_file h sk sk' : player_file h sk = (Ok tt, sk') -> sk_step sk sk'
  | step_finish sk sk' : player_finish sk = (Ok tt, sk') -> sk_step sk sk'.

Inductive sk_reachable (sk0 : Sketch S) : Sketch S -> Prop :=
  | sk_start : sk_reachable sk0 sk0
  | sk_more sk sk' : sk_reachable sk0 sk -> sk_step sk sk' -> sk_reachable sk0 sk'.

(** [setup] behind [init_wifi]; the layouts it loads and the state it leaves *)
Definition setup (readFile : string -> outcome string) (eeprom : list Z) (sleeps : bool)
    : outcome (MessageLayouts * Sketch S) :=
  protocolDat ← readFile "protocol.dat";
  let '(r, messageLayouts) := load protocolDat MessageLayouts0 in
  r;;
  csv ← readFile "conf/lokdef.csv";
  lokdef ← readLokdef csv;
  let '(r, w) := ESP32PWM_new false 0 (Audio0 eeprom) lokdef in
  r;;
  Ok (messageLayouts, mkSketch (server_start w.1 w.2) [] (repeat None 3) sleeps).
End Sketch.

(** ** What a client thread does to its driver

    A property of the driver object that all operations of the interface keep
    is kept by everything a client can ask for. *)

Class DriverInvariant (H : Type) `{Hardware H} (I : H -> Prop) : Prop := {
  inv_sendLoco i e : preserves (fun w => I w.2) (sendLoco i e);
  inv_fullstop c a e : preserves (fun w => I w.2) (fullstop c a e);
  inv_pwrOn : preserves (fun w => I w.2) pwrOn;
  inv_pwrOff : preserves (fun w => I w.2) pwrOff;
  inv_getPowerState : preserves (fun w => I w.2) getPowerState;
  inv_clientConnected : preserves (fun w => I w.2) clientConnected;
  inv_sendPOM a c v : preserves (fun w => I w.2) (sendPOM a c v);
  inv_sendPOMBit a c b v : preserves (fun w => I w.2) (sendPOMBit a c b v);
}.

Section driver_invariant.
Context {H S : Type} `{Hardware H} (I : H -> Prop) `{!DriverInvariant H I} `{ClientStream S}.
Context (ml : MessageLayouts) (timeout clientID : Z) (readFile : string -> outcome string).
Abbreviation kept := (preserves (fun s : CT H S => I (ct_hw s))).

Lemma kept_hw {A} (c : M (list lokdef_t * H) A) : preserves (fun w => I w.2) c -> kept (on_hw c).
Proof. intros Hc s Hs. unfold on_hw, zoom. specialize (Hc (ct_lokdef s, ct_hw s) Hs). by destruct (c _) as [? []]. Qed.
Lemma kept_comm {A} (c : M (option S) A) : kept (on_comm c).
Proof. intros s Hs. unfold on_comm, zoom. by destruct (c _). Qed.
Lemma kept_status reply : kept (setLokStatus reply).
Proof.
  intros s Hs. unfold setLokStatus. destruct (at_field _ _ _) as [[]]; [|done].
  by destruct (lokStatus_loop _ _ _ _) as [? []].
Qed.

#[local] Hint Resolve kept_hw kept_comm kept_status : btc.
#[local] Hint Resolve inv_sendLoco inv_fullstop inv_pwrOn inv_pwrOff inv_getPowerState inv_clientConnected inv_sendPOM inv_sendPOMBit : btc.

(** one step of a computation *)
Ltac keep_step := first
  [ apply preserves_ret | apply preserves_fail | apply preserves_throw | apply preserves_gets | apply preserves_lift
  | apply kept_comm | apply kept_status | solve [apply kept_hw; eauto with btc] | by apply preserves_modify
  | apply preserves_bind; [|intros ?] | apply preserves_foldM; intros ? ? | apply preserves_iterM; intros ?
  | match goal with |- preserves _ (match ?x with _ => _ end) => destruct x end ].
Ltac keep := repeat keep_step.

Lemma kept_addrIndex a : kept (addrIndex a).
Proof. unfold addrIndex. keep. Qed.
Lemma kept_lok_at i : kept (lok_at i).
Proof. unfold lok_at. keep. Qed.
Lemma kept_upd i f : kept (upd_lok i f).
Proof. unfold upd_lok. apply preserves_bind; [apply kept_lok_at|intros]. keep. Qed.
Lemma kept_mark i b : kept (mark_changed i b).
Proof. unfold mark_changed. keep. Qed.
Lemma kept_sendStatus : kept (sendStatusReply ml).
Proof. unfold sendStatusReply, send. keep. Qed.

Ltac keep_tables := repeat first
  [ apply kept_addrIndex | apply kept_lok_at | apply kept_upd | apply kept_mark | apply kept_sendStatus | keep_step ].

Lemma kept_for_list cmd from n f : kept (for_list cmd from n f).
Proof. unfold for_list. keep_tables. Qed.
Lemma kept_reply name build : kept (reply_with ml name build).
Proof. unfold reply_with, send. keep. Qed.

Lemma kept_if_type cmd name c d : kept c -> kept d -> kept (if_type ml cmd name c d).
Proof. intros Hc Hd. apply preserves_bind; [apply preserves_lift|]. by intros []. Qed.

Lemma kept_execute cmd : kept (execute ml readFile cmd).
Proof.
  unfold execute. repeat (apply kept_if_type; [|try done]).
  all: unfold cmd_ACC, cmd_BREAK, cmd_DIR, cmd_STOP, cmd_ACC_MULTI, cmd_BREAK_MULTI, cmd_SPEED_MULTI, cmd_DIR_MULTI,
    cmd_STOP_MULTI, cmd_SETFUNC, cmd_GETLOCOS, cmd_GETFUNCTIONS, cmd_POWER, cmd_POM, cmd_POMBIT, cmd_GETIMAGE, cmd_HELO_ERR, send.
  all: repeat first [apply kept_for_list | apply kept_reply | keep_tables].
Qed.

Lemma kept_turn n : kept (turn ml timeout clientID readFile n).
Proof.
  unfold turn, process, drive, drive_one. apply preserves_bind; [apply kept_comm|]. intros cmd.
  apply preserves_bind; [apply preserves_lift|]. intros _. apply preserves_bind; [apply kept_execute|]. intros e.
  keep_tables.
Qed.

Lemma kept_greet : kept (greet ml).
Proof. unfold greet, send. keep. Qed.
End driver_invariant.

(** the motor of the ESP32 runs the way its driver thinks *)
Definition motor_sane (e : ESP32PWM) : Prop := motor_known ([], e).

#[export] Instance ESP32PWM_motor m n r : DriverInvariant ESP32PWM (H0:=ESP32PWM_hardware m n r) motor_sane.
Proof.
  split; intros; cbn; [apply sendLoco_known|apply fullstop_known|apply preserves_ret|apply setDir_known|apply preserves_ret
    |apply preserves_ret|apply sendPOM_known|apply preserves_ret].
Qed.

(** ** The invariant of the sketch *)

(** the duty the motor shield was set to last *)
Definition motor_duty (l : list esp_call) : Z :=
  foldl (fun d c => match c with setmotor _ d' => d' | setmotor_stop => 0 | _ => d end) 0 l.

(** nothing moves, and the engine sound is off or on its way to be *)
Record quiet {S} (sv : Server ESP32PWM S) : Prop := mkQuiet {
  q_motor : motor_duty (e_calls (sv_hw sv)) = 0;
  q_sound : Audio_Player_run (e_audio (sv_hw sv)) = false \/ target_fahrstufe (e_audio (sv_hw sv)) = -1;
  q_table : Forall (fun d => currspeed d = 0) (locos (sv_lokdef sv));
}.

Record sketch_inv {S} (lok : Z) (sk : Sketch S) : Prop := mkSketchInv {
  si_server : server_inv [lok] (sk_server sk);
  si_motor : motor_sane (sv_hw (sk_server sk));
  (** the modem is awake while a client is served *)
  si_awake : sv_clients (sk_server sk) <> ∅ -> sk_sleeps sk = false;
  si_quiet : sv_clients (sk_server sk) = ∅ -> quiet (sk_server sk);
}.

Lemma motor_duty_stop l : motor_duty (l ++ [setmotor_stop]) = 0.
Proof. unfold motor_duty. by rewrite foldl_app. Qed.

Lemma one_lok lok t : table_ok [lok] t -> exists d, t !! 0%nat = Some d /\ locos t = [d] /\ addr d = lok /\ lok_ok d.
Proof.
  intros [A _ L]. destruct (locos t) as [|d [|]] eqn:E; try discriminate A. exists d.
  injection A as A. apply Forall_cons_1 in L as [L _]. split_and!; try done.
  by destruct (locos_lookup t 0 d ltac:(by rewrite E)).
Qed.

Lemma one_lok_insert lok t d' : table_ok [lok] t -> addr d' = lok -> lok_ok d' ->
  table_ok [lok] (<[0%nat:=d']> t) /\ locos (<[0%nat:=d']> t) = [d'].
Proof.
  intros T A L. destruct (one_lok lok t T) as (d & _ & El & Ad & _). split.
  - eapply table_ok_insert; [done|by rewrite El|congruence|done].
  - rewrite (locos_insert t 0 d d') by (by rewrite ?El || congruence). by rewrite El.
Qed.

Lemma lok_ok_speed0 d : lok_ok d -> lok_ok (set_currspeed 0 d).
Proof. intros [[W1 W2] Sp]. split; [by split|cbn; lia]. Qed.

(** a stop in full *)
Definition stopped_esp (e : ESP32PWM) : ESP32PWM :=
  mkESP (e_dir e) (e_pwm e) (e_ledToggle e) (e_headlight e) (e_nFunc e) (e_currentFunc e) (e_changedDir e)
    (with_target 0 (e_audio e)) (e_calls e ++ [setmotor_stop]).

Lemma fullstop_run a b t e d : t !! 0%nat = Some d ->
  esp_fullstop a b (t, e) = (Ok tt, (<[0%nat:=set_currspeed 0 d]> t, stopped_esp e)).
Proof.
  intros E. unfold esp_fullstop, zero_speed, e_call, mbind, M_bind, modify, gets. cbn -[insert setFahrstufe]. by rewrite E.
Qed.

Lemma stopped_sane e : motor_sane e -> motor_sane (stopped_esp e).
Proof. intros [K _]. split; cbn; rewrite motor_log_snoc; cbn; [exact K|done]. Qed.

(** the driver with another state of the sound *)
Definition set_audio (a : Audio_t) (e : ESP32PWM) : ESP32PWM :=
  mkESP (e_dir e) (e_pwm e) (e_ledToggle e) (e_headlight e) (e_nFunc e) (e_currentFunc e) (e_changedDir e) a (e_calls e).

Section sketch_proofs.
Context {S : Type} `{StreamSafe S}.
Context (ml : MessageLayouts) (file : string -> outcome string) (responseHTML : string).
Context (file_safe : forall f, safe_result (file f)).
Context (SPIFFS_exists : string -> bool) (SPIFFS_open : string -> File) (available : string -> Z).
Context (lok : Z).
Implicit Types (sk : Sketch S) (sv : Server ESP32PWM S).

(** what the others see when a task changes table and driver *)
Lemma server_inv_world sv t (h : ESP32PWM) : server_inv [lok] sv -> table_ok [lok] t ->
  server_inv [lok] (mkServer t h (sv_clients sv) (sv_numClients sv) (sv_clientID_counter sv)).
Proof.
  intros [T Th Cn Ids] T'. split; cbn; [done| |done|done].
  intros id th Hl. destruct (Th _ _ Hl) as [-> Ht]. split; [done|]. by eapply inv_other.
Qed.

Lemma drop_run id (s : CT ESP32PWM S) sv m n r d : ct_lokdef s !! 0%nat = Some d ->
  drop_client (H0:=ESP32PWM_hardware m n r) id s sv =
    mkServer (<[0%nat:=set_currspeed 0 d]> (ct_lokdef s)) (stopped_esp (ct_hw s)) (delete id (sv_clients sv))
      (sv_numClients sv - 1) (sv_clientID_counter sv).
Proof.
  intros E. unfold drop_client, destruct_thread, on_hw, zoom, mbind, M_bind. cbn -[esp_fullstop].
  destruct (_ =? 0); cbn -[esp_fullstop]; rewrite (fullstop_run _ _ _ _ _ E); done.
Qed.

(** a task that ends leaves the sketch in order, and the motor stopped *)
Lemma client_done_inv id (s : CT ESP32PWM S) sk :
  table_ok [lok] (ct_lokdef s) -> motor_sane (ct_hw s) -> sk_sleeps sk = false ->
  (forall m n r, server_inv [lok] (drop_client (H0:=ESP32PWM_hardware m n r) id s (sk_server sk))) ->
  exists sk', client_done id s sk = (Ok tt, sk') /\ sketch_inv lok sk' /\
    sv_clients (sk_server sk') = delete id (sv_clients (sk_server sk)) /\
    motor_duty (e_calls (sv_hw (sk_server sk'))) = 0 /\ Forall (fun d => currspeed d = 0) (locos (sv_lokdef (sk_server sk'))).
Proof.
  intros T K Aw Hd. destruct (one_lok lok _ T) as (d & E & El & Ad & Ok).
  pose proof (Hd false 0 0) as Hi. rewrite (drop_run _ _ _ _ _ _ _ E) in Hi.
  pose proof (inv_count _ _ Hi) as Hc. cbn in Hc.
  destruct (one_lok_insert lok _ (set_currspeed 0 d) T Ad (lok_ok_speed0 d Ok)) as [T' L'].
  unfold client_done. erewrite run_bind by done. rewrite (drop_run _ _ _ _ _ _ _ E). cbn [sk_server sv_numClients].
  erewrite run_bind by done. cbn [sk_server sv_numClients set_server].
  destruct (Z.eqb_spec (sv_numClients (sk_server sk) - 1) 0) as [E0|E0].
  - eexists. split; [reflexivity|]. cbn. split; [split; cbn|split_and!; [done|apply motor_duty_stop|by rewrite L'; constructor]].
    + by apply (server_inv_world _ _ _ Hi).
    + by apply stopped_sane.
    + intros Hne. apply map_size_non_empty_iff in Hne. lia.
    + intros _. split; cbn; [apply motor_duty_stop|by right|by rewrite L'; constructor].
  - eexists. split; [reflexivity|]. cbn. split; [split; cbn|split_and!; [done|apply motor_duty_stop|by rewrite L'; constructor]].
    + exact Hi.
    + by apply stopped_sane.
    + by rewrite Aw.
    + intros He. rewrite He, map_size_empty in Hc. lia.
Qed.

Lemma client_body_run m n client t e d : t !! 0%nat = Some d -> lok_ok d -> exists a,
  client_body ml m n client (mkCT t e None [] [] 0) =
    greet (H0:=ESP32PWM_hardware m n 0) ml (mkCT t (set_audio a e) (Some client) [] [] 0).
Proof.
  intros E Ok. destruct (returns_startPlay m n t d E Ok (e_audio e)) as (x & a & Hp). exists a.
  unfold client_body. erewrite run_bind by done. cbn [ct_lokdef].
  unfold mbind at 1, M_bind at 1, on_hw at 1, on_sound at 1, zoom at 1. cbn [ct_lokdef ct_hw].
  unfold zoom at 1. cbn [snd]. rewrite Hp. reflexivity.
Qed.

Lemma fresh_id sv : server_inv [lok] sv -> sv_clients sv !! sv_clientID_counter sv = None.
Proof. intros Hi. destruct (sv_clients sv !! _) eqn:F; [|done]. apply (inv_ids _ _ Hi) in F. lia. Qed.

Lemma start_inv m client sk sk' : sketch_inv lok sk ->
  startClientThread ml m client sk = (Ok tt, sk') -> sketch_inv lok sk'.
Proof.
  intros [Hs Hm Ha Hq] E. pose proof (inv_table _ _ Hs) as T. destruct (one_lok lok _ T) as (d & Ed & _ & _ & Hok).
  unfold startClientThread in E. cbn zeta in E. revert E.
  destruct (client_body_run m (sv_numClients (sk_server sk) + 1) client _ (sv_hw (sk_server sk)) d Ed Hok) as [a ->].
  set (s0 := mkCT _ (set_audio a _) _ _ _ _).
  pose proof (greet_sizes (H0:=ESP32PWM_hardware m (sv_numClients (sk_server sk) + 1) 0) ml [lok] s0 T) as Hg.
  pose proof (kept_greet (H0:=ESP32PWM_hardware m (sv_numClients (sk_server sk) + 1) 0) motor_sane ml s0 Hm) as Hk.
  destruct (greet ml s0) as [[k|[w| | |]] s]; intros E; try discriminate E.
  - injection E as <-. destruct Hg as [Hth ->]. split; cbn; [by apply keep_new_inv|exact Hk|done|].
    intros He. by apply insert_non_empty in He.
  - destruct (client_done_inv (sv_clientID_counter (sk_server sk)) s
      (mkSketch (mkServer (sv_lokdef (sk_server sk)) (sv_hw (sk_server sk)) (sv_clients (sk_server sk))
         (sv_numClients (sk_server sk) + 1) (sv_clientID_counter (sk_server sk) + 1)) (sk_tasks sk) (sk_files sk) false) Hg Hk eq_refl)
      as (sk1 & E1 & Hi & _); [|rewrite E1 in E; by injection E as <-].
    intros m' n' r'. cbn. rewrite (inv_count _ _ Hs).
    apply drop_client_inv; [done|done|by rewrite delete_id by (by apply fresh_id)|].
    intros id th Hl. apply (inv_ids _ _ Hs) in Hl. lia.
Qed.

Lemma turn_ok m r id th sk : sketch_inv lok sk -> sv_clients (sk_server sk) !! id = Some th ->
  let s := (turn (H0:=ESP32PWM_hardware m (sv_numClients (sk_server sk)) r) ml TIMEOUT_SERVER id file (th_nLokdef th)
              (thread_view (sk_server sk) th)).2 in
  thread_ok [lok] s /\ motor_sane (ct_hw s).
Proof.
  intros [Hs Hm Ha Hq] Hid. destruct (inv_threads _ _ Hs _ _ Hid) as [Hn Ht]. cbn zeta.
  set (hw := ESP32PWM_hardware m _ r). split.
  - exact (turn_inv (H0:=hw) ml TIMEOUT_SERVER file file_safe [lok] id _ _ Ht Hn).
  - exact (kept_turn (H0:=hw) motor_sane ml TIMEOUT_SERVER id file (th_nLokdef th) (thread_view (sk_server sk) th) Hm).
Qed.

(** the connection of a client fails *)
Lemma lost_client id th (s : CT ESP32PWM S) sk : sketch_inv lok sk -> sv_clients (sk_server sk) !! id = Some th ->
  thread_ok [lok] s -> motor_sane (ct_hw s) ->
  exists sk', client_done id s sk = (Ok tt, sk') /\ sketch_inv lok sk' /\
    sv_clients (sk_server sk') = delete id (sv_clients (sk_server sk)) /\
    motor_duty (e_calls (sv_hw (sk_server sk'))) = 0 /\ Forall (fun d => currspeed d = 0) (locos (sv_lokdef (sk_server sk'))).
Proof.
  intros [Hs Hm Ha Hq] Hid Hi Hk.
  assert (sv_clients (sk_server sk) <> ∅) as Hne by (intros He; by rewrite He, lookup_empty in Hid).
  apply client_done_inv; [apply Hi|exact Hk|exact (Ha Hne)|].
  intros m' n' r'. apply drop_known_inv; [done|apply Hi|eauto].
Qed.

Lemma turn_keeps_inv m r id th sk sk' : sketch_inv lok sk -> sv_clients (sk_server sk) !! id = Some th ->
  task_turn ml file m r id th sk = (Ok tt, sk') -> sketch_inv lok sk'.
Proof.
  intros Hsk Hid. destruct (turn_ok m r id th sk Hsk Hid) as [Hi Hk]. unfold task_turn. cbn zeta.
  destruct (turn _ _ _ _ _ _) as [[u|[w| | |]] s]; intros E; try discriminate E; cbn in Hi, Hk.
  - destruct Hsk as [Hs Hm Ha Hq]. destruct (inv_threads _ _ Hs _ _ Hid) as [Hn _].
    injection E as <-. split; cbn; [rewrite Hn; by apply keep_client_inv|exact Hk| |].
    + intros _. apply Ha. intros He. by rewrite He, lookup_empty in Hid.
    + intros He. by apply insert_non_empty in He.
  - destruct (lost_client id th s sk Hsk Hid Hi Hk) as (sk1 & E1 & Hi' & _). rewrite E1 in E. by injection E as <-.
Qed.

Lemma ota_run sk : sketch_inv lok sk -> exists sk', ota_started sk = (Ok tt, sk') /\ sketch_inv lok sk'.
Proof.
  intros [Hs Hm Ha Hq]. pose proof (inv_table _ _ Hs) as T. destruct (one_lok lok _ T) as (d & E & El & Ad & Hok).
  destruct (one_lok_insert lok _ (set_currspeed 0 d) T Ad (lok_ok_speed0 d Hok)) as [T' L'].
  unfold ota_started, on_driver. unfold mbind, M_bind. unfold zoom at 1.
  rewrite (fullstop_run true true _ _ _ E). eexists. split; [reflexivity|]. split; cbn.
  - by apply server_inv_world.
  - by apply stopped_sane.
  - exact Ha.
  - intros _. split; cbn; [apply motor_duty_stop|by right|by rewrite L'; constructor].
Qed.

Lemma set_tasks_inv l sk : sketch_inv lok sk -> sketch_inv lok (set_tasks l sk).
Proof. by intros []. Qed.

Lemma loop_inv accepted http created ota sent sk sk' : sketch_inv lok sk ->
  loop responseHTML accepted http created ota sk = (Ok sent, sk') -> sketch_inv lok sk'.
Proof.
  intros Hi. unfold loop. destruct accepted as [client|].
  - destruct created; intros E; injection E as _ <-; [|done]. by apply set_tasks_inv.
  - assert (forall l, ((if ota then ota_started else mret tt);; mret l : M (Sketch S) (list string)) sk = (Ok sent, sk') ->
      sketch_inv lok sk') as Hota.
    { intros l. destruct ota; [|intros E; by injection E as _ <-].
      destruct (ota_run sk Hi) as (sk1 & E1 & Hi1). unfold mbind, M_bind. rewrite E1. intros E. by injection E as _ <-. }
    destruct http as [polls|]; [|apply Hota]. destruct (handleHTTPRequest _ polls) as [l|]; [apply Hota|done].
Qed.

(** the player does not start the engine *)
Definition sound_off (a : Audio_t) : Prop := Audio_Player_run a = false \/ target_fahrstufe a = -1.

Lemma off_audio {A} (c : M Audio_t A) : preserves sound_off c -> preserves (fun w => sound_off w.1) (on_audio c).
Proof. intros Hc [a f] Ha. unfold on_audio, zoom. cbn. specialize (Hc a Ha). by destruct (c a). Qed.
Lemma off_channel k f : (forall n a, sound_off a -> sound_off (f n a)) -> preserves sound_off (checked_channel k f).
Proof. intros Hf. unfold checked_channel. destruct (_ <? _); [apply preserves_modify, Hf|apply preserves_fail]. Qed.
Lemma off_stopDAC : preserves sound_off stopDAC.
Proof. apply preserves_modify. intros a _. by left. Qed.
Lemma off_set_file f : preserves (fun w : Audio_t * File => sound_off w.1) (set_file f).
Proof. by apply preserves_modify. Qed.
Lemma off_with_curr c : preserves sound_off (modify (with_curr c)).
Proof. by apply preserves_modify. Qed.

Ltac off_step := first
  [ apply off_set_file | apply preserves_ret | apply preserves_fail | apply preserves_gets | apply preserves_get
  | apply off_audio; first [apply off_stopDAC | apply off_with_curr | by apply off_channel | by apply preserves_modify]
  | apply preserves_bind; [|intros ?]
  | match goal with |- preserves _ (match ?x with _ => _ end) => destruct x end ].

Lemma off_openFile h : preserves (fun w => sound_off w.1) (openFile SPIFFS_exists SPIFFS_open h).
Proof. unfold openFile, mas_openFile, advance_chan, stopChan. repeat off_step. Qed.

Lemma off_end_of_file h : preserves (fun w => sound_off w.1) (end_of_file SPIFFS_exists SPIFFS_open available h).
Proof. unfold end_of_file. repeat first [apply off_openFile | off_step]. Qed.

Lemma player_file_inv h sk : sketch_inv lok sk -> sketch_inv lok (player_file SPIFFS_exists SPIFFS_open available h sk).2.
Proof.
  intros [Hs Hm Ha Hq]. unfold player_file. destruct (sk_files sk !! h) as [f|]; [|done].
  pose proof (off_end_of_file (Z.of_nat h) (e_audio (sv_hw (sk_server sk)), f)) as Ho.
  destruct (end_of_file _ _ _ _ _) as [r [a f']]. split; cbn; [|exact Hm|exact Ha|].
  - apply server_inv_world; [done|apply Hs].
  - intros He. destruct (Hq He) as [Q1 Q2 Q3]. split; cbn; [exact Q1|exact (Ho Q2)|exact Q3].
Qed.

(** what the callbacks of the player leave as it was *)
Definition same_ride (t0 : list lokdef_t) (a0 : Audio_t) (w : list lokdef_t * Audio_t) : Prop :=
  table_ok [lok] w.1 /\ (Forall (fun d => currspeed d = 0) (locos t0) -> Forall (fun d => currspeed d = 0) (locos w.1)) /\
  (sound_off a0 -> sound_off w.2).

Lemma callback_ride t0 a0 t a cb : same_ride t0 a0 (t, a) -> same_ride t0 a0 (play_done_callback cb t, a).
Proof.
  intros (T & Sp & Off). destruct cb; [done|]. destruct (one_lok lok t T) as (d & E & El & Ad & [[W1 W2] Sd]).
  destruct t as [|d0 t]; [done|]. injection E as ->. cbn [play_done_callback].
  set (d' := set_func (alter (set_ison false) 1%nat (Lokdef.func d)) d). change (alter _ 0%nat (d :: t)) with (<[0%nat:=d']> (d :: t)).
  destruct (one_lok_insert lok (d :: t) d' T Ad) as [T' L']; [split; [split; [exact W1|by cbn; rewrite length_alter]|exact Sd]|].
  split; [exact T'|]. split; [|exact Off]. cbn [fst]. rewrite L'. intros F. specialize (Sp F). cbn [fst] in Sp. rewrite El in Sp.
  apply Forall_cons_1 in Sp as [Sp _]. by constructor.
Qed.

Lemma finish_inv sk : sketch_inv lok sk -> sketch_inv lok (player_finish sk).2.
Proof.
  intros [Hs Hm Ha Hq]. unfold player_finish, on_driver, zoom. cbn [fst snd].
  assert (preserves (same_ride (sv_lokdef (sk_server sk)) (e_audio (sv_hw (sk_server sk)))) finish_channels) as Hp.
  { unfold finish_channels. apply preserves_iterM. intros h. apply preserves_modify. intros [t a] Hr.
    destruct (decide _); [|done]. exact (callback_ride _ _ _ _ _ Hr). }
  specialize (Hp (sv_lokdef (sk_server sk), e_audio (sv_hw (sk_server sk)))).
  destruct (finish_channels _) as [r [t a]]. destruct Hp as (T & Sp & Off).
  { split; [apply Hs|done]. }
  split; cbn; [by apply server_inv_world|exact Hm|exact Ha|].
  intros He. destruct (Hq He) as [Q1 Q2 Q3]. split; cbn; [exact Q1|exact (Off Q2)|exact (Sp Q3)].
Qed.

Lemma sk_step_inv sk sk' : sketch_inv lok sk -> sk_step ml file responseHTML SPIFFS_exists SPIFFS_open available sk sk' -> sketch_inv lok sk'.
Proof.
  intros Hi Hst. destruct Hst as [accepted http created ota sent sk sk' E|m l1 client l2 sk sk' El E|m r id th sk sk' Hid E|h sk sk' E|sk sk' E].
  - by eapply loop_inv.
  - eapply start_inv; [|exact E]. by apply set_tasks_inv.
  - by eapply turn_keeps_inv.
  - replace sk' with (player_file SPIFFS_exists SPIFFS_open available h sk).2 by (by rewrite E). by apply player_file_inv.
  - replace sk' with (player_finish sk).2 by (by rewrite E). by apply finish_inv.
Qed.

Lemma sk_reachable_inv sk0 sk : sketch_inv lok sk0 ->
  sk_reachable ml file responseHTML SPIFFS_exists SPIFFS_open available sk0 sk -> sketch_inv lok sk.
Proof. intros H0' Hr. induction Hr as [|sk sk' _ IH Hst]; [done|by eapply sk_step_inv]. Qed.
End sketch_proofs.

(** ** Start-up *)

(** the table the built-in lokdef.csv gives *)
Definition builtin_table : list lokdef_t :=
  match readLokdef lokdef_csv with Ok t => t | Err _ => [] end.

(** One locomotive with ten functions, of which the headlight and the sound are
    on. *)
Example builtin_lokdef :
  readLokdef lokdef_csv = Ok builtin_table /\
  map (fun d => (addr d, name d, imgname d, nFunc d)) builtin_table =
    [(3, LOK_NAME, LOK_IMAGE, 10); (0, EmptyString, EmptyString, 0)] /\
  option_map (fun d => map (fun f => (f_name f, ison f)) (take 10 (Lokdef.func d))) (builtin_table !! 0%nat) =
    Some [("lHeadlight", true); ("sPfeife", false); (EmptyString, false); ("sSound ein/aus", true); (EmptyString, false);
          (EmptyString, false); (EmptyString, false); (EmptyString, false); (EmptyString, false); ("mMotor Boost", false)].
Proof. vm_compute. done. Qed.

Lemma builtin_table_ok : table_ok [3] builtin_table.
Proof.
  split; [by vm_compute| |].
  - destruct (builtin_table !! 1%nat) as [d|] eqn:E; [|vm_compute in E; discriminate].
    exists d. split; [by eapply list_elem_of_lookup_2|]. vm_compute in E. injection E as <-. done.
  - constructor; [|constructor]. split; [split; vm_compute; done|vm_compute; split; discriminate].
Qed.

(** the driver of a table of one locomotive that stands still *)
Lemma new_driver eeprom : exists t e,
  ESP32PWM_new false 0 (Audio0 eeprom) builtin_table = (Ok tt, (t, e)) /\
  table_ok [3] t /\ motor_sane e /\ @quiet unit (server_start t e).
Proof.
  pose proof (esp_sendLoco_ok false 0 [3] 0 false ltac:(cbn; lia) (builtin_table, ESP32PWM_members (Audio0 eeprom)) builtin_table_ok) as T.
  assert (motor_known (builtin_table, ESP32PWM_members (Audio0 eeprom))) as K0 by (split; [reflexivity|intros b [=]]).
  pose proof (sendLoco_known false 0 0 false _ K0) as K.
  unfold ESP32PWM_new. destruct (esp_sendLoco _ _ _ _ _) as [r [t e]] eqn:E. exists t, e.
  assert (r = Ok tt /\ @quiet unit (server_start t e)) as [-> Q].
  { vm_compute in E. injection E as <- <- <-. split; [done|]. split; [done|by left|]. by repeat constructor. }
  split_and!; [done|apply T|exact K|exact Q].
Qed.

Lemma setup_ready {S} `{ClientStream S} protocol_h fs eeprom sleeps hash :
  (load protocol_h MessageLayouts0).1 = Ok hash ->
  exists sk0, setup (S:=S) (readFile protocol_h fs) eeprom sleeps = Ok ((load protocol_h MessageLayouts0).2, sk0) /\
    sketch_inv 3 sk0.
Proof.
  intros E. unfold setup.
  change (readFile protocol_h fs "protocol.dat") with (Ok protocol_h).
  change (readFile protocol_h fs "conf/lokdef.csv") with (Ok lokdef_csv).
  cbn [mbind outcome_bind]. destruct (load protocol_h MessageLayouts0) as [r ml]. cbn in E. subst r. cbn [mbind outcome_bind].
  rewrite (proj1 builtin_lokdef). cbn [mbind outcome_bind].
  destruct (new_driver eeprom) as (t & e & -> & T & K & Q). eexists. split; [reflexivity|].
  split; cbn; [|exact K|done|by destruct Q].
  split; cbn; [done|by intros|by rewrite map_size_empty|by intros].
Qed.

Lemma readFile_safe protocol_h fs f : safe_result (readFile protocol_h fs f).
Proof. unfold readFile. repeat (case_match; try done). Qed.

#[export] Instance WiFiClient_safe {W} `{WiFiClient W} : StreamSafe W.
Proof. split; intros; cbn; [|done..]. unfold wifi_write. by destruct (wc_write _ _). Qed.

(** ** Properties *)

(** C16: From power-on, whatever clients do, however many come and go, with
    updates, web requests and the player in between, and with every content of
    the settings memory and the flash file system: the motor is never reversed
    without a stop, tables and client counter stay in order, the modem does not
    sleep while a client is served, and whenever no client is connected the motor
    has been stopped, the table says so and the engine sound is off or running
    down. *)
Theorem sketch_safe {S} `{StreamSafe S} protocol_h fs html open_file avail eeprom sleeps hash :
  (load protocol_h MessageLayouts0).1 = Ok hash ->
  exists ml sk0, setup (S:=S) (readFile protocol_h fs) eeprom sleeps = Ok (ml, sk0) /\
  forall sk, sk_reachable ml (readFile protocol_h fs) html (fs_exists fs) open_file avail sk0 sk ->
    stop_between (e_calls (sv_hw (sk_server sk))) /\ server_inv [3] (sk_server sk) /\
    (sv_clients (sk_server sk) <> ∅ -> sk_sleeps sk = false) /\
    (sv_clients (sk_server sk) = ∅ -> quiet (sk_server sk)).
Proof.
  intros E. destruct (setup_ready (S:=S) protocol_h fs eeprom sleeps hash E) as (sk0 & E0 & Hi).
  exists (load protocol_h MessageLayouts0).2, sk0. split; [exact E0|]. intros sk Hr.
  destruct (sk_reachable_inv _ _ _ (readFile_safe protocol_h fs) _ _ _ 3 _ _ Hi Hr) as [Hs Hm Ha Hq].
  split_and!; [apply motor_log_stop_between, Hm|done|done|done].
Qed.

Definition sample_fs : SPIFFS_t := mkSPIFFS (fun _ => true) (fun _ => 3) (fun _ => "abc").

Lemma sketch_safe_witness : exists ml sk0,
  setup (S:=BufferClient) (readFile protocol_dat sample_fs) [100; 1; 0; 90; 80] true = Ok (ml, sk0) /\
  (forall sk, sk_reachable ml (readFile protocol_dat sample_fs) "hi" (fun _ => true) Some (fun _ => 5) sk0 sk ->
    stop_between (e_calls (sv_hw (sk_server sk))) /\ server_inv [3] (sk_server sk) /\
    (sv_clients (sk_server sk) <> ∅ -> sk_sleeps sk = false) /\
    (sv_clients (sk_server sk) = ∅ -> quiet (sk_server sk))).
Proof. apply (sketch_safe protocol_dat sample_fs "hi" Some (fun _ => 5) [100; 1; 0; 90; 80] true 60178). vm_compute. reflexivity. Defined.

(** a visit: a client is accepted and its task has greeted it *)
Abbreviation sample_file := (readFile protocol_dat sample_fs).
Definition sample_client : BufferClient := mkBuffer [] [] [] true.
Definition sample_sk0 : Sketch BufferClient :=
  match setup sample_file [100; 1; 0; 90; 80] true with
  | Ok (_, sk) => sk
  | Err _ => mkSketch (server_start [] (ESP32PWM_members (Audio0 []))) [] [] false
  end.
Definition sample_sk1 : Sketch BufferClient := (loop EmptyString (Some sample_client) None true false sample_sk0).2.
Definition sample_sk : Sketch BufferClient := (startClientThread protocol true sample_client (set_tasks [] sample_sk1)).2.
Definition sample_th : Thread BufferClient :=
  default (mkThread None [] [] 0 0) (sv_clients (sk_server sample_sk) !! 1).

Lemma sample_sk_inv : sketch_inv 3 sample_sk.
Proof.
  destruct (setup_ready (S:=BufferClient) protocol_dat sample_fs [100; 1; 0; 90; 80] true 60178) as (sk0 & E & Hi);
    [vm_compute; reflexivity|].
  assert (sample_sk0 = sk0) as E0 by (unfold sample_sk0; by rewrite E).
  assert (sketch_inv 3 sample_sk1) as H1.
  { eapply (loop_inv EmptyString 3 (Some sample_client) None true false [] sample_sk0); [rewrite E0; exact Hi|]. unfold sample_sk1. reflexivity. }
  eapply (start_inv protocol 3 true sample_client (set_tasks [] sample_sk1)); [apply set_tasks_inv, H1|].
  unfold sample_sk. vm_compute. reflexivity.
Qed.

(** The engine sound starts with the client and is told to stop when it leaves
    without a word. *)
Example visit :
  let sk' := (task_turn protocol sample_file true 0 1 sample_th sample_sk).2 in
  let e := sv_hw (sk_server sample_sk) in let e' := sv_hw (sk_server sk') in
  (Audio_Player_run (e_audio e), target_fahrstufe (e_audio e), sv_numClients (sk_server sample_sk), sk_sleeps sample_sk) = (true, 0, 1, false) /\
  (Audio_Player_run (e_audio e'), target_fahrstufe (e_audio e'), sv_numClients (sk_server sk'), sk_sleeps sk') = (true, -1, 0, true) /\
  e_calls e' = [setmotor false 0; ledcWrite 2 255; ledcWrite 3 25; setmotor_stop].
Proof. vm_compute. done. Qed.

(** A client whose connection ends is removed, and whether or not others are
    connected the motor is stopped and the table says so. *)
Theorem leaving_stops {S} `{StreamSafe S} ml file lok m r id th w s (sk : Sketch S) :
  (forall f, safe_result (file f)) -> sketch_inv lok sk -> sv_clients (sk_server sk) !! id = Some th ->
  turn (H0:=ESP32PWM_hardware m (sv_numClients (sk_server sk)) r) ml TIMEOUT_SERVER id file (th_nLokdef th) (thread_view (sk_server sk) th)
    = (Err (Throw w), s) ->
  exists sk', task_turn ml file m r id th sk = (Ok tt, sk') /\ sketch_inv lok sk' /\
    sv_clients (sk_server sk') = delete id (sv_clients (sk_server sk)) /\
    motor_duty (e_calls (sv_hw (sk_server sk'))) = 0 /\ Forall (fun d => currspeed d = 0) (locos (sv_lokdef (sk_server sk'))).
Proof.
  intros Hf Hsk Hid E. destruct (turn_ok ml file Hf lok m r id th sk Hsk Hid) as [Hi Hk].
  unfold task_turn. cbn zeta. rewrite E in *. by apply (lost_client lok id th).
Qed.

Lemma leaving_stops_witness :
  exists sk', task_turn protocol sample_file true 0 1 sample_th sample_sk = (Ok tt, sk') /\ sketch_inv 3 sk' /\
    sv_clients (sk_server sk') = delete 1 (sv_clients (sk_server sample_sk)) /\
    motor_duty (e_calls (sv_hw (sk_server sk'))) = 0 /\ Forall (fun d => currspeed d = 0) (locos (sv_lokdef (sk_server sk'))).
Proof.
  eapply (leaving_stops protocol sample_file 3 true 0 1 sample_th _ _ sample_sk);
    [apply readFile_safe|apply sample_sk_inv|vm_compute; reflexivity|vm_compute; reflexivity].
Defined.

(** A client that comes back while the engine sound is running down hears it
    end: the player still runs, so that nothing is started, and the target stays
    at -1 until the next command. *)
Example reconnect_mutes :
  let sk' := (task_turn protocol sample_file true 0 1 sample_th sample_sk).2 in
  let sk2 := (startClientThread protocol true sample_client sk').2 in
  func_on SOUND_ON_OFF_FUNC (sv_lokdef (sk_server sk2)) = Ok true /\ sv_numClients (sk_server sk2) = 1 /\
  target_fahrstufe (e_audio (sv_hw (sk_server sk2))) = -1.
Proof. vm_compute. done. Qed.

(** ** Web requests *)

(** the text of a request: what arrives before the client is gone, without
    carriage returns *)
Fixpoint request (polls : list poll) : list ascii :=
  match polls with
  | [] | Gone :: _ => []
  | Idle :: polls' => request polls'
  | Received c :: polls' => if bool_decide (c = ascii_of_nat 13) then request polls' else c :: request polls'
  end.

(** the text has an empty line; [l] is what the current line has so far *)
Definition empty_line (l : string) (text : list ascii) : Prop :=
  (l = EmptyString /\ head text = Some newline) \/ exists t1 t2, text = t1 ++ newline :: newline :: t2.

Lemma empty_line_cons l c text :
  empty_line l (c :: text) <->
    if bool_decide (c = newline) then l = EmptyString \/ empty_line EmptyString text
    else empty_line (l +:+ String c EmptyString) text.
Proof.
  assert (l +:+ String c EmptyString <> EmptyString) as Hl by (by destruct l).
  unfold empty_line. case_bool_decide as Hc; cbn.
  - subst c. split.
    + intros [[-> _]|([|x t1] & t2 & E)]; [by left| |]; simplify_list_eq; right; [by left|right; eauto].
    + intros [->|[[_ Hh]|(t1 & t2 & ->)]]; [by left| |].
      * right. destruct text as [|x text]; [done|]. injection Hh as ->. by exists [], text.
      * right. by exists (newline :: t1), t2.
  - split.
    + intros [[_ [= ->]]|([|x t1] & t2 & E)]; [done| |]; simplify_list_eq; right; eauto.
    + intros [[? _]|(t1 & t2 & ->)]; [done|]. right. by exists (c :: t1), t2.
Qed.

Lemma handle_loop_spec html l polls :
  (empty_line l (request polls) -> handle_loop html l polls = Some (response html)) /\
  (~ empty_line l (request polls) -> handle_loop html l polls = if decide (Gone ∈ polls) then Some [] else None).
Proof.
  revert l. induction polls as [|p polls IH]; intros l; cbn [request handle_loop].
  - split; [|by intros]. intros [[_ ?]|([] & ? & ?)]; done.
  - destruct p as [| |c].
    + split; [|intros _; by rewrite decide_True by set_solver]. intros [[_ ?]|([] & ? & ?)]; done.
    + destruct (IH l) as [I1 I2]. split; [exact I1|]. intros Hn. rewrite (I2 Hn). apply decide_ext. set_solver.
    + assert ((if decide (Gone ∈ polls) then Some [] else None) = if decide (Gone ∈ Received c :: polls) then Some (A:=list string) [] else None) as Hd
        by (apply decide_ext; set_solver).
      destruct (decide (c = newline)) as [->|Hc].
      * rewrite (bool_decide_false (newline = ascii_of_nat 13)) by done. rewrite empty_line_cons, bool_decide_true by done.
        destruct (String.eqb_spec l EmptyString) as [->|Hl]; [tauto|].
        destruct (IH EmptyString) as [I1 I2]. split; [intros [?|?]; [done|auto]|]. intros Hn. rewrite <- Hd, I2; tauto.
      * rewrite (bool_decide_false (c = newline)) by done. case_bool_decide as Hr.
        { destruct (IH l) as [I1 I2]. split; [exact I1|]. intros Hn. rewrite <- Hd. by apply I2. }
        rewrite empty_line_cons, bool_decide_false by done. destruct (IH (l +:+ String c EmptyString)) as [I1 I2].
        split; [exact I1|]. intros Hn. rewrite <- Hd. by apply I2.
Qed.

(** A web request is answered with the page as soon as an empty line has
    arrived, and is left alone when its client goes before that; until one of
    the two happens [loop] does not return, and no other client is accepted. *)
Theorem web_answered html polls :
  (empty_line EmptyString (request polls) -> handleHTTPRequest html polls = Some (response html)) /\
  (~ empty_line EmptyString (request polls) -> handleHTTPRequest html polls = if decide (Gone ∈ polls) then Some [] else None).
Proof. apply handle_loop_spec. Qed.

Definition chars (s : string) : list poll := Received <$> String.list_ascii_of_string s.
Lemma web_answered_witness :
  let get := chars (println "GET / HTTP/1.1" +:+ println "Host: lok" +:+ println EmptyString) in
  handleHTTPRequest "page" (Idle :: get ++ [Gone]) = Some (response "page").
Proof.
  intros get. apply (web_answered "page" (Idle :: get ++ [Gone])). right.
  exists (String.list_ascii_of_string ("GET / HTTP/1.1" +:+ String newline "Host: lok")), []. vm_compute. reflexivity.
Defined.

(** ** Waiting for the network *)

Lemma wifi_wait_spec k w polls : 0 <= w <= 40 ->
  wifi_wait w (repeat false k ++ true :: polls) =
    Some (concat (repeat [WiFi_disconnect; WiFi_begin] (Z.to_nat ((w + Z.of_nat k) / 41)))).
Proof.
  revert w. induction k as [|k IH]; intros w Hw; cbn [repeat app wifi_wait].
  - rewrite Z.add_0_r, Z.div_small by lia. done.
  - destruct (Z.ltb_spec 40 (w + 1)).
    + rewrite IH by lia. replace (w + Z.of_nat (Datatypes.S k)) with (Z.of_nat k + 1 * 41) by lia.
      rewrite Z.div_add by lia. pose proof (Z.div_pos (Z.of_nat k) 41). rewrite Z2Nat.inj_add by lia.
      rewrite Nat.add_comm. cbn. done.
    + rewrite IH by lia. by replace (w + Z.of_nat (Datatypes.S k)) with (w + 1 + Z.of_nat k) by lia.
Qed.

(** However long the network is away, the sketch goes on trying: with [k]
    vain looks it disconnects and starts again after every 41 of them, and
    returns at the first look that finds the network. *)
Theorem wifi_retries k polls :
  init_wifi_client (repeat false k ++ true :: polls) =
    Some (WiFi_begin :: concat (repeat [WiFi_disconnect; WiFi_begin] (k / 41))).
Proof.
  unfold init_wifi_client. rewrite wifi_wait_spec by lia. change 41 with (Z.of_nat 41).
  by rewrite Z.add_0_l, <- Nat2Z.inj_div, Nat2Z.id.
Qed.
