(* ===== verification/Startup.v ===== *)
(** * bluetoothserver/main.cpp: start and end of the Linux server

    [main] reads the configuration, the protocol and the locomotives, looks for
    a board, falls back to an SRCP daemon, and runs the accept loop of
    server.cpp until a signal ends it.  Modelled with HAVE_LIBUSB and
    HAVE_RASPI_WIRINGPI, without ALSA, X11 and Bluetooth.  Looking for the
    devices and connecting to the daemon are parameters; the command line is
    left out. *)

From stdpp Require Import gmap.
From S2P Require Import Prelude StdMap CString Utils MessageLayout Message Stream Lokdef Hardware ParseExpr Platine K8055 USBDigispark RaspiPWM Srcp ClientThread ClientSafety ClientProps Server.

(** ** The driver *)

(** what [hardware] points to *)
Inductive driver (D : Type) : Type :=
  | use_K8055 (h : USBPlatine K8055)
  | use_Digispark (h : USBPlatine Digispark)
  | use_RaspiPWM (h : USBPlatine RaspiPWM)
  | use_SRCP (h : SRCP D).
Arguments use_K8055 {D}.
Arguments use_Digispark {D}.
Arguments use_RaspiPWM {D}.
Arguments use_SRCP {D}.

(** the devices of a machine *)
Record devices (D : Type) : Type := mkDevices {
  (** what [k8055_open_device] returns *)
  dev_k8055 : Z;
  (** opening the Digispark *)
  dev_digispark : outcome unit;
  dev_led : bool;
  dev_now : Z;
  (** connecting to the SRCP daemon *)
  dev_srcp : outcome (SRCP D);
}.
Arguments mkDevices {D}.
Arguments dev_k8055 {D}.
Arguments dev_digispark {D}.
Arguments dev_led {D}.
Arguments dev_now {D}.
Arguments dev_srcp {D}.

Section init.
Context {D : Type} (answer : string -> D -> option string * D).
Context (config : Config) (writeFile : string -> string -> outcome unit) (dev : devices D).

Definition boards : Type := list lokdef_t * option (driver D).

(** a constructor of a board: the base class, then the rest *)
Definition new_board {P} (rest : outcome P) : outcome (USBPlatine P) :=
  b ← USBPlatine_new config writeFile tt;
  p ← rest;
  Ok (mkUSB (powerMonitorVoltageFile b) (powerMonitoringVoltageMin b) (powerMonitoringVoltageMax b) p).

(** [try { ... } catch(std::exception &) { }] *)
Definition try_log (c : M boards unit) : M boards unit := fun w =>
  match c w with
  | (Err (Throw _), w') => (Ok tt, w')
  | r => r
  end.

Definition set_hardware (h : driver D) : M boards unit := modify (fun w => (w.1, Some h)).
(** an assignment to a member of [lokdef[i]] *)
Definition set_lok (i : nat) (f : lokdef_t -> lokdef_t) : M boards unit :=
  t ← gets fst;
  match t !! i with
  | None => fail (UB "lokdef[i]")
  | Some d => modify (fun w => (<[i:=f d]> w.1, w.2))
  end.
Definition set_addr (a : Z) (d : lokdef_t) : lokdef_t :=
  mkLok a (flags d) (name d) (nFunc d) (func d) (currspeed d) (currdir d) (initDone d) (imgname d) (lastClientID d).
Definition set_name (s : string) (d : lokdef_t) : lokdef_t :=
  mkLok (addr d) (flags d) s (nFunc d) (func d) (currspeed d) (currdir d) (initDone d) (imgname d) (lastClientID d).

(** [func[j]=lokdef[0].func[j].ison], then [setFunction] *)
Definition raspi_functions (h : USBPlatine RaspiPWM) : M boards (USBPlatine RaspiPWM) :=
  t ← gets fst;
  match t !! 0%nat with
  | None => fail (UB "lokdef[i]")
  | Some d =>
      f ← lift (copy_func (Z.to_nat (nFunc d)) 0 (func d) (repeat None 32));
      let '(r, p) := rp_setFunction (nFunc d) f (platine h) in
      lift r;;
      mret (mkUSB (powerMonitorVoltageFile h) (powerMonitoringVoltageMin h) (powerMonitoringVoltageMax h) p)
  end.

Definition initPlatine : M boards unit :=
  try_log (h ← lift (new_board (K8055_new (dev_k8055 dev)));
           set_hardware (use_K8055 h);;
           set_lok 0 (set_name "K8055");;
           set_lok 1 (set_addr 0));;
  try_log (h ← lift (new_board (dev_digispark dev;; Digispark_init config));
           set_hardware (use_Digispark h);;
           set_lok 1 (set_addr 0));;
  hw ← gets snd;
  match hw with
  | Some _ => mret tt
  | None =>
      try_log (h ← lift (new_board (RaspiPWM_new config (dev_led dev) (dev_now dev)));
               set_hardware (use_RaspiPWM h);;
               h ← raspi_functions h;
               set_hardware (use_RaspiPWM h);;
               set_lok 1 (set_addr 0))
  end.

(** [if(!hardware)]: the constructor of [SRCP_Hardware] *)
Definition init_srcp : M boards unit :=
  hw ← gets snd;
  match hw with
  | Some _ => mret tt
  | None =>
      match dev_srcp dev with
      | Err (Throw _) => fail (Abort "No hardware found ... terminating")
      | Err e => fail e
      | Ok s =>
          match SRCP_connect answer s with
          | (Ok _, s') => set_hardware (use_SRCP s')
          | (Err (Throw _), _) => fail (Abort "No hardware found ... terminating")
          | (Err e, _) => fail e
          end
      end
  end.
End init.

(** [main] up to the accept loop.  An exception while the configuration or the
    protocol is read is only logged; one from [readLokdef] is not caught. *)
Definition load_config (readFile : string -> outcome string) : outcome (Config * MessageLayouts) :=
  match readFile "conf/btserver.conf" with
  | Err (Throw _) => Ok ([], MessageLayouts0)
  | Err e => Err e
  | Ok text =>
      let config := Config_init text [] in
      match readFile "protocol.dat" with
      | Err (Throw _) => Ok (config, MessageLayouts0)
      | Err e => Err e
      | Ok protocolDat =>
          match load protocolDat MessageLayouts0 with
          | (Ok _, ml) | (Err (Throw _), ml) => Ok (config, ml)
          | (Err e, _) => Err e
          end
      end
  end.

Definition uncaught {A} (o : outcome A) : outcome A :=
  match o with Err (Throw w) => Err (Abort w) | _ => o end.

Definition main_start {D} (answer : string -> D -> option string * D) (readFile : string -> outcome string)
    (writeFile : string -> string -> outcome unit) (dev : devices D) : outcome (MessageLayouts * boards) :=
  '(config, ml) ← load_config readFile;
  t ← uncaught (csv ← readFile "conf/lokdef.csv"; readLokdef csv);
  match (initPlatine config writeFile dev;; init_srcp answer dev) (t, None) with
  | (Ok _, w) => Ok (ml, w)
  | (Err e, _) => uncaught (Err e)
  end.

(** ** Looking for a board *)

(** a constructor returns an object or throws *)
Definition polite {A} (o : outcome A) : Prop :=
  match o with Ok _ | Err (Throw _) => True | _ => False end.
Definition threw {A} (o : outcome A) : Prop := match o with Err (Throw _) => True | _ => False end.

(** [lokdef[1].addr=0] leaves the first locomotive *)
Lemma second_cleared a rest t : table_ok (a :: rest) t ->
  exists d, t !! 1%nat = Some d /\ table_ok [a] (<[1%nat:=set_addr 0 d]> t).
Proof.
  intros [A T L]. destruct t as [|d0 t]; [done|]. cbn in A, L. destruct (Z.eqb_spec (addr d0) 0) as [|H0]; [done|].
  injection A as A _. apply Forall_cons_1 in L as [L _].
  destruct T as (e & [->|He]%elem_of_cons & He0); [done|]. destruct t as [|d t]; [by apply elem_of_nil in He|].
  exists d. split; [done|]. cbn. split; cbn.
  - rewrite (proj2 (Z.eqb_neq _ _) H0). cbn. by rewrite A.
  - exists (set_addr 0 d). split; [set_solver|done].
  - rewrite (proj2 (Z.eqb_neq _ _) H0). by constructor.
Qed.

Lemma renamed_ok a rest t s : table_ok (a :: rest) t ->
  exists d, t !! 0%nat = Some d /\ lok_ok d /\ table_ok (a :: rest) (<[0%nat:=set_name s d]> t).
Proof.
  intros T. destruct (table_ok_index _ _ 0 T) as (d & Hd & Hok); [cbn; lia|]. change (Z.to_nat 0) with 0%nat in Hd.
  exists d. split; [by destruct (locos_lookup _ _ _ Hd)|]. split; [exact Hok|].
  eapply table_ok_insert; [done|exact Hd|done|]. destruct Hok as [[W1 W2] Sp]. by split.
Qed.

Lemma set_lok_run {D} i f t (h : option (driver D)) d : t !! i = Some d ->
  set_lok i f (t, h) = (Ok tt, (<[i:=f d]> t, h)).
Proof. intros E. unfold set_lok, mbind, M_bind, gets. cbn. by rewrite E. Qed.

Section board.
Context {D : Type} (config : Config) (writeFile : string -> string -> outcome unit) (dev : devices D).
Abbreviation k8055 := (new_board config writeFile (K8055_new (dev_k8055 dev))).
Abbreviation digispark := (new_board config writeFile (dev_digispark dev;; Digispark_init config)).
Abbreviation raspi := (new_board config writeFile (RaspiPWM_new config (dev_led dev) (dev_now dev))).

(** the three attempts, each on a table whose first locomotive is [a] *)
Lemma try_k8055 a rest t : table_ok (a :: rest) t -> polite k8055 ->
  match k8055 with
  | Ok h => exists t', table_ok [a] t' /\
      try_log (h ← lift k8055; set_hardware (use_K8055 h);; set_lok 0 (set_name "K8055");; set_lok 1 (set_addr 0)) (t, @None (driver D))
        = (Ok tt, (t', Some (use_K8055 h)))
  | Err _ => try_log (h ← lift k8055; set_hardware (use_K8055 h);; set_lok 0 (set_name "K8055");; set_lok 1 (set_addr 0)) (t, @None (driver D))
        = (Ok tt, (t, None))
  end.
Proof.
  intros T P. destruct k8055 as [h|[]]; try done.
  destruct (renamed_ok a rest t "K8055" T) as (d & E & _ & T1). destruct (second_cleared _ _ _ T1) as (d1 & E1 & T2).
  eexists. split; [exact T2|]. unfold try_log, lift, set_hardware, modify, mbind, M_bind. cbn -[set_lok].
  rewrite (set_lok_run _ _ _ _ _ E), (set_lok_run _ _ _ _ _ E1). done.
Qed.

Lemma try_digispark a rest t hw : table_ok (a :: rest) t -> polite digispark ->
  match digispark with
  | Ok h => exists t', table_ok [a] t' /\
      try_log (h ← lift digispark; set_hardware (use_Digispark h);; set_lok 1 (set_addr 0)) (t, hw) = (Ok tt, (t', Some (use_Digispark (D:=D) h)))
  | Err _ => try_log (h ← lift digispark; set_hardware (use_Digispark h);; set_lok 1 (set_addr 0)) (t, hw) = (Ok tt, (t, hw))
  end.
Proof.
  intros T P. destruct digispark as [h|[]]; try done.
  destruct (second_cleared _ _ _ T) as (d1 & E1 & T2).
  eexists. split; [exact T2|]. unfold try_log, lift, set_hardware, modify, mbind, M_bind. cbn -[set_lok].
  rewrite (set_lok_run _ _ _ _ _ E1). done.
Qed.

(** the functions the board is told are those of the first locomotive *)
Definition told_functions (t : list lokdef_t) (h : USBPlatine RaspiPWM) : Prop :=
  exists d, t !! 0%nat = Some d /\ rp_nFunc (platine h) = nFunc d /\
    forall i, (i < Z.to_nat (nFunc d))%nat -> currentFunc (platine h) !! i = (Some ∘ ison) <$> func d !! i.

Lemma try_raspi a rest t : table_ok (a :: rest) t -> polite raspi ->
  let c := try_log (h ← lift raspi; set_hardware (use_RaspiPWM h);; h ← raspi_functions h;
                    set_hardware (use_RaspiPWM h);; set_lok 1 (set_addr 0)) (t, @None (driver D)) in
  match raspi with
  | Ok _ => exists t' h', table_ok [a] t' /\ told_functions t h' /\ c = (Ok tt, (t', Some (use_RaspiPWM h')))
  | Err _ => c = (Ok tt, (t, None))
  end.
Proof.
  intros T P. cbn zeta. destruct raspi as [h|[]]; try done.
  destruct (table_ok_index _ _ 0 T) as (d & Hd & [[W1 W2] _]); [cbn; lia|].
  apply locos_lookup in Hd as [E _]. change (Z.to_nat 0) with 0%nat in E.
  destruct (second_cleared _ _ _ T) as (d1 & E1 & T2).
  destruct (copy_func_ok (Z.to_nat (nFunc d)) 0 (func d) (repeat None 32)) as (f & Ef & Hl & Hf);
    [rewrite W2; unfold MAX_NFUNC in *; lia|rewrite repeat_length; unfold MAX_NFUNC in *; lia|].
  eexists _, _. split; [exact T2|]. split; cycle 1.
  - unfold try_log, raspi_functions, lift, set_hardware, modify, gets, mbind, M_bind. cbn -[set_lok copy_func repeat].
    rewrite E. cbn -[set_lok copy_func repeat]. rewrite Ef. cbn -[set_lok].
    rewrite (set_lok_run _ _ _ _ _ E1). reflexivity.
  - exists d. split; [exact E|]. split; [done|]. intros i Hi. cbn. rewrite Hf. by rewrite decide_True by lia.
Qed.
End board.

(** ** The process *)

(** where the main thread is: in the loop of [Server::run], in
    [Server::waitExit], or behind it, where [deletePlatine] is called *)
Inductive phase : Type := Accepting | Waiting | Finished.

Record Proc (H S : Type) : Type := mkProc {
  p_server : Server H S;
  (** entries of [Server::clients] whose thread could not be created *)
  p_failed : gset Z;
  (** threads [pthread_cancel] was called for *)
  p_cancelled : gset Z;
  p_isrunning : bool;
  p_exit : bool;
  p_main : phase;
}.
Arguments mkProc {H S}.
Arguments p_server {H S}.
Arguments p_failed {H S}.
Arguments p_cancelled {H S}.
Arguments p_isrunning {H S}.
Arguments p_exit {H S}.
Arguments p_main {H S}.

Section process.
Context {H S : Type} `{Hardware H} `{ClientStream S}.
Context (ml : MessageLayouts) (cfg_tcpTimeout : Z) (readFile : string -> outcome string).
Implicit Types (p : Proc H S) (sv : Server H S).

Definition with_server sv p : Proc H S := mkProc sv (p_failed p) (p_cancelled p) (p_isrunning p) (p_exit p) (p_main p).

(** [accept] returned a socket, but [pthread_create] failed: the entry of the
    client stays *)
Definition create_failed p : Proc H S :=
  let sv := p_server p in
  mkProc (mkServer (sv_lokdef sv) (sv_hw sv) (sv_clients sv) (sv_numClients sv) (sv_clientID_counter sv + 1))
    ({[sv_clientID_counter sv]} ∪ p_failed p) (p_cancelled p) (p_isrunning p) (p_exit p) (p_main p).

(** [accept] returned -1: the call was interrupted *)
Definition interrupted p : Proc H S :=
  if p_exit p then mkProc (p_server p) (p_failed p) (p_cancelled p) false (p_exit p) Waiting else p.

(** [accept] threw; [main] catches the exception and goes to [waitExit] *)
Definition accept_threw p : Proc H S :=
  mkProc (p_server p) (p_failed p) (p_cancelled p) (p_isrunning p) (p_exit p) Waiting.

(** [setExit], called by the signal handler *)
Definition setExit p : Proc H S :=
  mkProc (p_server p) (p_failed p) (dom (sv_clients (p_server p)) ∪ p_cancelled p) (p_isrunning p) true (p_main p).

(** a cancelled thread unwinds its stack: [~ClientThread], then the cleanup
    handler with [clientDone] *)
Definition unwound (id : Z) (th : Thread S) p : Proc H S :=
  with_server (drop_client id (thread_view (p_server p) th) (p_server p)) p.

(** [waitExit] found [isrunning] false and the map empty *)
Definition exit_ready p : bool :=
  negb (p_isrunning p) && bool_decide (sv_clients (p_server p) = ∅) && bool_decide (p_failed p = ∅).
Definition finish p : Proc H S :=
  mkProc (p_server p) (p_failed p) (p_cancelled p) (p_isrunning p) (p_exit p) Finished.

Inductive p_step : Proc H S -> Proc H S -> Prop :=
  | p_accept client p sv' : p_main p = Accepting ->
      accept_client ml client (p_server p) = (Ok tt, sv') -> p_step p (with_server sv' p)
  | p_create p : p_main p = Accepting -> p_step p (create_failed p)
  | p_interrupt p : p_main p = Accepting -> p_step p (interrupted p)
  | p_throw p : p_main p = Accepting -> p_step p (accept_threw p)
  (** cancelling a thread that does not exist has no defined behaviour *)
  | p_signal p : p_main p <> Finished -> p_failed p = ∅ -> p_step p (setExit p)
  | p_message id th p sv' : p_main p <> Finished -> sv_clients (p_server p) !! id = Some th ->
      client_turn ml cfg_tcpTimeout readFile id th (p_server p) = (Ok tt, sv') -> p_step p (with_server sv' p)
  | p_unwind id th p : p_main p <> Finished -> sv_clients (p_server p) !! id = Some th -> id ∈ p_cancelled p ->
      p_step p (unwound id th p)
  | p_exits p : p_main p = Waiting -> exit_ready p = true -> p_step p (finish p).

(** [Server::run] has been entered *)
Definition proc_start (t : list lokdef_t) (h : H) : Proc H S := mkProc (server_start t h) ∅ ∅ true false Accepting.
End process.

(** ** The invariant of the process *)

Record proc_inv {S} (addrs : list Z) (h : Recorder) (p : Proc Recorder S) : Prop := mkProcInv {
  pi_server : server_inv addrs (p_server p);
  (** without clients the driver was never used, or was stopped last *)
  pi_stopped : sv_clients (p_server p) = ∅ -> sv_hw (p_server p) = h \/ stopped (p_server p);
  pi_exit : p_isrunning p = false -> p_exit p = true;
  pi_finished : p_main p = Finished -> exit_ready p = true;
}.

Section process_inv.
Context {S : Type} `{StreamSafe S}.
Context (ml : MessageLayouts) (timeout : Z) (readFile : string -> outcome string).
Context (readFile_safe : forall f, safe_result (readFile f)).
Context (addrs : list Z) (h : Recorder).
Implicit Types (p : Proc Recorder S).

Lemma with_server_inv sv p : proc_inv addrs h p -> p_main p <> Finished -> server_inv addrs sv ->
  (sv_clients sv = ∅ -> stopped sv) -> proc_inv addrs h (with_server sv p).
Proof. intros [Hs Ht He Hf] Hm Hsv Hst. split; cbn; [done|by right; auto|done|done]. Qed.

Lemma p_step_inv p p' : proc_inv addrs h p -> p_step ml timeout readFile p p' -> proc_inv addrs h p'.
Proof.
  intros Hi Hst. pose proof (pi_server _ _ _ Hi) as Hs.
  destruct Hst as [client p sv' Hm E|p Hm|p Hm|p Hm|p Hm Hf|id th p sv' Hm Hid E|id th p Hm Hid Hc|p Hm Hr].
  - apply with_server_inv; [done|congruence| |].
    + eapply (step_inv ml timeout readFile readFile_safe); [exact Hs|by eapply step_accept].
    + intros He. by eapply accept_last_stops.
  - destruct Hi as [_ Ht He Hfin]. split; cbn; [|exact Ht|exact He|congruence].
    destruct Hs as [T Th Cn Ids]. split; cbn; [done|exact Th|done|]. intros id th Hl. apply Ids in Hl. lia.
  - unfold interrupted. destruct (p_exit p) eqn:Ex; [|done]. destruct Hi as [_ Ht He Hfin]. by split.
  - destruct Hi as [_ Ht He Hfin]. by split.
  - destruct Hi as [_ Ht He Hfin]. split; cbn; [done|exact Ht|done|done].
  - apply with_server_inv; [done|done| |].
    + eapply (step_inv ml timeout readFile readFile_safe); [exact Hs|by eapply step_turn].
    + intros He. by eapply turn_last_stops.
  - apply with_server_inv; [done|done| |].
    + apply drop_known_inv; [done|apply Hs|eauto].
    + intros He. eapply drop_empty_stops; eauto.
  - destruct Hi as [_ Ht He Hfin]. split; cbn; [done|exact Ht|exact He|]. intros _. exact Hr.
Qed.

Lemma p_reachable_inv t p : table_ok addrs t -> rtc (p_step ml timeout readFile) (proc_start t h) p -> proc_inv addrs h p.
Proof.
  intros T. apply (rtc_ind_r (proc_inv addrs h) (proc_start t h)).
  - split; cbn; [|by left|done|done]. split; cbn; [done|by intros|by rewrite map_size_empty|by intros].
  - intros y z _ Hyz Hy. by eapply p_step_inv.
Qed.
End process_inv.

(** the cancelled threads leave one after the other *)
Lemma all_unwind {H S} `{Hardware H} `{ClientStream S} ml timeout readFile n (p : Proc H S) :
  size (sv_clients (p_server p)) = n -> p_main p = Waiting -> p_isrunning p = false -> p_failed p = ∅ ->
  dom (sv_clients (p_server p)) ⊆ p_cancelled p ->
  exists p', nsteps (p_step ml timeout readFile) (n + 1) p p' /\ p_main p' = Finished.
Proof.
  revert p. induction n as [|n IH]; intros p Hn Hm Hr Hf Hc.
  - apply map_size_empty_inv in Hn. exists (finish p). split; [|done]. apply nsteps_once, p_exits; [done|].
    unfold exit_ready. rewrite Hr, Hn, Hf. by rewrite !bool_decide_true by done.
  - destruct (map_choose (sv_clients (p_server p))) as (id & th & Hid); [intros E; rewrite E, map_size_empty in Hn; lia|].
    assert (id ∈ p_cancelled p) as Hin by (apply Hc, elem_of_dom; eauto).
    assert (sv_clients (p_server (unwound id th p)) = delete id (sv_clients (p_server p))) as Ed.
    { unfold unwound, drop_client. by destruct (destruct_thread _ _ _). }
    destruct (IH (unwound id th p)) as (p' & Hp & Hfin); [| exact Hm | exact Hr | exact Hf | |].
    + rewrite Ed, map_size_delete_Some by eauto. lia.
    + rewrite Ed, dom_delete_L. cbn. set_solver.
    + exists p'. split; [|done]. eapply nsteps_l; [|exact Hp]. apply p_unwind; congruence.
Qed.

(** ** Leaving

    The steps with which the process gets nearer to its end: a cancelled thread
    unwinds, [waitExit] returns. *)
Section leaving.
Context {H S : Type} `{Hardware H} `{ClientStream S}.
Context (ml : MessageLayouts) (timeout : Z) (readFile : string -> outcome string).
Implicit Types (p q : Proc H S).

Inductive leaving p : Proc H S -> Prop :=
  | leave_thread id th : p_main p <> Finished -> sv_clients (p_server p) !! id = Some th -> id ∈ p_cancelled p ->
      leaving p (unwound id th p)
  | leave_main : p_main p = Waiting -> exit_ready p = true -> leaving p (finish p).

Lemma leaving_step p q : leaving p q -> p_step ml timeout readFile p q.
Proof. intros [id th Hm Hid Hc|Hm Hr]; [by apply p_unwind|by apply p_exits]. Qed.

(** a schedule of the process, with the number of leaving steps in it *)
Inductive scheduled : nat -> Proc H S -> Proc H S -> Prop :=
  | sched_end p : scheduled 0 p p
  | sched_leave n p q r : leaving p q -> scheduled n q r -> scheduled (Datatypes.S n) p r
  | sched_other n p q r : p_step ml timeout readFile p q -> scheduled n q r -> scheduled n p r.

(** the main thread has left the accept loop and every client is cancelled *)
Definition shutting p : Prop :=
  p_failed p = ∅ /\ p_isrunning p = false /\ dom (sv_clients (p_server p)) ⊆ p_cancelled p /\
  (p_main p = Waiting \/ p_main p = Finished /\ sv_clients (p_server p) = ∅).

(** the leaving steps that are left *)
Definition rank p : nat :=
  (size (sv_clients (p_server p)) + match p_main p with Finished => 0 | _ => 1 end)%nat.

Lemma unwound_clients id th p : sv_clients (p_server (unwound id th p)) = delete id (sv_clients (p_server p)).
Proof. unfold unwound, drop_client. by destruct (destruct_thread _ _ _). Qed.

Lemma client_turn_clients id th sv sv' : sv_clients sv !! id = Some th ->
  client_turn ml timeout readFile id th sv = (Ok tt, sv') ->
  dom (sv_clients sv') ⊆ dom (sv_clients sv) /\ (size (sv_clients sv') <= size (sv_clients sv))%nat.
Proof.
  intros Hid. unfold client_turn. destruct (turn _ _ _ _ _ _) as [[u|[]] s]; try done; intros [= <-].
  - unfold keep_client. cbn. rewrite dom_insert_L, map_size_insert_Some by eauto.
    split; [|done]. assert (id ∈ dom (sv_clients sv)) by (apply elem_of_dom; eauto). set_solver.
  - unfold drop_client. destruct (destruct_thread _ _ _). cbn. rewrite dom_delete_L, map_size_delete_Some by eauto.
    split; [set_solver|lia].
Qed.

Lemma shutting_step p q : shutting p -> p_step ml timeout readFile p q -> shutting q /\ (rank q <= rank p)%nat.
Proof.
  intros (Hf & Hr & Hc & Hm) Hst. unfold shutting, rank.
  destruct Hst as [client p sv' Ha E|p Ha|p Ha|p Ha|p Hn _|id th p sv' Hn Hid E|id th p Hn Hid Hin|p Hw He];
    try (exfalso; destruct Hm as [?|[? _]]; congruence); destruct Hm as [Hm|[? _]]; try congruence; cbn; rewrite ?Hm.
  - split_and!; [done|done|set_solver|by left|lia].
  - destruct (client_turn_clients id th _ _ Hid E) as [Hd Hs]. split_and!; [done|done|set_solver|by left|lia].
  - change (drop_client id _ _) with (p_server (unwound id th p)). rewrite unwound_clients, dom_delete_L.
    split_and!; [done|done|set_solver|by left|]. rewrite map_size_delete_Some by eauto. lia.
  - unfold exit_ready in He. apply andb_true_iff in He as [[_ He]%andb_true_iff _]. apply bool_decide_eq_true_1 in He.
    split_and!; [done|done|done|by right|lia].
Qed.

Lemma leaving_rank p q : shutting p -> leaving p q -> (rank q < rank p)%nat.
Proof.
  intros _ [id th Hn Hid Hin|Hm He]; unfold rank.
  - rewrite unwound_clients, map_size_delete_Some by eauto. cbn.
    assert (size (sv_clients (p_server p)) <> 0)%nat by (rewrite map_size_non_empty_iff; intros E; by rewrite E in Hid).
    destruct (p_main p); lia.
  - cbn. rewrite Hm. lia.
Qed.

Lemma leaving_enabled p : shutting p -> p_main p <> Finished -> exists q, leaving p q.
Proof.
  intros (Hf & Hr & Hc & Hm) Hn. destruct Hm as [Hm|[? _]]; [|done].
  destruct (decide (sv_clients (p_server p) = ∅)) as [E|E].
  - exists (finish p). apply leave_main; [done|]. unfold exit_ready. rewrite Hr, E, Hf. by rewrite !bool_decide_true by done.
  - destruct (map_choose _ E) as (id & th & Hid). exists (unwound id th p). apply leave_thread; [done|done|].
    apply Hc, elem_of_dom. eauto.
Qed.

Lemma shutting_scheduled n p q : scheduled n p q -> shutting p -> shutting q /\ (rank q + n <= rank p)%nat.
Proof.
  induction 1 as [p|n p q r Hl _ IH|n p q r Hs _ IH]; intros Hp; [split; [done|lia]| |].
  - destruct (shutting_step p q Hp (leaving_step _ _ Hl)) as [Hq _]. pose proof (leaving_rank p q Hp Hl).
    destruct (IH Hq). split; [done|lia].
  - destruct (shutting_step p q Hp Hs) as [Hq ?]. destruct (IH Hq). split; [done|lia].
Qed.
End leaving.

(** ** Properties *)

(** Looking for a board ends with the Digispark if there is one, otherwise
    with the K8055, otherwise with the PWM of the Raspberry Pi, which is told the
    functions of the table, and otherwise with none.  With a board exactly the
    first locomotive of lokdef.csv is left in the table, without one the table is
    as it was read. *)
Theorem board_chosen {D} config writeFile (dev : devices D) a rest t :
  let k8055 := new_board config writeFile (K8055_new (dev_k8055 dev)) in
  let digispark := new_board config writeFile (dev_digispark dev;; Digispark_init config) in
  let raspi := new_board config writeFile (RaspiPWM_new config (dev_led dev) (dev_now dev)) in
  table_ok (a :: rest) t -> polite k8055 -> polite digispark -> polite raspi ->
  exists t' hw, initPlatine config writeFile dev (t, None) = (Ok tt, (t', hw)) /\
    match hw with
    | Some h => table_ok [a] t' /\
        match h with
        | use_Digispark b => digispark = Ok b
        | use_K8055 b => k8055 = Ok b /\ threw digispark
        | use_RaspiPWM b => threw k8055 /\ threw digispark /\ (exists b0, raspi = Ok b0) /\ told_functions t b
        | use_SRCP _ => False
        end
    | None => t' = t /\ threw k8055 /\ threw digispark /\ threw raspi
    end.
Proof.
  cbn zeta. intros T Pk Pd Pr. unfold initPlatine.
  pose proof (try_k8055 config writeFile dev a rest t T Pk) as Hk.
  destruct (new_board _ _ (K8055_new _)) as [hk|[]] eqn:Ek; try done; cbn [threw].
  - destruct Hk as (t1 & T1 & Hk). rewrite (run_bind _ _ _ _ _ Hk).
    pose proof (try_digispark config writeFile dev a [] t1 (Some (use_K8055 hk)) T1 Pd) as Hd.
    destruct (new_board _ _ (_;; Digispark_init _)) as [hd|[]]; try done.
    + destruct Hd as (t2 & T2 & Hd). rewrite (run_bind _ _ _ _ _ Hd). by eexists _, _.
    + rewrite (run_bind _ _ _ _ _ Hd). by eexists _, _.
  - rewrite (run_bind _ _ _ _ _ Hk).
    pose proof (try_digispark config writeFile dev a rest t None T Pd) as Hd.
    destruct (new_board _ _ (_;; Digispark_init _)) as [hd|[]]; try done.
    + destruct Hd as (t2 & T2 & Hd). rewrite (run_bind _ _ _ _ _ Hd). by eexists _, _.
    + rewrite (run_bind _ _ _ _ _ Hd). pose proof (try_raspi config writeFile dev a rest t T Pr) as Hr. cbn zeta in Hr.
      erewrite run_bind by reflexivity. cbn [snd].
      destruct (new_board _ _ (RaspiPWM_new _ _ _)) as [hr|[]]; try done.
      * destruct Hr as (t' & h' & T' & Hf & ->). eexists _, _. split; [reflexivity|]. split; [exact T'|]. split_and!; [done|done|by eexists|exact Hf].
      * rewrite Hr. by eexists _, _.
Qed.

Definition no_write (f v : string) : outcome unit := Ok tt.
Definition sample_config : Config := Config_init ("digispark.motorStart = 20" +:+ String newline "") [].
Definition sample_devices : devices unit := mkDevices 0 (Ok tt) false 0 (Err (Throw "connection refused")).

Lemma board_chosen_witness : exists t' hw,
  initPlatine sample_config no_write sample_devices (sample_table, None) = (Ok tt, (t', hw)) /\ table_ok [3] t'.
Proof.
  destruct (board_chosen sample_config no_write sample_devices 3 [12] sample_table) as (t' & hw & E & Hw);
    [apply sample_table_ok|vm_compute; exact I|vm_compute; exact I|vm_compute; exact I|].
  exists t', hw. split; [exact E|]. destruct hw as [hh|]; [apply Hw|]. destruct Hw as (_ & Ht & _). vm_compute in Ht. destruct Ht.
Defined.

(** A lokdef.csv without a locomotive has only the end marker: with a board
    [lokdef[1]] is written behind the table. *)
Example empty_table_overrun :
  (initPlatine sample_config no_write sample_devices ([lokdef0], None)).1 = Err (UB "lokdef[i]").
Proof. vm_compute. reflexivity. Qed.

(** C18: The driver is deleted only when a signal has asked for it, every client
    thread has left and unregistered, and the driver was never used or was told to
    stop all locomotives last; nothing happens afterwards. *)
Theorem shutdown_safe {S} `{StreamSafe S} ml timeout readFile addrs t (h : Recorder) (p : Proc Recorder S) :
  (forall f, safe_result (readFile f)) -> table_ok addrs t ->
  rtc (p_step ml timeout readFile) (proc_start t h) p -> p_main p = Finished ->
  p_exit p = true /\ sv_clients (p_server p) = ∅ /\ sv_numClients (p_server p) = 0 /\
  (sv_hw (p_server p) = h \/ stopped (p_server p)) /\ forall p', ~ p_step ml timeout readFile p p'.
Proof.
  intros Hf T Hr Hfin. destruct (p_reachable_inv ml timeout readFile Hf addrs h t p T Hr) as [Hs Ht He Hx].
  specialize (Hx Hfin). unfold exit_ready in Hx. apply andb_true_iff in Hx as [[Hx1 Hx2]%andb_true_iff _].
  apply negb_true_iff in Hx1. apply bool_decide_eq_true_1 in Hx2.
  split_and!; [auto|done|by rewrite (inv_count _ _ Hs), Hx2, map_size_empty|auto|].
  intros p' Hst. destruct Hst; congruence.
Qed.

(** the server with one client, a signal arrives *)
Definition sample_proc : Proc Recorder TCPClient := mkProc sample_server ∅ ∅ true false Accepting.
Lemma sample_proc_reachable :
  rtc (p_step protocol 10 (fun _ => Ok EmptyString)) (proc_start sample_table (mkRecorder [] false)) sample_proc.
Proof.
  apply rtc_once. refine (p_accept _ _ _ (sample_socket []) (proc_start sample_table (mkRecorder [] false)) sample_server _ _); [done|].
  vm_compute. reflexivity.
Qed.

Lemma shutdown_safe_witness : exists p : Proc Recorder TCPClient, p_main p = Finished /\
  p_exit p = true /\ sv_clients (p_server p) = ∅ /\ sv_numClients (p_server p) = 0 /\
  (sv_hw (p_server p) = mkRecorder [] false \/ stopped (p_server p)) /\
  forall p', ~ p_step protocol 10 (fun _ => Ok EmptyString) p p'.
Proof.
  destruct (all_unwind protocol 10 (fun _ => Ok EmptyString) 1 (interrupted (setExit sample_proc))) as (p & Hp & Hfin);
    [vm_compute; reflexivity|reflexivity|reflexivity|reflexivity|cbn; set_solver|].
  exists p. split; [exact Hfin|].
  apply (shutdown_safe protocol 10 (fun _ => Ok EmptyString) [3; 12] sample_table (mkRecorder [] false) p);
    [done|apply sample_table_ok| |exact Hfin].
  etrans; [apply sample_proc_reachable|]. eapply rtc_l; [apply p_signal; [done|reflexivity]|].
  eapply rtc_l; [by apply p_interrupt|]. by eapply rtc_nsteps_2.
Defined.

(** C34: Shutting down, for every schedule: when every thread could be created, a
    signal cancels all clients, and the accept loop, interrupted before it has
    accepted another client ([late_client_stays]), is left.  From then on, whatever happens in
    which order (cancelled clients that are still served, clients that leave by
    themselves, further signals): with [n] clients at most [n + 1] leaving steps
    (a cancelled thread unwinds, [waitExit] returns) can happen, after that many
    the process has ended, and until it has ended such a step is possible.  So
    every schedule that does not put off the cancelled threads and the main
    thread for ever ends the process. *)
Theorem shutdown_ends {H S} `{Hardware H} `{ClientStream S} ml timeout readFile (p q : Proc H S) k :
  p_main p = Accepting -> p_failed p = ∅ -> scheduled ml timeout readFile k (interrupted (setExit p)) q ->
  p_step ml timeout readFile p (setExit p) /\ p_step ml timeout readFile (setExit p) (interrupted (setExit p)) /\
  (k <= size (sv_clients (p_server p)) + 1)%nat /\
  (k = (size (sv_clients (p_server p)) + 1)%nat -> p_main q = Finished) /\
  (p_main q = Finished \/ exists q', leaving q q').
Proof.
  intros Hm Hf Hs. assert (shutting (interrupted (setExit p))) as Hp by (split_and!; [exact Hf|done|cbn; set_solver|by left]).
  destruct (shutting_scheduled _ _ _ _ _ _ Hs Hp) as [Hq Hk].
  change (rank (interrupted (setExit p))) with (size (sv_clients (p_server p)) + 1)%nat in Hk.
  split_and!; [apply p_signal; [congruence|done]|by apply p_interrupt|lia| |].
  - intros ->. unfold rank in Hk. destruct (p_main q); [lia|lia|done].
  - destruct (p_main q) eqn:E; [right|right|by left]; apply leaving_enabled; congruence.
Qed.

(** one client, which unwinds; then the main thread returns *)
Lemma shutdown_ends_witness : exists q : Proc Recorder TCPClient,
  scheduled protocol 10 (fun _ => Ok EmptyString) 2 (interrupted (setExit sample_proc)) q /\ p_main q = Finished.
Proof.
  set (p1 := interrupted (setExit sample_proc)).
  destruct (map_choose (sv_clients (p_server p1))) as (id & th & Hid); [vm_compute; discriminate|].
  assert (id ∈ p_cancelled p1) as Hin by (assert (id ∈ dom (sv_clients (p_server p1))) by (apply elem_of_dom; eauto); cbn in *; set_solver).
  assert (scheduled protocol 10 (fun _ => Ok EmptyString) 2 p1 (finish (unwound id th p1))) as Hs.
  { eapply sched_leave; [by apply leave_thread|]. eapply sched_leave; [|apply sched_end]. apply leave_main; [done|].
    unfold exit_ready. rewrite unwound_clients. change (p_isrunning (unwound id th p1)) with false.
    change (p_failed (unwound id th p1)) with (∅ : gset Z).
    assert (delete id (sv_clients (p_server p1)) = ∅) as ->; [|by rewrite !bool_decide_true].
    apply map_size_empty_inv. rewrite map_size_delete_Some by eauto. reflexivity. }
  exists (finish (unwound id th p1)). split; [exact Hs|].
  refine (proj1 (proj2 (proj2 (proj2 (shutdown_ends protocol 10 (fun _ => Ok EmptyString) sample_proc _ 2 _ _ Hs)))) _); reflexivity.
Defined.

(** A client that is accepted between the signal and the return of [accept] is
    not cancelled: no leaving step is possible until it leaves by itself. *)
Lemma late_client_stays :
  let p0 : Proc Recorder TCPClient := setExit (proc_start sample_table (mkRecorder [] false)) in
  let p := interrupted (with_server sample_server p0) in
  p_step protocol 10 (fun _ => Ok EmptyString) p0 (with_server sample_server p0) /\
  p_step protocol 10 (fun _ => Ok EmptyString) (with_server sample_server p0) p /\
  p_main p = Waiting /\ forall q, ~ leaving p q.
Proof.
  cbn zeta. split_and!; [|by apply p_interrupt|reflexivity|].
  - refine (p_accept _ _ _ (sample_socket []) _ sample_server _ _); [done|]. vm_compute. reflexivity.
  - intros q [id th _ _ Hin|_ He]; [cbn in Hin; set_solver|]. vm_compute in He. done.
Qed.

Lemma blocked_not_ready {H S} (p : Proc H S) :
  (p_main p = Waiting /\ p_isrunning p = true) \/ p_failed p <> ∅ -> exit_ready p = false.
Proof.
  unfold exit_ready. intros [[_ ->]|Hb]; [done|]. by rewrite (bool_decide_false (p_failed p = ∅)), andb_false_r by done.
Qed.

(** When [accept] has thrown, or when a thread could not be created, the
    process never ends: [waitExit] waits for [isrunning], which nobody resets any
    more, or for an entry of [clients], which nobody removes, whatever signals
    arrive. *)
Theorem exit_blocked {H S} `{Hardware H} `{ClientStream S} ml timeout readFile (p p' : Proc H S) :
  p_main p <> Finished -> (p_main p = Waiting /\ p_isrunning p = true) \/ p_failed p <> ∅ ->
  rtc (p_step ml timeout readFile) p p' -> p_main p' <> Finished.
Proof.
  intros Hm Hb. intros Hr.
  enough (p_main p' <> Finished /\ ((p_main p' = Waiting /\ p_isrunning p' = true) \/ p_failed p' <> ∅)) by tauto.
  induction Hr as [p|p q r Hpq Hqr IH]; [done|]. apply IH.
  - pose proof (blocked_not_ready p Hb). destruct Hpq; cbn; try done; [by unfold interrupted; destruct (p_exit p)|congruence].
  - pose proof (blocked_not_ready p Hb).
    destruct Hpq; cbn; try (destruct Hb as [[? ?]|?]; [left; split; congruence|by right]); [set_solver|].
    unfold interrupted. destruct Hb as [[? ?]|?]; [congruence|]. right. by destruct (p_exit p).
Qed.

Lemma exit_blocked_witness :
  let p := accept_threw sample_proc in
  p_main (setExit p) <> Finished.
Proof.
  intros p. apply (exit_blocked protocol 10 (fun _ => Ok EmptyString) p); [done|by left|].
  apply rtc_once, p_signal; [done|reflexivity].
Defined.
