(* ===== verification/ControlClient.v ===== *)
(** * control-esp32: the handheld controller

    [remoteLokdef.cpp] (the copy of the locomotive table the controller keeps),
    [ControlClientThread.cpp] (the connection: a queue of commands, one reply
    per command) and the speed control of [GuiViewControlLoco]; the views around
    it are in GuiViews.  The build defines DISABLE_FUNC_IMGNAME. *)

From Stdlib Require Import Ascii.
From S2P Require Import Prelude StdMap CString Utils MessageLayout Message Stream Lokdef Hardware ParseExpr Platine ClientThread.

(** ** remoteLokdef.cpp *)

(** [reply["info"]...]: an access that succeeds leaves the message as it was,
    one that fails ends the caller *)
Definition info_size (reply : FBTCtlMessage) : outcome Z := (at_field "info" getArraySize reply).1.
Definition info_int (reply : FBTCtlMessage) (i : Z) (key : string) : outcome Z :=
  (at_field "info" (at_index i (at_field key getIntVal)) reply).1.
Definition info_string (reply : FBTCtlMessage) (i : Z) (key : string) : outcome string :=
  (at_field "info" (at_index i (at_field key getStringVal)) reply).1.

(** [strncpy(dst, s.c_str(), size)] into a zeroed array.  A text that fills
    the array has no terminator; reading on behind it is not modelled. *)
Definition strncpy (size : nat) (s : string) : string := String.substring 0 size (c_str s).

(** [((1 << f) & functions) ? true : false] *)
Definition func_bit (functions : Z) (f : nat) : bool :=
  negb (Z.land (wrap32 (Z.shiftl 1 (Z.of_nat f))) functions =? 0).

Definition set_functions (functions : Z) (fs : list func_t) : list func_t :=
  imap (fun f fn => if decide (f < Z.to_nat MAX_NFUNC)%nat then set_ison (func_bit functions f) fn else fn) fs.

(** one locomotive of a GETLOCOS_REPLY *)
Definition lok_from_info (reply : FBTCtlMessage) (i : Z) : outcome lokdef_t :=
  nm ← info_string reply i "name";
  a ← info_int reply i "addr";
  img ← info_string reply i "imgname";
  speed ← info_int reply i "speed";
  v ← c_abs speed;
  functions ← info_int reply i "functions";
  Ok (mkLok a 0 (strncpy 20 nm) 0 (set_functions functions (func lokdef0)) v (if 0 <=? speed then 1 else 0)
        false (strncpy 32 img) 0).

Fixpoint loks_from_info (reply : FBTCtlMessage) (k : nat) (i : Z) : outcome (list lokdef_t) :=
  match k with
  | O => Ok [lokdef0]
  | S k' => d ← lok_from_info reply i; ds ← loks_from_info reply k' (i + 1); Ok (d :: ds)
  end.
Definition initLokdef (reply : FBTCtlMessage) : outcome (list lokdef_t) :=
  nLocos ← info_size reply; loks_from_info reply (Z.to_nat nLocos) 0.

(** the body of the loop of [initLokdefFunctions]; the inner loop assigns the
    same member once per bit *)
Definition func_from_info (reply : FBTCtlMessage) (i : Z) (f : func_t) : outcome func_t :=
  nm ← info_string reply i "name";
  functions ← info_int reply i "value";
  Ok (foldl (fun f k => set_ison (func_bit functions k) f) (mkFunc (strncpy 32 nm) (pulse f) (ison f) (f_imgname f))
        (seq 0 (Z.to_nat MAX_NFUNC))).
Fixpoint funcs_from_info (reply : FBTCtlMessage) (k : nat) (i : Z) (fs : list func_t) : outcome (list func_t) :=
  match k, fs with
  | O, _ => Ok fs
  | S _, [] => Err (UB "func[i]")
  | S k', f :: fs' => f' ← func_from_info reply i f; rest ← funcs_from_info reply k' (i + 1) fs'; Ok (f' :: rest)
  end.

Definition set_nFunc (n : Z) (l : lokdef_t) : lokdef_t :=
  mkLok (addr l) (flags l) (name l) n (func l) (currspeed l) (currdir l) (initDone l) (imgname l) (lastClientID l).

Definition initLokdefFunctions (t : list lokdef_t) (loknum : Z) (reply : FBTCtlMessage) : outcome (list lokdef_t) :=
  nFunc ← info_size reply;
  if MAX_NFUNC <=? nFunc then Err (Abort "nFunc < MAX_NFUNC")
  else if loknum <? 0 then Err (UB "lokdef[i]")
  else
    match t !! Z.to_nat loknum with
    | None => Err (UB "lokdef[i]")
    | Some d =>
        fs ← funcs_from_info reply (Z.to_nat nFunc) 0 (func d);
        Ok (<[Z.to_nat loknum:=set_func fs (set_nFunc nFunc d)]> t)
    end.

(** ** ControlClientThread.cpp *)

Definition MAX_QUEUE_LENGTH : Z := 5.

(** the callbacks the program passes to [query] *)
Inductive callback : Type :=
  | cb_nothing
  | cb_locos        (* GuiViewConnectServer::init *)
  | cb_functions    (* GuiViewControlLoco::init *)
  | cb_batLevelCV   (* GuiViewControlLoco::refreshBatLevel *)
  | cb_batLevel.

Section ControlClient.
Context {S : Type} `{ClientStream S}.
Context (ml : MessageLayouts) (timeout : Z).

(** the thread object, the globals [lokdef], [nLokdef] and [droppedCommands],
    and the members of [GuiViewControlLoco] the callbacks use *)
Record Control : Type := mkControl {
  co_lokdef : option (list lokdef_t);
  co_nLokdef : Z;
  co_client : option S;
  co_queue : list (FBTCtlMessage * callback);
  co_selected : Z;
  co_msgNum : Z;
  co_dropped : Z;
  co_forceStop : bool;
  co_batLevelAddr : Z;
  co_batLevelCV : Z;
  co_batLevel : Z;
}.

Section updates.
Context (c : Control).
Definition with_lokdef t := mkControl (Some t) (co_nLokdef c) (co_client c) (co_queue c) (co_selected c) (co_msgNum c) (co_dropped c) (co_forceStop c) (co_batLevelAddr c) (co_batLevelCV c) (co_batLevel c).
Definition with_nLokdef n := mkControl (co_lokdef c) n (co_client c) (co_queue c) (co_selected c) (co_msgNum c) (co_dropped c) (co_forceStop c) (co_batLevelAddr c) (co_batLevelCV c) (co_batLevel c).
Definition with_client s := mkControl (co_lokdef c) (co_nLokdef c) s (co_queue c) (co_selected c) (co_msgNum c) (co_dropped c) (co_forceStop c) (co_batLevelAddr c) (co_batLevelCV c) (co_batLevel c).
Definition with_queue q := mkControl (co_lokdef c) (co_nLokdef c) (co_client c) q (co_selected c) (co_msgNum c) (co_dropped c) (co_forceStop c) (co_batLevelAddr c) (co_batLevelCV c) (co_batLevel c).
Definition with_msgNum n := mkControl (co_lokdef c) (co_nLokdef c) (co_client c) (co_queue c) (co_selected c) n (co_dropped c) (co_forceStop c) (co_batLevelAddr c) (co_batLevelCV c) (co_batLevel c).
Definition with_dropped n := mkControl (co_lokdef c) (co_nLokdef c) (co_client c) (co_queue c) (co_selected c) (co_msgNum c) n (co_forceStop c) (co_batLevelAddr c) (co_batLevelCV c) (co_batLevel c).
Definition with_forceStop b := mkControl (co_lokdef c) (co_nLokdef c) (co_client c) (co_queue c) (co_selected c) (co_msgNum c) (co_dropped c) b (co_batLevelAddr c) (co_batLevelCV c) (co_batLevel c).
Definition with_bat a v l := mkControl (co_lokdef c) (co_nLokdef c) (co_client c) (co_queue c) (co_selected c) (co_msgNum c) (co_dropped c) (co_forceStop c) a v l.
End updates.

Definition comm {A} (k : M (option S) A) : M Control A := zoom co_client (fun s c => with_client c s) k.

(** reading through the pointer [lokdef] *)
Definition the_lokdef : M Control (list lokdef_t) :=
  c ← get; match co_lokdef c with Some t => mret t | None => fail (UB "lokdef is NULL") end.

(** [getCurrLok]: the loop over the table from index [i] on *)
Fixpoint curr_lok (selected : Z) (i : Z) (t : list lokdef_t) : outcome lokdef_t :=
  match t with
  | [] => Err (UB "lokdef[i]")
  | d :: t' =>
      if addr d =? 0 then Err (Throw "ControlClientThread::getCurrLok() invalid selectedAddrIndex")
      else if selected =? i then Ok d else curr_lok selected (i + 1) t'
  end.
Definition getCurrLok : M Control lokdef_t :=
  c ← get;
  if co_selected c <? 0 then throw "ControlClientThread::getCurrLok() invalid selectedAddrIndex"
  else t ← the_lokdef; lift (curr_lok (co_selected c) 0 t).

Definition query (cmd : FBTCtlMessage) (cb : callback) : M Control unit :=
  modify (fun c => with_queue c (co_queue c ++ [(cmd, cb)])).
Definition getQueueLength : M Control Z := gets (fun c => Z.of_nat (length (co_queue c))).

(** [FBTCtlMessage cmd(messageTypeID(name)); cmd[key]=value; ...] *)
Definition new_cmd (name : string) (args : list (string * Z)) : outcome FBTCtlMessage :=
  cmd ← new_reply ml name;
  match iterM (fun kv => at_field kv.1 (put (FBTCtlMessage_int kv.2))) args cmd with
  | (Ok _, cmd) => Ok cmd
  | (Err e, _) => Err e
  end.

Definition sendPing : M Control unit := ping ← lift (new_cmd "PING" []); comm (sendMessage ml ping).

Definition sendFunc (funcNr : Z) (enable : bool) : M Control unit :=
  n ← getQueueLength;
  if MAX_QUEUE_LENGTH <? n then mret tt
  else
    c ← get;
    t ← the_lokdef;
    d ← (if co_selected c <? 0 then fail (UB "lokdef[i]")
         else match t !! Z.to_nat (co_selected c) with Some d => mret d | None => fail (UB "lokdef[i]") end);
    cmd ← lift (new_cmd "SETFUNC" [("addr", addr d); ("funcnr", funcNr); ("value", Z.b2z enable)]);
    query cmd cb_nothing.

Definition sendStop : M Control unit :=
  d ← getCurrLok;
  cmd ← lift (new_cmd "STOP" [("addr", addr d)]);
  query cmd cb_nothing.

Definition sendDir (forward : bool) : M Control unit :=
  n ← getQueueLength;
  if MAX_QUEUE_LENGTH <? n then mret tt
  else
    d ← getCurrLok;
    cmd ← lift (new_cmd "DIR" [("addr", addr d); ("dir", if forward then 1 else -1)]);
    query cmd cb_nothing.

(** ** GuiViewControlLoco: battery level and speed *)

Definition query_POM (cv : Z) (cb : callback) : M Control unit :=
  c ← get;
  cmd ← lift (new_cmd "POM" [("addr", co_batLevelAddr c); ("cv", cv); ("value", -1)]);
  query cmd cb.

(** [refreshBatLevel]; exceptions are caught *)
Definition catch_throw (k : M Control unit) : M Control unit := fun c =>
  match k c with (Err (Throw _), c') => (Ok tt, c') | r => r end.
Definition refreshBatLevel : M Control unit := catch_throw (
  c ← get;
  go ← (if co_batLevelAddr c =? -1 then
          d ← getCurrLok;
          modify (fun c => with_bat c (addr d) (co_batLevelCV c) (co_batLevel c));;
          if addr d <? 0 then mret false else query_POM CV_CV_BAT cb_batLevelCV;; mret true
        else mret true);
  if (go : bool) then
    c ← get;
    if co_batLevelCV c =? -1 then mret tt else query_POM (co_batLevelCV c) cb_batLevel
  else mret tt).

(** [sendSpeed(SPEED_ACCEL)] and [sendSpeed(SPEED_BRAKE)] while connected *)
Definition sendSpeed (cmdType : string) : M Control unit :=
  n ← getQueueLength;
  if 1 <? n then modify (fun c => with_dropped c (co_dropped c + 1))
  else
    d ← getCurrLok;
    cmd ← lift (new_cmd cmdType [("addr", addr d)]);
    query cmd cb_nothing.

(** a reading of the knob: the last ten readings, shifted by one, and their
    average; the product and quotient in [double] truncate like the exact ones *)
Definition poti_reading (analog : Z) (lastValues : list Z) : list Z * Z :=
  let poti := Z.quot (analog * 255) 4095 in
  let lastValues := drop 1 lastValues ++ [poti] in
  (lastValues, Z.quot (foldl Z.add 0 lastValues) 10).

(** the part of [GuiViewControlLoco::loop] that follows the knob: [avg] is the
    average of the last ten readings, [dirSwitch] 1 or -1 *)
Definition follow_poti (avg dirSwitch : Z) : M Control unit :=
  c ← get;
  (if co_forceStop c then
     if avg =? 0 then modify (fun c => with_forceStop c false) else mret tt
   else
     d ← getCurrLok;
     (if (currspeed d + 5 <=? avg) && (currspeed d <=? 250) then sendSpeed "ACC" else mret tt);;
     d ← getCurrLok;
     (if (avg <=? currspeed d - 5) && (5 <=? currspeed d) then sendSpeed "BREAK" else mret tt));;
  d ← getCurrLok;
  if dirSwitch =? currdir d then mret tt
  else if 1 <? Z.abs (currspeed d) then modify (fun c => with_forceStop c true);; sendStop
  else sendDir (0 <? dirSwitch).

(** ** The connection *)

(** one entry of a STATUS_REPLY *)
Definition status_entry_lok (speed functions : Z) (d : lokdef_t) : outcome lokdef_t :=
  v ← c_abs speed;
  Ok (set_func (set_functions functions (func d)) (set_currdir (if 0 <=? speed then 1 else -1) (set_currspeed v d))).
Definition apply_status (reply : FBTCtlMessage) (i : Z) (t : list lokdef_t) : outcome (list lokdef_t) :=
  a ← info_int reply i "addr";
  speed ← info_int reply i "speed";
  functions ← info_int reply i "functions";
  k ← getAddrIndex a t;
  match t !! Z.to_nat k with
  | None => Err (UB "lokdef[i]")
  | Some d => d' ← status_entry_lok speed functions d; Ok (<[Z.to_nat k:=d']> t)
  end.
Fixpoint apply_statuses (reply : FBTCtlMessage) (k : nat) (i : Z) (t : list lokdef_t) : outcome unit * list lokdef_t :=
  match k with
  | O => (Ok tt, t)
  | Datatypes.S k' =>
      match apply_status reply i t with
      | Ok t' => apply_statuses reply k' (i + 1) t'
      | Err e => (Err e, t)
      end
  end.

(** before the table is there the entries are only read *)
Definition skim_status (reply : FBTCtlMessage) (i : Z) : outcome unit :=
  info_int reply i "addr";; info_int reply i "speed";; info_int reply i "functions";; Ok tt.

Definition handle_status (reply : FBTCtlMessage) : M Control unit :=
  an ← lift (info_size reply);
  c ← get;
  match co_lokdef c with
  | None => iterM (fun k : nat => lift (skim_status reply (Z.of_nat k))) (seq 0 (Z.to_nat an))
  | Some t =>
      let '(r, t') := apply_statuses reply (Z.to_nat an) 0 t in
      modify (fun c => with_lokdef c t');; lift r
  end.

Definition run_callback (cb : callback) (reply : FBTCtlMessage) : M Control unit :=
  match cb with
  | cb_nothing => mret tt
  | cb_locos =>
      b ← lift (isType ml "GETLOCOS_REPLY" reply);
      if (b : bool) then
        t ← lift (initLokdef reply);
        modify (fun c => with_nLokdef (with_lokdef c t) (Z.of_nat (length (locos t))))
      else fail (Abort "invalid reply received")
  | cb_functions =>
      b ← lift (isType ml "GETFUNCTIONS_REPLY" reply);
      if (b : bool) then
        c ← get;
        t ← the_lokdef;
        t' ← lift (initLokdefFunctions t (co_selected c) reply);
        modify (fun c => with_lokdef c t')
      else fail (Abort "invalid reply received")
  | cb_batLevelCV =>
      v ← lift (at_field "value" getIntVal reply).1;
      modify (fun c => with_bat c (co_batLevelAddr c) v (co_batLevel c));;
      if 0 <? v then refreshBatLevel else mret tt
  | cb_batLevel =>
      v ← lift (at_field "value" getIntVal reply).1;
      modify (fun c => with_bat c (co_batLevelAddr c) (co_batLevelCV c) v)
  end.

(** the greeting of [run()] *)
Definition control_greet : M Control unit :=
  heloMsg ← comm (comm_readMessage ml timeout);
  b ← lift (isType ml "HELO" heloMsg);
  if (b : bool) then
    lift (at_field "name" getStringVal heloMsg).1;;
    lift (at_field "version" getStringVal heloMsg).1;;
    hash ← lift (at_field "protohash" getIntVal heloMsg).1;
    if protocolHash ml =? hash then mret tt else throw "invalid protocolHash"
  else throw "didn't receive HELO".

(** one turn of the loop after the queue was waited for *)
Definition control_turn : M Control unit :=
  c ← get;
  cb ← (match co_queue c with
        | [] => sendPing;; mret None
        | (cmd, cb) :: q =>
            modify (fun c => with_queue c q);;
            lift (messageTypeName ml (m_type cmd));;
            comm (sendMessage ml cmd);;
            mret (Some cb)
        end);
  reply ← comm (comm_readMessage ml timeout);
  lift (messageTypeName ml (m_type reply));;
  (match cb with Some cb => run_callback cb reply | None => mret tt end);;
  b ← lift (isType ml "STATUS_REPLY" reply);
  (if (b : bool) then handle_status reply else mret tt);;
  modify (fun c => with_msgNum c (co_msgNum c + 1)).

(** [run()] for at most [turns] commands; an exception closes the connection *)
Definition control_run (turns : nat) : M Control unit := fun c =>
  match (control_greet;; iterM (fun _ => control_turn) (seq 0 turns)) c with
  | (Err (Throw w), c') => (Err (Throw w), (comm comm_close c').2)
  | r => r
  end.
End ControlClient.
Arguments Control S : clear implicits.
