(* ===== verification/ControlProps.v ===== *)
(** * control-esp32: what the handheld controller shows and does

    The controller's copy of the table follows the server's status replies,
    and its speed control drives the locomotive to the position of the knob. *)

From Stdlib Require Import Ascii.
From S2P Require Import Prelude StdMap CString Utils MessageLayout Message Stream Lokdef Hardware ParseExpr Platine ClientThread ClientSafety ClientProps ControlClient.

(** ** Reading a reply *)

Lemma info_size_run es reply : struct_like reply ->
  info_size (with_info es reply) = Ok (Z.of_nat (length es)).
Proof. intros Hr. unfold info_size. by rewrite at_info. Qed.

(** the value of a key of an entry *)
Lemma at_index_lookup {A} (k : M FBTCtlMessage A) es i e :
  es !! i = Some e -> (at_index (Z.of_nat i) k (Msg ARRAY (data_array_t es))).1 = (k e).1.
Proof.
  intros He. pose proof (lookup_lt_Some _ _ _ He) as Hl. unfold at_index. cbn -[Z.of_nat Z.leb Z.ltb].
  destruct (Z.leb_spec (Z.of_nat (length es)) (Z.of_nat i)); [lia|].
  destruct (Z.ltb_spec (Z.of_nat i) 0); [lia|]. rewrite Nat2Z.id, He. by destruct (k e).
Qed.

Lemma info_int_run es reply i a speed func key v :
  struct_like reply -> es !! i = Some (status_entry a speed func) ->
  In (key, v) [("addr", a); ("speed", speed); ("functions", func)] ->
  info_int (with_info es reply) (Z.of_nat i) key = Ok v.
Proof.
  intros Hr He Hin. unfold info_int. rewrite at_info by done. cbn [fst]. rewrite (at_index_lookup _ es i _ He).
  cbn in Hin. destruct Hin as [[= <- <-]|[[= <- <-]|[[= <- <-]|[]]]]; by rewrite at_field_run.
Qed.

(** ** The copy of the table follows the status replies *)

(** a locomotive of the controller shows a status of the server *)
Definition shows (st : lastStatus_t) (d : lokdef_t) : Prop :=
  currspeed d = Z.abs (shown st).1 /\ currdir d = (if 0 <=? (shown st).1 then 1 else -1) /\
  forall j f, func d !! j = Some f -> (j < Z.to_nat MAX_NFUNC)%nat -> ison f = func_bit (ls_func st) j.

Lemma status_entry_shows st speed d :
  (speed, ls_func st) = shown st -> speed <> - 2^31 ->
  exists d', status_entry_lok speed (ls_func st) d = Ok d' /\ addr d' = addr d /\ shows st d'.
Proof.
  intros Hs Hmin. unfold status_entry_lok, c_abs. rewrite (proj2 (Z.eqb_neq _ _)) by done. eexists. split; [reflexivity|].
  split; [done|]. unfold shows. rewrite <- Hs. cbn. split_and!; [done..|]. intros j f Hf Hj. unfold set_functions in Hf.
  rewrite list_lookup_imap in Hf. destruct (func d !! j); [|done]. cbn in Hf. rewrite decide_True in Hf by done.
  injection Hf as <-. done.
Qed.

(** ** What the copy says about a locomotive of the server *)

Lemma func_bit_31 v : 0 <= v < 2^31 -> func_bit v 31 = false.
Proof.
  intros Hv. unfold func_bit. change (wrap32 (Z.shiftl 1 (Z.of_nat 31))) with (Z.lnot (Z.ones 31)).
  rewrite Z.land_comm, <- Z.ldiff_land. destruct (Z.eq_dec v 0) as [->|]; [done|].
  rewrite Z.ldiff_ones_r_low; [done|lia|]. apply Z.log2_lt_pow2; lia.
Qed.

Lemma lor_int32 a b : is_int32 a -> is_int32 b -> is_int32 (Z.lor a b).
Proof.
  assert (forall z, is_int32 z <-> Z.shiftr z 31 = 0 \/ Z.shiftr z 31 = -1) as Hk.
  { intros z. unfold is_int32. rewrite Z.shiftr_div_pow2 by lia.
    pose proof (Z.div_mod z (2^31) ltac:(lia)). pose proof (Z.mod_pos_bound z (2^31) ltac:(lia)). split; [|lia].
    intros Hz. assert (-1 <= z / 2^31) by (apply Z.div_le_lower_bound; lia).
    assert (z / 2^31 < 1) by (apply Z.div_lt_upper_bound; lia). lia. }
  rewrite !Hk, Z.shiftr_lor. intros [-> | ->] [-> | ->]; cbn; tauto.
Qed.

Lemma func_bits_int32 d z : func_bits d = Ok z -> is_int32 z.
Proof.
  unfold func_bits. generalize (Z.to_nat (nFunc d)) 0 (func d). intros k. revert z.
  induction k as [|k IH]; intros z j fs; cbn; [intros [= <-]; unfold is_int32; lia|].
  destruct fs as [|f fs]; [done|]. intros (r & Hr & [= <-])%outcome_bind_ok. apply IH in Hr.
  destruct (ison f); [|done]. by apply lor_int32; [apply wrap32_range|].
Qed.

(** the controller's test of a function bit *)
Lemma func_bit_testbit z j : is_int32 z -> (j < 32)%nat -> func_bit z j = Z.testbit z (Z.of_nat j).
Proof.
  intros Hz Hj. destruct (Z.testbit z (Z.of_nat j)) eqn:T.
  - unfold func_bit. apply negb_true_iff, Z.eqb_neq. intros E.
    assert (Z.testbit (Z.land (wrap32 (Z.shiftl 1 (Z.of_nat j))) z) (Z.of_nat j) = true) as C.
    { rewrite Z.land_spec, T, wrapped_bit by lia. by rewrite bool_decide_true. }
    by rewrite E, Z.bits_0 in C.
  - destruct (decide (j = 31)%nat) as [->|Hne].
    + apply func_bit_31. rewrite Z.testbit_odd, Z.shiftr_div_pow2 in T by lia. unfold is_int32 in Hz.
      change (Z.of_nat 31) with 31 in T. destruct (Z.lt_ge_cases z 0); [|lia].
      assert (z / 2^31 = -1) as E by (symmetry; apply (Z.div_unique_pos _ _ _ (z + 2^31)); lia). by rewrite E in T.
    + unfold func_bit. apply negb_false_iff, Z.eqb_eq. rewrite wrap32_id.
      * apply Z.bits_inj'. intros n Hn. rewrite Z.land_spec, Z.bits_0, Z.shiftl_1_l, Z.pow2_bits_eqb by lia.
        destruct (Z.eqb_spec (Z.of_nat j) n) as [<-|]; [by rewrite T|done].
      * unfold is_int32. rewrite Z.shiftl_1_l. pose proof (Z.pow_pos_nonneg 2 (Z.of_nat j)).
        pose proof (Z.pow_lt_mono_r 2 (Z.of_nat j) 31). lia.
Qed.

(** how a locomotive [d] of the server looks on the controller: a standing one
    at speed 1 in its direction, one with a negative speed (after BREAK_MULTI)
    at the positive speed in the other direction, every function as it is *)
Definition displays (d d' : lokdef_t) : Prop :=
  currspeed d' = (if currspeed d =? 0 then 1 else Z.abs (currspeed d)) /\
  currdir d' = (if currspeed d <? 0 then - currdir d else currdir d) /\
  forall j f f', Z.of_nat j < nFunc d -> func d !! j = Some f -> func d' !! j = Some f' -> ison f' = ison f.

Lemma shows_displays d st d' : lok_wf d -> currdir d = 1 \/ currdir d = -1 -> status_of d = Ok st ->
  shows st d' -> displays d d'.
Proof.
  intros W Hdir Hst (H1 & H2 & H3). unfold status_of in Hst. apply outcome_bind_ok in Hst as (fb & Hfb & [= <-]).
  unfold shown in H1, H2. cbn in H1, H2, H3. unfold displays. rewrite H1, H2. split_and!.
  - destruct (Z.eqb_spec (currspeed d) 0); lia.
  - destruct (Z.eqb_spec (currspeed d) 0) as [->|]; [destruct Hdir as [-> | ->]; done|].
    destruct (Z.ltb_spec (currspeed d) 0), (Z.leb_spec 0 (currspeed d * currdir d)); lia.
  - intros j f f' Hj Hf Hf'. assert (j < 32)%nat by (destruct W as [W _]; unfold MAX_NFUNC in W; lia).
    rewrite (H3 j f' Hf') by (unfold MAX_NFUNC; lia).
    rewrite func_bit_testbit by (done || by eapply func_bits_int32). by eapply func_bits_bit.
Qed.

(** the locomotive with this address in a table *)
Definition has (t : list lokdef_t) (a : Z) (d : lokdef_t) : Prop := exists i, locos t !! i = Some d /\ addr d = a.

(** the copy [tc] shows what was sent last for each locomotive of the server *)
Definition in_step (tc : list lokdef_t) : list lokdef_t -> list lastStatus_t -> Prop :=
  Forall2 (fun d ls => ls = nothing_sent \/ exists d', has tc (addr d) d' /\ shows ls d').

(** a table the controller can look locomotives up in *)
Definition copy_ok (addrs : list Z) (t : list lokdef_t) : Prop :=
  terminated t /\ NoDup addrs /\ map addr (locos t) = addrs.

Lemma has_unique addrs t a d d' : copy_ok addrs t -> has t a d -> has t a d' -> d = d'.
Proof.
  intros (T & ND & A) (i & Hi & Ha) (j & Hj & Ha').
  assert (map addr (locos t) !! i = Some a /\ map addr (locos t) !! j = Some a) as [H1 H2].
  { change (map addr (locos t)) with (addr <$> locos t). rewrite !list_lookup_fmap, Hi, Hj. cbn. by rewrite Ha, Ha'. }
  rewrite A in H1, H2. assert (i = j) as -> by (by eapply NoDup_lookup). congruence.
Qed.

(** replacing the locomotive with address [a] *)
Lemma replace_lok addrs t a : copy_ok addrs t -> a ∈ addrs ->
  exists k d, getAddrIndex a t = Ok (Z.of_nat k) /\ t !! k = Some d /\ has t a d /\
    forall d', addr d' = a -> copy_ok addrs (<[k:=d']> t) /\ has (<[k:=d']> t) a d' /\
      forall b e, b <> a -> has t b e -> has (<[k:=d']> t) b e.
Proof.
  intros (T & ND & A) Ha. unfold getAddrIndex.
  destruct (find_addr_spec a 0 t T) as [(k & d & E & L & Hd & _)|[_ N]]; [|by rewrite A in N].
  exists k, d. rewrite Z.add_0_l in E. destruct (locos_lookup _ _ _ L) as [Lt _].
  split_and!; [done|done|by exists k|]. intros d' Hd'.
  assert (locos (<[k:=d']> t) = <[k:=d']> (locos t)) as Hl by (apply (locos_insert t k d); congruence).
  pose proof (lookup_lt_Some _ _ _ L) as Hk. split_and!.
  - split; [|split; [done|]].
    + eapply terminated_insert; [done| |done]. congruence.
    + rewrite Hl, <- A. change (addr <$> <[k:=d']> (locos t) = addr <$> locos t).
      rewrite list_fmap_insert. apply list_insert_id. rewrite list_lookup_fmap, L. cbn. congruence.
  - exists k. rewrite Hl. split; [by apply list_lookup_insert_eq|done].
  - intros b e Hb (j & Hj & He). exists j. rewrite Hl. split; [|done].
    rewrite list_lookup_insert_ne; [done|]. intros <-. congruence.
Qed.

Lemma reported_range d speed : -255 <= currspeed d <= 255 -> currdir d = 1 \/ currdir d = -1 ->
  reported_speed d = Ok speed -> -255 <= speed <= 255.
Proof.
  intros Hs Hd. unfold reported_speed, int_mul. destruct (currspeed d =? 0); [intros [= <-]; lia|].
  destruct (int32b _); [|done]. intros [= <-]. nia.
Qed.

(** what a delta does to the copy; the entries in front were applied before *)
Lemma apply_delta addrs reply pre es ds last t :
  struct_like reply -> copy_ok addrs t -> NoDup (map addr ds) -> map addr ds ⊆ addrs ->
  Forall (fun d => -255 <= currspeed d <= 255 /\ (currdir d = 1 \/ currdir d = -1)) ds ->
  in_step t ds last -> status_delta ds last = Ok es ->
  exists t' sts, apply_statuses (with_info (pre ++ es) reply) (length es) (Z.of_nat (length pre)) t = (Ok tt, t') /\
    copy_ok addrs t' /\ statuses ds sts /\
    Forall2 (fun d st => exists d', has t' (addr d) d' /\ shows st d') ds sts /\
    (forall a d, a ∉ map addr ds -> has t a d -> has t' a d).
Proof.
  intros Hr. revert pre es last t. induction ds as [|d ds IH]; intros pre es last t Hc ND Hsub Hok Hstep Hd.
  { inversion Hstep; subst. injection Hd as <-. exists t, []. split_and!; try done; constructor. }
  inversion Hstep as [|? ls ? last' Hls Hstep']; subst. inversion ND as [|? ? Hnin ND']; subst.
  inversion Hok as [|? ? [Hsp Hdir] Hok']; subst. cbn in Hsub. cbn in Hd.
  apply outcome_bind_ok in Hd as (st & Hst & Hd). case_decide as E.
  - subst ls. destruct (IH pre es last' t Hc ND') as (t' & sts & R & Hc' & F1 & F2 & Hother); [set_solver|done..|].
    exists t', (st :: sts). split_and!; [done|done|by constructor| |].
    + constructor; [|done]. destruct Hls as [->|(d' & Hd' & Hsh)].
      * exfalso. unfold status_of in Hst. apply outcome_bind_ok in Hst as (fb & _ & [= _ _ Hz]). lia.
      * exists d'. split; [|done]. by apply Hother.
    + intros a e Ha. apply Hother. set_solver.
  - apply outcome_bind_ok in Hd as (speed & Hspeed & Hd). apply outcome_bind_ok in Hd as (es' & Hd & [= <-]).
    pose proof (reported_range d speed Hsp Hdir Hspeed) as Hrange.
    destruct (replace_lok addrs t (addr d) Hc ltac:(set_solver)) as (k & d0 & Hk & Hd0 & Hhas & Hrep).
    destruct (status_entry_shows st speed d0) as (d1 & Hd1 & Haddr & Hshow);
      [by eapply reported_shown|lia|].
    assert (addr d1 = addr d) as Ha1 by (destruct Hhas as (? & _ & ?); congruence).
    destruct (Hrep d1 Ha1) as (Hc1 & Hhas1 & Hother1).
    destruct (IH (pre ++ [status_entry (addr d) speed (ls_func st)]) es' last' (<[k:=d1]> t) Hc1 ND')
      as (t' & sts & R & Hc' & F1 & F2 & Hother); [set_solver|done| |done|].
    { clear -Hstep' Hother1 Hnin. induction Hstep' as [|e ls' ds' last' Hor _ IHs]; constructor.
      - destruct Hor as [->|(e' & He' & Hs')]; [by left|right]. exists e'. split; [|done]. apply Hother1; [|done].
        cbn in Hnin. set_solver.
      - apply IHs. cbn in Hnin. set_solver. }
    exists t', (st :: sts). split_and!; [|done|by constructor| |].
    + cbn [length apply_statuses]. unfold apply_status.
      assert ((pre ++ status_entry (addr d) speed (ls_func st) :: es') !! length pre =
                Some (status_entry (addr d) speed (ls_func st))) as Hget by (by apply list_lookup_middle).
      rewrite (info_int_run _ reply _ _ _ _ "addr" (addr d) Hr Hget) by (cbn; tauto).
      rewrite (info_int_run _ reply _ _ _ _ "speed" speed Hr Hget) by (cbn; tauto).
      rewrite (info_int_run _ reply _ _ _ _ "functions" (ls_func st) Hr Hget) by (cbn; tauto).
      cbn [mbind outcome_bind]. rewrite Hk. cbn [mbind outcome_bind]. rewrite Nat2Z.id, Hd0, Hd1. cbn [mbind outcome_bind].
      rewrite <- app_assoc, length_app in R. cbn [length app] in R. rewrite Nat2Z.inj_add in R. exact R.
    + constructor; [|done]. exists d1. split; [|done]. by apply Hother.
    + intros a e Ha He. apply Hother; [set_solver|]. apply Hother1; [set_solver|done].
Qed.

(** handling the reply to a delta *)
Lemma handle_delta {S} addrs reply es ds last (c : Control S) tc :
  struct_like reply -> copy_ok addrs tc -> map addr ds = addrs ->
  Forall (fun d => -255 <= currspeed d <= 255 /\ (currdir d = 1 \/ currdir d = -1)) ds ->
  co_lokdef c = Some tc -> in_step tc ds last -> status_delta ds last = Ok es ->
  exists tc' sts, handle_status (with_info es reply) c = (Ok tt, with_lokdef c tc') /\
    copy_ok addrs tc' /\ statuses ds sts /\ Forall2 (fun d st => exists d', has tc' (addr d) d' /\ shows st d') ds sts.
Proof.
  intros Hr Hc A Hok Hco Hstep Hd.
  destruct (apply_delta addrs reply [] es ds last tc) as (tc' & sts & R & Hc' & F & G & _);
    [done|done|rewrite A; apply Hc|by rewrite A|done..|].
  exists tc', sts. split_and!; [|done..]. unfold handle_status.
  erewrite run_bind by (apply run_lift; by apply info_size_run).
  rewrite (run_bind _ _ _ c c) by done. rewrite Hco, Nat2Z.id. cbn [app length] in R. change (Z.of_nat 0) with 0 in R.
  by rewrite R.
Qed.

(** C6: The handheld controller stays informed.  Side conditions: the addresses
    are distinct, the copy of the table has the same addresses in the same
    order, every direction on the server is 1 or -1.  If the copy shows what the
    server sent last for every locomotive, then after the controller handled the
    server's next status reply it shows again what was sent last, and for every
    locomotive of the server: the direction and the absolute speed (1 for a
    standing locomotive, the opposite direction for a negative speed, which
    BREAK_MULTI can set) and the state of every function. *)
Theorem controller_follows_server {H S S'} `{ClientStream S'} addrs (s : CT H S) (c : Control S') reply es tc :
  thread_ok addrs s -> NoDup addrs -> struct_like reply ->
  Forall (fun d => currdir d = 1 \/ currdir d = -1) (locos (ct_lokdef s)) ->
  co_lokdef c = Some tc -> terminated tc -> map addr (locos tc) = addrs ->
  in_step tc (locos (ct_lokdef s)) (take (length addrs) (ct_lastStatus s)) ->
  status_delta (locos (ct_lokdef s)) (ct_lastStatus s) = Ok es ->
  exists s' tc', setLokStatus reply s = (Ok (with_info es reply), s') /\
    handle_status (with_info es reply) c = (Ok tt, with_lokdef c tc') /\
    in_step tc' (locos (ct_lokdef s')) (take (length addrs) (ct_lastStatus s')) /\
    Forall (fun d => exists d', has tc' (addr d) d' /\ displays d d') (locos (ct_lokdef s)).
Proof.
  intros Hs ND Hr Hdir Hco Tc Ac Hstep Hd. pose proof Hs as [[A T K] L C N].
  assert (length (locos (ct_lokdef s)) = length addrs) as Hlen by (by rewrite <- A, length_map).
  destruct (setLokStatus_run addrs s reply es Hs Hr Hd) as (sts & F & E).
  destruct (handle_delta addrs reply es (locos (ct_lokdef s)) (take (length addrs) (ct_lastStatus s)) c tc)
    as (tc' & sts' & R & _ & F' & G); [done|done|done| |done|done| |].
  { rewrite list.Forall_forall in Hdir |- *. intros d Hin. split; [|by apply Hdir]. rewrite list.Forall_forall in K. by apply K. }
  { rewrite <- Hd. symmetry. apply status_delta_take. lia. }
  assert (sts' = sts) as -> by (by eapply statuses_unique).
  exists (set_lastStatus (sts ++ drop (length (locos (ct_lokdef s))) (ct_lastStatus s)) s), tc'.
  pose proof (Forall2_length F) as Hl. split_and!; [done|exact R| |].
  - cbn. rewrite take_app_le, take_ge by lia. eapply Forall2_impl; [|exact G]. intros d st Hv. by right.
  - apply Forall_forall. intros d Hin. apply list_elem_of_In, list_elem_of_lookup in Hin as (i & Hi).
    destruct (Forall2_lookup_l _ _ _ _ _ F Hi) as (st & Hst & Est).
    destruct (Forall2_lookup_lr _ _ _ _ _ _ G Hi Hst) as (d' & Hhas & Hsh). exists d'. split; [exact Hhas|].
    pose proof (Forall_lookup_1 _ _ _ _ K Hi) as Hok. pose proof (Forall_lookup_1 _ _ _ _ Hdir Hi) as Hpm.
    eapply shows_displays; [by apply ok_wf|exact Hpm|exact Est|exact Hsh].
Qed.

Definition sample_copy : list lokdef_t :=
  [mkLok 3 0 "V100" 0 (func lokdef0) 1 1 false EmptyString 0; mkLok 12 0 "E10" 0 (func lokdef0) 1 1 false EmptyString 0; lokdef0].
Definition sample_control : Control TCPClient :=
  mkControl (Some sample_copy) 2 None [] 0 0 0 false (-1) (-1) (-1).

Lemma controller_follows_server_witness :
  exists s' tc', setLokStatus (Msg 8 (data_struct_t [])) (sample_thread sample_table) =
      (Ok (with_info [status_entry 3 1 5; status_entry 12 1 1] (Msg 8 (data_struct_t []))), s') /\
    handle_status (with_info [status_entry 3 1 5; status_entry 12 1 1] (Msg 8 (data_struct_t []))) sample_control =
      (Ok tt, with_lokdef sample_control tc') /\
    in_step tc' (locos (ct_lokdef s')) (take 2 (ct_lastStatus s')) /\
    Forall (fun d => exists d', has tc' (addr d) d' /\ displays d d') (locos sample_table).
Proof.
  apply (controller_follows_server [3; 12] (sample_thread sample_table) sample_control (Msg 8 (data_struct_t []))
           [status_entry 3 1 5; status_entry 12 1 1] sample_copy).
  - apply sample_table_ok.
  - apply (bool_decide_eq_true_1 (NoDup [3; 12])). vm_compute. reflexivity.
  - done.
  - repeat constructor.
  - reflexivity.
  - exists lokdef0. split; [|reflexivity]. apply list_elem_of_lookup. by exists 2%nat.
  - reflexivity.
  - repeat constructor; by left.
  - vm_compute. reflexivity.
Defined.

(** ** The knob *)

(** the command for a knob at [avg] when the controller shows speed [v] *)
Definition knob_command (avg v : Z) : option string :=
  if (v + 5 <=? avg) && (v <=? 250) then Some "ACC"
  else if (avg <=? v - 5) && (5 <=? v) then Some "BREAK"
  else None.

Section knob.
Context {S : Type} `{ClientStream S} (ml : MessageLayouts).
Implicit Types (c : Control S).

Lemma getCurrLok_run c t i d : co_lokdef c = Some t -> co_selected c = Z.of_nat i -> locos t !! i = Some d ->
  getCurrLok c = (Ok d, c).
Proof.
  intros Ht Hi Hd. unfold getCurrLok. rewrite (run_bind _ _ _ c c) by done.
  rewrite (proj2 (Z.ltb_ge _ _)) by lia. rewrite (run_bind _ _ _ t c).
  2:{ unfold the_lokdef. rewrite (run_bind _ _ _ c c) by done. by rewrite Ht. }
  apply run_lift. rewrite Hi. assert (forall j, curr_lok (j + Z.of_nat i) j t = Ok d) as Hk; [|apply (Hk 0)].
  clear -Hd. revert i Hd. induction t as [|e t IH]; intros i Hd j; [done|]. cbn in *.
  destruct (addr e =? 0); [done|]. destruct i as [|i]; cbn in Hd.
  - rewrite Z.add_0_r, Z.eqb_refl. congruence.
  - rewrite (proj2 (Z.eqb_neq _ _)) by lia. replace (j + Z.of_nat (Datatypes.S i)) with (j + 1 + Z.of_nat i) by lia. by apply IH.
Qed.

Lemma sendSpeed_run c t i d name cmd : co_lokdef c = Some t -> co_selected c = Z.of_nat i -> locos t !! i = Some d ->
  co_queue c = [] -> new_cmd ml name [("addr", addr d)] = Ok cmd ->
  sendSpeed ml name c = (Ok tt, with_queue c [(cmd, cb_nothing)]).
Proof.
  intros Ht Hi Hd Hq Hc. unfold sendSpeed. rewrite (run_bind _ _ _ 0 c) by (unfold getQueueLength, gets; by rewrite Hq).
  cbn [Z.ltb Z.compare]. rewrite (run_bind _ _ _ d c) by (by eapply getCurrLok_run).
  rewrite (run_bind _ _ _ cmd c) by (by apply run_lift). unfold query, modify. by rewrite Hq.
Qed.

(** one round of the speed control, with the direction switch in place *)
Lemma follow_poti_run c t i d avg acc brk :
  co_lokdef c = Some t -> co_selected c = Z.of_nat i -> locos t !! i = Some d ->
  co_queue c = [] -> co_forceStop c = false ->
  new_cmd ml "ACC" [("addr", addr d)] = Ok acc -> new_cmd ml "BREAK" [("addr", addr d)] = Ok brk ->
  follow_poti ml avg (currdir d) c =
  (Ok tt, match knob_command avg (currspeed d) with
          | None => c
          | Some cmd => with_queue c [(if decide (cmd = "ACC") then acc else brk, cb_nothing)]
          end).
Proof.
  intros Ht Hi Hd Hq Hf Hacc Hbrk. unfold follow_poti, knob_command. rewrite (run_bind _ _ _ c c) by done. rewrite Hf.
  assert (forall q, getCurrLok (with_queue c q) = (Ok d, with_queue c q)) as Hcur by (intros q; by eapply getCurrLok_run).
  assert (getCurrLok c = (Ok d, c)) as Hc by (by eapply getCurrLok_run).
  assert (forall c', getCurrLok c' = (Ok d, c') ->
    (d0 ← getCurrLok; if currdir d =? currdir d0 then mret tt
       else if 1 <? Z.abs (currspeed d0) then modify (fun c => with_forceStop c true);; sendStop ml
       else sendDir ml (0 <? currdir d)) c' = (Ok tt, c')) as Hdir.
  { intros c' Hc'. rewrite (run_bind _ _ _ d c' Hc'). by rewrite Z.eqb_refl. }
  destruct ((currspeed d + 5 <=? avg) && (currspeed d <=? 250)) eqn:E1.
  - assert ((avg <=? currspeed d - 5) && (5 <=? currspeed d) = false) as E2.
    { apply andb_true_iff in E1 as [E1%Z.leb_le _]. rewrite (proj2 (Z.leb_gt avg _)) by lia. done. }
    rewrite decide_True by done. set (c1 := with_queue c _).
    rewrite (run_bind _ _ _ tt c1); [apply Hdir, Hcur|].
    rewrite (run_bind _ _ _ d c Hc). rewrite E1. rewrite (run_bind _ _ _ tt c1) by (by eapply sendSpeed_run).
    rewrite (run_bind _ _ _ d c1) by apply Hcur. by rewrite E2.
  - destruct ((avg <=? currspeed d - 5) && (5 <=? currspeed d)) eqn:E2.
    + rewrite decide_False by done. set (c1 := with_queue c _).
      rewrite (run_bind _ _ _ tt c1); [apply Hdir, Hcur|].
      rewrite (run_bind _ _ _ d c Hc). rewrite E1. rewrite (run_bind _ _ _ tt c) by done.
      rewrite (run_bind _ _ _ d c Hc). rewrite E2. by eapply sendSpeed_run.
    + rewrite (run_bind _ _ _ tt c); [by apply Hdir|].
      rewrite (run_bind _ _ _ d c Hc). rewrite E1. rewrite (run_bind _ _ _ tt c) by done.
      rewrite (run_bind _ _ _ d c Hc). by rewrite E2.
Qed.

(** The knob decides what is sent: with nothing queued, no emergency stop
    pending and the direction switch in the direction of the locomotive, one
    round of the speed control queues ACC when the knob is at least 5 above the
    speed shown, BREAK when it is at least 5 below, and nothing in between. *)
Theorem knob_sends c t i d avg acc brk :
  co_lokdef c = Some t -> co_selected c = Z.of_nat i -> locos t !! i = Some d ->
  co_queue c = [] -> co_forceStop c = false ->
  new_cmd ml "ACC" [("addr", addr d)] = Ok acc -> new_cmd ml "BREAK" [("addr", addr d)] = Ok brk ->
  follow_poti ml avg (currdir d) c =
  (Ok tt, match knob_command avg (currspeed d) with
          | None => c
          | Some cmd => with_queue c [(if decide (cmd = "ACC") then acc else brk, cb_nothing)]
          end).
Proof. apply follow_poti_run. Qed.
End knob.

(** what the server makes of the speed, and what the controller shows of it *)
Definition server_speed (cmd : option string) (v : Z) : Z :=
  match cmd with
  | None => v
  | Some c => if decide (c = "ACC") then clamp_high (v + SPEED_STEP) else clamp_low 0 (v - SPEED_STEP)
  end.
Definition shown_speed (v : Z) : Z := if v =? 0 then 1 else v.

Definition knob_round (avg v : Z) : Z := server_speed (knob_command avg (shown_speed v)) v.

Lemma knob_round_progress avg v : 0 <= avg <= 255 -> 0 <= v <= 255 ->
  0 <= knob_round avg v <= 255 /\
  (knob_command avg (shown_speed v) = None \/ Z.abs (avg - knob_round avg v) = Z.abs (avg - v) - 5).
Proof.
  intros Ha Hv. unfold knob_round, knob_command, shown_speed, server_speed, clamp_high, clamp_low, SPEED_STEP.
  repeat (case_match || case_decide); rewrite ?andb_true_iff, ?andb_false_iff, ?Z.leb_le, ?Z.leb_gt, ?Z.ltb_lt, ?Z.ltb_ge, ?Z.eqb_eq, ?Z.eqb_neq in *;
    simplify_eq; split; try lia; first [by left | right; lia].
Qed.

Ltac knob_cases :=
  repeat (case_match || case_decide);
  rewrite ?andb_true_iff, ?andb_false_iff, ?Z.leb_le, ?Z.leb_gt, ?Z.ltb_lt, ?Z.ltb_ge, ?Z.eqb_eq, ?Z.eqb_neq in *.

Lemma knob_quiet avg w : 0 <= avg <= 255 -> 0 <= w <= 255 ->
  knob_command avg (shown_speed w) = None -> Z.abs (avg - shown_speed w) < 5.
Proof. unfold knob_command, shown_speed. intros Ha Hw. knob_cases; intros; simplify_eq; lia. Qed.

Lemma knob_there avg : 0 <= avg <= 255 -> knob_command avg (shown_speed avg) = None.
Proof. unfold knob_command, shown_speed. intros Ha. knob_cases; try done; lia. Qed.

(** [n] readings of a knob that is held still *)
Fixpoint readings (n : nat) (analog : Z) (last : list Z) : list Z * Z :=
  match n with
  | O => (last, Z.quot (foldl Z.add 0 last) 10)
  | S n' => readings n' analog (poti_reading analog last).1
  end.

(** after ten readings the average is the position of the knob *)
Lemma readings_settle analog last : 0 <= analog <= 4095 -> length last = 10%nat ->
  let poti := analog * 255 / 4095 in
  readings 10 analog last = (repeat poti 10, poti) /\ 0 <= poti <= 255.
Proof.
  intros Ha Hl poti. do 10 (destruct last as [|? last]; [discriminate Hl|]). destruct last; [|discriminate Hl].
  assert (Z.quot (analog * 255) 4095 = poti) as Hp by (unfold poti; apply Z.quot_div_nonneg; lia).
  split.
  - cbn [readings poti_reading fst drop app]. rewrite Hp. cbn [repeat foldl]. f_equal.
    replace (0 + poti + poti + poti + poti + poti + poti + poti + poti + poti + poti) with (poti * 10) by lia.
    apply Z.quot_mul. lia.
  - unfold poti. split; [apply Z.div_pos; lia|apply Z.div_le_upper_bound; lia].
Qed.

(** a constant average *)
Lemma knob_settles_at avg v n :
  0 <= avg <= 255 -> 0 <= v <= 255 -> (51 <= n)%nat ->
  let v' := Nat.iter n (knob_round avg) v in
  0 <= v' <= 255 /\ knob_command avg (shown_speed v') = None /\ Z.abs (avg - shown_speed v') < 5.
Proof.
  intros Ha Hv Hn. cbv zeta.
  assert (0 <= Nat.iter n (knob_round avg) v <= 255 /\
    (knob_command avg (shown_speed (Nat.iter n (knob_round avg) v)) = None \/
     Z.abs (avg - Nat.iter n (knob_round avg) v) <= 255 - 5 * Z.of_nat n)) as [Hr Hor].
  { clear Hn. induction n as [|n [IHr IHor]]; [cbn; split; [lia|right; lia]|].
    cbn [Nat.iter nat_rect]. change (nat_rect _ _ _ n) with (Nat.iter n (knob_round avg) v) in *.
    set (w := Nat.iter n (knob_round avg) v) in *.
    destruct (knob_round_progress avg w Ha IHr) as [Hr Hp]. split; [done|].
    destruct Hp as [Hp|Hp].
    - left. unfold knob_round. rewrite Hp. cbn [server_speed]. exact Hp.
    - destruct IHor as [Hc|Hc]; [|right; lia]. left. unfold knob_round. rewrite Hc. cbn [server_speed]. exact Hc. }
  assert (knob_command avg (shown_speed (Nat.iter n (knob_round avg) v)) = None) as Hnone.
  { destruct Hor as [|Hd]; [done|]. replace (Nat.iter n (knob_round avg) v) with avg by lia. by apply knob_there. }
  split; [exact Hr|]. split; [done|]. by apply knob_quiet.
Qed.

Definition protocol_acc : FBTCtlMessage := match new_cmd protocol "ACC" [("addr", 3)] with Ok m => m | Err _ => FBTCtlMessage0 end.
Definition protocol_brk : FBTCtlMessage := match new_cmd protocol "BREAK" [("addr", 3)] with Ok m => m | Err _ => FBTCtlMessage0 end.

Lemma knob_sends_witness :
  follow_poti protocol 100 1 sample_control = (Ok tt, with_queue sample_control [(protocol_acc, cb_nothing)]).
Proof.
  refine (knob_sends protocol sample_control sample_copy 0 (mkLok 3 0 "V100" 0 (func lokdef0) 1 1 false EmptyString 0)
           100 protocol_acc protocol_brk _ _ _ _ _ _ _); [reflexivity..|vm_compute; reflexivity|vm_compute; reflexivity].
Defined.

(** the speed shown for a status, in the terms of the knob *)
Lemma shows_shown_speed st d : 0 <= ls_currspeed st -> ls_dir st = 1 \/ ls_dir st = -1 -> shows st d ->
  currspeed d = shown_speed (ls_currspeed st).
Proof.
  intros Hs Hd (E & _). rewrite E. unfold shown, shown_speed. destruct (Z.eqb_spec (ls_currspeed st) 0); cbn; lia.
Qed.

(** ** Loading the functions of a locomotive *)

Lemma func_from_info_off reply i f f' :
  func_from_info reply i f = Ok f' -> (forall v, info_int reply i "value" = Ok v -> 0 <= v < 2^31) -> ison f' = false.
Proof.
  unfold func_from_info. intros Hf Hv. apply outcome_bind_ok in Hf as (nm & _ & Hf).
  apply outcome_bind_ok in Hf as (v & Ev & [= <-]).
  change (func_bit v 31 = false). apply func_bit_31. by apply Hv.
Qed.

Lemma funcs_from_info_off reply k i fs fs' :
  funcs_from_info reply k i fs = Ok fs' ->
  (forall j v, i <= j < i + Z.of_nat k -> info_int reply j "value" = Ok v -> 0 <= v < 2^31) ->
  forall j f, (j < k)%nat -> fs' !! j = Some f -> ison f = false.
Proof.
  revert i fs fs'. induction k as [|k IH]; intros i fs fs' H Hv j f Hj Hf; [lia|].
  destruct fs as [|g fs]; [done|]. cbn in H. apply outcome_bind_ok in H as (g' & Hg & H).
  apply outcome_bind_ok in H as (rest & Hr & [= <-]). destruct j as [|j]; cbn in Hf.
  - injection Hf as <-. eapply func_from_info_off; [exact Hg|]. intros v. apply Hv. lia.
  - eapply (IH _ _ _ Hr); [|instantiate (1:=j); lia|exact Hf]. intros j' v Hj'. apply Hv. lia.
Qed.

(** After the functions of a locomotive were loaded, the controller shows all
    of them as switched off: the loop that should take the value of one
    function runs over the 32 bits of that value and keeps the last one.  (The
    next status reply that names the locomotive corrects this.) *)
Theorem functions_read_as_off t loknum reply n t' :
  info_size reply = Ok n -> (forall j v, 0 <= j < n -> info_int reply j "value" = Ok v -> v = 0 \/ v = 1) ->
  initLokdefFunctions t loknum reply = Ok t' ->
  exists d', t' !! Z.to_nat loknum = Some d' /\
    forall j f, Z.of_nat j < nFunc d' -> func d' !! j = Some f -> ison f = false.
Proof.
  unfold initLokdefFunctions. intros Hn Hv H. rewrite Hn in H. cbn [mbind outcome_bind] in H.
  destruct (MAX_NFUNC <=? n); [done|]. destruct (loknum <? 0); [done|].
  destruct (t !! Z.to_nat loknum) as [d|] eqn:Hd; [|done]. apply outcome_bind_ok in H as (fs & Hf & [= <-]).
  exists (set_func fs (set_nFunc n d)). split; [apply list_lookup_insert_eq; by eapply lookup_lt_Some|].
  intros j f Hj Hl. cbn in Hj, Hl. eapply (funcs_from_info_off _ _ _ _ _ Hf); [|instantiate (1:=j); lia|exact Hl].
  intros k v Hk Ev. destruct (Hv k v ltac:(lia) Ev) as [->| ->]; lia.
Qed.

(** the reply of a server whose two functions are on and off *)
Definition sample_functions : FBTCtlMessage :=
  with_info [Msg STRUCT (data_struct_t [("imgname", FBTCtlMessage_cstr EmptyString); ("name", FBTCtlMessage_cstr "light"); ("value", FBTCtlMessage_int 1)]);
             Msg STRUCT (data_struct_t [("imgname", FBTCtlMessage_cstr EmptyString); ("name", FBTCtlMessage_cstr "horn"); ("value", FBTCtlMessage_int 0)])]
            (Msg 8 (data_struct_t [])).
Definition sample_loaded : list lokdef_t :=
  match initLokdefFunctions sample_copy 0 sample_functions with Ok t => t | Err _ => [] end.

Lemma functions_read_as_off_witness : exists d', sample_loaded !! 0%nat = Some d' /\
  forall j f, Z.of_nat j < nFunc d' -> func d' !! j = Some f -> ison f = false.
Proof.
  apply (functions_read_as_off sample_copy 0 sample_functions 2 sample_loaded).
  - reflexivity.
  - intros j v Hj. assert (j = 0 \/ j = 1) as [->| ->] by lia; vm_compute; intros [= <-]; tauto.
  - vm_compute. reflexivity.
Defined.
