(* ===== verification/GuiViews.v ===== *)
(** * control-esp32/src/GuiView.cpp: the views of the handheld controller

    One view at a time is shown; buttons and time change views, and the view of
    a locomotive drives it.  The build is the one without HAVE_BLUETOOTH (with
    the one use of a Bluetooth variable outside of it, in the handler at the end
    of RefreshWifiThread::run, left out).  Drawing is left out, and with it the
    GETIMAGE query of drawCachedImage; what the code computes for drawing and
    uses later is kept.
    [env] holds what a step reads from outside: clock, WiFi, buttons, knob.  The
    clock is taken in its first 24 days, before [millis()] leaves [long]. *)

From Stdlib Require Import Ascii.
From S2P Require Import Prelude StdMap CString Utils MessageLayout Message Stream Lokdef Hardware ParseExpr Platine ClientThread ControlClient.

(** ** Configuration *)

Inductive when_t : Type := on_off | on | off.
Inductive action_t : Type := act_sendFunc | act_sendFullStop | act_direction.
Record buttonConfig_t : Type := mkButton { bc_when : when_t; bc_action : action_t; bc_funcNr : Z }.

Definition POWER_DOWN_IDLE_TIMEOUT : Z := 600.

(** the scan result of one access point *)
Record Entry : Type := mkEntry { rssi : Z; have_LR : bool }.

(** ** Views *)

(** the views that [GuiViewPowerDown] can return to *)
Inductive wake_view : Type := WakeSelectWifi | WakeControlLoco.

Inductive view : Type :=
  | SelectWifi
  | ConnectWifi (ssid password : string) (LR : bool) (lastWifiStatus connectingStartedAt : Z)
  | ConnectServer (abortConnect : Z)
  | SelectLoco
  | ControlLoco
  | ErrorMessage (needUpdate : bool)
  | PowerDown (viewIfButtonPressed : wake_view) (startTime : Z) (done : bool)
  | Info (page : Z).

(** the functions the views set as handlers of the two buttons; two of them
    capture [this], the number of the view object *)
Inductive handler : Type :=
  | WifiUp | WifiDown | WifiConnect | PowerOffToWifi
  | ServerUp | ServerDown | ServerConnect
  | LocoUp | LocoDown | LocoSelect
  | ControlInfo | ControlBack | PowerOffToControl
  | PowerDownBack (this : nat)
  | InfoBack | InfoPage (this : nat).

(** click and long click handlers of btn1 and btn2; [pressed]: their pressed
    handlers note the time *)
Record Buttons : Type := mkButtons {
  click1 : option handler; long1 : option handler; click2 : option handler; long2 : option handler; pressed : bool;
}.
Definition resetButtons : Buttons := mkButtons None None None None false.

(** [WL_CONNECTED] *)
Definition WL_CONNECTED : Z := 3.

Section GuiViews.
Context {S : Type} `{ClientStream S}.
Context (ml : MessageLayouts) (wifiConfig : list (string * string)) (buttonConfig : list buttonConfig_t) (tft_height : Z).

(** what a step finds outside; [connect] is the result of
    [client->connect(host, port)], [button i] the state of the switch [i] *)
Record env : Type := mkEnv {
  now : Z;
  wifi_status : Z;
  mdns : list (string * Z);
  connect : string * Z -> outcome S;
  button : nat -> bool;
  analog : Z;
}.

(** the current view with its number, the statics of the views and the objects
    they share *)
Record Gui : Type := mkGui {
  g_view : option view;
  g_id : nat;
  g_btn : Buttons;
  g_buttons : nat;              (* how many of [buttons[]] are allocated *)
  g_ctl : Control S;
  g_running : bool;             (* controlClientThread.isRunning() *)
  g_refresh : bool;             (* refreshWifiThread.isRunning() *)
  g_wifiList : smap Entry;
  g_listChanged : bool;
  g_selectedWifi : Z;
  g_wifiUpdate : bool;
  g_mdnsResults : Z;
  g_selectedServer : Z;
  g_serverUpdate : bool;
  g_connectLast : Z;
  g_connectRefresh : Z;
  g_server : string * Z;
  g_firstLoco : Z;
  g_locoUpdate : bool;
  g_lastKey : Z;
  g_dirSwitch : Z;
  g_drawLast : Z;
  g_batRefresh : Z;
  g_lastValues : list Z;
  g_lastPotiCheck : Z;
  g_errorLast : Z;
  g_retries : Z;
  g_asleep : bool;
}.

Section updates.
Context (g : Gui).
Definition with_view x := mkGui x (g_id g) (g_btn g) (g_buttons g) (g_ctl g) (g_running g) (g_refresh g) (g_wifiList g) (g_listChanged g) (g_selectedWifi g) (g_wifiUpdate g) (g_mdnsResults g) (g_selectedServer g) (g_serverUpdate g) (g_connectLast g) (g_connectRefresh g) (g_server g) (g_firstLoco g) (g_locoUpdate g) (g_lastKey g) (g_dirSwitch g) (g_drawLast g) (g_batRefresh g) (g_lastValues g) (g_lastPotiCheck g) (g_errorLast g) (g_retries g) (g_asleep g).
Definition with_id x := mkGui (g_view g) x (g_btn g) (g_buttons g) (g_ctl g) (g_running g) (g_refresh g) (g_wifiList g) (g_listChanged g) (g_selectedWifi g) (g_wifiUpdate g) (g_mdnsResults g) (g_selectedServer g) (g_serverUpdate g) (g_connectLast g) (g_connectRefresh g) (g_server g) (g_firstLoco g) (g_locoUpdate g) (g_lastKey g) (g_dirSwitch g) (g_drawLast g) (g_batRefresh g) (g_lastValues g) (g_lastPotiCheck g) (g_errorLast g) (g_retries g) (g_asleep g).
Definition with_btn x := mkGui (g_view g) (g_id g) x (g_buttons g) (g_ctl g) (g_running g) (g_refresh g) (g_wifiList g) (g_listChanged g) (g_selectedWifi g) (g_wifiUpdate g) (g_mdnsResults g) (g_selectedServer g) (g_serverUpdate g) (g_connectLast g) (g_connectRefresh g) (g_server g) (g_firstLoco g) (g_locoUpdate g) (g_lastKey g) (g_dirSwitch g) (g_drawLast g) (g_batRefresh g) (g_lastValues g) (g_lastPotiCheck g) (g_errorLast g) (g_retries g) (g_asleep g).
Definition with_buttons x := mkGui (g_view g) (g_id g) (g_btn g) x (g_ctl g) (g_running g) (g_refresh g) (g_wifiList g) (g_listChanged g) (g_selectedWifi g) (g_wifiUpdate g) (g_mdnsResults g) (g_selectedServer g) (g_serverUpdate g) (g_connectLast g) (g_connectRefresh g) (g_server g) (g_firstLoco g) (g_locoUpdate g) (g_lastKey g) (g_dirSwitch g) (g_drawLast g) (g_batRefresh g) (g_lastValues g) (g_lastPotiCheck g) (g_errorLast g) (g_retries g) (g_asleep g).
Definition with_ctl x := mkGui (g_view g) (g_id g) (g_btn g) (g_buttons g) x (g_running g) (g_refresh g) (g_wifiList g) (g_listChanged g) (g_selectedWifi g) (g_wifiUpdate g) (g_mdnsResults g) (g_selectedServer g) (g_serverUpdate g) (g_connectLast g) (g_connectRefresh g) (g_server g) (g_firstLoco g) (g_locoUpdate g) (g_lastKey g) (g_dirSwitch g) (g_drawLast g) (g_batRefresh g) (g_lastValues g) (g_lastPotiCheck g) (g_errorLast g) (g_retries g) (g_asleep g).
Definition with_running x := mkGui (g_view g) (g_id g) (g_btn g) (g_buttons g) (g_ctl g) x (g_refresh g) (g_wifiList g) (g_listChanged g) (g_selectedWifi g) (g_wifiUpdate g) (g_mdnsResults g) (g_selectedServer g) (g_serverUpdate g) (g_connectLast g) (g_connectRefresh g) (g_server g) (g_firstLoco g) (g_locoUpdate g) (g_lastKey g) (g_dirSwitch g) (g_drawLast g) (g_batRefresh g) (g_lastValues g) (g_lastPotiCheck g) (g_errorLast g) (g_retries g) (g_asleep g).
Definition with_refresh x := mkGui (g_view g) (g_id g) (g_btn g) (g_buttons g) (g_ctl g) (g_running g) x (g_wifiList g) (g_listChanged g) (g_selectedWifi g) (g_wifiUpdate g) (g_mdnsResults g) (g_selectedServer g) (g_serverUpdate g) (g_connectLast g) (g_connectRefresh g) (g_server g) (g_firstLoco g) (g_locoUpdate g) (g_lastKey g) (g_dirSwitch g) (g_drawLast g) (g_batRefresh g) (g_lastValues g) (g_lastPotiCheck g) (g_errorLast g) (g_retries g) (g_asleep g).
Definition with_wifiList x := mkGui (g_view g) (g_id g) (g_btn g) (g_buttons g) (g_ctl g) (g_running g) (g_refresh g) x (g_listChanged g) (g_selectedWifi g) (g_wifiUpdate g) (g_mdnsResults g) (g_selectedServer g) (g_serverUpdate g) (g_connectLast g) (g_connectRefresh g) (g_server g) (g_firstLoco g) (g_locoUpdate g) (g_lastKey g) (g_dirSwitch g) (g_drawLast g) (g_batRefresh g) (g_lastValues g) (g_lastPotiCheck g) (g_errorLast g) (g_retries g) (g_asleep g).
Definition with_listChanged x := mkGui (g_view g) (g_id g) (g_btn g) (g_buttons g) (g_ctl g) (g_running g) (g_refresh g) (g_wifiList g) x (g_selectedWifi g) (g_wifiUpdate g) (g_mdnsResults g) (g_selectedServer g) (g_serverUpdate g) (g_connectLast g) (g_connectRefresh g) (g_server g) (g_firstLoco g) (g_locoUpdate g) (g_lastKey g) (g_dirSwitch g) (g_drawLast g) (g_batRefresh g) (g_lastValues g) (g_lastPotiCheck g) (g_errorLast g) (g_retries g) (g_asleep g).
Definition with_selectedWifi x := mkGui (g_view g) (g_id g) (g_btn g) (g_buttons g) (g_ctl g) (g_running g) (g_refresh g) (g_wifiList g) (g_listChanged g) x (g_wifiUpdate g) (g_mdnsResults g) (g_selectedServer g) (g_serverUpdate g) (g_connectLast g) (g_connectRefresh g) (g_server g) (g_firstLoco g) (g_locoUpdate g) (g_lastKey g) (g_dirSwitch g) (g_drawLast g) (g_batRefresh g) (g_lastValues g) (g_lastPotiCheck g) (g_errorLast g) (g_retries g) (g_asleep g).
Definition with_wifiUpdate x := mkGui (g_view g) (g_id g) (g_btn g) (g_buttons g) (g_ctl g) (g_running g) (g_refresh g) (g_wifiList g) (g_listChanged g) (g_selectedWifi g) x (g_mdnsResults g) (g_selectedServer g) (g_serverUpdate g) (g_connectLast g) (g_connectRefresh g) (g_server g) (g_firstLoco g) (g_locoUpdate g) (g_lastKey g) (g_dirSwitch g) (g_drawLast g) (g_batRefresh g) (g_lastValues g) (g_lastPotiCheck g) (g_errorLast g) (g_retries g) (g_asleep g).
Definition with_mdnsResults x := mkGui (g_view g) (g_id g) (g_btn g) (g_buttons g) (g_ctl g) (g_running g) (g_refresh g) (g_wifiList g) (g_listChanged g) (g_selectedWifi g) (g_wifiUpdate g) x (g_selectedServer g) (g_serverUpdate g) (g_connectLast g) (g_connectRefresh g) (g_server g) (g_firstLoco g) (g_locoUpdate g) (g_lastKey g) (g_dirSwitch g) (g_drawLast g) (g_batRefresh g) (g_lastValues g) (g_lastPotiCheck g) (g_errorLast g) (g_retries g) (g_asleep g).
Definition with_selectedServer x := mkGui (g_view g) (g_id g) (g_btn g) (g_buttons g) (g_ctl g) (g_running g) (g_refresh g) (g_wifiList g) (g_listChanged g) (g_selectedWifi g) (g_wifiUpdate g) (g_mdnsResults g) x (g_serverUpdate g) (g_connectLast g) (g_connectRefresh g) (g_server g) (g_firstLoco g) (g_locoUpdate g) (g_lastKey g) (g_dirSwitch g) (g_drawLast g) (g_batRefresh g) (g_lastValues g) (g_lastPotiCheck g) (g_errorLast g) (g_retries g) (g_asleep g).
Definition with_serverUpdate x := mkGui (g_view g) (g_id g) (g_btn g) (g_buttons g) (g_ctl g) (g_running g) (g_refresh g) (g_wifiList g) (g_listChanged g) (g_selectedWifi g) (g_wifiUpdate g) (g_mdnsResults g) (g_selectedServer g) x (g_connectLast g) (g_connectRefresh g) (g_server g) (g_firstLoco g) (g_locoUpdate g) (g_lastKey g) (g_dirSwitch g) (g_drawLast g) (g_batRefresh g) (g_lastValues g) (g_lastPotiCheck g) (g_errorLast g) (g_retries g) (g_asleep g).
Definition with_connectLast x := mkGui (g_view g) (g_id g) (g_btn g) (g_buttons g) (g_ctl g) (g_running g) (g_refresh g) (g_wifiList g) (g_listChanged g) (g_selectedWifi g) (g_wifiUpdate g) (g_mdnsResults g) (g_selectedServer g) (g_serverUpdate g) x (g_connectRefresh g) (g_server g) (g_firstLoco g) (g_locoUpdate g) (g_lastKey g) (g_dirSwitch g) (g_drawLast g) (g_batRefresh g) (g_lastValues g) (g_lastPotiCheck g) (g_errorLast g) (g_retries g) (g_asleep g).
Definition with_connectRefresh x := mkGui (g_view g) (g_id g) (g_btn g) (g_buttons g) (g_ctl g) (g_running g) (g_refresh g) (g_wifiList g) (g_listChanged g) (g_selectedWifi g) (g_wifiUpdate g) (g_mdnsResults g) (g_selectedServer g) (g_serverUpdate g) (g_connectLast g) x (g_server g) (g_firstLoco g) (g_locoUpdate g) (g_lastKey g) (g_dirSwitch g) (g_drawLast g) (g_batRefresh g) (g_lastValues g) (g_lastPotiCheck g) (g_errorLast g) (g_retries g) (g_asleep g).
Definition with_server x := mkGui (g_view g) (g_id g) (g_btn g) (g_buttons g) (g_ctl g) (g_running g) (g_refresh g) (g_wifiList g) (g_listChanged g) (g_selectedWifi g) (g_wifiUpdate g) (g_mdnsResults g) (g_selectedServer g) (g_serverUpdate g) (g_connectLast g) (g_connectRefresh g) x (g_firstLoco g) (g_locoUpdate g) (g_lastKey g) (g_dirSwitch g) (g_drawLast g) (g_batRefresh g) (g_lastValues g) (g_lastPotiCheck g) (g_errorLast g) (g_retries g) (g_asleep g).
Definition with_firstLoco x := mkGui (g_view g) (g_id g) (g_btn g) (g_buttons g) (g_ctl g) (g_running g) (g_refresh g) (g_wifiList g) (g_listChanged g) (g_selectedWifi g) (g_wifiUpdate g) (g_mdnsResults g) (g_selectedServer g) (g_serverUpdate g) (g_connectLast g) (g_connectRefresh g) (g_server g) x (g_locoUpdate g) (g_lastKey g) (g_dirSwitch g) (g_drawLast g) (g_batRefresh g) (g_lastValues g) (g_lastPotiCheck g) (g_errorLast g) (g_retries g) (g_asleep g).
Definition with_locoUpdate x := mkGui (g_view g) (g_id g) (g_btn g) (g_buttons g) (g_ctl g) (g_running g) (g_refresh g) (g_wifiList g) (g_listChanged g) (g_selectedWifi g) (g_wifiUpdate g) (g_mdnsResults g) (g_selectedServer g) (g_serverUpdate g) (g_connectLast g) (g_connectRefresh g) (g_server g) (g_firstLoco g) x (g_lastKey g) (g_dirSwitch g) (g_drawLast g) (g_batRefresh g) (g_lastValues g) (g_lastPotiCheck g) (g_errorLast g) (g_retries g) (g_asleep g).
Definition with_lastKey x := mkGui (g_view g) (g_id g) (g_btn g) (g_buttons g) (g_ctl g) (g_running g) (g_refresh g) (g_wifiList g) (g_listChanged g) (g_selectedWifi g) (g_wifiUpdate g) (g_mdnsResults g) (g_selectedServer g) (g_serverUpdate g) (g_connectLast g) (g_connectRefresh g) (g_server g) (g_firstLoco g) (g_locoUpdate g) x (g_dirSwitch g) (g_drawLast g) (g_batRefresh g) (g_lastValues g) (g_lastPotiCheck g) (g_errorLast g) (g_retries g) (g_asleep g).
Definition with_dirSwitch x := mkGui (g_view g) (g_id g) (g_btn g) (g_buttons g) (g_ctl g) (g_running g) (g_refresh g) (g_wifiList g) (g_listChanged g) (g_selectedWifi g) (g_wifiUpdate g) (g_mdnsResults g) (g_selectedServer g) (g_serverUpdate g) (g_connectLast g) (g_connectRefresh g) (g_server g) (g_firstLoco g) (g_locoUpdate g) (g_lastKey g) x (g_drawLast g) (g_batRefresh g) (g_lastValues g) (g_lastPotiCheck g) (g_errorLast g) (g_retries g) (g_asleep g).
Definition with_drawLast x := mkGui (g_view g) (g_id g) (g_btn g) (g_buttons g) (g_ctl g) (g_running g) (g_refresh g) (g_wifiList g) (g_listChanged g) (g_selectedWifi g) (g_wifiUpdate g) (g_mdnsResults g) (g_selectedServer g) (g_serverUpdate g) (g_connectLast g) (g_connectRefresh g) (g_server g) (g_firstLoco g) (g_locoUpdate g) (g_lastKey g) (g_dirSwitch g) x (g_batRefresh g) (g_lastValues g) (g_lastPotiCheck g) (g_errorLast g) (g_retries g) (g_asleep g).
Definition with_batRefresh x := mkGui (g_view g) (g_id g) (g_btn g) (g_buttons g) (g_ctl g) (g_running g) (g_refresh g) (g_wifiList g) (g_listChanged g) (g_selectedWifi g) (g_wifiUpdate g) (g_mdnsResults g) (g_selectedServer g) (g_serverUpdate g) (g_connectLast g) (g_connectRefresh g) (g_server g) (g_firstLoco g) (g_locoUpdate g) (g_lastKey g) (g_dirSwitch g) (g_drawLast g) x (g_lastValues g) (g_lastPotiCheck g) (g_errorLast g) (g_retries g) (g_asleep g).
Definition with_lastValues x := mkGui (g_view g) (g_id g) (g_btn g) (g_buttons g) (g_ctl g) (g_running g) (g_refresh g) (g_wifiList g) (g_listChanged g) (g_selectedWifi g) (g_wifiUpdate g) (g_mdnsResults g) (g_selectedServer g) (g_serverUpdate g) (g_connectLast g) (g_connectRefresh g) (g_server g) (g_firstLoco g) (g_locoUpdate g) (g_lastKey g) (g_dirSwitch g) (g_drawLast g) (g_batRefresh g) x (g_lastPotiCheck g) (g_errorLast g) (g_retries g) (g_asleep g).
Definition with_lastPotiCheck x := mkGui (g_view g) (g_id g) (g_btn g) (g_buttons g) (g_ctl g) (g_running g) (g_refresh g) (g_wifiList g) (g_listChanged g) (g_selectedWifi g) (g_wifiUpdate g) (g_mdnsResults g) (g_selectedServer g) (g_serverUpdate g) (g_connectLast g) (g_connectRefresh g) (g_server g) (g_firstLoco g) (g_locoUpdate g) (g_lastKey g) (g_dirSwitch g) (g_drawLast g) (g_batRefresh g) (g_lastValues g) x (g_errorLast g) (g_retries g) (g_asleep g).
Definition with_errorLast x := mkGui (g_view g) (g_id g) (g_btn g) (g_buttons g) (g_ctl g) (g_running g) (g_refresh g) (g_wifiList g) (g_listChanged g) (g_selectedWifi g) (g_wifiUpdate g) (g_mdnsResults g) (g_selectedServer g) (g_serverUpdate g) (g_connectLast g) (g_connectRefresh g) (g_server g) (g_firstLoco g) (g_locoUpdate g) (g_lastKey g) (g_dirSwitch g) (g_drawLast g) (g_batRefresh g) (g_lastValues g) (g_lastPotiCheck g) x (g_retries g) (g_asleep g).
Definition with_retries x := mkGui (g_view g) (g_id g) (g_btn g) (g_buttons g) (g_ctl g) (g_running g) (g_refresh g) (g_wifiList g) (g_listChanged g) (g_selectedWifi g) (g_wifiUpdate g) (g_mdnsResults g) (g_selectedServer g) (g_serverUpdate g) (g_connectLast g) (g_connectRefresh g) (g_server g) (g_firstLoco g) (g_locoUpdate g) (g_lastKey g) (g_dirSwitch g) (g_drawLast g) (g_batRefresh g) (g_lastValues g) (g_lastPotiCheck g) (g_errorLast g) x (g_asleep g).
Definition with_asleep x := mkGui (g_view g) (g_id g) (g_btn g) (g_buttons g) (g_ctl g) (g_running g) (g_refresh g) (g_wifiList g) (g_listChanged g) (g_selectedWifi g) (g_wifiUpdate g) (g_mdnsResults g) (g_selectedServer g) (g_serverUpdate g) (g_connectLast g) (g_connectRefresh g) (g_server g) (g_firstLoco g) (g_locoUpdate g) (g_lastKey g) (g_dirSwitch g) (g_drawLast g) (g_batRefresh g) (g_lastValues g) (g_lastPotiCheck g) (g_errorLast g) (g_retries g) x.
End updates.

Definition set {A} (f : Gui -> A -> Gui) (x : A) : M Gui unit := modify (fun g => f g x).
(** a method of [controlClientThread] *)
Definition ctl {A} (k : M (Control S) A) : M Gui A := zoom g_ctl (fun c g => with_ctl g c) k.
Definition lastKeyPressed (e : env) : M Gui unit := set with_lastKey (now e).

(** [close()] of the current view; [GuiViewPowerDown] leaves the handlers of
    btn1 and btn2, [GuiViewConnectServer] and [GuiViewErrorMessage] set none *)
Definition close_view (v : view) : M Gui unit :=
  match v with
  | SelectWifi =>
      (* cancel(true): the thread empties the list and ends *)
      modify (fun g => if g_refresh g then with_refresh (with_wifiList g []) false else g);;
      set with_btn resetButtons
  | ConnectWifi _ _ _ _ _ | SelectLoco | Info _ => set with_btn resetButtons
  | ControlLoco => set with_buttons 0%nat;; set with_btn resetButtons
  | PowerDown _ _ _ => set with_buttons 0%nat
  | ConnectServer _ | ErrorMessage _ => mret tt
  end.

(** [startGuiView] up to [init()]: the old view is closed and deleted *)
Definition enter (v : view) : M Gui unit :=
  g ← get;
  (match g_view g with Some old => close_view old | None => mret tt end);;
  modify (fun g => with_id (with_view g (Some v)) (Datatypes.S (g_id g))).

(** ** GuiViewSelectWifi *)

Definition init_SelectWifi : M Gui unit :=
  set with_wifiUpdate false;;
  set with_btn (mkButtons (Some WifiUp) (Some WifiConnect) (Some WifiDown) (Some PowerOffToWifi) true);;
  g ← get;
  if g_refresh g then throw "Thread::start() => thread already running!" else set with_refresh true.
Definition start_SelectWifi : M Gui unit := enter SelectWifi;; init_SelectWifi.

(** [passwordForSSID]: an entry that ends with a star is a prefix; [ssid[len-1]]
    of an empty entry is not defined *)
Definition ssid_matches (pattern ssid : string) : outcome bool :=
  match string_rev pattern with
  | EmptyString => Err (UB "ssid[-1]")
  | String c r => Ok (if ascii_dec c "*" then String.prefix (string_rev r) (c_str ssid) else bool_decide (ssid = pattern))
  end.
Fixpoint find_password (l : list (string * string)) (ssid : string) : outcome (option string) :=
  match l with
  | [] => Ok None
  | (pattern, password) :: l' =>
      b ← ssid_matches pattern ssid;
      if (b : bool) then Ok (Some password) else find_password l' ssid
  end.
Definition passwordForSSID (ssid : string) : outcome (option string) := find_password wifiConfig ssid.

(** ** GuiViewPowerDown *)

(** the assertion and the allocation of [buttons[]], after the handlers *)
Definition init_PowerDown (e : env) : M Gui unit :=
  g ← get;
  (if g_running g then ctl (sendStop ml) else mret tt);;
  modify (fun g => with_btn g (mkButtons (Some (PowerDownBack (g_id g))) (long1 (g_btn g)) (Some (PowerDownBack (g_id g))) (long2 (g_btn g)) (pressed (g_btn g))));;
  g ← get;
  if (0 <? g_buttons g)%nat && (0 <? length buttonConfig)%nat then fail (Abort "buttons[i]==NULL")
  else
    set with_buttons (length buttonConfig);;
    modify (fun g => match g_view g with Some (PowerDown n _ d) => with_view g (Some (PowerDown n (now e) d)) | _ => g end).
Definition start_PowerDown (e : env) (next : wake_view) : M Gui unit := enter (PowerDown next (now e) false);; init_PowerDown e.

(** ** GuiViewErrorMessage *)

Definition start_ErrorMessage : M Gui unit := enter (ErrorMessage true).

(** ** GuiViewControlLoco *)

(** [onClick] for button [i] *)
Definition onClick (e : env) (i : nat) : M Gui unit :=
  g ← get;
  match g_view g, buttonConfig !! i with
  | Some ControlLoco, Some b =>
      (match bc_action b with
       | act_sendFunc => if g_running g then ctl (sendFunc ml (bc_funcNr b) (button e i)) else mret tt
       | act_sendFullStop =>
           ctl (modify (fun c => with_forceStop c true));;
           if g_running g then ctl (sendStop ml) else mret tt
       | act_direction => set with_dirSwitch (if button e i then 1 else -1)
       end);;
      lastKeyPressed e
  | Some ControlLoco, None => fail (UB "buttonConfig[i]")
  | _, _ => mret tt
  end.

Definition init_button (e : env) (i : nat) : M Gui unit :=
  set with_buttons (Datatypes.S i);;
  match buttonConfig !! i with
  | Some b => match bc_when b with on_off => onClick e i | _ => mret tt end
  | None => mret tt
  end.

Definition init_ControlLoco (e : env) : M Gui unit :=
  lastKeyPressed e;;
  iterM (init_button e) (seq 0 (length buttonConfig));;
  modify (fun g => with_btn g (mkButtons (Some ControlInfo) (Some ControlBack) (click2 (g_btn g)) (Some PowerOffToControl) (pressed (g_btn g))));;
  cmd ← ctl (d ← getCurrLok; lift (new_cmd ml "GETFUNCTIONS" [("addr", addr d)]));
  ctl (query cmd cb_functions).
(** [new GuiViewControlLoco] has no battery level yet and asks for it at once *)
Definition start_ControlLoco (e : env) : M Gui unit :=
  enter ControlLoco;;
  ctl (modify (fun c => with_bat c (-1) (-1) (-1)));;
  set with_batRefresh (-30000);;
  init_ControlLoco e.

(** ** GuiViewConnectServer *)

Definition init_ConnectServer (e : env) : M Gui unit :=
  g ← get;
  if g_running g then fail (Abort "!controlClientThread.isRunning()")
  else
    match connect e (g_server g) with
    | Err (Throw _) => ctl (modify (fun c => with_client c None));; start_ErrorMessage
    | Err e => fail e
    | Ok client =>
        ctl (modify (fun c => with_msgNum (with_client c (Some client)) 0));;
        set with_running true;;
        cmd ← lift (new_cmd ml "GETLOCOS" []);
        ctl (query cmd cb_locos)
    end.
Definition start_ConnectServer (e : env) : M Gui unit := enter (ConnectServer 0);; init_ConnectServer e.

(** ** GuiViewControlLocoSelectLoco *)

Definition addr_at (t : list lokdef_t) (i : Z) : outcome Z :=
  if i <? 0 then Err (UB "lokdef[i]") else match t !! Z.to_nat i with Some d => Ok (addr d) | None => Err (UB "lokdef[i]") end.
Definition lok_addr (i : Z) : M Gui Z := ctl (t ← the_lokdef; lift (addr_at t i)).
(** [lokdef[i].addr && ! lokdef[j].addr] and the like *)
Definition has_lok (i : Z) : M Gui bool := a ← lok_addr i; mret (negb (a =? 0)).

Definition set_selected (i : Z) : M Gui unit :=
  ctl (modify (fun c => mkControl (co_lokdef c) (co_nLokdef c) (co_client c) (co_queue c) i (co_msgNum c) (co_dropped c) (co_forceStop c) (co_batLevelAddr c) (co_batLevelCV c) (co_batLevel c))).

Definition init_SelectLoco (e : env) : M Gui unit :=
  set_selected 0;;
  first ← has_lok 0;
  second ← (if (first : bool) then has_lok 1 else mret true);
  if first && negb second then start_ControlLoco e
  else modify (fun g => with_btn g (mkButtons (Some LocoUp) (Some LocoSelect) (Some LocoDown) (Some PowerOffToWifi) (pressed (g_btn g)))).
Definition start_SelectLoco (e : env) : M Gui unit := enter SelectLoco;; set with_locoUpdate true;; init_SelectLoco e.

(** ** GuiViewConnectWifi, GuiViewInfo *)

Definition start_ConnectWifi (e : env) (ssid password : string) (LR : bool) : M Gui unit :=
  enter (ConnectWifi ssid password LR 0 (now e));;
  set with_btn (mkButtons (Some ServerUp) (Some ServerConnect) (Some ServerDown) (Some PowerOffToWifi) true);;
  set with_serverUpdate true.
Definition start_Info : M Gui unit :=
  enter (Info 0);;
  modify (fun g => with_btn g (mkButtons (Some InfoBack) (long1 (g_btn g)) (Some (InfoPage (g_id g))) (long2 (g_btn g)) (pressed (g_btn g)))).

(** ** Buttons *)

(** a network the configuration has a password for *)
Definition usable (ssid : string) : outcome bool := p ← passwordForSSID ssid; Ok (bool_decide (is_Some p)).

(** [buttonCallbackLongPress]: the usable networks in the order of the map *)
Fixpoint nth_usable (n : Z) (l : smap Entry) : outcome (option (string * Entry * string)) :=
  match l with
  | [] => Ok None
  | (ssid, en) :: l' =>
      p ← passwordForSSID ssid;
      match p with
      | Some password => if n =? 0 then Ok (Some (ssid, en, password)) else nth_usable (n - 1) l'
      | None => nth_usable n l'
      end
  end.

(** a handler is called; [PowerDownBack] and [InfoPage] use the view they
    were set by *)
Definition run_handler (e : env) (h : handler) : M Gui unit :=
  g ← get;
  match h with
  | WifiUp => lastKeyPressed e;; (if 0 <? g_selectedWifi g then set with_selectedWifi (g_selectedWifi g - 1) else mret tt);; set with_wifiUpdate true
  | WifiDown =>
      lastKeyPressed e;;
      (if g_selectedWifi g <? Z.of_nat (length (g_wifiList g)) - 1 then set with_selectedWifi (g_selectedWifi g + 1) else mret tt);;
      set with_wifiUpdate true
  | WifiConnect =>
      lastKeyPressed e;;
      r ← lift (nth_usable (g_selectedWifi g) (g_wifiList g));
      match r with
      | Some (ssid, en, password) => start_ConnectWifi e ssid password (have_LR en)
      | None => mret tt
      end
  | PowerOffToWifi => start_PowerDown e WakeSelectWifi
  | ServerUp => (if 0 <? g_selectedServer g then set with_selectedServer (g_selectedServer g - 1) else mret tt);; set with_serverUpdate true
  | ServerDown =>
      (if g_selectedServer g <? g_mdnsResults g - 1 then set with_selectedServer (g_selectedServer g + 1) else mret tt);;
      set with_serverUpdate true
  | ServerConnect =>
      (* MDNS.IP and MDNS.port give 0.0.0.0 and 0 behind the last result *)
      set with_server (default ("0.0.0.0", 0) (mdns e !! Z.to_nat (g_selectedServer g)));;
      start_ConnectServer e
  | LocoUp =>
      let sel := co_selected (g_ctl g) in
      if 0 <? sel then
        set_selected (sel - 1);;
        (if sel - 1 <? g_firstLoco g then set with_firstLoco (g_firstLoco g - 1) else mret tt);;
        set with_locoUpdate true
      else mret tt
  | LocoDown =>
      let sel := co_selected (g_ctl g) in
      b ← has_lok sel;
      b' ← (if (b : bool) then has_lok (sel + 1) else mret false);
      if (b' : bool) then
        set_selected (sel + 1);;
        (if tft_height <=? (sel + 1 - g_firstLoco g) * 17 then set with_firstLoco (g_firstLoco g + 1) else mret tt);;
        set with_locoUpdate true
      else mret tt
  | LocoSelect => b ← has_lok 0; if (b : bool) then start_ControlLoco e else mret tt
  | ControlInfo => start_Info
  | ControlBack => set with_running false;; start_SelectWifi
  | PowerOffToControl => start_PowerDown e WakeControlLoco
  | PowerDownBack this =>
      match g_view g with
      | Some (PowerDown next _ _) =>
          if decide (this = g_id g) then
            match next with WakeSelectWifi => start_SelectWifi | WakeControlLoco => start_ControlLoco e end
          else fail (UB "the view is deleted")
      | _ => fail (UB "the view is deleted")
      end
  | InfoBack => start_ControlLoco e
  | InfoPage this =>
      match g_view g with
      | Some (Info page) => if decide (this = g_id g) then set with_view (Some (Info (Z.land (page + 1) 1))) else fail (UB "the view is deleted")
      | _ => fail (UB "the view is deleted")
      end
  end.

(** ** [loop()] *)

(** the rows of the list: networks with a password first *)
Fixpoint filter_usable (want : bool) (l : smap Entry) : outcome (list string) :=
  match l with
  | [] => Ok []
  | (ssid, _) :: l' => b ← usable ssid; rest ← filter_usable want l'; Ok (if Bool.eqb b want then ssid :: rest else rest)
  end.
Definition wifi_rows (l : smap Entry) : outcome (list string) :=
  a ← filter_usable true l; b ← filter_usable false l; Ok (a ++ b).

Definition idle (e : env) (g : Gui) : bool := g_lastKey g + POWER_DOWN_IDLE_TIMEOUT * 1000 <? now e.

Definition loop_SelectWifi (e : env) : M Gui unit :=
  g ← get;
  if g_wifiUpdate g || g_listChanged g then
    set with_wifiUpdate false;;
    set with_listChanged false;;
    let wifiCount := Z.of_nat (length (g_wifiList g)) in
    if wifiCount =? 0 then mret tt
    else
      (if wifiCount - 1 <? g_selectedWifi g then set with_selectedWifi (wifiCount - 1) else mret tt);;
      lift (wifi_rows (g_wifiList g));; mret tt
  else if idle e g then start_PowerDown e WakeSelectWifi else mret tt.

Definition loop_ConnectWifi (e : env) (ssid password : string) (LR : bool) (lastWifiStatus startedAt : Z) : M Gui unit :=
  g ← get;
  if negb (wifi_status e =? lastWifiStatus) || g_serverUpdate g then
    set with_view (Some (ConnectWifi ssid password LR (wifi_status e) startedAt));;
    if wifi_status e =? WL_CONNECTED then
      (if g_running g then mret tt
       else
         (if g_connectRefresh g + 10 * 1000 <? now e then
            set with_mdnsResults (Z.of_nat (length (mdns e)));; set with_connectRefresh (now e)
          else mret tt);;
         g ← get;
         if g_mdnsResults g =? 1 then
           set with_server (default ("0.0.0.0", 0) (mdns e !! 0%nat));;
           start_ConnectServer e
         else mret tt);;
      set with_serverUpdate false;; set with_connectLast (now e)
    else if startedAt + 10000 <? now e then start_SelectWifi
    else set with_serverUpdate false;; set with_connectLast (now e)
  else if g_connectLast g + 10 * 1000 <? now e then
    (* sleep(2) *)
    set with_connectLast (now e + 2000);; set with_serverUpdate true
  else mret tt.

Definition loop_ConnectServer (abortConnect : Z) : M Gui unit :=
  g ← get;
  if g_running g then mret tt
  else
    set with_view (Some (ConnectServer (abortConnect + 1)));;
    if 10 <=? abortConnect + 1 then start_ErrorMessage else mret tt.

(** [sendSpeed] notes the time when it sends *)
Definition gui_sendSpeed (e : env) (cmdType : string) : M Gui unit :=
  n ← ctl getQueueLength;
  ctl (sendSpeed ml cmdType);;
  if 1 <? n then mret tt else lastKeyPressed e.
Definition follow_knob (e : env) (avg dirSwitch : Z) : M Gui unit :=
  g ← get;
  (if co_forceStop (g_ctl g) then
     if avg =? 0 then ctl (modify (fun c => with_forceStop c false)) else mret tt
   else
     d ← ctl getCurrLok;
     (if (currspeed d + 5 <=? avg) && (currspeed d <=? 250) then gui_sendSpeed e "ACC" else mret tt);;
     d ← ctl getCurrLok;
     (if (avg <=? currspeed d - 5) && (5 <=? currspeed d) then gui_sendSpeed e "BREAK" else mret tt));;
  d ← ctl getCurrLok;
  if dirSwitch =? currdir d then mret tt
  else if 1 <? Z.abs (currspeed d) then ctl (modify (fun c => with_forceStop c true);; sendStop ml)
  else ctl (sendDir ml (0 <? dirSwitch)).

(** [events]: the numbers of the buttons whose handler is due *)
Definition due_handler (e : env) (i : nat) : bool :=
  match buttonConfig !! i with
  | Some b => match bc_when b with on_off => true | on => button e i | off => negb (button e i) end
  | None => false
  end.
Definition loop_ControlLoco (e : env) (events : list nat) : M Gui unit :=
  iterM (fun i => if due_handler e i then onClick e i else mret tt) (filter (fun i => (i < length buttonConfig)%nat) events);;
  g ← get;
  if negb (g_running g) then start_ErrorMessage
  else
    (match co_lokdef (g_ctl g) with None => fail (Abort "no lokdef") | Some _ => mret tt end);;
    (if g_drawLast g + 200 <? now e then
       set with_drawLast (now e);;
       (if g_batRefresh g + 30000 <? now e then set with_batRefresh (now e);; ctl (refreshBatLevel ml) else mret tt);;
       ctl getCurrLok;; mret tt
     else mret tt);;
    (if g_lastPotiCheck g + 200 <? now e then
       let '(lastValues, avg) := poti_reading (analog e) (g_lastValues g) in
       set with_lastPotiCheck (now e);;
       set with_lastValues lastValues;;
       follow_knob e avg (g_dirSwitch g)
     else mret tt);;
    g ← get;
    if idle e g then start_PowerDown e WakeControlLoco else mret tt.

Definition canRetryConnect (e : env) : bool := wifi_status e =? WL_CONNECTED.

Definition loop_ErrorMessage (e : env) (needUpdate : bool) : M Gui unit :=
  (if needUpdate then set with_view (Some (ErrorMessage false));; set with_errorLast (now e) else mret tt);;
  g ← get;
  if g_errorLast g + 1 * 1000 <? now e then
    set with_errorLast (now e);;
    if canRetryConnect e then
      if g_retries g <? 10 then set with_retries (g_retries g + 1);; start_ConnectServer e
      else set with_retries 0;; start_SelectWifi
    else if 20 <=? g_retries g then set with_retries 0;; start_SelectWifi
    else set with_retries (g_retries g + 1);; set with_view (Some (ErrorMessage true))
  else mret tt.

(** a button in this loop returns to the other view: view and buttons are
    deleted while their [loop()] is still running *)
Definition loop_PowerDown (e : env) (events : list nat) (next : wake_view) (startTime : Z) (done : bool) : M Gui unit :=
  match filter (fun i => (i < length buttonConfig)%nat) events with
  | _ :: _ => fail (UB "the view and its buttons are deleted in their loop")
  | [] =>
      if (startTime + 10 * 1000 <? now e) && negb done then
        set with_view (Some (PowerDown next startTime true));;
        set with_running false;;
        set with_asleep true
      else mret tt
  end.

(** [GuiView::runLoop] *)
Definition runLoop (e : env) (events : list nat) : M Gui unit :=
  g ← get;
  match g_view g with
  | None => mret tt
  | Some SelectWifi => loop_SelectWifi e
  | Some (ConnectWifi ssid password LR st started) => loop_ConnectWifi e ssid password LR st started
  | Some (ConnectServer n) => loop_ConnectServer n
  | Some SelectLoco => set with_locoUpdate false
  | Some ControlLoco => loop_ControlLoco e events
  | Some (ErrorMessage b) => loop_ErrorMessage e b
  | Some (PowerDown next t d) => loop_PowerDown e events next t d
  | Some (Info _) => mret tt
  end.

(** ** RefreshWifiThread.cpp *)

(** the list of a scan: one entry per name, with the best signal *)
Definition scan_add (l : smap Entry) (ap : string * Entry) : smap Entry :=
  match smap_find ap.1 l with
  | None => smap_set ap.1 ap.2 l
  | Some old => if rssi old <? rssi ap.2 then smap_set ap.1 (mkEntry (rssi ap.2) (have_LR old)) l else l
  end.
Definition scan_list (found : list (string * Entry)) : smap Entry := foldl scan_add [] found.

(** ** Turns of the main loop *)

Inductive event : Type :=
  | Click1 | Long1 | Click2 | Long2
  | Loop (buttons : list nat)
  | Scan (found : list (string * Entry))                  (* refreshWifiThread *)
  | Reply (cb : callback) (reply : FBTCtlMessage)         (* controlClientThread: a callback *)
  | ThreadEnds.

(** the pressed handler of a button, then the handler *)
Definition call_button (e : env) (which : Buttons -> option handler) : M Gui unit :=
  g ← get;
  (if pressed (g_btn g) then lastKeyPressed e else mret tt);;
  match which (g_btn g) with Some h => run_handler e h | None => mret tt end.

(** the callback of GETLOCOS opens the list of locomotives *)
Definition gui_callback (e : env) (cb : callback) (reply : FBTCtlMessage) : M Gui unit :=
  ctl (run_callback ml cb reply);;
  match cb with cb_locos => start_SelectLoco e | _ => mret tt end.
(** an exception ends the client thread *)
Definition in_thread (k : M Gui unit) : M Gui unit := fun g =>
  match k g with (Err (Throw _), g') => (Ok tt, with_running g' false) | r => r end.

Definition gui_step (e : env) (ev : event) : M Gui unit :=
  g ← get;
  if g_asleep g then mret tt
  else
    match ev with
    | Click1 => call_button e click1
    | Long1 => call_button e long1
    | Click2 => call_button e click2
    | Long2 => call_button e long2
    | Loop buttons => runLoop e buttons
    | Scan found => if g_refresh g then set with_wifiList (scan_list found);; set with_listChanged true else mret tt
    | Reply cb reply => if g_running g then in_thread (gui_callback e cb reply) else mret tt
    | ThreadEnds => set with_running false
    end.

(** [loop()] of btcontrol.cpp catches the exceptions of a turn *)
Definition gui_turn (e : env) (ev : event) : M Gui unit := fun g =>
  match gui_step e ev g with (Err (Throw _), g') => (Ok tt, g') | r => r end.

(** the state before [setup()] starts the first view *)
Definition Gui0 (c : Control S) : Gui :=
  mkGui None 0 resetButtons 0 c false false [] false 0 false 0 0 false 0 0 (EmptyString, 0) 0 false 0 1 0 0 (repeat 0 10) 0 0 0 false.
End GuiViews.
Arguments Gui S : clear implicits.
Arguments env S : clear implicits.
