(* ===== verification/GuiProps.v ===== *)
(** * What holds of the views of the controller

    The invariant of the view machine over all reachable states, exceptions
    included; reconnecting, selecting and switching off. *)

From Stdlib Require Import Ascii Sorted.
From S2P Require Import Prelude StdMap CString Utils MessageLayout Message Stream StreamESP32 Lokdef Hardware ParseExpr Platine ClientThread ControlClient ControlProps GuiViews.

Section inv.
Context {S : Type} `{ClientStream S}.
Context (ml : MessageLayouts) (wifiConfig : list (string * string)) (buttonConfig : list buttonConfig_t) (tft_height : Z).

(** ** The invariant *)

Definition has_buttons (v : option view) : Prop :=
  match v with Some ControlLoco | Some (PowerDown _ _ _) => True | _ => False end.
Definition page_ok (v : option view) : Prop := match v with Some (Info p) => p = 0 \/ p = 1 | _ => True end.
(** a handler that captured an information view finds that view *)
Definition captured_ok (g : Gui S) (h : option handler) : Prop :=
  match h with Some (InfoPage this) => this = g_id g /\ exists p, g_view g = Some (Info p) | _ => True end.

(** the scan runs exactly while its view is shown, the switches are allocated
    only by the two views that free them *)
Record gui_inv (g : Gui S) : Prop := mkGuiInv {
  gi_refresh : g_refresh g = true <-> g_view g = Some SelectWifi;
  gi_buttons : (0 < g_buttons g)%nat -> has_buttons (g_view g);
  gi_list : smap_wf (g_wifiList g);
  gi_wifi : 0 <= g_selectedWifi g;
  gi_server : 0 <= g_selectedServer g;
  gi_retries : 0 <= g_retries g <= 20;
  gi_page : page_ok (g_view g);
  gi_click1 : captured_ok g (click1 (g_btn g));
  gi_long1 : captured_ok g (long1 (g_btn g));
  gi_click2 : captured_ok g (click2 (g_btn g));
  gi_long2 : captured_ok g (long2 (g_btn g));
}.

Lemma wp_get {T} (Q : T -> T -> Prop) E s : Q s s -> wp get Q E s.
Proof. done. Qed.
Lemma wp_set {A} (f : Gui S -> A -> Gui S) x (Q : unit -> Gui S -> Prop) E g : Q tt (f g x) -> wp (set f x) Q E g.
Proof. done. Qed.
Lemma wp_ctl {A} (k : M (Control S) A) (Q : A -> Gui S -> Prop) (E : exn -> Gui S -> Prop) g :
  (forall a c, Q a (with_ctl g c)) -> (forall e c, E e (with_ctl g c)) -> wp (ctl k) Q E g.
Proof. intros HQ HE. unfold wp, ctl, zoom. destruct (k (g_ctl g)) as [[a|e] c]; auto. Qed.
Lemma wp_throw {A} w (Q : A -> Gui S -> Prop) (E : exn -> Gui S -> Prop) g : E (Throw w) g -> wp (throw w) Q E g.
Proof. done. Qed.

(** [keep I c]: [c] keeps [I], on return and on every exception *)
Definition keep {A} (I : Gui S -> Prop) (c : M (Gui S) A) : Prop := forall g, I g -> wp c (fun _ => I) (fun _ => I) g.
Abbreviation ok := (keep gui_inv).

Section keep.
Context (I : Gui S -> Prop).
Lemma keep_bind {A B} (c : M (Gui S) A) (f : A -> M (Gui S) B) : keep I c -> (forall a, keep I (f a)) -> keep I (c ≫= f).
Proof. intros Hc Hf g Hg. apply wp_bind. eapply wp_mono; [by apply Hc|by intros a g' Hg'; apply Hf|done]. Qed.
Lemma keep_ret {A} (a : A) : keep I (mret a).
Proof. by intros g Hg. Qed.
Lemma keep_get : keep I get.
Proof. by intros g Hg. Qed.
Lemma keep_fail {A} e : keep I (fail e : M (Gui S) A).
Proof. by intros g Hg. Qed.
Lemma keep_get_bind {A} (f : Gui S -> M (Gui S) A) :
  (forall g, I g -> wp (f g) (fun _ => I) (fun _ => I) g) -> keep I (get ≫= f).
Proof. intros Hf g Hg. by apply (Hf g). Qed.
Lemma keep_lift {A} (o : outcome A) : keep I (lift o).
Proof. by intros g Hg; unfold wp, lift; destruct o. Qed.
Lemma keep_modify (f : Gui S -> Gui S) : (forall g, I g -> I (f g)) -> keep I (modify f).
Proof. intros Hf g Hg. by apply Hf. Qed.
Lemma keep_ctl {A} (k : M (Control S) A) : (forall g c, I g -> I (with_ctl g c)) -> keep I (ctl k).
Proof. intros HI g Hg. by apply wp_ctl; intros; apply HI. Qed.
Lemma keep_iterM {A} (f : A -> M (Gui S) unit) l : (forall x, keep I (f x)) -> keep I (iterM f l).
Proof. intros Hf. induction l; cbn; [apply keep_ret|]. by apply keep_bind. Qed.
End keep.

(** the invariant while the view of the locomotive is shown *)
Definition controlling (g : Gui S) : Prop := gui_inv g /\ g_view g = Some ControlLoco.

(** updates the invariant does not look at *)
Ltac gi_same :=
  intros;
  match goal with
  | Hg : gui_inv _ |- _ => by destruct Hg; split
  | Hg : controlling _ |- _ => by destruct Hg as [[] ?]; split; [split|]
  end.
Ltac ok_step :=
  match goal with
  | |- keep _ (mret _) => apply keep_ret
  | |- keep _ (fail _) => apply keep_fail
  | |- keep _ (throw _) => apply keep_fail
  | |- keep _ get => apply keep_get
  | |- keep _ (lift _) => apply keep_lift
  | |- keep _ (ctl _) => apply keep_ctl; gi_same
  | |- keep _ (if ?b then _ else _) => destruct b eqn:?
  | |- keep _ (_ ≫= _) => apply keep_bind; [|intros ?]
  | |- keep _ (set _ _) => apply keep_modify; gi_same
  | |- keep _ (lastKeyPressed _) => apply keep_modify; gi_same
  | |- keep _ (match ?x with _ => _ end) => destruct x
  end.

(** after the old view was closed *)
Definition info_free (b : Buttons) : Prop :=
  forall i, click1 b <> Some (InfoPage i) /\ long1 b <> Some (InfoPage i) /\ click2 b <> Some (InfoPage i) /\ long2 b <> Some (InfoPage i).
Record entered (v : view) (g g' : Gui S) : Prop := mkEntered {
  en_view : g_view g' = Some v;
  en_id : g_id g' = Datatypes.S (g_id g);
  en_refresh : g_refresh g' = false;
  en_buttons : g_buttons g' = 0%nat;
  en_free : info_free (g_btn g');
  en_ctl : g_ctl g' = g_ctl g;
  en_running : g_running g' = g_running g;
  en_list : smap_wf (g_wifiList g');
  en_wifi : g_selectedWifi g' = g_selectedWifi g;
  en_server : g_selectedServer g' = g_selectedServer g;
  en_host : g_server g' = g_server g;
  en_retries : g_retries g' = g_retries g;
  en_last : g_errorLast g' = g_errorLast g;
  en_asleep : g_asleep g' = g_asleep g;
}.

Lemma info_free_other g : gui_inv g -> (forall p, g_view g <> Some (Info p)) -> info_free (g_btn g).
Proof.
  intros [_ _ _ _ _ _ _ C1 L1 C2 L2] Hv i. unfold captured_ok in *.
  split_and!; intros E; rewrite E in *; [destruct C1 as [_ [p Hp]]|destruct L1 as [_ [p Hp]]|destruct C2 as [_ [p Hp]]|destruct L2 as [_ [p Hp]]]; by eapply Hv.
Qed.
Lemma info_free_reset : info_free resetButtons.
Proof. by intros i. Qed.

Lemma enter_run v g : gui_inv g -> exists g', enter v g = (Ok tt, g') /\ entered v g g'.
Proof.
  intros Hg. pose proof (gi_refresh g Hg) as Hr. pose proof (gi_buttons g Hg) as Hb.
  assert (forall v0, g_view g = v0 -> v0 <> Some SelectWifi -> g_refresh g = false) as Hnr.
  { intros v0 <- Hne. destruct (g_refresh g); [|done]. destruct Hne. by apply Hr. }
  assert (forall v0, g_view g = v0 -> ~ has_buttons v0 -> g_buttons g = 0%nat) as Hnb.
  { intros v0 <- Hne. destruct (g_buttons g); [done|]. destruct Hne. apply Hb. lia. }
  unfold enter, mbind, M_bind, get, mret, M_ret. destruct (g_view g) as [old|] eqn:V.
  - specialize (Hnr _ eq_refl). specialize (Hnb _ eq_refl). pose proof (info_free_other g Hg) as Hf. rewrite V in Hf.
    pose proof info_free_reset as Hfree.
    destruct old; cbn [close_view]; unfold mbind, M_bind, set, modify, mret, M_ret; try rewrite (proj2 Hr eq_refl);
      eexists; (split; [reflexivity|]); split; cbn; try done; try (by apply Hnr); try (by apply Hnb; intros []); try (by apply Hf); try (by apply Hg); try (by apply smap_wf_nil).
  - specialize (Hnr _ eq_refl). specialize (Hnb _ eq_refl). pose proof (info_free_other g Hg) as Hf. rewrite V in Hf.
    eexists. split; [reflexivity|]. split; cbn; try done; [by apply Hnr|by apply Hnb; intros []|by apply Hf|by apply Hg].
Qed.

Lemma captured_free g b : info_free b -> captured_ok g (click1 b) /\ captured_ok g (long1 b) /\ captured_ok g (click2 b) /\ captured_ok g (long2 b).
Proof.
  intros Hf. unfold captured_ok. split_and!.
  - destruct (click1 b) as [[]|] eqn:E; try done. by destruct (Hf this) as (X & _).
  - destruct (long1 b) as [[]|] eqn:E; try done. by destruct (Hf this) as (_ & X & _).
  - destruct (click2 b) as [[]|] eqn:E; try done. by destruct (Hf this) as (_ & _ & X & _).
  - destruct (long2 b) as [[]|] eqn:E; try done. by destruct (Hf this) as (_ & _ & _ & X).
Qed.

Lemma entered_inv v g g' : gui_inv g -> entered v g g' -> v <> SelectWifi -> page_ok (Some v) -> gui_inv g'.
Proof.
  intros Hg E Hv Hp. destruct (captured_free g' _ (en_free _ _ _ E)) as (C1 & L1 & C2 & L2).
  split; rewrite ?(en_view _ _ _ E), ?(en_refresh _ _ _ E), ?(en_buttons _ _ _ E), ?(en_wifi _ _ _ E), ?(en_server _ _ _ E), ?(en_retries _ _ _ E);
    try done; try apply Hg; try apply (en_list _ _ _ E); try lia. split; [done|]. by intros [= ->].
Qed.

Lemma ok_enter v : v <> SelectWifi -> page_ok (Some v) -> ok (enter v).
Proof. intros Hv Hp g Hg. destruct (enter_run v g Hg) as (g' & E & En). unfold wp. rewrite E. by eapply entered_inv. Qed.

(** [startGuiView(new GuiViewSelectWifi)] always starts the scan *)
Lemma start_SelectWifi_run g : gui_inv g -> exists g', start_SelectWifi g = (Ok tt, g') /\ gui_inv g' /\ g_view g' = Some SelectWifi /\
  g_retries g' = g_retries g /\ g_running g' = g_running g /\ g_ctl g' = g_ctl g /\ g_asleep g' = g_asleep g.
Proof.
  intros Hg. destruct (enter_run SelectWifi g Hg) as (g1 & E & En). unfold start_SelectWifi, init_SelectWifi.
  unfold mbind, M_bind at 1. rewrite E. unfold mbind, M_bind, set, modify, get. cbn. rewrite (en_refresh _ _ _ En).
  eexists. split; [reflexivity|]. cbn. split_and!; [|apply En..]. split; cbn; rewrite ?(en_view _ _ _ En), ?(en_buttons _ _ _ En), ?(en_wifi _ _ _ En), ?(en_server _ _ _ En), ?(en_retries _ _ _ En);
    try done; try apply Hg; try apply (en_list _ _ _ En); lia.
Qed.
Lemma ok_start_SelectWifi : ok start_SelectWifi.
Proof. intros g Hg. destruct (start_SelectWifi_run g Hg) as (g' & E & I & _). unfold wp. by rewrite E. Qed.

(** after the exception-free part of an entry, a computation that keeps the
    invariant and the view *)
Lemma wp_enter v (Q : unit -> Gui S -> Prop) E g :
  gui_inv g -> (forall g', entered v g g' -> Q tt g') -> wp (enter v) Q E g.
Proof. intros Hg HQ. destruct (enter_run v g Hg) as (g' & Er & En). unfold wp. rewrite Er. auto. Qed.

(** [startGuiView(new GuiViewPowerDown)]: only the command STOP can fail, the
    assertion that no switch is allocated holds *)
Lemma start_PowerDown_run e next g : gui_inv g ->
  match start_PowerDown ml buttonConfig e next g with
  | (Ok _, g') => gui_inv g' /\ g_view g' = Some (PowerDown next (now e) false) /\ g_buttons g' = length buttonConfig /\ g_running g' = g_running g /\ g_asleep g' = g_asleep g /\
      (if g_running g then sendStop ml (g_ctl g) = (Ok tt, g_ctl g') else g_ctl g' = g_ctl g)
  | (Err x, g') => gui_inv g' /\ g_running g = true /\ exists c, sendStop ml (g_ctl g) = (Err x, c)
  end.
Proof.
  intros Hg. destruct (enter_run (PowerDown next (now e) false) g Hg) as (g1 & E & En).
  assert (gui_inv g1) as H1 by (by eapply entered_inv).
  unfold start_PowerDown, init_PowerDown. unfold mbind, M_bind at 1. rewrite E.
  unfold mbind, M_bind, get, set, modify, mret, M_ret, fail. rewrite (en_running _ _ _ En).
  destruct (g_running g) eqn:R; [unfold ctl, zoom; rewrite (en_ctl _ _ _ En); destruct (sendStop ml (g_ctl g)) as [[[]|x] c] eqn:St|];
    cbn; rewrite ?(en_buttons _ _ _ En); cbn; rewrite ?(en_view _ _ _ En); cbn.
  2: { split_and!; [by destruct H1; split|done|eauto]. }
  all: split_and!; rewrite ?(en_ctl _ _ _ En), ?(en_running _ _ _ En), ?(en_asleep _ _ _ En); try done.
  all: destruct H1; split; cbn in *; rewrite ?(en_view _ _ _ En) in *; try done.
  all: by apply captured_free, En.
Qed.
Lemma ok_start_PowerDown e next : ok (start_PowerDown ml buttonConfig e next).
Proof. intros g Hg. pose proof (start_PowerDown_run e next g Hg) as P. unfold wp. by destruct (start_PowerDown _ _ _ _ g) as [[?|?] ?]; destruct P. Qed.

Lemma ok_start_ErrorMessage : ok start_ErrorMessage.
Proof. by apply ok_enter. Qed.

(** [buttons[i]->begin] and the handlers of the switches *)
Lemma keep_onClick I e i : (forall g c, I g -> I (with_ctl g c)) -> (forall g n, I g -> I (with_lastKey g n)) -> (forall g n, I g -> I (with_dirSwitch g n)) ->
  keep I (onClick ml buttonConfig e i).
Proof.
  intros HC HK HD. assert (forall A (k : M (Control S) A), keep I (ctl k)) as Hctl by (intros; by apply keep_ctl; intros; apply HC).
  unfold onClick. repeat ok_step; first [apply Hctl|by apply keep_modify; auto].
Qed.
Lemma ok_onClick e i : ok (onClick ml buttonConfig e i).
Proof. apply keep_onClick; gi_same. Qed.

Lemma keep_init_button e i : keep controlling (init_button ml buttonConfig e i).
Proof.
  unfold init_button. apply keep_bind; [|intros _].
  - apply keep_modify. intros g [[] V]. split; [split|]; try done. intros _. cbn. by rewrite V.
  - repeat ok_step. apply keep_onClick; gi_same.
Qed.

Lemma controlling_inv {A} (c : M (Gui S) A) g : controlling g -> keep controlling c -> wp c (fun _ => gui_inv) (fun _ => gui_inv) g.
Proof. intros Hg Hc. eapply wp_mono; [by apply Hc|by intros a g' [Hg' _]|by intros e g' [Hg' _]]. Qed.

Lemma ok_start_ControlLoco e : ok (start_ControlLoco ml buttonConfig e).
Proof.
  intros g Hg. unfold start_ControlLoco. apply wp_bind, wp_enter; [done|]. intros g1 En.
  apply controlling_inv; [by split; [eapply entered_inv|apply En]|].
  unfold init_ControlLoco. repeat ok_step; [apply keep_iterM; intros; apply keep_init_button|].
  apply keep_modify. intros g2 [[] V]. split; [split|]; try done.
Qed.

Lemma ok_start_ConnectServer e : ok (start_ConnectServer ml e).
Proof.
  unfold start_ConnectServer, init_ConnectServer. apply keep_bind; [by apply ok_enter|intros _].
  repeat ok_step; apply ok_start_ErrorMessage.
Qed.

Lemma ok_has_lok i : ok (has_lok i).
Proof. unfold has_lok, lok_addr. repeat ok_step. Qed.

Lemma ok_start_SelectLoco e : ok (start_SelectLoco ml buttonConfig e).
Proof.
  unfold start_SelectLoco, init_SelectLoco, set_selected. apply keep_bind; [by apply ok_enter|intros _].
  repeat first [apply ok_has_lok|apply ok_start_ControlLoco|ok_step].
  apply keep_modify. by intros g []; split.
Qed.

Lemma ok_start_ConnectWifi e ssid password LR : ok (start_ConnectWifi e ssid password LR).
Proof. unfold start_ConnectWifi. apply keep_bind; [by apply ok_enter|intros _]. repeat ok_step. Qed.

Lemma ok_start_Info : ok start_Info.
Proof.
  intros g Hg. unfold start_Info. apply wp_bind, wp_enter; [done|]. intros g1 En. apply wp_modify.
  assert (gui_inv g1) as [] by (eapply entered_inv; [done|done|done|by left]). split; try done.
  cbn. split; [done|]. rewrite (en_view _ _ _ En). eauto.
Qed.

(** ** The handlers and loops *)

Ltac ok_all :=
  repeat first [apply ok_start_SelectWifi|apply ok_start_PowerDown|apply ok_start_ErrorMessage|apply ok_start_ControlLoco|apply ok_start_ConnectServer
    |apply ok_start_SelectLoco|apply ok_start_ConnectWifi|apply ok_start_Info|apply ok_has_lok|apply ok_onClick|ok_step].

Lemma ok_selectedWifi x : 0 <= x -> ok (set with_selectedWifi x).
Proof. intros Hx. apply keep_modify. by intros g []; split. Qed.
Lemma ok_selectedServer x : 0 <= x -> ok (set with_selectedServer x).
Proof. intros Hx. apply keep_modify. by intros g []; split. Qed.
Lemma ok_retries x : 0 <= x <= 20 -> ok (set with_retries x).
Proof. intros Hx. apply keep_modify. by intros g []; split. Qed.

(** the same view object with another state *)
Definition same_kind (v v' : view) : Prop :=
  match v, v' with
  | ConnectWifi _ _ _ _ _, ConnectWifi _ _ _ _ _ | ConnectServer _, ConnectServer _ | ErrorMessage _, ErrorMessage _
  | PowerDown _ _ _, PowerDown _ _ _ => True
  | Info _, Info p => p = 0 \/ p = 1
  | _, _ => False
  end.
Lemma wp_same_kind v v' g : gui_inv g -> g_view g = Some v -> same_kind v v' -> gui_inv (with_view g (Some v')).
Proof.
  intros [] V K. assert (forall h, captured_ok g h -> captured_ok (with_view g (Some v')) h) as Hc.
  { unfold captured_ok. rewrite V. intros [[]|]; try done. intros [-> [p [= ->]]]. destruct v'; try done. cbn. eauto. }
  split; cbn; try (by apply Hc); try done; rewrite V in *; destruct v, v'; try done; cbn in *; try tauto.
  all: split; [by intros R; apply gi_refresh0 in R|done].
Qed.

Lemma keep_at {A} (c : M (Gui S) A) g : gui_inv g -> ok c -> wp c (fun _ => gui_inv) (fun _ => gui_inv) g.
Proof. intros Hg Hc. by apply Hc. Qed.

Lemma ok_run_handler e h : ok (run_handler ml wifiConfig buttonConfig tft_height e h).
Proof.
  apply keep_get_bind. intros g Hg. pose proof (gi_wifi g Hg). pose proof (gi_server g Hg).
  destruct h as [| | | | | | | | | | | | |this| |this].
  16: { destruct (g_view g) as [v|] eqn:V; [|by apply keep_at; [|apply keep_fail]].
    destruct v as [| | | | | | |p]; try (by apply keep_at; [|apply keep_fail]). destruct (decide (this = g_id g)); [|by apply keep_at; [|apply keep_fail]].
    apply wp_set. eapply wp_same_kind; [done..|]. cbn. rewrite (Z.land_ones (p + 1) 1 ltac:(lia) : Z.land (p + 1) 1 = _). pose proof (Z.mod_pos_bound (p + 1) (2 ^ 1) eq_refl). change (2 ^ 1) with 2 in *. lia. }
  all: apply keep_at; [done|].
  all: unfold set_selected; ok_all.
  all: first [apply ok_selectedWifi|apply ok_selectedServer]; lia.
Qed.

Lemma wp_same_view {A} v v' (k : M (Gui S) A) g : gui_inv g -> g_view g = Some v -> same_kind v v' -> ok k ->
  wp (set with_view (Some v');; k) (fun _ => gui_inv) (fun _ => gui_inv) g.
Proof. intros Hg V K Hk. apply wp_bind, wp_set. apply keep_at; [by eapply wp_same_kind|done]. Qed.

Lemma ok_loop_SelectWifi e : ok (loop_SelectWifi ml wifiConfig buttonConfig e).
Proof.
  unfold loop_SelectWifi. ok_all. apply ok_selectedWifi. lia.
Qed.

Lemma wp_loop_ConnectWifi e ssid password LR st t g : gui_inv g -> g_view g = Some (ConnectWifi ssid password LR st t) ->
  wp (loop_ConnectWifi ml e ssid password LR st t) (fun _ => gui_inv) (fun _ => gui_inv) g.
Proof.
  intros Hg V. unfold loop_ConnectWifi. apply wp_bind, wp_get. destruct (_ || _).
  - eapply wp_same_view; [done..|]. ok_all.
  - apply keep_at; [done|]. ok_all.
Qed.

Lemma wp_loop_ConnectServer n g : gui_inv g -> g_view g = Some (ConnectServer n) ->
  wp (loop_ConnectServer n) (fun _ => gui_inv) (fun _ => gui_inv) g.
Proof.
  intros Hg V. unfold loop_ConnectServer. apply wp_bind, wp_get. destruct (g_running g); [done|].
  eapply wp_same_view; [done..|]. ok_all.
Qed.

Lemma ok_follow_knob e avg dir : ok (follow_knob ml e avg dir).
Proof. unfold follow_knob, gui_sendSpeed. ok_all. Qed.

Lemma ok_loop_ControlLoco e events : ok (loop_ControlLoco ml buttonConfig e events).
Proof.
  unfold loop_ControlLoco. apply keep_bind; [apply keep_iterM; intros; ok_all|intros _].
  apply keep_bind; [apply keep_get|intros g]. destruct (poti_reading (analog e) (g_lastValues g)) as [lv avg].
  repeat first [apply ok_follow_knob|progress ok_all].
Qed.

Lemma wp_loop_ErrorMessage e b g : gui_inv g -> g_view g = Some (ErrorMessage b) ->
  wp (loop_ErrorMessage ml e b) (fun _ => gui_inv) (fun _ => gui_inv) g.
Proof.
  intros Hg V. unfold loop_ErrorMessage. apply wp_bind.
  assert (forall g', gui_inv g' -> (exists b', g_view g' = Some (ErrorMessage b')) ->
    wp (g ← get;
      if g_errorLast g + 1 * 1000 <? now e then
        set with_errorLast (now e);;
        if canRetryConnect e then
          if g_retries g <? 10 then set with_retries (g_retries g + 1);; start_ConnectServer ml e
          else set with_retries 0;; start_SelectWifi
        else if 20 <=? g_retries g then set with_retries 0;; start_SelectWifi
        else set with_retries (g_retries g + 1);; set with_view (Some (ErrorMessage true))
      else mret tt) (fun _ => gui_inv) (fun _ => gui_inv) g') as Hrest.
  { intros g1 Hg1 [b1 V1]. pose proof (gi_retries g1 Hg1). apply wp_bind, wp_get. destruct (_ <? now e); [|done].
    apply wp_bind, wp_set. assert (gui_inv (with_errorLast g1 (now e))) as Hg2 by (by destruct Hg1; split).
    destruct (canRetryConnect e); [apply keep_at; [done|]; ok_all; apply ok_retries; lia|].
    destruct (20 <=? g_retries g1) eqn:R; [apply keep_at; [done|]; ok_all; apply ok_retries; lia|].
    apply wp_bind, wp_set, wp_set. eapply wp_same_kind; [|by cbn; rewrite V1|done]. destruct Hg2; split; try done. cbn in *. lia. }
  destruct b; [|by apply wp_ret, Hrest; eauto].
  apply wp_bind, wp_set, wp_set. apply Hrest; [|by eexists].
  pose proof (wp_same_kind _ (ErrorMessage false) g Hg V I) as []. by split.
Qed.

Lemma wp_loop_PowerDown e events next t d g : gui_inv g -> g_view g = Some (PowerDown next t d) ->
  wp (loop_PowerDown buttonConfig e events next t d) (fun _ => gui_inv) (fun _ => gui_inv) g.
Proof.
  intros Hg V. unfold loop_PowerDown. destruct (filter _ _); [|done]. destruct (_ && _); [|done].
  eapply wp_same_view; [done..|]. ok_all.
Qed.

Lemma ok_runLoop e events : ok (runLoop ml wifiConfig buttonConfig e events).
Proof.
  apply keep_get_bind. intros g Hg. destruct (g_view g) as [[]|] eqn:V; try done.
  - by apply ok_loop_SelectWifi.
  - by apply wp_loop_ConnectWifi.
  - by apply wp_loop_ConnectServer.
  - apply keep_at; [done|]. ok_all.
  - by apply ok_loop_ControlLoco.
  - by apply wp_loop_ErrorMessage.
  - by apply wp_loop_PowerDown.
Qed.

Lemma ok_in_thread c : ok c -> ok (in_thread c).
Proof.
  intros Hc g Hg. specialize (Hc g Hg). unfold wp, in_thread in *. destruct (c g) as [[?|[]] g']; try done. by destruct Hc; split.
Qed.

Lemma scan_list_wf found : smap_wf (scan_list found).
Proof.
  unfold scan_list. generalize (@smap_wf_nil Entry). generalize (@nil (string * Entry)). induction found as [|ap found IH]; [done|].
  intros l Hl. cbn. apply IH. unfold scan_add. destruct (smap_find ap.1 l); [destruct (_ <? _)|]; auto using smap_wf_set.
Qed.
Lemma ok_wifiList found : ok (set with_wifiList (scan_list found)).
Proof. apply keep_modify. intros g []; split; try done. apply scan_list_wf. Qed.

Lemma ok_gui_step e ev : ok (gui_step ml wifiConfig buttonConfig tft_height e ev).
Proof.
  unfold gui_step, call_button, gui_callback.
  repeat first [apply ok_run_handler|apply ok_runLoop|apply ok_in_thread|apply ok_wifiList|progress ok_all].
Qed.
Lemma ok_gui_turn e ev : ok (gui_turn ml wifiConfig buttonConfig tft_height e ev).
Proof.
  intros g Hg. pose proof (ok_gui_step e ev g Hg) as P. unfold wp, gui_turn in *. by destruct (gui_step _ _ _ _ e ev g) as [[?|[]] g'].
Qed.

(** the states of the main loop; a turn that aborts is the end of the program *)
Inductive gui_reach : Gui S -> Prop :=
  | gui_reach_setup c g : start_SelectWifi (Gui0 c) = (Ok tt, g) -> gui_reach g
  | gui_reach_turn e ev g g' : gui_reach g -> gui_turn ml wifiConfig buttonConfig tft_height e ev g = (Ok tt, g') -> gui_reach g'.

Lemma gui_reach_inv g : gui_reach g -> gui_inv g.
Proof.
  induction 1 as [c g E|e ev g g' _ IH E].
  - assert (gui_inv (Gui0 c)) as G0 by (split; cbn; (done || lia || apply smap_wf_nil)).
    pose proof (ok_start_SelectWifi _ G0) as P. unfold wp in P. by rewrite E in P.
  - pose proof (ok_gui_turn e ev g IH) as P. unfold wp in P. by rewrite E in P.
Qed.

(** C14: In every state the main loop of the controller can reach, through
    any sequence of clicks, loops, scans, replies and exceptions: the WiFi scan
    runs exactly while the list of networks is shown, so that opening the list
    never throws; switches are allocated only while one of the two views that free
    them is shown, so the assertion of GuiViewPowerDown::init never fails and
    only an exception of the STOP command can end it; the list is an ordered map,
    the selected rows are never negative, and no handler of a deleted
    information view is left. *)
Theorem gui_invariant g : gui_reach g ->
  gui_inv g /\
  (exists g', start_SelectWifi g = (Ok tt, g') /\ g_view g' = Some SelectWifi /\ g_refresh g' = true) /\
  (forall e next x g', start_PowerDown ml buttonConfig e next g = (Err x, g') -> g_running g = true /\ exists c, sendStop ml (g_ctl g) = (Err x, c)).
Proof.
  intros Hr. pose proof (gui_reach_inv g Hr) as Hg. split; [done|]. split.
  - destruct (start_SelectWifi_run g Hg) as (g' & E & [Hf _ _ _ _ _ _ _ _ _ _] & V & _). exists g'. split_and!; try done. by apply Hf.
  - intros e next x g' E. pose proof (start_PowerDown_run e next g Hg) as P. rewrite E in P. naive_solver.
Qed.

Lemma sendStop_run (c : Control S) t i d cmd : co_lokdef c = Some t -> co_selected c = Z.of_nat i -> locos t !! i = Some d ->
  new_cmd ml "STOP" [("addr", addr d)] = Ok cmd -> sendStop ml c = (Ok tt, with_queue c (co_queue c ++ [(cmd, cb_nothing)])).
Proof. intros Ht Hi Hd Hcmd. unfold sendStop. rewrite (run_bind _ _ _ d c) by (by eapply getCurrLok_run). by rewrite Hcmd. Qed.

(** a turn without a button: the loop of the view, a scan, a reply other than
    the list of locomotives, the end of the client thread *)
Definition no_button (ev : event) : Prop :=
  match ev with
  | Loop [] | Scan _ | ThreadEnds => True
  | Reply cb _ => cb <> cb_locos
  | _ => False
  end.

Lemma preserves_catch (I : Control S -> Prop) k : preserves I k -> preserves I (catch_throw k).
Proof. intros Hk c Hc. specialize (Hk c Hc). unfold catch_throw. by destruct (k c) as [[?|[]] c']. Qed.

(** callbacks append to the queue and take nothing from it *)
Lemma callback_keeps_queue x cb reply : preserves (fun c : Control S => x ∈ co_queue c) (run_callback ml cb reply).
Proof.
  assert (forall cmd cb', preserves (fun c : Control S => x ∈ co_queue c) (query cmd cb')) as Hq.
  { intros cmd cb'. apply preserves_modify. intros c Hc. cbn. set_solver. }
  assert (preserves (fun c : Control S => x ∈ co_queue c) getCurrLok) as Hl.
  { unfold getCurrLok. apply preserves_bind; [apply preserves_get|]. intros c. apply preserves_if; [apply preserves_fail|].
    apply preserves_bind; [|intros; apply preserves_lift]. unfold the_lokdef. apply preserves_bind; [apply preserves_get|].
    intros c'. destruct (co_lokdef c'); [apply preserves_ret|apply preserves_fail]. }
  assert (forall cv cb', preserves (fun c : Control S => x ∈ co_queue c) (query_POM ml cv cb')) as Hpom.
  { intros cv cb'. unfold query_POM. apply preserves_bind; [apply preserves_get|]. intros c.
    apply preserves_bind; [apply preserves_lift|]. intros cmd. apply Hq. }
  assert (preserves (fun c : Control S => x ∈ co_queue c) (refreshBatLevel ml)) as Hbat.
  { unfold refreshBatLevel. apply preserves_catch. apply preserves_bind; [apply preserves_get|]. intros c0. apply preserves_bind.
    - apply preserves_if; [|apply preserves_ret]. apply preserves_bind; [apply Hl|]. intros d.
      apply preserves_bind; [by apply preserves_modify|]. intros _. apply preserves_if; [apply preserves_ret|].
      apply preserves_bind; [apply Hpom|]. intros _. apply preserves_ret.
    - intros go. apply preserves_if; [|apply preserves_ret]. apply preserves_bind; [apply preserves_get|]. intros c1.
      apply preserves_if; [apply preserves_ret|apply Hpom]. }
  destruct cb; cbn [run_callback]; [apply preserves_ret|..];
    (apply preserves_bind; [apply preserves_lift|]; intros v).
  - apply preserves_if; [|apply preserves_fail]. apply preserves_bind; [apply preserves_lift|]. intros t. by apply preserves_modify.
  - apply preserves_if; [|apply preserves_fail]. apply preserves_bind; [apply preserves_get|]. intros c.
    apply preserves_bind; [|intros t; apply preserves_bind; [apply preserves_lift|intros t'; by apply preserves_modify]].
    unfold the_lokdef. apply preserves_bind; [apply preserves_get|].
    intros c'. destruct (co_lokdef c'); [apply preserves_ret|apply preserves_fail].
  - apply preserves_bind; [by apply preserves_modify|]. intros _. apply preserves_if; [apply Hbat|apply preserves_ret].
  - by apply preserves_modify.
Qed.

(** waiting to switch off *)
Definition powering_down (next : wake_view) (t0 : Z) (x : FBTCtlMessage * callback) (g : Gui S) : Prop :=
  g_view g = Some (PowerDown next t0 false) /\ g_asleep g = false /\ x ∈ co_queue (g_ctl g).

Lemma powering_down_turn next t0 x e ev g g' : powering_down next t0 x g -> no_button ev -> now e <= t0 + 10000 ->
  gui_turn ml wifiConfig buttonConfig tft_height e ev g = (Ok tt, g') -> powering_down next t0 x g'.
Proof.
  intros (V & A & Q) Hev He. unfold gui_turn, gui_step, runLoop, mbind, M_bind, get. rewrite A.
  destruct ev as [| | | |[|]|found|cb reply|]; try done.
  - rewrite V. cbn. replace (t0 + 10 * 1000 <? now e) with false by lia. intros [= <-]. by split_and!.
  - destruct (g_refresh g); intros [= <-]; by split_and!.
  - destruct (g_running g); [|intros [= <-]; by split_and!]. unfold in_thread, gui_callback, ctl, zoom, mbind, M_bind.
    pose proof (callback_keeps_queue x cb reply (g_ctl g) Q) as Hq. destruct (run_callback ml cb reply (g_ctl g)) as [[[]|[]] c'];
      [destruct cb; [|done|..]|..]; intros [= <-]; by split_and!.
  - intros [= <-]. by split_and!.
Qed.

(** C15: Switching off stops the train: from any state with a running
    connection and a selected locomotive, opening the power-down view appends
    the command STOP for that locomotive to the queue of the connection thread.
    As long as no button is pressed (a click returns to the view before) and no
    list of locomotives arrives, in any number of turns of the main loop within
    ten seconds, with scans, replies and the end of the connection in between,
    the view stays, the device stays awake and STOP is not taken out of the
    queue by the user interface; turns of the view alone change nothing at all.
    The first turn of the view after that ends the connection and puts the
    device to sleep. *)
Theorem power_down_stops g e next t i d cmd :
  gui_reach g -> g_running g = true -> g_asleep g = false ->
  co_lokdef (g_ctl g) = Some t -> co_selected (g_ctl g) = Z.of_nat i -> locos t !! i = Some d ->
  new_cmd ml "STOP" [("addr", addr d)] = Ok cmd ->
  exists g', start_PowerDown ml buttonConfig e next g = (Ok tt, g') /\
    g_ctl g' = with_queue (g_ctl g) (co_queue (g_ctl g) ++ [(cmd, cb_nothing)]) /\ g_running g' = true /\
    (forall e', now e' <= now e + 10000 -> gui_turn ml wifiConfig buttonConfig tft_height e' (Loop []) g' = (Ok tt, g')) /\
    forall turns g1, Forall (fun x => now x.1 <= now e + 10000 /\ no_button x.2) turns ->
      iterM (fun x => gui_turn ml wifiConfig buttonConfig tft_height x.1 x.2) turns g' = (Ok tt, g1) ->
      g_view g1 = Some (PowerDown next (now e) false) /\ g_asleep g1 = false /\ (cmd, cb_nothing) ∈ co_queue (g_ctl g1) /\
      forall e', now e + 10000 < now e' -> exists g2, gui_turn ml wifiConfig buttonConfig tft_height e' (Loop []) g1 = (Ok tt, g2) /\
        g_asleep g2 = true /\ g_running g2 = false.
Proof.
  intros Hr R A Ht Hs Hd Hcmd. pose proof (start_PowerDown_run e next g (gui_reach_inv g Hr)) as P. rewrite R in P.
  rewrite (sendStop_run _ t i d cmd) in P by done. destruct (start_PowerDown _ _ _ _ g) as [[[]|x] g'].
  2: { by destruct P as (_ & _ & c & ?). }
  destruct P as (_ & V & _ & R' & A' & [= C]). exists g'. rewrite A in A'. split_and!; [done..| |].
  - intros e' He. unfold gui_turn, gui_step, runLoop, mbind, M_bind, get; rewrite A', V; cbn.
    by replace (now e + 10 * 1000 <? now e') with false by lia.
  - intros turns g1 F. assert (powering_down next (now e) (cmd, cb_nothing) g') as Hp.
    { split_and!; [done..|]. rewrite <- C. cbn. set_solver. }
    clear V A' C R'. revert g' Hp. induction F as [|[e1 ev] turns [He Hev] _ IH]; intros g' Hp E.
    + injection E as <-. destruct Hp as (V & A' & Q). split_and!; [done..|]. intros e' He'.
      unfold gui_turn, gui_step, runLoop, mbind, M_bind, get. rewrite A', V. cbn.
      replace (now e + 10 * 1000 <? now e') with true by lia. by eexists.
    + cbn [iterM] in E. unfold mbind, M_bind in E.
      destruct (gui_turn _ _ _ _ (e1, ev).1 (e1, ev).2 g') as [[[]|] g0] eqn:E0; [|done].
      apply (IH g0); [|done]. by eapply powering_down_turn.
Qed.

(** ** Reconnecting *)

(** the message is shown after [r] attempts; [b]: not drawn yet *)
Record failing (b : bool) (r : Z) (g : Gui S) : Prop := mkFailing {
  fa_inv : gui_inv g;
  fa_view : g_view g = Some (ErrorMessage b);
  fa_running : g_running g = false;
  fa_asleep : g_asleep g = false;
  fa_retries : g_retries g = r;
}.
(** WiFi is up, the server cannot be reached *)
Definition no_server (e : env S) : Prop := wifi_status e = WL_CONNECTED /\ forall a, exists w, connect e a = Err (Throw w).
Definition later (e e' : env S) : Prop := now e + 1000 < now e'.
Abbreviation loops := (iterM (fun e => gui_turn ml wifiConfig buttonConfig tft_height e (Loop []))).

Lemma turn_ErrorMessage (e : env S) b (g : Gui S) : g_view g = Some (ErrorMessage b) -> g_asleep g = false ->
  gui_turn ml wifiConfig buttonConfig tft_height e (Loop []) g =
  match loop_ErrorMessage ml e b g with (Err (Throw _), g') => (Ok tt, g') | r => r end.
Proof. intros V A. unfold gui_turn, gui_step, runLoop, mbind, M_bind, get. by rewrite A, V. Qed.

Lemma error_drawn e r g : failing true r g ->
  exists g', gui_turn ml wifiConfig buttonConfig tft_height e (Loop []) g = (Ok tt, g') /\ failing false r g' /\ g_errorLast g' = now e.
Proof.
  intros [I V R A Hr]. pose proof (wp_loop_ErrorMessage e true g I V) as W. rewrite (turn_ErrorMessage e true) by done.
  revert W. unfold wp, loop_ErrorMessage, mbind, M_bind, set, modify, get. cbn.
  replace (now e + 1 * 1000 <? now e) with false by lia. cbn. intros W. eexists. split; [reflexivity|]. by split.
Qed.

Lemma start_ConnectServer_unreachable e g : gui_inv g -> no_server e -> g_running g = false ->
  exists g', start_ConnectServer ml e g = (Ok tt, g') /\ gui_inv g' /\ g_view g' = Some (ErrorMessage true) /\ g_running g' = false /\
    g_asleep g' = g_asleep g /\ g_retries g' = g_retries g.
Proof.
  intros I [_ HC] R. destruct (enter_run (ConnectServer 0) g I) as (g1 & E1 & N1). destruct (HC (g_server g1)) as [w C].
  assert (gui_inv g1) as I1 by (by eapply entered_inv). pose (g2 := with_ctl g1 (with_client (g_ctl g1) None)).
  assert (gui_inv g2) as I2 by (by destruct I1; split). destruct (enter_run (ErrorMessage true) g2 I2) as (g3 & E3 & N3).
  exists g3. split_and!.
  - unfold start_ConnectServer, init_ConnectServer. rewrite (run_bind _ _ _ tt g1) by done.
    unfold mbind at 1, M_bind at 1, get at 1. rewrite (en_running _ _ _ N1), R, C. exact E3.
  - by eapply entered_inv.
  - apply N3.
  - rewrite (en_running _ _ _ N3). cbn. by rewrite (en_running _ _ _ N1).
  - rewrite (en_asleep _ _ _ N3). cbn. apply N1.
  - rewrite (en_retries _ _ _ N3). cbn. apply N1.
Qed.

Lemma error_retried e r g : failing false r g -> g_errorLast g + 1000 < now e -> no_server e ->
  exists g', gui_turn ml wifiConfig buttonConfig tft_height e (Loop []) g = (Ok tt, g') /\
    if r <? 10 then failing true (r + 1) g' else g_view g' = Some SelectWifi /\ g_retries g' = 0 /\ gui_inv g'.
Proof.
  intros [I V R A Hr] Ht Hn. rewrite (turn_ErrorMessage e false) by done. pose proof (gi_retries g I) as Hb. rewrite Hr in Hb.
  unfold loop_ErrorMessage. rewrite (run_bind _ _ _ tt g) by done. unfold mbind at 1, M_bind at 1, get at 1.
  replace (g_errorLast g + 1 * 1000 <? now e) with true by lia.
  rewrite (run_bind _ _ _ tt (with_errorLast g (now e))) by done. unfold canRetryConnect. rewrite (proj1 Hn), Hr. cbn [Z.eqb WL_CONNECTED Pos.eqb].
  destruct (Z.ltb_spec r 10).
  - rewrite (run_bind _ _ _ tt (with_retries (with_errorLast g (now e)) (r + 1))) by done.
    destruct (start_ConnectServer_unreachable e (with_retries (with_errorLast g (now e)) (r + 1))) as (g' & E & I' & V' & R' & A' & Q');
      [destruct I; split; try done; cbn; lia|done|done|].
    rewrite E. exists g'. split; [done|]. split; try done. by rewrite A'.
  - rewrite (run_bind _ _ _ tt (with_retries (with_errorLast g (now e)) 0)) by done.
    destruct (start_SelectWifi_run (with_retries (with_errorLast g (now e)) 0)) as (g' & E & I' & V' & Q' & _); [destruct I; split; try done; cbn; lia|].
    rewrite E. by exists g'.
Qed.

Lemma reconnect_rounds k : forall g r es, failing true r g -> k = Z.to_nat (10 - r) -> r <= 10 -> length es = (2 * Datatypes.S k)%nat ->
  Sorted later es -> Forall no_server es ->
  exists g', loops es g = (Ok tt, g') /\ g_view g' = Some SelectWifi /\ g_retries g' = 0 /\ gui_inv g'.
Proof.
  induction k as [|k IH]; intros g r es F Hk Hr Hl Hs Hn.
  all: destruct es as [|e1 [|e2 es]]; try (cbn in Hl; lia).
  all: apply Sorted_inv in Hs as [Hs Hd]; apply HdRel_inv in Hd; apply Sorted_inv in Hs as [Hs _].
  all: apply list.Forall_cons in Hn as [H1 [H2 Hn]%list.Forall_cons].
  all: destruct (error_drawn e1 r g F) as (g1 & E1 & F1 & L1); destruct (error_retried e2 r g1 F1) as (g2 & E2 & P); [unfold later in Hd; lia|done|].
  all: cbn [iterM]; rewrite (run_bind _ _ _ _ _ E1), (run_bind _ _ _ _ _ E2).
  - replace (r <? 10) with false in P by lia. destruct es; [|cbn in Hl; lia]. by exists g2.
  - replace (r <? 10) with true in P by lia. apply (IH g2 (r + 1) es); [done|lia..|cbn in Hl; lia|done|done].
Qed.

(** C19: A lost server is not waited for forever: while WiFi is up and every
    attempt to connect fails, the error view of a controller that has tried
    [r] times gives up after 2*(11-r) turns a second apart (each attempt is one
    turn that draws the message and one that reconnects), resets the counter and
    shows the list of networks, ready for the next attempt. *)
Theorem reconnect_gives_up g es :
  gui_reach g -> g_view g = Some (ErrorMessage true) -> g_running g = false -> g_asleep g = false -> g_retries g <= 10 ->
  Sorted later es -> Forall no_server es -> length es = (2 * Z.to_nat (11 - g_retries g))%nat ->
  exists g', loops es g = (Ok tt, g') /\ g_view g' = Some SelectWifi /\ g_retries g' = 0 /\ g_refresh g' = true.
Proof.
  intros Hr V R A Hb Hs Hn Hl. pose proof (gui_reach_inv g Hr) as I. pose proof (gi_retries g I).
  destruct (reconnect_rounds (Z.to_nat (10 - g_retries g)) g (g_retries g) es) as (g' & E & V' & Q & I'); [done|done|lia|rewrite Hl; lia|done|done|].
  exists g'. split_and!; try done. by apply (gi_refresh g' I').
Qed.

(** ** Selecting a network *)

Lemma find_password_total l ssid : Forall (fun c => c.1 <> EmptyString) l -> exists p, find_password l ssid = Ok p.
Proof.
  induction 1 as [|[pat pw] l Hp _ IH]; [by eexists|]. cbn in *. unfold ssid_matches.
  destruct (string_rev pat) as [|c r] eqn:E.
  - destruct Hp. rewrite <- (string_rev_involutive pat). by rewrite E.
  - unfold mbind, outcome_bind. by case_match; [eexists|].
Qed.

(** the rows that can be connected are the first ones *)
Lemma filter_usable_total want (l : smap Entry) : Forall (fun c => c.1 <> EmptyString) wifiConfig ->
  exists rows, filter_usable wifiConfig want l = Ok rows /\ forall ssid, ssid ∈ rows -> usable wifiConfig ssid = Ok want.
Proof.
  intros HW. induction l as [|[ssid en] l (rows & E & Hu)]; [by exists []; split; [done|intros ? ?%not_elem_of_nil]|].
  destruct (find_password_total _ ssid HW) as [p P].
  assert (usable wifiConfig ssid = Ok (bool_decide (is_Some p))) as U by (unfold usable, passwordForSSID; by rewrite P).
  cbn. rewrite U, E. cbn. eexists. split; [done|]. destruct (Bool.eqb_spec (bool_decide (is_Some p)) want) as [<-|]; [|done].
  intros s [->|Hs]%elem_of_cons; auto.
Qed.
Lemma filter_usable_split (l : smap Entry) a b : filter_usable wifiConfig true l = Ok a -> filter_usable wifiConfig false l = Ok b -> a ++ b ≡ₚ l.*1.
Proof.
  revert a b. induction l as [|[ssid en] l IH]; intros a b; cbn; [by intros [= <-] [= <-]|].
  destruct (usable wifiConfig ssid) as [u|]; [|done]. destruct (filter_usable wifiConfig true l) as [a'|] eqn:A; [|done]. destruct (filter_usable wifiConfig false l) as [b'|] eqn:B; [|done].
  specialize (IH a' b' eq_refl eq_refl). destruct u; cbn; intros [= <-] [= <-]; [cbn; by rewrite IH|]. by rewrite <- Permutation_middle, IH.
Qed.

Lemma nth_usable_row (l : smap Entry) : forall rows n, filter_usable wifiConfig true l = Ok rows -> 0 <= n ->
  match rows !! Z.to_nat n with
  | Some ssid => exists en password, nth_usable wifiConfig n l = Ok (Some (ssid, en, password)) /\ (ssid, en) ∈ l /\ passwordForSSID wifiConfig ssid = Ok (Some password)
  | None => nth_usable wifiConfig n l = Ok None
  end.
Proof.
  induction l as [|[s en] l IH]; intros rows n; cbn; [by intros [= <-]|]. unfold usable.
  destruct (passwordForSSID wifiConfig s) as [p|] eqn:P; [|done]. cbn. destruct (filter_usable wifiConfig true l) as [rows'|] eqn:E; [|done].
  destruct p as [pw|]; cbn; intros [= <-] Hn.
  - destruct (Z.eqb_spec n 0) as [->|]; [exists en, pw; split_and!; by try constructor|].
    replace (Z.to_nat n) with (Datatypes.S (Z.to_nat (n - 1))) by lia. cbn. specialize (IH rows' (n - 1) eq_refl ltac:(lia)).
    destruct (rows' !! _); [|done]. destruct IH as (en' & pw' & ? & ? & ?). exists en', pw'. split_and!; try done. by constructor.
  - specialize (IH rows' n eq_refl Hn). destruct (rows' !! _); [|done]. destruct IH as (en' & pw' & ? & ? & ?). exists en', pw'. split_and!; try done. by constructor.
Qed.

(** C20: What is highlighted is what is connected: in every reachable state the
    list shows every scanned network in one row, those with a password first;
    a long click connects to the network in the selected row, with the password of
    the configuration and the long-range mode of its scan entry, and does nothing
    when that row has no password or no row is selected. *)
Theorem selection_connects g e :
  gui_reach g -> Forall (fun c => c.1 <> EmptyString) wifiConfig ->
  exists rows, wifi_rows wifiConfig (g_wifiList g) = Ok rows /\ rows ≡ₚ (g_wifiList g).*1 /\
    let go := run_handler ml wifiConfig buttonConfig tft_height e WifiConnect g in
    match rows !! Z.to_nat (g_selectedWifi g) with
    | Some ssid =>
        match passwordForSSID wifiConfig ssid with
        | Ok (Some password) => exists en g', smap_find ssid (g_wifiList g) = Some en /\ go = (Ok tt, g') /\
            g_view g' = Some (ConnectWifi ssid password (have_LR en) 0 (now e))
        | _ => go = (Ok tt, with_lastKey g (now e))
        end
    | None => go = (Ok tt, with_lastKey g (now e))
    end.
Proof.
  intros Hr HW. pose proof (gui_reach_inv g Hr) as I. pose proof (gi_wifi g I) as Hs.
  destruct (filter_usable_total true (g_wifiList g) HW) as (a & A & _). destruct (filter_usable_total false (g_wifiList g) HW) as (b & B & HB).
  exists (a ++ b). split_and!; [unfold wifi_rows; by rewrite A, B|by apply filter_usable_split|].
  pose proof (nth_usable_row (g_wifiList g) a _ A Hs) as P. cbn zeta.
  assert (run_handler ml wifiConfig buttonConfig tft_height e WifiConnect g =
    match nth_usable wifiConfig (g_selectedWifi g) (g_wifiList g) with
    | Ok (Some (ssid, en, password)) => start_ConnectWifi e ssid password (have_LR en) (with_lastKey g (now e))
    | Ok None => (Ok tt, with_lastKey g (now e))
    | Err x => (Err x, with_lastKey g (now e))
    end) as ->.
  { unfold run_handler, mbind, M_bind, get, lift. cbn. by destruct (nth_usable _ _ _) as [[[[] ?]|]|]. }
  destruct (a !! Z.to_nat (g_selectedWifi g)) as [ssid|] eqn:L.
  - rewrite (lookup_app_l_Some _ _ _ _ L). destruct P as (en & pw & N & Hin & ->). rewrite N.
    assert (gui_inv (with_lastKey g (now e))) as I2 by (by destruct I; split). destruct (enter_run (ConnectWifi ssid pw (have_LR en) 0 (now e)) _ I2) as (g1 & E1 & N1).
    unfold start_ConnectWifi. rewrite (run_bind _ _ _ _ _ E1). exists en. eexists. split_and!; [by apply smap_elem_find; [apply I|]|reflexivity|]. apply N1.
  - rewrite P, lookup_app_r by (by apply lookup_ge_None_1). destruct (b !! _) as [ssid|] eqn:Lb; [|reflexivity].
    assert (usable wifiConfig ssid = Ok false) as U by (apply HB; by eapply list_elem_of_lookup_2). revert U. unfold usable.
    by destruct (passwordForSSID wifiConfig ssid) as [[p|]|].
Qed.

(** ** The knob *)

(** [c] does to the connection what [k] does, and else only notes the time *)
Definition drives {A} (c : M (Gui S) A) (k : M (Control S) A) : Prop :=
  forall g, exists t, c g = ((k (g_ctl g)).1, with_lastKey (with_ctl g (k (g_ctl g)).2) t).

Lemma drives_ret {A} (a : A) : drives (mret a) (mret a).
Proof. intros g. exists (g_lastKey g). by destruct g. Qed.
Lemma drives_ctl {A} (k : M (Control S) A) : drives (ctl k) k.
Proof. intros g. exists (g_lastKey g). unfold ctl, zoom. by destruct (k (g_ctl g)). Qed.
Lemma drives_bind {A B} c k (f : A -> M (Gui S) B) h : drives c k -> (forall a, drives (f a) (h a)) -> drives (c ≫= f) (k ≫= h).
Proof.
  intros Hc Hf g. destruct (Hc g) as [t E]. unfold mbind, M_bind. rewrite E. destruct (k (g_ctl g)) as [[a|x] c1]; cbn; [|by exists t].
  destruct (Hf a (with_lastKey (with_ctl g c1) t)) as [t' E']. rewrite E'. by exists t'.
Qed.
Lemma drives_get {A} (f : Gui S -> M (Gui S) A) h : (forall g, drives (f g) (h (g_ctl g))) -> drives (get ≫= f) (get ≫= h).
Proof. intros Hf g. apply Hf. Qed.
Lemma drives_if {A} (b : bool) (c c' : M (Gui S) A) k k' : drives c k -> drives c' k' -> drives (if b then c else c') (if b then k else k').
Proof. by destruct b. Qed.
Lemma drives_sendSpeed e cmd : drives (gui_sendSpeed ml e cmd) (sendSpeed ml cmd).
Proof.
  intros g. unfold gui_sendSpeed. unfold mbind, M_bind, ctl, zoom. cbn.
  replace (with_ctl g (g_ctl g)) with g by (by destruct g). destruct (sendSpeed ml cmd (g_ctl g)) as [[[]|x] c1]; cbn; [|by eexists].
  destruct (1 <? _); [|by exists (now e)]. by exists (g_lastKey g).
Qed.

(** The knob of the loop is the knob of the connection: reading the knob in
    the view of the locomotive has exactly the result of [follow_poti] on the
    connection (same commands queued, same exception, same emergency stop), so
    that what holds of [follow_poti] holds of the view; of the view itself only
    the time of the last key changes. *)
Theorem follow_knob_refines (g : Gui S) e avg dir :
  exists t, follow_knob ml e avg dir g = ((follow_poti ml avg dir (g_ctl g)).1, with_lastKey (with_ctl g (follow_poti ml avg dir (g_ctl g)).2) t).
Proof.
  revert g. change (drives (follow_knob ml e avg dir) (follow_poti ml avg dir)). unfold follow_knob, follow_poti.
  apply drives_get. intros g. apply drives_bind; [|intros _].
  - apply drives_if; [apply drives_if; [apply drives_ctl|apply drives_ret]|].
    repeat first [apply drives_ctl|apply drives_ret|apply drives_sendSpeed|apply drives_if|apply drives_bind; [|intros ?]].
  - repeat first [apply drives_ctl|apply drives_ret|apply drives_if|apply drives_bind; [|intros ?]].
Qed.

(** ** Selecting a locomotive *)

Lemma has_lok_run (g : Gui S) t i : co_lokdef (g_ctl g) = Some t -> terminated t -> 0 <= i <= Z.of_nat (length (locos t)) ->
  has_lok i g = (Ok (i <? Z.of_nat (length (locos t))), g).
Proof.
  intros Ht T Hi. unfold has_lok, lok_addr, the_lokdef, addr_at, mbind, M_bind, ctl, zoom, lift, get. rewrite Ht. cbn.
  replace (i <? 0) with false by lia. destruct (Z.ltb_spec i (Z.of_nat (length (locos t)))) as [Hl|Hl].
  - destruct (lookup_lt_is_Some_2 (locos t) (Z.to_nat i)) as [d Hd]; [lia|]. destruct (locos_lookup t _ d Hd) as [-> Ha]. cbn.
    replace (addr d =? 0) with false by lia. by destruct g.
  - destruct (locos_end t T) as (d & Hd & Ha). replace (Z.to_nat i) with (length (locos t)) by lia. rewrite Hd, Ha. cbn. by destruct g.
Qed.

(** the selected row of a list of [n] rows after a click *)
Definition select_row (n : Z) (sel : Z) (h : handler) : Z :=
  match h with LocoUp => Z.max 0 (sel - 1) | LocoDown => Z.min (n - 1) (sel + 1) | _ => sel end.

Record choosing (t : list lokdef_t) (sel : Z) (g : Gui S) : Prop := mkChoosing {
  ch_lokdef : co_lokdef (g_ctl g) = Some t;
  ch_selected : co_selected (g_ctl g) = sel;
  ch_bounds : 0 <= sel < Z.of_nat (length (locos t));
  ch_first : 0 <= g_firstLoco g <= sel;
  ch_screen : (sel - g_firstLoco g) * 17 < tft_height;
}.

Lemma choosing_click t sel g e h : terminated t -> choosing t sel g -> h = LocoUp \/ h = LocoDown ->
  exists g', run_handler ml wifiConfig buttonConfig tft_height e h g = (Ok tt, g') /\ choosing t (select_row (Z.of_nat (length (locos t))) sel h) g'.
Proof.
  intros T [Ht <- Hb Hf Hs] [->| ->]; unfold run_handler; unfold mbind at 1, M_bind at 1, get at 1; cbn [select_row].
  - destruct (Z.ltb_spec 0 (co_selected (g_ctl g))).
    + unfold set_selected, ctl, zoom, set, modify, mbind, M_bind, mret, M_ret. destruct (Z.ltb_spec (co_selected (g_ctl g) - 1) (g_firstLoco g)).
      all: eexists; (split; [reflexivity|]); split; cbn -[Z.max Z.min Z.mul Z.sub Z.add]; try done; lia.
    + eexists. split; [reflexivity|]. split; try done; lia.
  - rewrite (run_bind _ _ _ _ g (has_lok_run g t (co_selected (g_ctl g)) Ht T ltac:(lia))).
    replace (co_selected (g_ctl g) <? _) with true by lia.
    rewrite (run_bind _ _ _ _ g (has_lok_run g t (co_selected (g_ctl g) + 1) Ht T ltac:(lia))). destruct (Z.ltb_spec (co_selected (g_ctl g) + 1) (Z.of_nat (length (locos t)))).
    + unfold set_selected, ctl, zoom, set, modify, mbind, M_bind, mret, M_ret. destruct (Z.leb_spec tft_height ((co_selected (g_ctl g) + 1 - g_firstLoco g) * 17)).
      all: eexists; (split; [reflexivity|]); split; cbn -[Z.max Z.min Z.mul Z.sub Z.add]; try done; lia.
    + eexists. split; [reflexivity|]. split; try done; lia.
Qed.

(** Any number of clicks in the list of locomotives moves the selection by one
    row per click, stopping at the first and at the last locomotive and never at
    the entry that ends the table, without reading outside the table; the
    selected row stays on the screen. *)
Theorem choosing_in_list t sel g e hs : terminated t -> choosing t sel g -> Forall (fun h => h = LocoUp \/ h = LocoDown) hs ->
  exists g' d, iterM (run_handler ml wifiConfig buttonConfig tft_height e) hs g = (Ok tt, g') /\
    choosing t (foldl (select_row (Z.of_nat (length (locos t)))) sel hs) g' /\ getCurrLok (g_ctl g') = (Ok d, g_ctl g').
Proof.
  intros T C F. revert sel g C. induction F as [|h hs Hh _ IH]; intros sel g C; cbn [iterM foldl].
  - destruct C as [Ht Hs Hb Hf Hv]. destruct (lookup_lt_is_Some_2 (locos t) (Z.to_nat sel)) as [d Hd]; [lia|]. exists g, d. split_and!; [done|by split|].
    eapply getCurrLok_run; [done| |done]. lia.
  - destruct (choosing_click t sel g e h T C Hh) as (g1 & E1 & C1). rewrite (run_bind _ _ _ _ _ E1). by apply IH.
Qed.
End inv.

(** ** A controller with one network and one server *)

Definition demo_config : list (string * string) := [("home", "secret")].
Definition demo_buttons : list buttonConfig_t := [mkButton on_off act_direction 0; mkButton on act_sendFullStop 0].
Definition demo_server : string * Z := ("10.0.0.1", 3030).
Definition demo_env (t : Z) (up : bool) : env TCPClient :=
  mkEnv t WL_CONNECTED [demo_server] (fun _ => if up then Ok (mkTCP 5 [] [] false) else Err (Throw "connect")) (fun _ => true) 0.
Abbreviation demo_turns := (iterM (fun x => gui_turn protocol demo_config demo_buttons 135 x.1 x.2)).

Definition demo_setup : Gui TCPClient := (start_SelectWifi (Gui0 sample_control)).2.
(** the scan finds the network, the user connects, the only server is taken *)
Definition demo_connect (up : bool) : list (env TCPClient * event) :=
  [(demo_env 100 up, Scan [("guest", mkEntry (-40) false); ("home", mkEntry (-60) true)]); (demo_env 200 up, Loop []);
   (demo_env 300 up, Long1); (demo_env 20000 up, Loop [])].
Definition demo_connected (up : bool) : Gui TCPClient := (demo_turns (demo_connect up) demo_setup).2.

Lemma reach_turns {S} `{ClientStream S} ml cfg btn h (l : list (env S * event)) g g' :
  gui_reach ml cfg btn h g -> iterM (fun x => gui_turn ml cfg btn h x.1 x.2) l g = (Ok tt, g') -> gui_reach ml cfg btn h g'.
Proof.
  revert g. induction l as [|[e ev] l IH]; intros g Hg E; [by injection E as <-|]. cbn [iterM] in E. unfold mbind, M_bind in E.
  destruct (gui_turn ml cfg btn h (e, ev).1 (e, ev).2 g) as [[[]|] g1] eqn:E1; [|done]. eapply IH; [|done]. by eapply gui_reach_turn.
Qed.
Lemma demo_setup_reach : gui_reach protocol demo_config demo_buttons 135 demo_setup.
Proof. eapply (gui_reach_setup _ _ _ _ sample_control). vm_compute. reflexivity. Qed.
Lemma demo_reach up : gui_reach protocol demo_config demo_buttons 135 (demo_connected up).
Proof. eapply (reach_turns _ _ _ _ (demo_connect up)); [apply demo_setup_reach|]. destruct up; vm_compute; reflexivity. Qed.

Lemma gui_invariant_witness : gui_inv (demo_connected true) /\
  (exists g', start_SelectWifi (demo_connected true) = (Ok tt, g') /\ g_view g' = Some SelectWifi /\ g_refresh g' = true) /\
  (forall e next x g', start_PowerDown protocol demo_buttons e next (demo_connected true) = (Err x, g') ->
     g_running (demo_connected true) = true /\ exists c, sendStop protocol (g_ctl (demo_connected true)) = (Err x, c)).
Proof. exact (gui_invariant protocol demo_config demo_buttons 135 (demo_connected true) (demo_reach true)). Defined.

Definition protocol_stop : FBTCtlMessage := match new_cmd protocol "STOP" [("addr", 3)] with Ok m => m | Err _ => FBTCtlMessage0 end.
Lemma power_down_stops_witness :
  exists g', start_PowerDown protocol demo_buttons (demo_env 30000 true) WakeSelectWifi (demo_connected true) = (Ok tt, g') /\
    g_ctl g' = with_queue (g_ctl (demo_connected true)) (co_queue (g_ctl (demo_connected true)) ++ [(protocol_stop, cb_nothing)]) /\ g_running g' = true /\
    (forall e', now e' <= 40000 -> gui_turn protocol demo_config demo_buttons 135 e' (Loop []) g' = (Ok tt, g')) /\
    forall turns g1, Forall (fun x => now x.1 <= 40000 /\ no_button x.2) turns ->
      iterM (fun x => gui_turn protocol demo_config demo_buttons 135 x.1 x.2) turns g' = (Ok tt, g1) ->
      g_view g1 = Some (PowerDown WakeSelectWifi 30000 false) /\ g_asleep g1 = false /\ (protocol_stop, cb_nothing) ∈ co_queue (g_ctl g1) /\
      forall e', 40000 < now e' -> exists g2, gui_turn protocol demo_config demo_buttons 135 e' (Loop []) g1 = (Ok tt, g2) /\
        g_asleep g2 = true /\ g_running g2 = false.
Proof.
  refine (power_down_stops protocol demo_config demo_buttons 135 (demo_connected true) (demo_env 30000 true) WakeSelectWifi sample_copy 0
    (mkLok 3 0 "V100" 0 (func lokdef0) 1 1 false EmptyString 0) protocol_stop (demo_reach true) _ _ _ _ _ _); vm_compute; reflexivity.
Defined.

Lemma reconnect_gives_up_witness : let es := map (fun k => demo_env (30000 + 2000 * Z.of_nat k) false) (seq 0 22) in
  exists g', iterM (fun e => gui_turn protocol demo_config demo_buttons 135 e (Loop [])) es (demo_connected false) = (Ok tt, g') /\
    g_view g' = Some SelectWifi /\ g_retries g' = 0 /\ g_refresh g' = true.
Proof.
  refine (reconnect_gives_up protocol demo_config demo_buttons 135 (demo_connected false) _ (demo_reach false) _ _ _ _ _ _ _).
  1-3: vm_compute; reflexivity.
  - vm_compute. discriminate.
  - cbn [map seq]. repeat constructor; unfold later; cbn; lia.
  - cbn [map seq]. repeat constructor; intros; by eexists.
  - vm_compute. reflexivity.
Defined.

Lemma selection_connects_witness : let g := (demo_turns (take 2 (demo_connect true)) demo_setup).2 in
  exists rows, wifi_rows demo_config (g_wifiList g) = Ok rows /\ rows ≡ₚ (g_wifiList g).*1 /\
    let go := run_handler protocol demo_config demo_buttons 135 (demo_env 300 true) WifiConnect g in
    match rows !! Z.to_nat (g_selectedWifi g) with
    | Some ssid =>
        match passwordForSSID demo_config ssid with
        | Ok (Some password) => exists en g', smap_find ssid (g_wifiList g) = Some en /\ go = (Ok tt, g') /\
            g_view g' = Some (ConnectWifi ssid password (have_LR en) 0 300)
        | _ => go = (Ok tt, with_lastKey g 300)
        end
    | None => go = (Ok tt, with_lastKey g 300)
    end.
Proof.
  apply (selection_connects protocol demo_config demo_buttons 135); [|by repeat constructor].
  eapply (reach_turns _ _ _ _ (take 2 (demo_connect true))); [apply demo_setup_reach|]. vm_compute. reflexivity.
Defined.

Definition demo_list : Gui TCPClient := (start_SelectLoco protocol demo_buttons (demo_env 30000 true) (demo_connected true)).2.
Lemma choosing_in_list_witness : exists g' d,
  iterM (run_handler protocol demo_config demo_buttons 17 (demo_env 31000 true)) [LocoUp; LocoDown; LocoDown] demo_list = (Ok tt, g') /\
    choosing 17 sample_copy (foldl (select_row 2) 0 [LocoUp; LocoDown; LocoDown]) g' /\ getCurrLok (g_ctl g') = (Ok d, g_ctl g').
Proof.
  refine (choosing_in_list protocol demo_config demo_buttons 17 sample_copy 0 demo_list (demo_env 31000 true) [LocoUp; LocoDown; LocoDown] _ _ _).
  - exists lokdef0. split; [|reflexivity]. apply list_elem_of_lookup. by exists 2%nat.
  - split; vm_compute; [reflexivity|reflexivity|by split|by split|reflexivity].
  - repeat (apply list.Forall_cons; split; [first [left; reflexivity|right; reflexivity]|]). constructor.
Defined.

(** ** What goes wrong *)

(** GuiViewPowerDown::close leaves its handlers; the view of the locomotive
    sets no click handler of btn2: the second button uses the deleted view *)
Example power_down_leaves_handler :
  (demo_turns [(demo_env 30000 true, Long2); (demo_env 31000 true, Click1); (demo_env 32000 true, Click2)]
     (start_ControlLoco protocol demo_buttons (demo_env 29000 true) (demo_connected true)).2).1 = Err (UB "the view is deleted").
Proof. vm_compute. reflexivity. Qed.

(** the list of locomotives is left for the list of networks while the
    connection is running; connecting again ends the program *)
Example connect_again_aborts :
  (demo_turns [(demo_env 30000 true, Long2); (demo_env 31000 true, Click1);
     (demo_env 31500 true, Scan [("home", mkEntry (-60) true)]); (demo_env 32000 true, Long1); (demo_env 33000 true, Long1)] demo_list).1
  = Err (Abort "!controlClientThread.isRunning()").
Proof. vm_compute. reflexivity. Qed.

(** opening the list again selects the first locomotive and keeps the first row
    that is displayed *)
Example list_opens_scrolled :
  let g := (iterM (run_handler protocol demo_config demo_buttons 17 (demo_env 31000 true)) [LocoDown] demo_list).2 in
  let g' := (start_SelectLoco protocol demo_buttons (demo_env 32000 true) g).2 in
  co_selected (g_ctl g') = 0 /\ g_firstLoco g' = 1.
Proof. vm_compute. by split. Qed.
