(* ===== verification/Railway.v ===== *)
(** * The railway in the loop: controller, wire, server and driver

    The parts composed: the handheld controller reads its knob and sends a
    command, the server executes it, answers and drives, the controller applies
    the answer to its copy of the table.  Both sides use the shipped protocol,
    the framing and a TCP socket. *)

From S2P Require Import Prelude StdMap CString Utils MessageLayout Message Stream Lokdef Hardware ParseExpr Platine ClientThread ClientSafety ClientProps ControlClient ControlProps.

(** ** What travels *)

Definition status_layout : MessageLayout :=
  Layout 8 "" [Layout ARRAY "info" [Layout INT "addr" []; Layout INT "speed" []; Layout INT "functions" []]].

Lemma status_layout_protocol : getMessageLayout protocol 8 = Ok status_layout.
Proof. vm_compute. reflexivity. Qed.

Lemma speed_layout_protocol t : t = 9 \/ t = 10 -> getMessageLayout protocol t = Ok (Layout t "" [Layout INT "addr" []]).
Proof. intros [-> | ->]; vm_compute; reflexivity. Qed.

Lemma speed_type_name t : t = 9 \/ t = 10 -> exists nm, messageTypeName protocol t = Ok nm.
Proof. intros [-> | ->]; eexists; vm_compute; reflexivity. Qed.

(** the status reply with these entries *)
Definition status_reply (es : list FBTCtlMessage) : FBTCtlMessage := with_info es (Msg 8 (data_struct_t [])).

(** an entry whose numbers fit into an [int] *)
Definition entry_fits (e : FBTCtlMessage) : Prop :=
  exists a speed func, e = status_entry a speed func /\ is_int32 a /\ is_int32 speed /\ is_int32 func.

Lemma entry_conforms it e : l_children it = [Layout INT "addr" []; Layout INT "speed" []; Layout INT "functions" []] ->
  entry_fits e -> conforms it e = true /\ exact it e = true.
Proof.
  destruct it as [t n cs]. cbn [l_children]. intros -> (a & speed & func & -> & Ha & Hs & Hf).
  apply int32b_spec in Ha, Hs, Hf. split; [|vm_compute; reflexivity].
  change (int32b a && (int32b speed && (int32b func && true)) = true). by rewrite Ha, Hs, Hf.
Qed.

Lemma reply_conforms es : (length es < 256)%nat -> Forall entry_fits es ->
  conforms status_layout (status_reply es) = true /\ exact status_layout (status_reply es) = true.
Proof.
  intros Hl F. set (it := Layout ARRAY "info" [Layout INT "addr" []; Layout INT "speed" []; Layout INT "functions" []]).
  assert (forallb (conforms it) es = true /\ forallb (exact it) es = true) as [Hc He].
  { rewrite !forallb_forall. split; intros e Hin%list_elem_of_In; (eapply list.Forall_forall in F; [|exact Hin]);
      by destruct (entry_conforms it e eq_refl F). }
  split.
  - change ((Z.of_nat (length es) <? 256) && forallb (conforms it) es && true = true).
    by rewrite Hc, (proj2 (Z.ltb_lt _ _)) by lia.
  - change (forallb (exact it) es && true = true). by rewrite He.
Qed.

(** an entry takes 16 bytes *)
Lemma entry_bytes it e : l_children it = [Layout INT "addr" []; Layout INT "speed" []; Layout INT "functions" []] ->
  entry_fits e -> exists bs, encode protocol e it = Ok bs /\ length bs = 16%nat.
Proof.
  intros Hc (a & speed & func & -> & _). unfold status_entry. rewrite encode_struct by done. rewrite Hc.
  eexists. split; [reflexivity|]. reflexivity.
Qed.

Lemma elems_bytes it es : l_children it = [Layout INT "addr" []; Layout INT "speed" []; Layout INT "functions" []] ->
  Forall entry_fits es -> exists bs, encode_elems protocol it es = Ok bs /\ length bs = (16 * length es)%nat.
Proof.
  intros Hc. induction 1 as [|e es He _ (bs & E & L)]; [by exists []|].
  destruct (entry_bytes it e Hc He) as (b & Eb & Lb). exists (b ++ bs).
  change (encode_elems protocol it (e :: es)) with (b ← encode protocol e it; bs ← encode_elems protocol it es; Ok (b ++ bs)).
  rewrite Eb, E. split; [done|]. rewrite length_app. cbn. lia.
Qed.

Lemma reply_sendable es : (length es < 256)%nat -> Forall entry_fits es -> sendable protocol (status_reply es) = true.
Proof.
  intros Hl F. unfold sendable, getBinaryMessage. change (m_type (status_reply es)) with 8.
  rewrite status_layout_protocol. cbn [mbind outcome_bind]. rewrite (proj1 (reply_conforms es Hl F)). cbn [andb].
  destruct (elems_bytes (Layout ARRAY "info" [Layout INT "addr" []; Layout INT "speed" []; Layout INT "functions" []]) es eq_refl F)
    as (bs & E & L).
  assert (encode protocol (status_reply es) status_layout =
    Ok (byte_of_Z 8 :: byte_of_Z ARRAY :: le_bytes 1 (Z.of_nat (length es)) ++ bs)) as ->.
  { unfold status_reply, with_info, set_field, status_layout. rewrite encode_struct by done.
    cbn [l_children encode_fields l_name smap_find m_fields m_data smap_set]. rewrite decide_True by done.
    cbn [m_type l_type]. rewrite Z.eqb_refl. rewrite encode_array, E. cbn [mbind outcome_bind]. by rewrite app_nil_r. }
  apply Z.leb_le. unfold MAX_MESSAGE_SIZE. cbn [length]. rewrite length_app, length_le_bytes, L. lia.
Qed.

Lemma reply_received es : (length es < 256)%nat -> Forall entry_fits es -> received protocol (status_reply es) = status_reply es.
Proof.
  intros Hl F. unfold received. change (m_type (status_reply es)) with 8. rewrite status_layout_protocol.
  apply project_exact; [by apply reply_conforms..|reflexivity].
Qed.

(** ACC and BREAK for one locomotive *)
Lemma cmd_sendable t a : t = 9 \/ t = 10 -> is_int32 a ->
  sendable protocol (one_addr t a []) = true /\ received protocol (one_addr t a []) = one_addr t a [].
Proof.
  intros Ht Ha. apply int32b_spec in Ha. unfold sendable, received, getBinaryMessage.
  change (m_type (one_addr t a [])) with t. rewrite (speed_layout_protocol t Ht). cbn [mbind outcome_bind].
  assert (conforms (Layout t "" [Layout INT "addr" []]) (one_addr t a []) = true) as Hc.
  { destruct Ht as [-> | ->]; change (int32b a && true = true); by rewrite Ha. }
  assert (exact (Layout t "" [Layout INT "addr" []]) (one_addr t a []) = true) as He by (vm_compute; reflexivity).
  split; [|by apply project_exact]. rewrite Hc. unfold one_addr.
  rewrite encode_struct by (destruct Ht as [-> | ->]; done). reflexivity.
Qed.

(** PING, which has no fields and arrives without data *)
Definition ping_msg : FBTCtlMessage := Msg 7 (data_struct_t []).
Definition ping_bytes : list byte := [byte_of_Z 7].

Lemma ping_cmd : new_cmd protocol "PING" [] = Ok ping_msg /\ getBinaryMessage protocol ping_msg = Ok ping_bytes /\
  sendable protocol ping_msg = true /\ received protocol ping_msg = Msg 7 NULL.
Proof. split_and!; vm_compute; reflexivity. Qed.

(** ** The answer of the server *)

(** a locomotive of a table whose statuses can be sent *)
Definition reportable (d : lokdef_t) : Prop :=
  lok_ok d /\ is_int32 (addr d) /\ (currdir d = 1 \/ currdir d = -1).

Lemma status_delta_fits ds last : Forall reportable ds ->
  exists es, status_delta ds last = Ok es /\ Forall entry_fits es /\ (length es <= length ds)%nat.
Proof.
  intros F. revert last. induction F as [|d ds (Hok & Ha & Hdir) F IH]; intros last; [by exists []|].
  destruct last as [|ls last]; [exists []; cbn; split_and!; [done|done|lia]|].
  destruct (IH last) as (es & E & Hf & Hl). cbn. destruct (func_bits_ok d (ok_wf _ Hok)) as [z Hz].
  unfold status_of. rewrite Hz. cbn. case_decide; [exists es; split_and!; [done|done|lia]|].
  assert (exists v, reported_speed d = Ok v /\ is_int32 v) as (v & Hv & Hvi).
  { destruct Hok as [_ Hs]. unfold reported_speed, int_mul. destruct (currspeed d =? 0).
    - exists (currdir d). split; [done|]. unfold is_int32. lia.
    - assert (is_int32 (currspeed d * currdir d)) as Hi by (unfold is_int32; nia).
      exists (currspeed d * currdir d). split; [|done]. by rewrite (proj2 (int32b_spec _) Hi). }
  rewrite Hv, E. cbn. eexists. split_and!; [done| |cbn; lia]. constructor; [|done].
  eexists _, _, _. split_and!; [done|done|done|]. by eapply func_bits_int32.
Qed.

Lemma sendMessage_tcp ml m bs k :
  tcp_isConnected k = true -> getBinaryMessage ml m = Ok bs ->
  sendMessage ml m (Some k) = (Ok tt, Some (mkTCP (so k) (rx k) (tx k ++ frame bs) false)).
Proof.
  intros Hc Hb. unfold sendMessage, on_client, check_connected, get, lift, mret, M_ret, mbind, M_bind.
  change (isConnected k) with (tcp_isConnected k). rewrite Hc, Hb. cbn. unfold tcp_write. cbn.
  unfold tcp_isConnected in Hc. rewrite (proj2 (Z.ltb_ge _ _)) by (by apply Z.leb_le).
  cbn. rewrite (proj2 (Z.ltb_ge _ _)) by (by apply Z.leb_le). unfold frame. by rewrite <- app_assoc.
Qed.

(** the new speed of a locomotive *)
Definition speed_update (t : Z) (d : lokdef_t) : lokdef_t :=
  set_currspeed (if t =? 9 then clamp_high (currspeed d + SPEED_STEP) else clamp_low 0 (currspeed d - SPEED_STEP)) d.

Section server.
Context (clientID : Z) (readFile : string -> outcome string) (timeout : Z) (addrs : list Z).
Implicit Types (s : CT Recorder TCPClient).

Lemma execute_speed t a i s : t = 9 \/ t = 10 -> getAddrIndex a (ct_lokdef s) = Ok i ->
  execute protocol readFile (one_addr t a []) s =
  (upd_lok i (speed_update t);; sendStatusReply protocol;; mark_changed i true;; mret false) s.
Proof.
  intros Ht Hi. rewrite execute_chain. change (m_type (one_addr t a [])) with t.
  destruct Ht as [-> | ->]; cbn [Z.eqb Pos.eqb]; unfold cmd_ACC, cmd_BREAK;
    (rewrite (run_bind _ _ _ a s) by done); by rewrite (run_bind _ _ _ _ _ (addrIndex_run a i s Hi)).
Qed.

(** the reply to a command, with the entries that have changed *)
Lemma sendStatusReply_run s k :
  thread_ok addrs s -> (length addrs < 256)%nat -> Forall reportable (locos (ct_lokdef s)) ->
  ct_client s = Some k -> tcp_isConnected k = true ->
  exists es bs sts, status_delta (locos (ct_lokdef s)) (ct_lastStatus s) = Ok es /\
    sendable protocol (status_reply es) = true /\ received protocol (status_reply es) = status_reply es /\
    getBinaryMessage protocol (status_reply es) = Ok bs /\ statuses (locos (ct_lokdef s)) sts /\
    sendStatusReply protocol s = (Ok tt, mkCT (ct_lokdef s) (ct_hw s) (Some (mkTCP (so k) (rx k) (tx k ++ frame bs) false))
      (sts ++ drop (length addrs) (ct_lastStatus s)) (ct_changed s) (ct_msgNum s)).
Proof.
  intros Hs Hn F Hk Hc. destruct (status_delta_fits _ (ct_lastStatus s) F) as (es & E & Hf & Hl).
  assert (length (locos (ct_lokdef s)) = length addrs) as Hlen
    by (destruct Hs as [[A _ _] _ _ _]; by rewrite <- A, length_map).
  pose proof (reply_sendable es ltac:(lia) Hf) as Hsend.
  destruct (sendable_frame protocol _ Hsend) as (bs & Hb & _).
  destruct (setLokStatus_run addrs s (Msg 8 (data_struct_t [])) es Hs) as (sts & Hst & Hset); [by split|exact E|].
  exists es, bs, sts. split_and!; [done|done|apply reply_received; [lia|done]|done|done|].
  unfold sendStatusReply. rewrite (run_bind _ _ _ (Msg 8 (data_struct_t [])) s) by (apply run_lift; vm_compute; reflexivity).
  rewrite (run_bind _ _ _ _ _ Hset). unfold send, on_comm, zoom. cbn [ct_client set_lastStatus]. rewrite Hk.
  change (with_info es (Msg 8 (data_struct_t []))) with (status_reply es).
  rewrite (sendMessage_tcp _ _ bs k Hc Hb), Hlen. done.
Qed.

(** driving leaves the connection and the reply bookkeeping alone *)
Lemma drive_frame n e s : ct_client (drive clientID n e s).2 = ct_client s /\ ct_lastStatus (drive clientID n e s).2 = ct_lastStatus s.
Proof.
  assert (preserves (fun s' => ct_client s' = ct_client s /\ ct_lastStatus s' = ct_lastStatus s) (drive clientID n e)) as Hp;
    [|by apply Hp].
  unfold drive. apply preserves_bind; [|intros; apply preserves_ret]. apply preserves_foldM. intros b x.
  unfold drive_one. apply preserves_bind; [apply preserves_gets|]. intros c. destruct (c !! x) as [[]|];
    [|apply preserves_ret|apply preserves_fail].
  apply preserves_bind; [|intros []; apply preserves_bind; [|intros []; apply preserves_bind; [|intros; apply preserves_ret]]].
  - unfold mark_changed. apply preserves_bind; [apply preserves_gets|]. intros c'.
    apply preserves_if; [apply preserves_fail|by apply preserves_modify].
  - unfold upd_lok. apply preserves_bind; [|intros d; by apply preserves_modify]. unfold lok_at.
    apply preserves_bind; [apply preserves_gets|]. intros t. apply preserves_if; [apply preserves_fail|].
    destruct (t !! _); [apply preserves_ret|apply preserves_fail].
  - intros s' Hs'. unfold on_hw, zoom. by destruct (sendLoco _ _ _).
Qed.

Lemma marked_one c i : Forall (eq false) c -> (i < length c)%nat -> marked (<[i:=true]> c) = [i].
Proof.
  intros F. unfold marked. assert (forall j, marked_from j c = []) as Hn.
  { clear i. induction F as [|b c <- _ IH]; intros j; [done|]. cbn. apply IH. }
  enough (forall j, (i < length c)%nat -> marked_from j (<[i:=true]> c) = [(j + i)%nat]) as Hj by (intros Hi; by rewrite (Hj 0%nat)).
  revert i Hn. induction F as [|b c <- F IH]; intros i Hn j Hi; [cbn in Hi; lia|]. destruct i as [|i]; cbn.
  - assert (marked_from (S j) c = []) as -> by (specialize (Hn j); exact Hn). by rewrite Nat.add_0_r.
  - rewrite IH; [f_equal; lia| |cbn in Hi; lia]. intros j'. specialize (Hn (pred j')). cbn in Hn.
    destruct j'; [|exact Hn]. clear -F. generalize 0%nat. induction F as [|b c <- _ IH]; intros n; [done|]. cbn. apply IH.
Qed.

Lemma speed_update_reportable t d : reportable d -> reportable (speed_update t d).
Proof.
  intros ([[W1 W2] Hs] & Ha & Hd). unfold reportable, speed_update, clamp_high, clamp_low, SPEED_STEP.
  split; [|done]. split; [by split|]. cbn. destruct (t =? 9).
  - destruct (Z.ltb_spec 255 (currspeed d + 5)); lia.
  - destruct (Z.ltb_spec (currspeed d - 5) 0); lia.
Qed.

Lemma index_of s i d : thread_ok addrs s -> NoDup addrs -> locos (ct_lokdef s) !! i = Some d ->
  getAddrIndex (addr d) (ct_lokdef s) = Ok (Z.of_nat i).
Proof.
  intros [[A T K] _ _ _] ND Hd. unfold getAddrIndex.
  assert (addrs !! i = Some (addr d)) as Hi.
  { rewrite <- A. change (map addr (locos (ct_lokdef s))) with (addr <$> locos (ct_lokdef s)). by rewrite list_lookup_fmap, Hd. }
  destruct (find_addr_spec (addr d) 0 _ T) as [(k & e & E & L & Ha & _)|[_ N]].
  - rewrite E. f_equal. assert (addrs !! k = Some (addr d)) as Hk.
    { rewrite <- A, <- Ha. change (map addr (locos (ct_lokdef s))) with (addr <$> locos (ct_lokdef s)). by rewrite list_lookup_fmap, L. }
    rewrite (NoDup_lookup _ _ _ _ ND Hi Hk). lia.
  - exfalso. apply N. rewrite A. by eapply list_elem_of_lookup_2.
Qed.

(** the table after one locomotive was driven *)
Lemma locos_driven i s s' :
  thread_ok addrs s -> thread_ok addrs s' ->
  (forall j d, locos (ct_lokdef s) !! j = Some d ->
     locos (ct_lokdef s') !! j = Some (if decide (j ∈ [i]) then set_lastClientID clientID d else d)) ->
  locos (ct_lokdef s') = alter (set_lastClientID clientID) i (locos (ct_lokdef s)).
Proof.
  intros Hs Hs' Hloc. apply list_eq. intros j. destruct (locos (ct_lokdef s) !! j) as [e|] eqn:Ej.
  - rewrite (Hloc j e Ej). destruct (decide (j ∈ [i])) as [->%list_elem_of_singleton|Hne].
    + by rewrite list_lookup_alter_eq, Ej.
    + rewrite list_lookup_alter_ne; [done|set_solver].
  - assert (length (locos (ct_lokdef s')) = length (locos (ct_lokdef s))) as Hl.
    { destruct Hs as [[A _ _] _ _ _], Hs' as [[A' _ _] _ _ _].
      rewrite <- (length_map addr (locos (ct_lokdef s'))), <- (length_map addr (locos (ct_lokdef s))). congruence. }
    apply lookup_ge_None in Ej. rewrite (proj2 (lookup_ge_None _ _)) by lia. symmetry. apply lookup_ge_None.
    by rewrite length_alter.
Qed.

(** a command for locomotive [i] and what the server makes of it *)
Lemma server_process t i s d k :
  t = 9 \/ t = 10 -> thread_ok addrs s -> NoDup addrs -> (length addrs < 256)%nat ->
  Forall reportable (locos (ct_lokdef s)) -> locos (ct_lokdef s) !! i = Some d ->
  Forall (eq false) (ct_changed s) -> ct_client s = Some k -> tcp_isConnected k = true ->
  let ds := <[i:=speed_update t d]> (locos (ct_lokdef s)) in
  exists es bs sts s', process protocol clientID readFile (length addrs) (one_addr t (addr d) []) s = (Ok tt, s') /\
    status_delta ds (ct_lastStatus s) = Ok es /\ sendable protocol (status_reply es) = true /\
    received protocol (status_reply es) = status_reply es /\ getBinaryMessage protocol (status_reply es) = Ok bs /\
    statuses ds sts /\ ct_client s' = Some (mkTCP (so k) (rx k) (tx k ++ frame bs) false) /\
    ct_lastStatus s' = sts ++ drop (length addrs) (ct_lastStatus s) /\ thread_ok addrs s' /\
    Forall (eq false) (ct_changed s') /\ calls (ct_hw s') = calls (ct_hw s) ++ [CallSendLoco (Z.of_nat i) false] /\
    locos (ct_lokdef s') = alter (set_lastClientID clientID) i ds.
Proof.
  intros Ht Hs ND Hn F Hd Hun Hk Hc ds. set (f := speed_update t).
  pose proof (index_of s i d Hs ND Hd) as Hidx.
  destruct (locos_valid addrs (Z.of_nat i) s d Hs) as [Hi Hic]; [by rewrite Nat2Z.id|lia|].
  set (s0 := set_lokdef (<[i:=f d]> (ct_lokdef s)) s).
  assert (lok_ok d /\ reportable d) as [Hok Hrep] by (eapply Forall_lookup_1 in F; [|exact Hd]; split; [apply F|done]).
  destruct (locos_lookup _ _ _ Hd) as [Htd _].
  assert (locos (ct_lokdef s0) = ds) as Hds by (cbn; apply (locos_insert _ _ d); done).
  assert (thread_ok addrs s0) as Hs0.
  { destruct Hs as [T L C N]. split; cbn; [|done..]. eapply table_ok_insert; [done|done|done|].
    apply speed_update_reportable, Hrep. }
  assert (Forall reportable ds) as F0 by (apply Forall_insert; [done|by apply speed_update_reportable]).
  destruct (sendStatusReply_run s0 k Hs0 Hn) as (es & bs & sts & E & Hsend & Hrec & Hb & Hst & Hrun);
    [by rewrite Hds|done|done|]. rewrite Hds in E, Hst.
  set (s2 := mkCT _ _ _ _ _ _) in Hrun.
  set (s3 := set_changed (<[i:=true]> (ct_changed s2)) s2).
  assert (thread_ok addrs s3) as Hs3.
  { destruct Hs0 as [T L C N]. split; cbn in *; [done| |by rewrite length_insert|by rewrite list_lookup_insert_ne by lia].
    rewrite length_app, length_drop. pose proof (Forall2_length Hst) as Hl. unfold ds in Hl.
    rewrite length_insert in Hl. assert (length (locos (ct_lokdef s)) = length addrs) by (destruct Hs as [[A _ _] _ _ _]; by rewrite <- A, length_map).
    lia. }
  destruct (drive_run clientID addrs s3 false Hs3) as (s4 & Hdr & Hcalls & Hch & Hs4 & Hloc).
  pose proof (drive_frame (length addrs) false s3) as [Hfc Hfl]. rewrite Hdr in Hfc, Hfl. cbn in Hfc, Hfl.
  assert (marked (ct_changed s3) = [i]) as Hm by (cbn; apply marked_one; [done|lia]).
  rewrite Hm in Hcalls, Hloc.
  exists es, bs, sts, (mkCT (ct_lokdef s4) (ct_hw s4) (ct_client s4) (ct_lastStatus s4) (ct_changed s4) (ct_msgNum s4 + 1)).
  split; [|split_and!; [exact E|exact Hsend|exact Hrec|exact Hb|exact Hst|exact Hfc|exact Hfl| |exact Hch|exact Hcalls|]].
  - unfold process. change (m_type (one_addr t (addr d) [])) with t.
    destruct (speed_type_name t Ht) as [nm Hnm]. rewrite (run_bind _ _ _ _ _ (run_lift _ _ _ Hnm)).
    rewrite (run_bind _ _ _ false s3); [by rewrite (run_bind _ _ _ _ _ Hdr)|].
    rewrite (execute_speed t (addr d) (Z.of_nat i) s Ht Hidx).
    rewrite (run_bind _ _ _ tt s0).
    2:{ unfold f. rewrite (upd_lok_run addrs (Z.of_nat i) (speed_update t) s d Hs); [by rewrite Nat2Z.id|rewrite Nat2Z.id; exact Hd|lia]. }
    rewrite (run_bind _ _ _ _ _ Hrun). rewrite (run_bind _ _ _ tt s3); [done|].
    rewrite mark_changed_run by (cbn; lia). by rewrite Nat2Z.id.
  - destruct Hs4 as [T4 L4 C4 N4]. split; [exact T4|exact L4|exact C4|exact N4].
  - rewrite <- Hds. by apply (locos_driven i s3 s4).
Qed.
(** a PING and what the server makes of it: a reply, and nothing is driven *)
Lemma server_process_ping s k :
  thread_ok addrs s -> (length addrs < 256)%nat -> Forall reportable (locos (ct_lokdef s)) ->
  Forall (eq false) (ct_changed s) -> ct_client s = Some k -> tcp_isConnected k = true ->
  let ds := locos (ct_lokdef s) in
  exists es bs sts s', process protocol clientID readFile (length addrs) (Msg 7 NULL) s = (Ok tt, s') /\
    status_delta ds (ct_lastStatus s) = Ok es /\ sendable protocol (status_reply es) = true /\
    received protocol (status_reply es) = status_reply es /\ getBinaryMessage protocol (status_reply es) = Ok bs /\
    statuses ds sts /\ ct_client s' = Some (mkTCP (so k) (rx k) (tx k ++ frame bs) false) /\
    ct_lastStatus s' = sts ++ drop (length addrs) (ct_lastStatus s) /\ thread_ok addrs s' /\
    Forall (eq false) (ct_changed s') /\ calls (ct_hw s') = calls (ct_hw s) /\ locos (ct_lokdef s') = ds.
Proof.
  intros Hs Hn F Hun Hk Hc ds.
  destruct (sendStatusReply_run s k Hs Hn F Hk Hc) as (es & bs & sts & E & Hsend & Hrec & Hb & Hst & Hrun).
  set (s2 := mkCT _ _ _ _ _ _) in Hrun.
  assert (marked (ct_changed s2) = []) as Hm.
  { cbn. unfold marked. clear -Hun. generalize 0%nat. induction Hun as [|b c <- _ IH]; intros n; [done|]. cbn. apply IH. }
  assert (thread_ok addrs s2) as Hs2.
  { destruct Hs as [T L C N]. split; cbn in *; [done| |done|done]. rewrite length_app, length_drop.
    pose proof (Forall2_length Hst) as Hl. assert (length (locos (ct_lokdef s)) = length addrs)
      by (destruct T as [A _ _]; by rewrite <- A, length_map). lia. }
  destruct (drive_run clientID addrs s2 false Hs2) as (s4 & Hdr & Hcalls & Hch & Hs4 & Hloc).
  pose proof (drive_frame (length addrs) false s2) as [Hfc Hfl]. rewrite Hdr in Hfc, Hfl. cbn in Hfc, Hfl.
  rewrite Hm in Hcalls, Hloc. cbn [drive_calls] in Hcalls. rewrite app_nil_r in Hcalls.
  exists es, bs, sts, (mkCT (ct_lokdef s4) (ct_hw s4) (ct_client s4) (ct_lastStatus s4) (ct_changed s4) (ct_msgNum s4 + 1)).
  split; [|split_and!; [exact E|exact Hsend|exact Hrec|exact Hb|exact Hst|exact Hfc|exact Hfl| |exact Hch|exact Hcalls|]].
  - unfold process. change (m_type (Msg 7 NULL)) with 7.
    rewrite (run_bind _ _ _ "(STRUCT PING)" s) by (apply run_lift; vm_compute; reflexivity).
    rewrite (run_bind _ _ _ false s2); [by rewrite (run_bind _ _ _ _ _ Hdr)|].
    rewrite execute_chain. cbn [m_type Z.eqb Pos.eqb]. by rewrite (run_bind _ _ _ _ _ Hrun).
  - destruct Hs4 as [T4 L4 C4 N4]. split; [exact T4|exact L4|exact C4|exact N4].
  - apply list_eq. intros j. change (locos (ct_lokdef s4) !! j = locos (ct_lokdef s2) !! j).
    destruct (locos (ct_lokdef s2) !! j) as [e|] eqn:Ej; [by rewrite (Hloc j e Ej)|].
    apply lookup_ge_None in Ej. apply lookup_ge_None.
    assert (length (locos (ct_lokdef s4)) = length addrs) as -> by (destruct (tk_table _ _ Hs4) as [A _ _]; by rewrite <- A, length_map).
    assert (length (locos (ct_lokdef s2)) = length addrs) as <- by (destruct (tk_table _ _ Hs2) as [A _ _]; by rewrite <- A, length_map).
    exact Ej.
Qed.
End server.

(** ** The wire *)

(** bytes that arrive at a socket *)
Definition arrive (w : list byte) (k : TCPClient) : TCPClient :=
  mkTCP (so k) (rx k ++ match w with [] => [] | b :: l => [Data b l] end) (tx k) (corked k).

Lemma tcp_read_data n b d l (k : TCPClient) :
  tcp_isConnected k = true -> rx k = Data b d :: l -> 0 < n <= Z.of_nat (length (b :: d)) ->
  tcp_read n k = (Ok (take (Z.to_nat n) (b :: d)),
    mkTCP (so k) (match drop (Z.to_nat n) (b :: d) with [] => l | b' :: d' => Data b' d' :: l end) (tx k) (corked k)).
Proof.
  intros Hc Hr Hn. apply Z.leb_le in Hc. unfold tcp_read, myRead. destruct (Z.to_nat n) as [|m] eqn:Em; [lia|].
  cbn [myRead_loop length Nat.sub]. rewrite (proj2 (Nat.ltb_lt _ _)) by lia.
  unfold sys_read at 1. unfold mbind, M_bind. rewrite (proj2 (Z.ltb_ge _ _)) by lia. rewrite Hr. cbn [sys_read_rx].
  assert (length (take (S m) (b :: d)) = S m) as Hl by (rewrite length_take; lia).
  destruct (take (S m) (b :: d)) as [|x xs] eqn:Ex; [done|]. cbn [app].
  destruct m; cbn [myRead_loop]; rewrite Hl, Nat.ltb_irrefl; done.
Qed.

(** a message that arrives at an idle socket *)
Lemma readMessage_arrives ml timeout bs (k : TCPClient) :
  tcp_isConnected k = true -> rx k = [] -> bs <> [] -> Z.of_nat (length bs) <= MAX_MESSAGE_SIZE ->
  comm_readMessage ml timeout (Some (arrive (frame bs) k)) =
    (FBTCtlMessage_bin ml bs (Z.of_nat (length bs)), Some (mkTCP (so k) [] (tx k) (corked k))).
Proof.
  intros Hc Hr Hne Hmax. set (n := Z.of_nat (length bs)).
  assert (exists b d, frame bs = b :: d) as (b & d & Hf) by (unfold frame; eexists _, _; reflexivity).
  assert (take 4 (b :: d) = le_bytes 4 n /\ drop 4 (b :: d) = bs) as [Ht Hd].
  { rewrite <- Hf. unfold frame. by rewrite take_app_length', drop_app_length' by (symmetry; apply length_le_bytes). }
  destruct bs as [|x xs]; [done|]. pose proof (Z.leb_le 0 (so k)) as Hso.
  unfold arrive. rewrite Hr, Hf. cbn [app].
  unfold comm_readMessage, on_client, check_connected, get, mbind, M_bind. cbn [isConnected TCPClient_stream].
  change (tcp_isConnected _) with (tcp_isConnected k). rewrite Hc. cbn [mret M_ret readSelect read TCPClient_stream].
  unfold tcp_isConnected in Hc. apply Z.leb_le in Hc.
  unfold tcp_readSelect at 1. cbn [so rx]. rewrite (proj2 (Z.ltb_ge _ _)) by lia.
  rewrite (tcp_read_data 4 b d []); [|by apply Z.leb_le|done|rewrite <- Hf; unfold frame; rewrite length_app, length_le_bytes; lia].
  change (Z.to_nat 4) with 4%nat. rewrite Ht, Hd, length_le_bytes. cbn [so tx corked Z.eqb negb]. rewrite Z.eqb_refl. cbn [negb].
  rewrite int32_le_roundtrip by (apply is_frame_size; lia).
  rewrite (proj2 (Z.ltb_ge n 0)), (proj2 (Z.ltb_ge MAX_MESSAGE_SIZE n)) by lia. cbn [orb].
  unfold tcp_readSelect. cbn [so rx]. rewrite (proj2 (Z.ltb_ge (so k) 0)) by lia.
  rewrite (tcp_read_data n x xs []); [|by apply Z.leb_le|done|unfold n; cbn [length]; lia].
  rewrite (Nat2Z.id (length (x :: xs)) : Z.to_nat n = _), firstn_all, skipn_all. fold n. by rewrite Z.eqb_refl.
Qed.

(** ** One round of the loop *)

Definition tx_of (o : option TCPClient) : list byte := match o with Some k => tx k | None => [] end.
Definition server_receives {H} (w : list byte) (s : CT H TCPClient) : CT H TCPClient :=
  mkCT (ct_lokdef s) (ct_hw s) (arrive w <$> ct_client s) (ct_lastStatus s) (ct_changed s) (ct_msgNum s).
Definition controller_receives (w : list byte) (c : Control TCPClient) : Control TCPClient :=
  with_client c (arrive w <$> co_client c).

(** the bytes the next turn of the controller sends *)
Definition controller_sends (c : Control TCPClient) : list byte :=
  drop (length (tx_of (co_client c))) (tx_of (co_client
    (match co_queue c with [] => sendPing protocol | (cmd, _) :: _ => comm (sendMessage protocol cmd) end c).2)).

Section loop.
Context {H : Type} `{Hardware H} (clientID : Z) (readFile : string -> outcome string) (timeout ctimeout : Z) (nLokdef : nat).

(** The controller sends and waits: the server takes its turn with the bytes
    that were sent, and what the server writes is what arrives at the
    controller. *)
Definition exchange (w : CT H TCPClient * Control TCPClient) : outcome unit * (CT H TCPClient * Control TCPClient) :=
  let '(s, c) := w in
  match turn protocol timeout clientID readFile nLokdef (server_receives (controller_sends c) s) with
  | (Err e, s') => (Err e, (s', c))
  | (Ok _, s') =>
      let answer := drop (length (tx_of (ct_client s))) (tx_of (ct_client s')) in
      let '(r, c') := control_turn protocol ctimeout (controller_receives answer c) in
      (r, (s', c'))
  end.

(** a reading of the knob, and what the connection thread does before the
    next one: with a command in the queue it sends it; with none it goes on
    waiting, or its two seconds are over ([waited]) and it sends a PING *)
Definition loop_round (avg dir : Z) (waited : bool) (w : CT H TCPClient * Control TCPClient)
    : outcome unit * (CT H TCPClient * Control TCPClient) :=
  let '(s, c) := w in
  match follow_poti protocol avg dir c with
  | (Err e, c') => (Err e, (s, c'))
  | (Ok _, c') => match co_queue c', waited with [], false => (Ok tt, (s, c')) | _, _ => exchange (s, c') end
  end.

Definition loop_rounds (ws : list bool) (avg dir : Z) : M (CT H TCPClient * Control TCPClient) unit :=
  iterM (loop_round avg dir) ws.
End loop.

(** the two sides agree: nothing is under way, and the controller shows what
    the server has; locomotive [i] is selected, runs at speed [v] in direction
    [dir] *)
Record railway {H} (addrs : list Z) (i : nat) (dir v : Z) (s : CT H TCPClient) (c : Control TCPClient) : Prop := mkRailway {
  rw_thread : thread_ok addrs s;
  rw_nodup : NoDup addrs;
  rw_few : (length addrs < 256)%nat;
  rw_report : Forall reportable (locos (ct_lokdef s));
  rw_lok : exists d, locos (ct_lokdef s) !! i = Some d /\ currspeed d = v /\ currdir d = dir;
  rw_unmarked : Forall (eq false) (ct_changed s);
  rw_server : exists k, ct_client s = Some k /\ tcp_isConnected k = true /\ rx k = [];
  rw_control : exists k, co_client c = Some k /\ tcp_isConnected k = true /\ rx k = [];
  rw_selected : co_selected c = Z.of_nat i;
  rw_queue : co_queue c = [];
  rw_force : co_forceStop c = false;
  rw_copy : exists tc, co_lokdef c = Some tc /\ copy_ok addrs tc /\ exists sts, statuses (locos (ct_lokdef s)) sts /\
    take (length addrs) (ct_lastStatus s) = sts /\
    Forall2 (fun d st => exists d', has tc (addr d) d' /\ shows st d') (locos (ct_lokdef s)) sts;
}.

Lemma railway_selected {H} addrs i dir v (s : CT H TCPClient) c : railway addrs i dir v s c -> 0 <= v ->
  exists d tc d', locos (ct_lokdef s) !! i = Some d /\ currspeed d = v /\ co_lokdef c = Some tc /\
    locos tc !! i = Some d' /\ addr d' = addr d /\ currspeed d' = shown_speed v /\ currdir d' = dir.
Proof.
  intros R Hv. destruct (rw_lok _ _ _ _ _ _ R) as (d & Hd & Hs & Hdir).
  destruct (rw_copy _ _ _ _ _ _ R) as (tc & Htc & Hc & sts & Hst & _ & F).
  destruct (Forall2_lookup_l _ _ _ _ _ F Hd) as (st & Hi & d' & (j & Hj & Ha) & Hsh).
  pose proof (Forall2_lookup_lr _ _ _ _ _ _ Hst Hd Hi) as Hst'. apply outcome_bind_ok in Hst' as (fb & _ & [= <-]).
  destruct (tk_table _ _ (rw_thread _ _ _ _ _ _ R)) as [A _ _]. pose proof Hc as (T & ND & Atc).
  assert (j = i) as ->.
  { assert (map addr (locos tc) !! j = Some (addr d)) as H1.
    { change (map addr (locos tc)) with (addr <$> locos tc). by rewrite list_lookup_fmap, Hj, <- Ha. }
    assert (map addr (locos (ct_lokdef s)) !! i = Some (addr d)) as H2.
    { change (map addr (locos (ct_lokdef s))) with (addr <$> locos (ct_lokdef s)). by rewrite list_lookup_fmap, Hd. }
    rewrite Atc in H1. rewrite A in H2. by eapply NoDup_lookup. }
  pose proof (rw_report _ _ _ _ _ _ R) as Hrep. eapply Forall_lookup_1 in Hrep as (_ & _ & Hpm); [|exact Hd].
  exists d, tc, d'. split_and!; [done..| |].
  - rewrite <- Hs. refine (shows_shown_speed _ _ _ _ Hsh); cbn; [lia|exact Hpm].
  - destruct Hsh as (_ & Hdd & _). rewrite Hdd, <- Hdir. unfold shown. cbn [ls_currspeed ls_dir].
    destruct (Z.eqb_spec (currspeed d) 0) as [E0|E0]; cbn [fst];
      (match goal with |- context [0 <=? ?z] => destruct (Z.leb_spec 0 z) end); destruct Hpm; nia.
Qed.

(** the command of a round *)
Lemma speed_cmd a (name : string) : name = "ACC" \/ name = "BREAK" ->
  new_cmd protocol name [("addr", a)] = Ok (one_addr (if decide (name = "ACC") then 9 else 10) a []).
Proof. intros [-> | ->]; vm_compute; reflexivity. Qed.

Lemma controller_sends_run t a q cb bs k c :
  t = 9 \/ t = 10 -> co_queue c = (one_addr t a [], cb) :: q -> co_client c = Some k -> tcp_isConnected k = true ->
  getBinaryMessage protocol (one_addr t a []) = Ok bs -> controller_sends c = frame bs.
Proof.
  intros Ht Hq Hk Hc Hb. unfold controller_sends, comm, zoom. rewrite Hq, Hk, (sendMessage_tcp _ _ bs k Hc Hb). cbn.
  by apply drop_app_length'.
Qed.

Lemma controller_pings_run k c : co_queue c = [] -> co_client c = Some k -> tcp_isConnected k = true ->
  controller_sends c = frame ping_bytes.
Proof.
  intros Hq Hk Hc. destruct ping_cmd as (Hp & Hb & _). unfold controller_sends. rewrite Hq. unfold sendPing.
  rewrite (run_bind _ _ _ ping_msg c) by (by apply run_lift). unfold comm, zoom.
  rewrite Hk, (sendMessage_tcp _ _ _ k Hc Hb). cbn -[frame ping_bytes]. by apply drop_app_length'.
Qed.

(** the turn of the controller behind its sending: the answer has arrived *)
Lemma control_answered addrs c c1 ocb k1 es rb ds last tc :
  ocb = None \/ ocb = Some cb_nothing ->
  (match co_queue c with
   | [] => sendPing protocol;; mret None
   | (cmd, cb) :: q => modify (fun c => with_queue c q);; lift (messageTypeName protocol (m_type cmd));;
                       comm (sendMessage protocol cmd);; mret (Some cb)
   end) c = (Ok ocb, c1) ->
  co_client c1 = Some (arrive (frame rb) k1) -> tcp_isConnected k1 = true -> rx k1 = [] ->
  sendable protocol (status_reply es) = true -> received protocol (status_reply es) = status_reply es ->
  getBinaryMessage protocol (status_reply es) = Ok rb ->
  copy_ok addrs tc -> map addr ds = addrs -> Forall reportable ds -> co_lokdef c1 = Some tc ->
  in_step tc ds last -> status_delta ds last = Ok es -> forall ctimeout,
  exists c' tc' sts, control_turn protocol ctimeout c = (Ok tt, c') /\
    co_lokdef c' = Some tc' /\ copy_ok addrs tc' /\ statuses ds sts /\
    Forall2 (fun d st => exists d', has tc' (addr d) d' /\ shows st d') ds sts /\
    co_client c' = Some (mkTCP (so k1) [] (tx k1) (corked k1)) /\ co_queue c' = co_queue c1 /\
    co_selected c' = co_selected c1 /\ co_forceStop c' = co_forceStop c1.
Proof.
  intros Hcb Hsent Hk1 Hc Hrx Hsend Hrec Hrb Hcopy A F Htc Hstep Hd ctimeout.
  destruct (sendable_frame _ _ Hsend) as (rb' & Hrb' & Hne & Hmax & Hbin). rewrite Hrb in Hrb'. injection Hrb' as <-.
  rewrite Hrec in Hbin. set (c2 := with_client c1 (Some (mkTCP (so k1) [] (tx k1) (corked k1)))).
  destruct (handle_delta addrs (Msg 8 (data_struct_t [])) es ds last c2 tc) as (tc' & sts & Hh & Hc' & Hst & Hsh);
    [by split|exact Hcopy|exact A| |exact Htc|exact Hstep|exact Hd|].
  { eapply Forall_impl; [|exact F]. intros d ([_ Hs] & _ & Hdir). split; [lia|done]. }
  exists (with_msgNum (with_lokdef c2 tc') (co_msgNum c1 + 1)), tc', sts. split_and!; [|done..].
  unfold control_turn. rewrite (run_bind _ _ _ c c) by done. rewrite (run_bind _ _ _ _ _ Hsent).
  rewrite (run_bind _ _ _ (status_reply es) c2).
  2:{ unfold comm, zoom. rewrite Hk1, (readMessage_arrives protocol ctimeout rb k1) by done. by rewrite Hbin. }
  rewrite (run_bind _ _ _ "(STRUCT STATUS_REPLY)" c2) by (apply run_lift; vm_compute; reflexivity).
  rewrite (run_bind _ _ _ tt c2) by (by destruct Hcb as [-> | ->]).
  rewrite (run_bind _ _ _ true c2) by (apply run_lift; vm_compute; reflexivity).
  by rewrite (run_bind _ _ _ tt _ Hh).
Qed.

(** the sending of a command, with the answer on its way *)
Lemma control_sends_cmd t a c k cb rb :
  t = 9 \/ t = 10 -> co_queue c = [(one_addr t a [], cb_nothing)] -> co_client c = Some k -> tcp_isConnected k = true ->
  getBinaryMessage protocol (one_addr t a []) = Ok cb ->
  (match co_queue (controller_receives rb c) with
   | [] => sendPing protocol;; mret None
   | (cmd, cb) :: q => modify (fun c => with_queue c q);; lift (messageTypeName protocol (m_type cmd));;
                       comm (sendMessage protocol cmd);; mret (Some cb)
   end) (controller_receives rb c) =
  (Ok (Some cb_nothing), with_client (with_queue (controller_receives rb c) [])
     (Some (arrive rb (mkTCP (so k) (rx k) (tx k ++ frame cb) false)))).
Proof.
  intros Ht Hq Hk Hc Hcb. set (c0 := controller_receives rb c). change (co_queue c0) with (co_queue c). rewrite Hq.
  rewrite (run_bind _ _ _ tt (with_queue c0 [])) by done. destruct (speed_type_name t Ht) as [nm Hnm].
  rewrite (run_bind _ _ _ _ _ (run_lift _ _ _ Hnm)). set (c1 := with_client _ _). rewrite (run_bind _ _ _ tt c1); [done|].
  unfold comm, zoom. cbn [c0 co_client with_queue controller_receives with_client]. rewrite Hk. cbn [fmap option_fmap option_map].
  by rewrite (sendMessage_tcp _ _ cb (arrive rb k) Hc Hcb).
Qed.

Lemma control_sends_ping c k rb :
  co_queue c = [] -> co_client c = Some k -> tcp_isConnected k = true ->
  (match co_queue (controller_receives rb c) with
   | [] => sendPing protocol;; mret None
   | (cmd, cb) :: q => modify (fun c => with_queue c q);; lift (messageTypeName protocol (m_type cmd));;
                       comm (sendMessage protocol cmd);; mret (Some cb)
   end) (controller_receives rb c) =
  (Ok None, with_client (controller_receives rb c)
     (Some (arrive rb (mkTCP (so k) (rx k) (tx k ++ frame ping_bytes) false)))).
Proof.
  intros Hq Hk Hc. set (c0 := controller_receives rb c). change (co_queue c0) with (co_queue c). rewrite Hq.
  destruct ping_cmd as (Hp & Hb & _). set (c1 := with_client _ _). rewrite (run_bind _ _ _ tt c1); [done|].
  unfold sendPing. rewrite (run_bind _ _ _ ping_msg c0) by (by apply run_lift).
  unfold comm, zoom. cbn [c0 co_client controller_receives with_client]. rewrite Hk. cbn [fmap option_fmap option_map].
  by rewrite (sendMessage_tcp _ _ _ (arrive rb k) Hc Hb).
Qed.

(** the copy is in step with a table with the same addresses *)
Lemma in_step_addrs tc ds ds' sts : map addr ds = map addr ds' ->
  Forall2 (fun d st => exists d', has tc (addr d) d' /\ shows st d') ds sts -> in_step tc ds' sts.
Proof.
  intros A F. unfold in_step. revert ds' A. induction F as [|d st ds sts Hd _ IH]; intros [|d' ds'] A; try done.
  injection A as Hda A. constructor; [right; by rewrite <- Hda|by apply IH].
Qed.

Section round.
Context (clientID : Z) (readFile : string -> outcome string) (timeout ctimeout : Z) (addrs : list Z).
Implicit Types (s : CT Recorder TCPClient).

(** the turn of the server in which a message arrives *)
Lemma turn_arrives m s k bs :
  sendable protocol m = true -> getBinaryMessage protocol m = Ok bs ->
  ct_client s = Some k -> tcp_isConnected k = true -> rx k = [] ->
  turn protocol timeout clientID readFile (length addrs) (server_receives (frame bs) s) =
  process protocol clientID readFile (length addrs) (received protocol m)
    (mkCT (ct_lokdef s) (ct_hw s) (Some (mkTCP (so k) [] (tx k) (corked k))) (ct_lastStatus s) (ct_changed s) (ct_msgNum s)).
Proof.
  intros Hsend Hb Hk Hc Hrx. set (s1 := mkCT _ _ _ _ _ _).
  destruct (sendable_frame _ _ Hsend) as (bs' & Hb' & Hne & Hmax & Hbin). rewrite Hb in Hb'. injection Hb' as <-.
  unfold turn. rewrite (run_bind _ _ _ (received protocol m) s1); [done|].
  unfold on_comm, zoom, server_receives. cbn [ct_client]. rewrite Hk. cbn [fmap option_fmap option_map].
  rewrite (readMessage_arrives protocol timeout bs k) by done. by rewrite Hbin.
Qed.

Lemma statuses_touched i ds sts : statuses ds sts -> statuses (alter (set_lastClientID clientID) i ds) sts.
Proof. intros F. apply Forall2_alter_l; [done|]. intros d st _ _ Hst. exact Hst. Qed.

(** a command is sent, executed, answered and shown *)
Lemma exchange_round t i dir v s c d tc :
  t = 9 \/ t = 10 -> railway addrs i dir v s (with_queue c []) -> locos (ct_lokdef s) !! i = Some d ->
  co_queue c = [(one_addr t (addr d) [], cb_nothing)] -> co_lokdef c = Some tc ->
  exists s' c', exchange clientID readFile timeout ctimeout (length addrs) (s, c) = (Ok tt, (s', c')) /\
    railway addrs i dir (currspeed (speed_update t d)) s' c' /\
    calls (ct_hw s') = calls (ct_hw s) ++ [CallSendLoco (Z.of_nat i) false].
Proof.
  intros Ht [Hs ND Hn F (d0 & Hd0 & Hv & Hdir) Hun (k & Hk & Hkc & Hkr) (kc & Hkc1 & Hkc2 & Hkc3) Hsel _ Hf
    (tc0 & Htc0 & Hcopy & sts0 & Hst0 & Hlast & Hsh)] Hd Hq Htc.
  cbn in Hkc1, Hsel, Hf, Htc0. rewrite Htc in Htc0. injection Htc0 as <-. rewrite Hd in Hd0. injection Hd0 as <-.
  assert (reportable d) as Hrep by (eapply Forall_lookup_1 in F; [exact F|exact Hd]).
  destruct (cmd_sendable t (addr d) Ht ltac:(apply Hrep)) as [Hsend Hrec].
  destruct (sendable_frame _ _ Hsend) as (cb & Hcb & _).
  pose proof (turn_arrives _ s k cb Hsend Hcb Hk Hkc Hkr) as Hturn. rewrite Hrec in Hturn.
  set (s1 := mkCT _ _ _ _ _ _) in Hturn. assert (thread_ok addrs s1) as Hs1 by (destruct Hs; by split).
  destruct (server_process clientID readFile addrs t i s1 d _ Ht Hs1 ND Hn F Hd Hun eq_refl Hkc)
    as (es & bs & sts & s' & Hp & Hdelta & Hes & Hesr & Hbs & Hst & Hk' & Hl' & Hs' & Hun' & Hcalls & Hds).
  rewrite Hp in Hturn. cbn [s1 ct_lokdef ct_lastStatus ct_hw so tx rx] in Hdelta, Hst, Hk', Hl', Hcalls, Hds.
  set (ds := <[i:=speed_update t d]> (locos (ct_lokdef s))) in *.
  assert (map addr (locos (ct_lokdef s)) = map addr ds) as Hads.
  { change (addr <$> locos (ct_lokdef s) = addr <$> ds). unfold ds. rewrite list_fmap_insert. symmetry.
    apply list_insert_id. by rewrite list_lookup_fmap, Hd. }
  assert (Forall reportable ds) as Fds by (apply Forall_insert; [done|by apply speed_update_reportable]).
  assert (map addr (locos (ct_lokdef s)) = addrs) as A by (by destruct (tk_table _ _ Hs)).
  assert (length (locos (ct_lokdef s)) = length addrs) as Hlen by (by rewrite <- A, length_map).
  assert (length ds = length addrs) as Hlds by (unfold ds; by rewrite length_insert).
  pose proof (control_sends_cmd t (addr d) c kc cb (frame bs) Ht Hq Hkc1 Hkc2 Hcb) as Hsent.
  destruct (control_answered addrs _ _ _ _ es bs ds sts0 tc (or_intror eq_refl) Hsent eq_refl Hkc2 Hkc3 Hes Hesr Hbs Hcopy
    ltac:(congruence) Fds Htc (in_step_addrs _ _ _ _ Hads Hsh)) with (ctimeout := ctimeout)
    as (c' & tc' & sts' & Hct & Htc' & Hcopy' & Hst' & Hsh' & Hcl & Hq' & Hsel' & Hf').
  { rewrite <- Hlast. rewrite <- Hdelta. symmetry. apply status_delta_take. lia. }
  assert (sts' = sts) as -> by (by eapply statuses_unique).
  exists s', c'. split_and!.
  - unfold exchange. rewrite (controller_sends_run t (addr d) [] cb_nothing cb kc c Ht Hq Hkc1 Hkc2 Hcb), Hturn.
    rewrite Hk, Hk'. cbn [tx_of tx]. rewrite drop_app_length' by done. by rewrite Hct.
  - clear Hsend Hrec Hcb Hes Hesr Hbs Hturn Hdelta Hct Hsent Hp.
    split; [exact Hs'|exact ND|exact Hn| | |exact Hun'|eexists; exact (conj Hk' (conj Hkc eq_refl))|
      eexists; exact (conj Hcl (conj Hkc2 eq_refl))|rewrite Hsel'; exact Hsel|rewrite Hq'; reflexivity|rewrite Hf'; exact Hf|].
    + rewrite Hds. apply Forall_alter; [done|]. intros e _ ([[W1 W2] Hw] & He). split; [by split; [split|]|exact He].
    + exists (set_lastClientID clientID (speed_update t d)). split; [|done]. rewrite Hds, list_lookup_alter_eq. unfold ds.
      rewrite list_lookup_insert_eq by (by eapply lookup_lt_Some). done.
    + exists tc'. split_and!; [done..|]. exists sts. split_and!; [rewrite Hds; by apply statuses_touched| |].
      * rewrite Hl'. pose proof (Forall2_length Hst). rewrite take_app_le by lia. apply take_ge. lia.
      * rewrite Hds. apply Forall2_alter_l; [done|]. intros e st _ _ He. exact He.
  - exact Hcalls.
Qed.

(** a PING is sent and answered: nothing moves *)
Lemma ping_round i dir v s c : railway addrs i dir v s c ->
  exists s' c', exchange clientID readFile timeout ctimeout (length addrs) (s, c) = (Ok tt, (s', c')) /\
    railway addrs i dir v s' c' /\ calls (ct_hw s') = calls (ct_hw s).
Proof.
  intros [Hs ND Hn F (d & Hd & Hv & Hdir) Hun (k & Hk & Hkc & Hkr) (kc & Hkc1 & Hkc2 & Hkc3) Hsel Hq Hf
    (tc & Htc & Hcopy & sts0 & Hst0 & Hlast & Hsh)].
  destruct ping_cmd as (_ & Hpb & Hsend & Hrec).
  pose proof (turn_arrives _ s k ping_bytes Hsend Hpb Hk Hkc Hkr) as Hturn. rewrite Hrec in Hturn.
  set (s1 := mkCT _ _ _ _ _ _) in Hturn. assert (thread_ok addrs s1) as Hs1 by (destruct Hs; by split).
  destruct (server_process_ping clientID readFile addrs s1 _ Hs1 Hn F Hun eq_refl Hkc)
    as (es & bs & sts & s' & Hp & Hdelta & Hes & Hesr & Hbs & Hst & Hk' & Hl' & Hs' & Hun' & Hcalls & Hds).
  rewrite Hp in Hturn. cbn [s1 ct_lokdef ct_lastStatus ct_hw so tx rx] in Hdelta, Hst, Hk', Hl', Hcalls, Hds.
  assert (map addr (locos (ct_lokdef s)) = addrs) as A by (by destruct (tk_table _ _ Hs)).
  assert (length (locos (ct_lokdef s)) = length addrs) as Hlen by (by rewrite <- A, length_map).
  pose proof (control_sends_ping c kc (frame bs) Hq Hkc1 Hkc2) as Hsent.
  destruct (control_answered addrs _ _ _ _ es bs (locos (ct_lokdef s)) sts0 tc (or_introl eq_refl) Hsent eq_refl Hkc2 Hkc3
    Hes Hesr Hbs Hcopy A F Htc (in_step_addrs _ _ _ _ eq_refl Hsh)) with (ctimeout := ctimeout)
    as (c' & tc' & sts' & Hct & Htc' & Hcopy' & Hst' & Hsh' & Hcl & Hq' & Hsel' & Hf').
  { rewrite <- Hlast. rewrite <- Hdelta. symmetry. apply status_delta_take. lia. }
  assert (sts' = sts) as -> by (by eapply statuses_unique).
  exists s', c'. split_and!; [| |exact Hcalls].
  - unfold exchange. rewrite (controller_pings_run kc c Hq Hkc1 Hkc2), Hturn.
    rewrite Hk, Hk'. cbn [tx_of tx]. rewrite drop_app_length' by done. by rewrite Hct.
  - clear Hsend Hrec Hes Hesr Hbs Hturn Hdelta Hct Hsent Hp.
    split; [exact Hs'|exact ND|exact Hn|rewrite Hds; exact F|exists d; rewrite Hds; exact (conj Hd (conj Hv Hdir))|exact Hun'|
      eexists; exact (conj Hk' (conj Hkc eq_refl))|
      eexists; exact (conj Hcl (conj Hkc2 eq_refl))|rewrite Hsel'; exact Hsel|rewrite Hq'; exact Hq|rewrite Hf'; exact Hf|].
    + exists tc'. split_and!; [done..|]. exists sts. split_and!; [by rewrite Hds| |by rewrite Hds].
      rewrite Hl'. pose proof (Forall2_length Hst). rewrite take_app_le by lia. apply take_ge. lia.
Qed.

(** what the controller queues *)
Lemma railway_follow i dir v avg s c : railway addrs i dir v s c -> 0 <= v ->
  exists d tc, locos (ct_lokdef s) !! i = Some d /\ currspeed d = v /\ co_lokdef c = Some tc /\
    follow_poti protocol avg dir c =
    (Ok tt, match knob_command avg (shown_speed v) with
            | None => c
            | Some cmd => with_queue c [(one_addr (if decide (cmd = "ACC") then 9 else 10) (addr d) [], cb_nothing)]
            end).
Proof.
  intros R Hv. destruct (railway_selected _ _ _ _ _ _ R Hv) as (d & tc & d' & Hd & Hs & Htc & Hd' & Hda & Hsp & Hdir).
  pose proof (follow_poti_run protocol c tc i d' avg (one_addr 9 (addr d) []) (one_addr 10 (addr d) []) Htc
    (rw_selected _ _ _ _ _ _ R) Hd' (rw_queue _ _ _ _ _ _ R) (rw_force _ _ _ _ _ _ R)) as Hp.
  rewrite Hda in Hp. specialize (Hp (speed_cmd (addr d) "ACC" ltac:(tauto)) (speed_cmd (addr d) "BREAK" ltac:(tauto))).
  rewrite Hdir, Hsp in Hp. exists d, tc. split_and!; [done..|]. rewrite Hp.
  destruct (knob_command avg (shown_speed v)); [by case_decide|done].
Qed.

(** a round in which the knob asks for nothing: at most a PING *)
Lemma railway_quiet i dir v avg w s c : railway addrs i dir v s c -> 0 <= v -> knob_command avg (shown_speed v) = None ->
  exists s' c', loop_round clientID readFile timeout ctimeout (length addrs) avg dir w (s, c) = (Ok tt, (s', c')) /\
    railway addrs i dir v s' c' /\ calls (ct_hw s') = calls (ct_hw s).
Proof.
  intros R Hv Hk. destruct (railway_follow i dir v avg s c R Hv) as (d & tc & _ & _ & _ & E). rewrite Hk in E.
  unfold loop_round. rewrite E, (rw_queue _ _ _ _ _ _ R). destruct w; [by apply (ping_round i dir v)|]. by exists s, c.
Qed.

(** one round of the loop *)
Lemma railway_round i dir v avg w s c :
  railway addrs i dir v s c -> 0 <= v ->
  exists s' c', loop_round clientID readFile timeout ctimeout (length addrs) avg dir w (s, c) = (Ok tt, (s', c')) /\
    railway addrs i dir (knob_round avg v) s' c' /\
    calls (ct_hw s') = calls (ct_hw s) ++
      (if knob_command avg (shown_speed v) then [CallSendLoco (Z.of_nat i) false] else []).
Proof.
  intros R Hv. destruct (railway_follow i dir v avg s c R Hv) as (d & tc & Hd & Hs & Htc & Hp). unfold knob_round.
  destruct (knob_command avg (shown_speed v)) as [cmd|] eqn:Ek.
  - unfold loop_round. rewrite Hp. cbn [co_queue with_queue]. set (t := if decide (cmd = "ACC") then 9 else 10).
    assert (t = 9 \/ t = 10) as Ht by (unfold t; case_decide; tauto).
    destruct (exchange_round t i dir v s (with_queue c [(one_addr t (addr d) [], cb_nothing)]) d tc Ht) as (s' & c' & E & R' & Hcalls);
      [destruct R as [? ? ? ? ? ? ? ? ? Hq ? ?]; by split|done|done|done|].
    exists s', c'. split_and!; [exact E| |exact Hcalls].
    assert (currspeed (speed_update t d) = server_speed (Some cmd) v) as <-; [|exact R'].
    unfold speed_update, server_speed, t. cbn. rewrite Hs. by case_decide.
  - destruct (railway_quiet i dir v avg w s c R Hv Ek) as (s' & c' & E & R' & C). exists s', c'.
    split_and!; [exact E|exact R'|by rewrite app_nil_r].
Qed.

(** the commands of [n] rounds that start at speed [v] *)
Fixpoint knob_calls (n : nat) (avg v : Z) : nat :=
  match n with
  | O => 0
  | S n' => (if knob_command avg (shown_speed v) then 1 else 0) + knob_calls n' avg (knob_round avg v)
  end%nat.

Lemma railway_rounds ws i dir avg : 0 <= avg <= 255 -> forall v s c, railway addrs i dir v s c -> 0 <= v <= 255 ->
  exists s' c', loop_rounds clientID readFile timeout ctimeout (length addrs) ws avg dir (s, c) = (Ok tt, (s', c')) /\
    railway addrs i dir (Nat.iter (length ws) (knob_round avg) v) s' c' /\
    calls (ct_hw s') = calls (ct_hw s) ++ repeat (CallSendLoco (Z.of_nat i) false) (knob_calls (length ws) avg v).
Proof.
  intros Ha. unfold loop_rounds. induction ws as [|w ws IH]; intros v s c R Hv.
  { exists s, c. split_and!; [done|done|by rewrite app_nil_r]. }
  destruct (railway_round i dir v avg w s c R ltac:(lia)) as (s1 & c1 & E1 & R1 & C1).
  destruct (IH (knob_round avg v) s1 c1 R1) as (s2 & c2 & E2 & R2 & C2); [by apply knob_round_progress|].
  exists s2, c2. cbn [iterM length]. split_and!.
  - by rewrite (run_bind _ _ _ _ _ E1).
  - rewrite Nat.iter_succ_r. exact R2.
  - rewrite C2, C1, <- app_assoc. cbn [knob_calls]. by destruct (knob_command avg (shown_speed v)).
Qed.

Lemma loop_rounds_quiet ws i dir v avg : knob_command avg (shown_speed v) = None -> 0 <= v -> forall s c,
  railway addrs i dir v s c ->
  exists s' c', loop_rounds clientID readFile timeout ctimeout (length addrs) ws avg dir (s, c) = (Ok tt, (s', c')) /\
    railway addrs i dir v s' c' /\ calls (ct_hw s') = calls (ct_hw s).
Proof.
  intros Hk Hv. unfold loop_rounds. induction ws as [|w ws IH]; intros s c R; [by exists s, c|]. cbn [iterM].
  destruct (railway_quiet i dir v avg w s c R Hv Hk) as (s1 & c1 & E1 & R1 & C1).
  destruct (IH s1 c1 R1) as (s2 & c2 & E2 & R2 & C2). exists s2, c2. rewrite (run_bind _ _ _ _ _ E1).
  split_and!; [exact E2|exact R2|congruence].
Qed.

Lemma knob_calls_bound n avg v : 0 <= avg <= 255 -> 0 <= v <= 255 -> (knob_calls n avg v <= 51)%nat.
Proof.
  intros Ha Hv. enough (5 * Z.of_nat (knob_calls n avg v) <= Z.abs (avg - v)) by lia.
  revert v Hv. induction n as [|n IH]; intros v Hv; [cbn; lia|]. cbn [knob_calls].
  destruct (knob_round_progress avg v Ha Hv) as [Hr Hp]. specialize (IH _ Hr).
  destruct (knob_command avg (shown_speed v)) eqn:Ek.
  - destruct Hp as [Hp|Hp]; [done|lia].
  - unfold knob_round in IH |- *. rewrite Ek in IH |- *. cbn [server_speed] in IH |- *. lia.
Qed.

(** C13: The railway in the loop does what the hand on the knob asks for: both
    sides agree about the table and nothing is under way, the knob is held
    still for ten readings, the direction switch stays where it is.  A round is
    a reading of the knob and the turn of the connection thread before the next
    reading: a command when one is queued, else nothing or, when its two
    seconds are over, a PING ([ws] says in which rounds; the battery queries of
    the view are left out).  Then 51 or more rounds of reading, sending over the
    socket, executing and answering on the server and applying the answer on
    the controller all succeed, the two sides agree again, the speed shown is
    within 5 of the knob, and at most 51 commands have reached the driver (here
    one that records what it is asked), all for the selected locomotive and
    none of them an emergency stop.  In any further rounds PINGs are answered,
    the speed stays and nothing reaches the driver any more. *)
Theorem system_settles i dir v s c analog last ws :
  railway addrs i dir v s c -> 0 <= v <= 255 -> 0 <= analog <= 4095 -> length last = 10%nat -> (51 <= length ws)%nat ->
  let avg := (readings 10 analog last).2 in
  let rounds ws := loop_rounds clientID readFile timeout ctimeout (length addrs) ws avg dir in
  exists s' c' v' m, rounds ws (s, c) = (Ok tt, (s', c')) /\ railway addrs i dir v' s' c' /\
    Z.abs (analog * 255 / 4095 - shown_speed v') < 5 /\
    calls (ct_hw s') = calls (ct_hw s) ++ repeat (CallSendLoco (Z.of_nat i) false) m /\ (m <= 51)%nat /\
    forall ws', exists s'' c'', rounds ws' (s', c') = (Ok tt, (s'', c'')) /\ railway addrs i dir v' s'' c'' /\
      calls (ct_hw s'') = calls (ct_hw s').
Proof.
  intros R Hv Han Hl Hn avg rounds. destruct (readings_settle analog last Han Hl) as [Hr Ha].
  assert (avg = analog * 255 / 4095) as Hav by (unfold avg; by rewrite Hr). rewrite <- Hav in *.
  destruct (railway_rounds ws i dir avg Ha v s c R Hv) as (s' & c' & E & R' & C).
  destruct (knob_settles_at avg v (length ws) Ha Hv Hn) as (Hv' & Hk & Hd).
  exists s', c', (Nat.iter (length ws) (knob_round avg) v), (knob_calls (length ws) avg v).
  split_and!; [exact E|exact R'|exact Hd|exact C|by apply knob_calls_bound|].
  intros ws'. by apply (loop_rounds_quiet ws' i dir _ avg); [|apply Hv'|].
Qed.
End round.

(** ** A small railway *)

Definition first_status : list FBTCtlMessage := [status_entry 3 1 5; status_entry 12 1 1].

(** the two locomotives of [sample_table], after the first status reply *)
Definition sample_server : CT Recorder TCPClient :=
  (setLokStatus (Msg 8 (data_struct_t [])) (sample_thread sample_table)).2.
Definition sample_handheld : Control TCPClient :=
  with_client (handle_status (status_reply first_status) sample_control).2 (Some (sample_socket [])).

Lemma sample_railway : railway [3; 12] 0 1 0 sample_server sample_handheld.
Proof.
  destruct (handle_delta [3; 12] (Msg 8 (data_struct_t [])) first_status (locos sample_table) (repeat nothing_sent 2)
    sample_control sample_copy) as (tc & sts & Hh & Hc & Hst & Hsh); [done| |done| |done| |vm_compute; reflexivity|].
  - split; [|split; [apply (bool_decide_eq_true_1 (NoDup [3; 12])); vm_compute; reflexivity|done]].
    exists lokdef0. split; [|done]. apply list_elem_of_lookup. by exists 2%nat.
  - repeat constructor; cbn; lia.
  - repeat constructor; by left.
  - assert (co_lokdef sample_handheld = Some tc) as Htc.
    { unfold sample_handheld. change (co_lokdef (handle_status (status_reply first_status) sample_control).2 = Some tc).
      unfold status_reply. rewrite Hh. done. }
    destruct sample_table_ok as [T L C N].
    split; [by split|apply Hc|cbn; lia| |by eexists|by repeat constructor|by eexists|by eexists|done..|].
    + repeat constructor; try (cbn; unfold is_int32; lia); try (vm_compute; discriminate); vm_compute; tauto.
    + exists tc. split_and!; [done..|]. exists sts. split_and!; [done| |done].
      eapply statuses_unique; [exact Hst|]. repeat constructor.
Qed.

(** 60 rounds, every third of them after two seconds of waiting *)
Definition sample_waits : list bool := mjoin (repeat [false; false; true] 20).

Lemma system_settles_witness :
  exists s' c' v' m, loop_rounds 1 (fun _ => Err (Throw "no file")) 10 10 2 sample_waits 136 1 (sample_server, sample_handheld) =
      (Ok tt, (s', c')) /\ railway [3; 12] 0 1 v' s' c' /\ Z.abs (2200 * 255 / 4095 - shown_speed v') < 5 /\
    calls (ct_hw s') = [] ++ repeat (CallSendLoco (Z.of_nat 0) false) m /\ (m <= 51)%nat /\
    forall ws', exists s'' c'', loop_rounds 1 (fun _ => Err (Throw "no file")) 10 10 2 ws' 136 1 (s', c') = (Ok tt, (s'', c'')) /\
      railway [3; 12] 0 1 v' s'' c'' /\ calls (ct_hw s'') = calls (ct_hw s').
Proof.
  exact (system_settles 1 (fun _ => Err (Throw "no file")) 10 10 [3; 12] 0 1 0 sample_server sample_handheld 2200 (repeat 0 10)
    sample_waits sample_railway ltac:(lia) ltac:(lia) eq_refl ltac:(vm_compute; lia)).
Defined.
