(* ===== verification/Thread.v ===== *)
(** * bluetoothserver/Thread.cpp: thread objects

    [class Thread] as the ESP32 builds it (cancellation through a flag), with
    the threads the system runs for one object.  Caller and threads interleave:
    every access of a thread to the object is a step of its own. *)

From S2P Require Import Prelude.

(** ** The object *)

(** [thread] is 0 or the number of a thread of the system; [cancelstate] is not
    initialised before the first start *)
Record Thread : Type := mkThread {
  thread : nat;
  exited : bool;
  autodelete : bool;
  cancelstate : option bool;
}.
Definition Thread0 : Thread := mkThread 0 false false None.

(** [Thread::isRunning] *)
Definition isRunning (t : Thread) : bool := negb (thread t =? 0)%nat && negb (exited t).

(** where a thread of the system is in [startupThread]: in front of
    [t->exited=false], in [run()], behind [t->exited=true], returned *)
Inductive phase : Type := Created | Running | Done | Gone.
#[global] Instance phase_eq_dec : EqDecision phase.
Proof. solve_decision. Defined.

(** the object ([None] when it is deleted), its threads, and whether the caller
    waits in [pthread_join] *)
Record Sys : Type := mkSys {
  obj : option Thread;
  os : list phase;
  joining : bool;
}.
Definition Sys0 : Sys := mkSys (Some Thread0) [] false.

Inductive action : Type :=
  (* the caller *)
  | Start (create_ok : bool)
  | Cancel (join : bool)
  | JoinDone
  | SetAutodelete
  | Delete
  (* thread number [i] *)
  | Enter (i : nat)
  | TestCancel (i : nat)
  | Finish (i : nat)
  | Reap (i : nat).

Definition deref (s : Sys) : outcome Thread :=
  match obj s with Some t => Ok t | None => Err (UB "the object is deleted") end.

(** the caller is not blocked *)
Definition caller (s : Sys) (c : outcome Sys) : option (outcome Sys) := if joining s then None else Some c.

(** [Thread::start]; the attribute object and the stack size have no effect here *)
Definition start (create_ok : bool) (s : Sys) : outcome Sys :=
  t ← deref s;
  if isRunning t then Err (Throw "Thread::start() => thread already running!")
  else if negb create_ok then Err (Throw "error pthread_create")
  else Ok (mkSys (Some (mkThread (S (length (os s))) (exited t) (autodelete t) (Some false))) (os s ++ [Created]) (joining s)).

(** [Thread::cancel] up to [pthread_join] *)
Definition cancel (join : bool) (s : Sys) : outcome Sys :=
  t ← deref s;
  if (thread t =? 0)%nat then Err (Throw "thread not started")
  else Ok (mkSys (Some (mkThread (if join then thread t else 0%nat) (exited t) (autodelete t) (Some true))) (os s) join).

(** [pthread_join] returns when the thread has returned *)
Definition join_done (s : Sys) : option (outcome Sys) :=
  if joining s then
    match obj s with
    | None => Some (Err (UB "the object is deleted"))
    | Some t =>
        match os s !! pred (thread t) with
        | Some Gone => Some (Ok (mkSys (Some (mkThread 0 (exited t) (autodelete t) (cancelstate t))) (os s) false))
        | _ => None
        end
    end
  else None.

(** a step of thread [i]: from one phase to the next, with an access to the object *)
Definition thread_step (i : nat) (from to : phase) (f : Thread -> option Thread) (s : Sys) : option (outcome Sys) :=
  if decide (os s !! i = Some from) then
    Some (t ← deref s; Ok (mkSys (f t) (<[i:=to]> (os s)) (joining s)))
  else None.
Definition set_exited (b : bool) (t : Thread) : Thread := mkThread (thread t) b (autodelete t) (cancelstate t).

(** [testcancel]: leaves [run] when the flag is set *)
Definition canceled (s : Sys) : bool :=
  match obj s with Some t => match cancelstate t with Some true => true | _ => false end | None => false end.

(** the result of an action; [None] when it cannot happen now *)
Definition tstep (a : action) (s : Sys) : option (outcome Sys) :=
  match a with
  | Start create_ok => caller s (start create_ok s)
  | Cancel join => caller s (cancel join s)
  | JoinDone => join_done s
  | SetAutodelete => caller s (t ← deref s; Ok (mkSys (Some (mkThread (thread t) (exited t) true (cancelstate t))) (os s) false))
  | Delete => caller s (deref s;; Ok (mkSys None (os s) false))
  | Enter i => thread_step i Created Running (fun t => Some (set_exited false t)) s
  | Finish i => thread_step i Running Done (fun t => Some (set_exited true t)) s
  | TestCancel i =>
      if decide (os s !! i = Some Running) then
        match obj s with
        | None => Some (Err (UB "the object is deleted"))
        | Some _ => if canceled s then thread_step i Running Done (fun t => Some (set_exited true t)) s else Some (Ok s)
        end
      else None
  | Reap i => thread_step i Done Gone (fun t => if autodelete t then None else Some t) s
  end.

(** a sequence of actions that all happen and return *)
Fixpoint run_actions (l : list action) (s : Sys) : option (outcome Sys) :=
  match l with
  | [] => Some (Ok s)
  | a :: l' =>
      match tstep a s with
      | Some (Ok s') => run_actions l' s'
      | r => r
      end
  end.

(** ** Callers that wait

    The caller waits until a new thread has entered before it starts or deletes
    anything, and cancels with [cancel(true)] only. *)
Definition careful (a : action) (s : Sys) : Prop :=
  match a with
  | Start _ => Created ∉ os s
  | Cancel join => join = true
  | SetAutodelete | Delete => False
  | _ => True
  end.

Inductive careful_reach : Sys -> Prop :=
  | creach_init : careful_reach Sys0
  | creach_step a s s' : careful_reach s -> careful a s -> tstep a s = Some (Ok s') -> careful_reach s'.

(** in [run()] or about to enter it *)
Definition active (p : phase) : Prop := p = Created \/ p = Running.
#[global] Instance active_dec p : Decision (active p).
Proof. unfold active. apply _. Defined.

Record thread_inv (t : Thread) (s : Sys) : Prop := mkInv {
  inv_obj : obj s = Some t;
  inv_keep : autodelete t = false;
  inv_last : thread t <> 0%nat -> thread t = length (os s);
  inv_active : forall i p, os s !! i = Some p -> active p -> thread t = S i;
  inv_running : Running ∈ os s -> exited t = false;
  inv_exited : thread t <> 0%nat -> exited t = false -> exists p, os s !! pred (thread t) = Some p /\ active p;
  inv_join : joining s = true -> thread t <> 0%nat;
}.

Lemma thread_inv_init : thread_inv Thread0 Sys0.
Proof. by split. Qed.

Lemma inv_idle t s i p : thread_inv t s -> isRunning t = false -> Created ∉ os s -> os s !! i = Some p -> ~ active p.
Proof.
  intros I R C E [->| ->]; [by apply C, list_elem_of_lookup_2 with i|].
  unfold isRunning in R. rewrite (inv_running _ _ I) in R by (by eapply list_elem_of_lookup_2).
  rewrite (inv_active _ _ I i Running E (or_intror eq_refl)) in R. done.
Qed.

Lemma inv_start t s : thread_inv t s -> isRunning t = false -> Created ∉ os s -> joining s = false ->
  let t' := mkThread (S (length (os s))) (exited t) (autodelete t) (Some false) in
  thread_inv t' (mkSys (Some t') (os s ++ [Created]) false).
Proof.
  intros I R C J. split; cbn; [done|apply I|by rewrite length_app, Nat.add_1_r| | | |done].
  - intros i p E A. apply lookup_app_Some in E as [E|[Hi E]]; [by destruct (inv_idle _ _ _ _ I R C E)|].
    apply list_lookup_singleton_Some in E as [Hz _]. lia.
  - intros [H|H%list_elem_of_singleton]%elem_of_app; [|done]. by apply (inv_running _ _ I).
  - intros _ _. exists Created. rewrite lookup_app_r, Nat.sub_diag by done. split; [done|by left].
Qed.

(** a step of a thread *)
Lemma inv_advance t t' s i from to : thread_inv t s -> os s !! i = Some from ->
  thread t' = thread t -> autodelete t' = false ->
  (active to -> active from) -> (to = Running -> exited t' = false) ->
  (~ active from -> exited t' = exited t) -> (active from -> ~ active to -> exited t' = true) ->
  thread_inv t' (mkSys (Some t') (<[i:=to]> (os s)) (joining s)).
Proof.
  intros I E Ht Ha Hact Hrun Hsame Hdone. split; cbn; [done|done|rewrite length_insert, Ht; apply I| | | |rewrite Ht; apply I].
  - intros j p Ej A. rewrite Ht. apply list_lookup_insert_Some in Ej as [(-> & -> & _)|[_ Ej]]; [|by apply (inv_active _ _ I _ _ Ej)].
    by apply (inv_active _ _ I _ _ E), Hact.
  - intros (j & Ej)%list_elem_of_lookup. apply list_lookup_insert_Some in Ej as [(-> & Hr & _)|[Hne Ej]]; [by apply Hrun|].
    pose proof (inv_active _ _ I _ _ Ej (or_intror eq_refl)) as Hj. destruct (decide (active from)) as [A|A].
    + exfalso. pose proof (inv_active _ _ I _ _ E A). lia.
    + rewrite (Hsame A). by apply (inv_running _ _ I), list_elem_of_lookup_2 with j.
  - rewrite Ht. intros H0 Hx. destruct (decide (active from)) as [A|A].
    + pose proof (inv_active _ _ I _ _ E A) as Hi. rewrite Hi. exists to. change (pred (S i)) with i.
      rewrite list_lookup_insert_eq by (by eapply lookup_lt_Some). split; [done|].
      destruct (decide (active to)) as [B|B]; [done|]. rewrite (Hdone A B) in Hx. done.
    + rewrite (Hsame A) in Hx. destruct (inv_exited _ _ I H0 Hx) as (p & Ep & Ap). exists p.
      rewrite list_lookup_insert_ne; [done|]. intros Heq. rewrite <- Heq in Ep. congruence.
Qed.

(** steps of threads, and cancellation of the object's thread *)
Lemma inv_thread_step t s i from to f s' : thread_inv t s -> thread_step i from to f s = Some (Ok s') ->
  (forall t', f t = Some t' -> thread t' = thread t /\ autodelete t' = false /\ (to = Running -> exited t' = false) /\
     (~ active from -> exited t' = exited t) /\ (active from -> ~ active to -> exited t' = true)) ->
  (active to -> active from) -> f t <> None -> exists t', thread_inv t' s'.
Proof.
  intros I E Hf Hact Hsome. unfold thread_step in E. case_decide as Hi; [|done]. unfold Thread.deref in E. rewrite (inv_obj _ _ I) in E. cbn in E.
  injection E as <-. destruct (f t) as [t'|] eqn:Et; [|done]. destruct (Hf t' eq_refl) as (H1 & H2 & H3 & H4 & H5).
  exists t'. by eapply inv_advance.
Qed.

Lemma inv_finish t s i s' : thread_inv t s -> thread_step i Running Done (fun t => Some (set_exited true t)) s = Some (Ok s') ->
  exists t', thread_inv t' s'.
Proof.
  intros I E. eapply inv_thread_step; [exact I|exact E| | |done].
  - intros t' [= <-]. cbn. split_and!; try done; [apply I|]. intros H. destruct H. by right.
  - intros [|]; done.
Qed.

Lemma inv_step t s a s' : thread_inv t s -> careful a s -> tstep a s = Some (Ok s') -> exists t', thread_inv t' s'.
Proof.
  intros I C E. pose proof (inv_obj _ _ I) as O. destruct a as [ok|join| | | |i|i|i|i]; cbn [tstep careful] in *; try done.
  - unfold caller, start, Thread.deref in E. destruct (joining s) eqn:J; [done|]. rewrite O in E. cbn in E.
    destruct (isRunning t) eqn:R; [done|]. destruct ok; [|done]. cbn in E. injection E as <-. eexists. by apply inv_start.
  - subst join. unfold caller, cancel, Thread.deref in E. destruct (joining s) eqn:J; [done|]. rewrite O in E. cbn in E.
    destruct (Nat.eqb_spec (thread t) 0); [done|]. injection E as <-. eexists. destruct I. by split.
  - unfold join_done in E. destruct (joining s) eqn:J; [|done]. rewrite O in E. destruct (os s !! pred (thread t)) as [[]|] eqn:G; try done.
    injection E as <-. pose proof (inv_join _ _ I J) as H0. eexists. split; cbn; [done|apply I|done| | |done|done].
    + intros i p Ei A. exfalso. pose proof (inv_active _ _ I i p Ei A) as Hi. rewrite Hi in G. cbn in G.
      destruct A as [-> | ->]; congruence.
    + apply I.
  - eapply inv_thread_step; [exact I|exact E| | |done].
    + intros t' [= <-]. cbn. split_and!; try done; [apply I|intros H; destruct H; by left|intros _ H; destruct H; by right].
    + intros _. by left.
  - case_decide as Hi; [|done]. rewrite O in E. destruct (canceled s); [by eapply inv_finish|]. injection E as <-. by exists t.
  - by eapply inv_finish.
  - eapply inv_thread_step; [exact I|exact E| | |].
    + cbv beta. rewrite (inv_keep _ _ I). intros t' [= <-]. split_and!; try done; [apply I|by intros [|]].
    + by intros [|].
    + cbv beta. by rewrite (inv_keep _ _ I).
Qed.

Lemma careful_inv s : careful_reach s -> exists t, thread_inv t s.
Proof.
  induction 1 as [|a s s' _ [t I] C E]; [exists Thread0; apply thread_inv_init|]. by eapply inv_step.
Qed.

(** no action of a careful caller, and no step of a thread, touches a deleted object *)
Lemma careful_no_ub t s a e : thread_inv t s -> careful a s -> tstep a s = Some (Err e) -> exists w, e = Throw w.
Proof.
  intros I C E. pose proof (inv_obj _ _ I) as O.
  destruct a as [ok|join| | | |i|i|i|i]; cbn [tstep careful] in *; try done;
    unfold caller, start, cancel, join_done, thread_step, Thread.deref in E; rewrite O in E; cbn in E;
    repeat (case_match || case_decide); simplify_eq; eauto.
Qed.

(** ** Properties *)

(** C29: A caller that waits for a new thread to enter before it starts
    another one, and that cancels with join, never has two threads in [run()]
    of one object; [isRunning] tells whether there is one, a second [start] is
    refused exactly then, and nothing touches a deleted object. *)
Theorem thread_exclusive s : careful_reach s ->
  (forall i j p q, os s !! i = Some p -> os s !! j = Some q -> active p -> active q -> i = j) /\
  (forall a e, careful a s -> tstep a s = Some (Err e) -> exists w, e = Throw w) /\
  exists t, obj s = Some t /\
    (Created ∉ os s -> (isRunning t = true <-> Running ∈ os s) /\
                       (joining s = false -> (exists s', tstep (Start true) s = Some (Ok s')) <-> Running ∉ os s)).
Proof.
  intros [t I]%careful_inv. split_and!.
  - intros i j p q Ei Ej Ap Aq. pose proof (inv_active _ _ I i p Ei Ap). pose proof (inv_active _ _ I j q Ej Aq). lia.
  - intros a e. by apply careful_no_ub with t.
  - exists t. split; [apply I|]. intros C. assert (isRunning t = true <-> Running ∈ os s) as R.
    { split.
      - unfold isRunning. rewrite andb_true_iff, !negb_true_iff, Nat.eqb_neq. intros [H0 Hx].
        destruct (inv_exited _ _ I H0 Hx) as (p & Ep & [-> | ->]); [|by eapply list_elem_of_lookup_2].
        exfalso. by apply C, list_elem_of_lookup_2 with (pred (thread t)).
      - intros (i & Ei)%list_elem_of_lookup. destruct (isRunning t) eqn:E; [done|].
        destruct (inv_idle _ _ _ _ I E C Ei). by right. }
    split; [done|]. intros J. cbn. unfold caller, start, Thread.deref. rewrite J, (inv_obj _ _ I). cbn.
    destruct (isRunning t) eqn:E; cbn.
    + split; [by intros []|]. intros N. destruct N. by apply R.
    + split; [|by eexists]. intros _ N. apply R in N. done.
Qed.

#[global] Instance careful_dec a s : Decision (careful a s).
Proof. destruct a; cbn; apply _. Defined.

(** a sequence of careful actions *)
Fixpoint careful_run (l : list action) (s : Sys) : option Sys :=
  match l with
  | [] => Some s
  | a :: l' =>
      if decide (careful a s) then match tstep a s with Some (Ok s') => careful_run l' s' | _ => None end else None
  end.
Lemma careful_run_reach l s s' : careful_reach s -> careful_run l s = Some s' -> careful_reach s'.
Proof.
  revert s. induction l as [|a l IH]; intros s R E; cbn in E; [by injection E as <-|].
  case_decide as C; [|done]. destruct (tstep a s) as [[s1|]|] eqn:Ea; try done.
  apply (IH s1); [|done]. by eapply creach_step.
Qed.

(** a thread that ran once and runs again *)
Definition second_run : Sys := mkSys (Some (mkThread 2 false false (Some false))) [Gone; Running] false.
Lemma second_run_reach : careful_reach second_run.
Proof.
  apply (careful_run_reach [Start true; Enter 0; Finish 0; Reap 0; Start true; Enter 1] Sys0); [apply creach_init|].
  vm_compute. reflexivity.
Qed.

Lemma thread_exclusive_witness :
  exists t, obj second_run = Some t /\
    (Created ∉ os second_run -> (isRunning t = true <-> Running ∈ os second_run) /\
       (joining second_run = false -> (exists s', tstep (Start true) second_run = Some (Ok s')) <-> Running ∉ os second_run)).
Proof. exact (proj2 (proj2 (thread_exclusive second_run second_run_reach))). Defined.

(** [cancel(true)] stops a running thread: after the thread has passed
    [testcancel] and returned, the join returns, no thread of the object is in
    [run()], [isRunning] is false and the object can be started again. *)
Theorem cancel_stops s t i : careful_reach s -> obj s = Some t -> joining s = false -> os s !! i = Some Running ->
  exists s' t', run_actions [Cancel true; TestCancel i; Reap i; JoinDone] s = Some (Ok s') /\
    obj s' = Some t' /\ isRunning t' = false /\ joining s' = false /\
    (forall j p, os s' !! j = Some p -> ~ active p) /\
    exists s'', tstep (Start true) s' = Some (Ok s'').
Proof.
  intros R O J Ei. destruct (careful_inv s R) as [t0 I]. assert (t0 = t) as -> by (pose proof (inv_obj _ _ I); congruence).
  pose proof (inv_active _ _ I i Running Ei (or_intror eq_refl)) as Ht.
  pose proof (lookup_lt_Some _ _ _ Ei) as Hlen. cbn [run_actions tstep].
  unfold caller, cancel, Thread.deref. rewrite J, O. cbn [mbind outcome_bind]. rewrite Ht. cbn [Nat.eqb].
  cbn [os obj]. rewrite decide_True by done. unfold canceled. cbn [obj cancelstate].
  unfold thread_step at 1. cbn [os]. rewrite decide_True by done. unfold Thread.deref. cbn [obj mbind outcome_bind joining].
  unfold thread_step. cbn [os]. rewrite list_lookup_insert_eq by done. rewrite decide_True by done.
  unfold Thread.deref. cbn [obj mbind outcome_bind joining set_exited autodelete thread cancelstate exited].
  rewrite (inv_keep _ _ I), list_insert_insert_eq. unfold join_done. cbn [joining obj thread os Init.Nat.pred].
  rewrite list_lookup_insert_eq by done. eexists _, _. split; [done|]. cbn [obj joining os].
  split; [done|]. split; [done|]. split; [done|]. split; [|by eexists].
  intros j p Ej A. apply list_lookup_insert_Some in Ej as [(_ & <- & _)|[Hne Ej]]; [by destruct A|].
  pose proof (inv_active _ _ I j p Ej A). lia.
Qed.

Lemma cancel_stops_witness :
  exists s' t', run_actions [Cancel true; TestCancel 1; Reap 1; JoinDone] second_run = Some (Ok s') /\
    obj s' = Some t' /\ isRunning t' = false /\ joining s' = false /\
    (forall j p, os s' !! j = Some p -> ~ active p) /\
    exists s'', tstep (Start true) s' = Some (Ok s'').
Proof. exact (cancel_stops second_run (mkThread 2 false false (Some false)) 1 second_run_reach eq_refl eq_refl eq_refl). Defined.

(** ** Callers that do not wait *)

(** [start] does not clear [exited], the new thread does: between the two
    [isRunning] is false, and a second [start] gives two threads in [run()]. *)
Example restart_race :
  run_actions [Start true; Enter 0; Finish 0; Reap 0; Start true; Start true; Enter 1; Enter 2] Sys0 =
    Some (Ok (mkSys (Some (mkThread 3 false false (Some false))) [Gone; Running; Running] false)).
Proof. reflexivity. Qed.

(** in the same gap [if(isRunning()) cancel(true)] does nothing, and the next
    [start] throws *)
Example restart_not_cancelled :
  exists s t, run_actions [Start true; Enter 0; Finish 0; Reap 0; Start true] Sys0 = Some (Ok s) /\
    obj s = Some t /\ isRunning t = false /\
    run_actions [Enter 1; Start true] s = Some (Err (Throw "Thread::start() => thread already running!")).
Proof. by eexists _, _. Qed.

(** an object deleted after [isRunning] became false: the thread still reads
    [autodelete] *)
Example deleted_under_thread :
  exists s t, run_actions [Start true; Enter 0; Finish 0] Sys0 = Some (Ok s) /\ obj s = Some t /\ isRunning t = false /\
    run_actions [Delete; Reap 0] s = Some (Err (UB "the object is deleted")).
Proof. by eexists _, _. Qed.
